(** * Relationship-graph construction of venn-demo: src/utils/chartOptions.js

    A shallow embedding of [calculateSymbolSize], [getMainGraphData] (the
    circular builder), [getVennNetworkLayout] (the Venn builder) and
    [getChartOptions] (the hover highlight), followed by the properties that
    hold of them.

    Conventions of the embedding.
    - JavaScript strings are [string]s of ASCII characters; [toLowerCase] maps
      the letters A-Z to a-z and leaves every other character alone, and the
      default order of [Array.prototype.sort] on strings is [String.leb].
    - An absent ([undefined]) or [null] field is [None]: the builders read the
      platform and the table count of a record through [||], [?.] or a method
      call, which treat the two alike.  The application names are the
      exception, since the Venn builder compares them with [===], which tells
      [undefined] from [null]: a name field is a [Nullable].  A field that is
      present has the type the data model gives it (a string or an integer).
    - Table counts are integers ([Z]).  Where the source feeds a count to
      floating-point arithmetic ([Math.log], divisions, [Math.cos]) the
      embedding computes in the real numbers; [Math.log] of a number that is
      not positive (which JavaScript makes [-Infinity] or [NaN]) is whatever
      [ln] is there, and no statement below depends on it: a statement about
      a value computed with [Math.log] assumes that the count it is computed
      from is not negative, unless the source guards the call itself.
    - [Math.random()] is an oracle [rnd : nat -> R]; the builders thread the
      number of draws made so far.
    - A [throw] is the [Throw] constructor of [result].
    - An object read as a map ([colorMap], [platformConnectionCounts]) is read
      for its own keys only.
    - The [label] and [tooltip] sub-objects, which are constant decoration that
      nothing reads back, are left out of the node and link records. *)

From Stdlib Require Import List String Ascii Bool ZArith Arith Lia.
From Stdlib Require Import Permutation Sorted.
From Stdlib Require Import Reals Lra.
Import ListNotations.

Local Open Scope string_scope.
Local Open Scope list_scope.

(** ** JavaScript helpers *)

Module Js.

(** [c.toLowerCase()] on one ASCII character. *)
Definition lowerAscii (c : ascii) : ascii :=
  let n := nat_of_ascii c in
  if ((65 <=? n) && (n <=? 90))%nat then ascii_of_nat (n + 32) else c.

(** [s.toLowerCase()]. *)
Fixpoint toLowerCase (s : string) : string :=
  match s with
  | EmptyString => EmptyString
  | String c s' => String (lowerAscii c) (toLowerCase s')
  end.

(** [hay.includes(needle)]. *)
Fixpoint includes (needle hay : string) : bool :=
  String.prefix needle hay
  || match hay with
     | EmptyString => false
     | String _ hay' => includes needle hay'
     end.

(** Truthiness of an optional string: absent and the empty string are falsy. *)
Definition truthy (o : option string) : bool :=
  match o with
  | Some EmptyString | None => false
  | Some _ => true
  end.

(** [o || d] for an optional string [o] and a string default [d]. *)
Definition orString (o : option string) (d : string) : string :=
  match o with
  | Some EmptyString | None => d
  | Some s => s
  end.

(** [o || 0] for an optional integer. *)
Definition orZero (o : option Z) : Z :=
  match o with
  | Some z => z
  | None => 0%Z
  end.

(** A field that the code compares with [===]: absent ([undefined]), [null],
    or a value. *)
Inductive Nullable (A : Type) : Type :=
| Undefined
| Null
| Value (a : A).
Arguments Undefined {A}.
Arguments Null {A}.
Arguments Value {A} a.

(** What [||], [?.] and truthiness see of such a field. *)
Definition present {A : Type} (v : Nullable A) : option A :=
  match v with
  | Value a => Some a
  | Undefined | Null => None
  end.

(** A field given by an optional value: absent when there is none. *)
Definition ofOption {A : Type} (o : option A) : Nullable A :=
  match o with
  | Some a => Value a
  | None => Undefined
  end.

(** [a === b] on two string fields. *)
Definition strictEq (a b : Nullable string) : bool :=
  match a, b with
  | Value s, Value t => (s =? t)%string
  | Undefined, Undefined | Null, Null => true
  | _, _ => false
  end.

(** [o?.toLowerCase()]. *)
Definition optLower (o : option string) : option string :=
  option_map toLowerCase o.

(** Outcome of a call that may throw. *)
Inductive exn : Type := TypeError.

Inductive result (A : Type) : Type :=
| Ok (a : A)
| Throw (e : exn).
Arguments Ok {A} a.
Arguments Throw {A} e.

(** [arr.forEach((a, index) => ...)] over a state [St], starting at index [i]. *)
Fixpoint forEachFrom {A St : Type} (f : St -> A -> nat -> St) (i : nat)
    (l : list A) (s : St) : St :=
  match l with
  | [] => s
  | a :: l' => forEachFrom f (S i) l' (f s a i)
  end.

Definition forEach {A St : Type} (f : St -> A -> nat -> St) (l : list A) (s : St) : St :=
  forEachFrom f 0 l s.

(** [arr.sort(cmp)] is stable; for a comparator that orders by a key the
    stable result is unique, and insertion from the right computes it.
    [le a b] stands for [cmp(a, b) <= 0]. *)
Fixpoint insertBy {A : Type} (le : A -> A -> bool) (x : A) (l : list A) : list A :=
  match l with
  | [] => [x]
  | y :: l' => if le x y then x :: y :: l' else y :: insertBy le x l'
  end.

Fixpoint sortBy {A : Type} (le : A -> A -> bool) (l : list A) : list A :=
  match l with
  | [] => []
  | x :: l' => insertBy le x (sortBy le l')
  end.

(** A [Set] of strings in insertion order. *)
Definition setAdd (s : list string) (x : string) : list string :=
  if existsb (String.eqb x) s then s else s ++ [x].

End Js.

Import Js.

(** ** Input records *)

Record SourceRow : Type := {
  s_data_platform : option string;
  source_application_name : Nullable string;
  source_table_count : option Z
}.

Record DownstreamRow : Type := {
  d_data_platform : option string;
  downstream_application_name : Nullable string;
  share_to_downstream_table_count : option Z
}.

(** ** Graph records *)

Inductive NodeType : Type := dataplatform | source | downstream | mixed.

Definition NodeType_eqb (a b : NodeType) : bool :=
  match a, b with
  | dataplatform, dataplatform | source, source
  | downstream, downstream | mixed, mixed => true
  | _, _ => false
  end.

(** The [tables] property of a node: platform nodes have none ([undefined]);
    adding a number to [undefined] gives [NaN]. *)
Inductive Tables : Type := TUndefined | TNaN | TNum (z : Z).

Definition addTables (t : Tables) (z : Z) : Tables :=
  match t with
  | TNum a => TNum (a + z)
  | TUndefined | TNaN => TNaN
  end.

Record ItemStyle : Type := {
  color : string;
  borderWidth : option R;
  borderColor : option string;
  opacity : option R
}.

Record Node : Type := {
  id : string;
  name : string;
  tables : Tables;
  type : NodeType;
  dataPlatform : option string;
  isMixed : option bool;
  x : R;
  y : R;
  symbolSize : R;
  itemStyle : ItemStyle
}.

Inductive LineType : Type := solid | dashed.

Record LineStyle : Type := {
  l_color : string;
  width : R;
  l_type : LineType;
  l_opacity : option R;
  curveness : R
}.

(** A link end is an id, or (after a renderer resolved it) a node object, or
    [null]. *)
Inductive Endpoint : Type :=
| EpId (i : string)
| EpObj (n : Node)
| EpNull.

Record Link : Type := {
  l_source : Endpoint;
  l_target : Endpoint;
  value : Z;
  lineStyle : option LineStyle
}.

Record Graph : Type := {
  nodes : list Node;
  links : list Link
}.

(** The color map: [colorMap[key]]. *)
Definition ColorMap : Type := string -> option string.

(** [defaultColorMap]. *)
Definition defaultColorMap : ColorMap := fun k =>
  if k =? "data warehouse" then Some "#5470c6"
  else if k =? "data lake" then Some "#91cc75"
  else if k =? "stream processing" then Some "#fac858"
  else if k =? "big data platform" then Some "#ee6666"
  else if k =? "unknown" then Some "#73c0de"
  else if k =? "source" then Some "#34A853"
  else if k =? "downstream" then Some "#EA4335"
  else if k =? "mixed" then Some "#AA46BC"
  else if k =? "dataplatform" then Some "#4285F4"
  else None.

(** ** Geometry helpers *)

Local Open Scope R_scope.

(** [calculateSymbolSize]. *)
Definition calculateSymbolSize (value : R) : R :=
  if Rle_dec value 0 then 20
  else Rmin 100 (Rmax 20 (ln value * 8)).

(** [getCircularPosition]. *)
Definition getCircularPosition (index total : nat) (radius centerX centerY : R) : R * R :=
  let angle := INR index / INR total * 2 * PI + PI / INR total in
  (centerX + radius * cos angle, centerY + radius * sin angle).

(** [getSectorPosition]. *)
Definition getSectorPosition (index total : nat) (radius centerX centerY startAngle endAngle : R)
  : R * R :=
  let angle := startAngle + INR index / INR (Nat.max total 1) * (endAngle - startAngle) in
  (centerX + radius * cos angle, centerY + radius * sin angle).

(** [Math.atan2(y, x)]. *)
Definition atan2 (y x : R) : R :=
  if Rlt_dec 0 x then atan (y / x)
  else if Rlt_dec x 0 then
    (if Rle_dec 0 y then atan (y / x) + PI else atan (y / x) - PI)
  else if Rlt_dec 0 y then PI / 2
  else if Rlt_dec y 0 then - (PI / 2)
  else 0.

(** ** The node registry shared by both builders

    [nodes] is the array of node objects and [nodeMap] maps an id to the very
    same object, so a write through [nodeMap.get(k)] is seen in [nodes].  Every
    [nodes.push(n)] is paired with [nodeMap.set(n.id, n)], hence [nodeMap] is
    the array read by id, and a write through it is a write to the array
    element with that id. *)

Definition nodeMap_has (k : string) (ns : list Node) : bool :=
  existsb (fun n => id n =? k)%string ns.

Definition nodeMap_get (k : string) (ns : list Node) : option Node :=
  find (fun n => id n =? k)%string ns.

Definition updateNode (k : string) (f : Node -> Node) (ns : list Node) : list Node :=
  map (fun n => if (id n =? k)%string then f n else n) ns.

(** [existingNode.tables += count]. *)
Definition bumpTables (count : Z) (n : Node) : Node :=
  {| id := id n; name := name n; tables := addTables (tables n) count;
     type := type n; dataPlatform := dataPlatform n; isMixed := isMixed n;
     x := x n; y := y n; symbolSize := symbolSize n; itemStyle := itemStyle n |}.

(** [if (existingNode.type === 'source') { type = 'mixed'; isMixed = true;
    itemStyle = {...itemStyle, color: mixedColor} }]. *)
Definition promoteMixed (mixedColor : string) (n : Node) : Node :=
  match type n with
  | source =>
      {| id := id n; name := name n; tables := tables n;
         type := mixed; dataPlatform := dataPlatform n; isMixed := Some true;
         x := x n; y := y n; symbolSize := symbolSize n;
         itemStyle := {| color := mixedColor;
                         borderWidth := borderWidth (itemStyle n);
                         borderColor := borderColor (itemStyle n);
                         opacity := opacity (itemStyle n) |} |}
  | _ => n
  end.

(** The object literal of a platform node (both builders). *)
Definition regionNode (colorMap : ColorMap) (dataPlatform : string) (px py : R) : Node :=
  {| id := dataPlatform; name := dataPlatform; tables := TUndefined;
     type := dataplatform; dataPlatform := None; isMixed := None;
     x := px; y := py; symbolSize := 120;
     itemStyle := {| color := orString (colorMap (toLowerCase dataPlatform)) "#4285F4";
                     borderWidth := None; borderColor := None; opacity := None |} |}.

(** The object literal of an entity node. *)
Definition entityNode (uniqueKey appName : string) (count : Z) (ty : NodeType)
    (dp : string) (px py : R) (fill : string) : Node :=
  {| id := uniqueKey; name := appName; tables := TNum count;
     type := ty; dataPlatform := Some dp; isMixed := Some false;
     x := px; y := py; symbolSize := calculateSymbolSize (IZR count);
     itemStyle := {| color := fill;
                     borderWidth := None; borderColor := None; opacity := None |} |}.

(** The first loops of both builders: the [Set] of lower-cased platform names,
    sources first, then downstreams. *)
Definition collectPlatforms (sourceEntityList : list SourceRow)
    (downstreamEntityList : list DownstreamRow) : list string :=
  let s1 := fold_left (fun s row => setAdd s (toLowerCase (orString (s_data_platform row) "Unknown")))
              sourceEntityList [] in
  fold_left (fun s row => setAdd s (toLowerCase (orString (d_data_platform row) "Unknown")))
    downstreamEntityList s1.

(** [row?.['data_platform']?.toLowerCase() || 'Unknown']: the platform key
    under which both builders look a row up. *)
Definition sourceGroupKey (row : SourceRow) : string :=
  orString (optLower (s_data_platform row)) "Unknown".

Definition downstreamGroupKey (row : DownstreamRow) : string :=
  orString (optLower (d_data_platform row)) "Unknown".

(** [[...list].sort((a, b) => (b.count || 0) - (a.count || 0))]. *)
Definition sortSources (l : list SourceRow) : list SourceRow :=
  sortBy (fun a b => (orZero (source_table_count b) <=? orZero (source_table_count a))%Z) l.

Definition sortDownstreams (l : list DownstreamRow) : list DownstreamRow :=
  sortBy (fun a b => (orZero (share_to_downstream_table_count b)
                      <=? orZero (share_to_downstream_table_count a))%Z) l.

(** [[a, b].sort().join('-')]. *)
Definition connectionKey (a b : string) : string :=
  if String.leb a b then (a ++ "-" ++ b)%string else (b ++ "-" ++ a)%string.

(** A [Map] (or an object used as one) with string keys, in insertion order:
    [m.get(k)], [m.has(k)] and [m.set(k, v)]. *)
Definition Amap (V : Type) : Type := list (string * V).

Definition aget {V : Type} (k : string) (m : Amap V) : option V :=
  option_map snd (find (fun e => fst e =? k)%string m).

Definition ahas {V : Type} (k : string) (m : Amap V) : bool :=
  existsb (fun e => fst e =? k)%string m.

Definition aset {V : Type} (k : string) (v : V) (m : Amap V) : Amap V :=
  if ahas k m then map (fun e => if (fst e =? k)%string then (k, v) else e) m
  else m ++ [(k, v)].

(** [dataPlatformConnections]: connection key to connection object.  A write
    to the stored object is a rebinding of its key. *)
Definition Connections : Type := Amap Link.

(** ** The circular builder, [getMainGraphData] *)

Module Main.

Definition containerWidth : R := 1600.
Definition containerHeight : R := 900.
Definition margin : R := 40.
Definition centerX : R := containerWidth / 2.
Definition centerY : R := containerHeight / 2.
Definition radius : R := Rmin containerWidth containerHeight / 2 - margin * 6.

(** The state of the node and link loops: the [nodes] and [links] arrays. *)
Definition State : Type := (list Node * list Link)%type.

(** Body of [Array.from(dataplatformSet).forEach((dataPlatform, index) => ...)]. *)
Definition platformStep (colorMap : ColorMap) (size : nat) (ns : list Node)
    (dataPlatform : string) (index : nat) : list Node :=
  let pos := getCircularPosition index size (radius * 0.6) centerX centerY in
  let rn := regionNode colorMap dataPlatform (fst pos) (snd pos) in
  if negb (nodeMap_has dataPlatform ns) then ns ++ [rn] else ns.

Definition platformNodes (colorMap : ColorMap) (dataplatformSet : list string) : list Node :=
  forEach (platformStep colorMap (List.length dataplatformSet)) dataplatformSet [].

(** [regionNodeMap.get(dataPlatform)]: the map holds every platform node
    object, keyed by the platform name; only its coordinates are read. *)
Definition regionNodeMap_get (regionNodeMap : list Node) (dataPlatform : string) : option Node :=
  find (fun n => id n =? dataPlatform)%string regionNodeMap.

(** Position of a new entity node in the sector around its platform node. *)
Definition sectorPos (rn : Node) (layerRadius : R) (index total : nat) : R * R :=
  let angle := atan2 (y rn - centerY) (x rn - centerX) in
  let startAngle := angle - PI / 6 in
  let endAngle := angle + PI / 6 in
  getSectorPosition index total layerRadius centerX centerY startAngle endAngle.

Definition sourceLayerRadii : list R := [radius * 0.3; radius * 0.5; radius * 0.7].

Definition downstreamLayerRadii : list R :=
  [radius * 0.3; radius * 0.5; radius * 0.7; radius * 0.9; radius * 1.1].

(** The entity-platform link literal of the circular builder.  The width is
    [Math.max(1, Math.min(5, Math.log(count + 1)))]: for a count of -2 or less
    the logarithm and the width are [NaN], which the reals do not have, so
    the width is meant for counts that are not negative only. *)
Definition entityLink (src tgt : string) (count : Z) (fill : string) : Link :=
  {| l_source := EpId src; l_target := EpId tgt; value := count;
     lineStyle := Some {| l_color := fill;
                          width := Rmax 1 (Rmin 5 (ln (IZR count + 1)));
                          l_type := solid; l_opacity := Some 0.5; curveness := 0.2 |} |}.

(** Body of [sortedSourceEntityList.forEach((row, index) => ...)]. *)
Definition sourceStep (colorMap : ColorMap) (regionNodeMap : list Node) (total : nat)
    (st : State) (row : SourceRow) (index : nat) : State :=
  let '(ns, ls) := st in
  let sourceAppName := orString (present (source_application_name row)) "Unknown" in
  let sourceTableCount := orZero (source_table_count row) in
  let dataPlatform := sourceGroupKey row in
  let uniqueKey := toLowerCase sourceAppName in
  let ns' :=
    if nodeMap_has uniqueKey ns then updateNode uniqueKey (bumpTables sourceTableCount) ns
    else match regionNodeMap_get regionNodeMap dataPlatform with
         | Some rn =>
             let layerIndex := (index mod 3)%nat in
             let sourceRadius := nth layerIndex sourceLayerRadii 0 in
             let pos := sectorPos rn sourceRadius index total in
             ns ++ [entityNode uniqueKey sourceAppName sourceTableCount source dataPlatform
                      (fst pos) (snd pos) (orString (colorMap dataPlatform) "#91cc75")]
         | None => ns
         end in
  (ns', ls ++ [entityLink uniqueKey dataPlatform sourceTableCount
                 (orString (colorMap dataPlatform) "#91cc75")]).

(** Body of [sortedDownstreamEntityList.forEach((row, index) => ...)]. *)
Definition downstreamStep (colorMap : ColorMap) (regionNodeMap : list Node) (total : nat)
    (st : State) (row : DownstreamRow) (index : nat) : State :=
  let '(ns, ls) := st in
  let downstreamAppName := orString (present (downstream_application_name row)) "Unknown" in
  let downstreamTableCount := orZero (share_to_downstream_table_count row) in
  let dataPlatform := downstreamGroupKey row in
  let uniqueKey := toLowerCase downstreamAppName in
  let ns' :=
    if nodeMap_has uniqueKey ns then
      updateNode uniqueKey (fun n => promoteMixed "#AA46BC" (bumpTables downstreamTableCount n)) ns
    else match regionNodeMap_get regionNodeMap dataPlatform with
         | Some rn =>
             let layerIndex := (index mod 5)%nat in
             let downstreamRadius := nth layerIndex downstreamLayerRadii 0 in
             let pos := sectorPos rn downstreamRadius index total in
             ns ++ [entityNode uniqueKey downstreamAppName downstreamTableCount downstream
                      dataPlatform (fst pos) (snd pos)
                      (orString (colorMap dataPlatform) "#ee6666")]
         | None => ns
         end in
  (ns', ls ++ [entityLink dataPlatform uniqueKey downstreamTableCount
                 (orString (colorMap dataPlatform) "#ee6666")]).

(** The connection object created for a fresh key. *)
Definition newConnection (dataPlatform dsPlatform : string) : Link :=
  {| l_source := EpId dataPlatform; l_target := EpId dsPlatform; value := 1;
     lineStyle := Some {| l_color := "#999"; width := 2; l_type := dashed;
                          l_opacity := Some 0.5; curveness := 0.3 |} |}.

(** [connection.value += 1; connection.lineStyle.width = Math.min(5, 1 + connection.value / 5)]. *)
Definition bumpConnection (c : Link) : Link :=
  let v := (value c + 1)%Z in
  {| l_source := l_source c; l_target := l_target c; value := v;
     lineStyle :=
       match lineStyle c with
       | Some stl => Some {| l_color := l_color stl; width := Rmin 5 (1 + IZR v / 5);
                             l_type := l_type stl; l_opacity := l_opacity stl;
                             curveness := curveness stl |}
       | None => None
       end |}.

(** Body of the inner loop over downstream rows. *)
Definition connectionStep (row : SourceRow) (m : Connections) (dsRow : DownstreamRow) (_ : nat)
  : Connections :=
  let dataPlatform := sourceGroupKey row in
  let sourceAppName := orString (present (source_application_name row)) "Unknown" in
  let dsAppName := orString (present (downstream_application_name dsRow)) "Unknown" in
  let dsPlatform := downstreamGroupKey dsRow in
  if (sourceAppName =? dsAppName)%string && negb (dataPlatform =? dsPlatform)%string then
    let connectionKey := connectionKey dataPlatform dsPlatform in
    match aget connectionKey m with
    | None => aset connectionKey (newConnection dataPlatform dsPlatform) m
    | Some connection => aset connectionKey (bumpConnection connection) m
    end
  else m.

Definition dataPlatformConnections (sortedSource : list SourceRow)
    (sortedDownstream : list DownstreamRow) : Connections :=
  forEach (fun m row _ => forEach (connectionStep row) sortedDownstream m) sortedSource [].

(** [getMainGraphData(sourceEntityList, downstreamEntityList, colorMap)] for
    two arrays (a [null] or [undefined] list returns the empty graph before
    anything else runs). *)
Definition getMainGraphData (sourceEntityList : list SourceRow)
    (downstreamEntityList : list DownstreamRow) (colorMap : ColorMap) : Graph :=
  let dataplatformSet := collectPlatforms sourceEntityList downstreamEntityList in
  let sortedSourceEntityList := sortSources sourceEntityList in
  let sortedDownstreamEntityList := sortDownstreams downstreamEntityList in
  let regionNodeMap := platformNodes colorMap dataplatformSet in
  let st0 : State := (regionNodeMap, []) in
  let st1 := forEach (sourceStep colorMap regionNodeMap (List.length sortedSourceEntityList))
               sortedSourceEntityList st0 in
  let st2 := forEach (downstreamStep colorMap regionNodeMap (List.length sortedDownstreamEntityList))
               sortedDownstreamEntityList st1 in
  let conns := dataPlatformConnections sortedSourceEntityList sortedDownstreamEntityList in
  {| nodes := fst st2; links := snd st2 ++ map snd conns |}.

End Main.

(** ** The Venn builder, [getVennNetworkLayout] *)

Module Venn.

Definition containerWidth : R := 1600.
Definition containerHeight : R := 900.
Definition centerX : R := containerWidth / 2.
Definition centerY : R := containerHeight / 2.
Definition dpRadius : R := Rmin containerWidth containerHeight / 2.5.

(** [getTypeValue]: the category rank of a platform name. *)
Definition getTypeValue (name : string) : Z :=
  (if includes "warehouse" name then 1
   else if includes "lake" name then 2
   else if includes "stream" name then 3
   else if includes "big data" name then 4
   else if includes "mesh" name then 5
   else 6)%Z.

(** [dataPlatforms.sort((a, b) => getTypeValue(a) - getTypeValue(b))]. *)
Definition sortPlatforms (l : list string) : list string :=
  sortBy (fun a b => (getTypeValue a <=? getTypeValue b)%Z) l.

(** [entity.data_platform.toLowerCase()]: a [TypeError] when the field is
    absent. *)
Definition platformOrThrow (o : option string) : result string :=
  match o with
  | Some s => Ok (toLowerCase s)
  | None => Throw TypeError
  end.

Definition bind {A B : Type} (r : result A) (k : A -> result B) : result B :=
  match r with
  | Ok a => k a
  | Throw e => Throw e
  end.

(** A [forEach] whose body may throw. *)
Fixpoint forEachM {A St : Type} (f : St -> A -> result St) (l : list A) (s : St)
  : result St :=
  match l with
  | [] => Ok s
  | a :: l' => bind (f s a) (forEachM f l')
  end.

(** Body of the two loops that fill [platformConnectionCounts]. *)
Definition countStep (o : option string) (m : Amap Z) : result (Amap Z) :=
  bind (platformOrThrow o) (fun platform =>
    Ok (aset platform (match aget platform m with Some c => c | None => 0 end + 1)%Z m)).

Definition platformConnectionCounts (sourceEntityList : list SourceRow)
    (downstreamEntityList : list DownstreamRow) : result (Amap Z) :=
  bind (forEachM (fun m e => countStep (s_data_platform e) m) sourceEntityList [])
       (forEachM (fun m e => countStep (d_data_platform e) m) downstreamEntityList).

(** Body of the loop that creates the platform ring. *)
Definition platformStep (colorMap : ColorMap) (counts : Amap Z) (total : nat)
    (ns : list Node) (dataPlatform : string) (index : nat) : list Node :=
  let connectionCount := match aget dataPlatform counts with Some c => c | None => 0%Z end in
  let connectionFactor := Rmin 1.2 (Rmax 0.9 (0.9 + IZR connectionCount / 1000)) in
  let platformTypeRadius := dpRadius * connectionFactor * (0.9 + INR (index mod 4) * 0.1) in
  let angle := INR index / INR total * 2 * PI in
  ns ++ [regionNode colorMap dataPlatform
           (centerX + platformTypeRadius * cos angle)
           (centerY + platformTypeRadius * sin angle)].

Definition platformNodes (colorMap : ColorMap) (counts : Amap Z) (dataPlatforms : list string)
  : list Node :=
  forEach (platformStep colorMap counts (List.length dataPlatforms)) dataPlatforms [].

(** [sectorMap]: platform to [(startAngle, endAngle)]. *)
Definition sectorMap (dataPlatforms : list string) : Amap (R * R) :=
  forEach (fun m dataPlatform index =>
             aset dataPlatform
               (INR index / INR (List.length dataPlatforms) * 2 * PI,
                INR (index + 1) / INR (List.length dataPlatforms) * 2 * PI) m)
    dataPlatforms [].

(** [sourcesByPlatform] and [downstreamsByPlatform]: every platform starts
    with an empty array, then each sorted row is pushed to the array of its
    group key. *)
Definition groupBy {A : Type} (key : A -> string) (dataPlatforms : list string) (rows : list A)
  : Amap (list A) :=
  let m0 := fold_left (fun m dp => aset dp [] m) dataPlatforms [] in
  fold_left (fun m row =>
               let dataPlatform := key row in
               let group := match aget dataPlatform m with Some g => g | None => [] end in
               aset dataPlatform (group ++ [row]) m)
    rows m0.

(** *** Placement of a source node (inside the ring) *)

Definition totalLayers : nat := 8.
Definition layerIndex (index : nat) : nat := (index mod totalLayers)%nat.
Definition nodesPerLayer (index : nat) : nat := (5 + layerIndex index * 3)%nat.
Definition indexInLayer (index : nat) : nat :=
  ((index / totalLayers) mod nodesPerLayer index)%nat.
Definition angleOffset (sector : R * R) (index : nat) : R :=
  INR (indexInLayer index) / INR (nodesPerLayer index) * (snd sector - fst sector).
(** [r] is the value drawn from [Math.random()]. *)
Definition randomOffset (r : R) : R := (r - 0.5) * 0.05.
Definition sourceAngle (sector : R * R) (index : nat) (r : R) : R :=
  fst sector + angleOffset sector index + randomOffset r.
Definition innerRadius (count : Z) (index : nat) : R :=
  let tableCountFactor := Rmin 0.8 (Rmax 0.3 (IZR count / 300)) in
  let layerFactor := 0.25 + INR (layerIndex index) / INR totalLayers * 0.65 in
  dpRadius * tableCountFactor * layerFactor.

(** *** Placement of a downstream node (outside the ring) *)

Definition dsLayerCount : nat := 9.
Definition dsLayerIndex (index : nat) : nat := (index mod dsLayerCount)%nat.
Definition dsNodesPerLayer (index : nat) : nat := (7 + dsLayerIndex index * 4)%nat.
Definition dsIndexInLayer (index : nat) : nat :=
  ((index / dsLayerCount) mod dsNodesPerLayer index)%nat.
Definition dsAngleOffset (sector : R * R) (index : nat) : R :=
  INR (dsIndexInLayer index) / INR (dsNodesPerLayer index) * (snd sector - fst sector).
Definition downstreamAngle (sector : R * R) (index : nat) (r : R) : R :=
  fst sector + dsAngleOffset sector index + randomOffset r.
Definition outerRadius (count : Z) (index : nat) : R :=
  let tableCountFactor := Rmin 2.2 (Rmax 1.2 (1.2 + IZR count / 200)) in
  let dsLayerFactor := 1.2 + INR (dsLayerIndex index) / INR dsLayerCount * 1.0 in
  dpRadius * tableCountFactor * (dsLayerFactor / 2.2).

(** The state of the node loops: [nodes], [links], and the number of
    [Math.random()] draws made so far. *)
Definition State : Type := (list Node * list Link * nat)%type.

(** The entity-platform link literal of the Venn builder.  The width is
    [Math.max(1, Math.min(3, Math.log(count + 1) / 2))]: for a count of -2 or
    less the logarithm and the width are [NaN], which the reals do not have,
    so the width is meant for counts that are not negative only. *)
Definition entityLink (src tgt : string) (count : Z) (fill : string) (r : R) : Link :=
  {| l_source := EpId src; l_target := EpId tgt; value := count;
     lineStyle := Some {| l_color := fill;
                          width := Rmax 1 (Rmin 3 (ln (IZR count + 1) / 2));
                          l_type := solid;
                          l_opacity := Some (Rmax 0.2 (Rmin 0.5 (0.3 + IZR count / 200)));
                          curveness := 0.2 + r * 0.1 |} |}.

(** Body of [sources.forEach((source, index) => ...)] for one platform. *)
Definition sourceStep (colorMap : ColorMap) (rnd : nat -> R) (dataPlatform : string)
    (sector : R * R) (st : State) (row : SourceRow) (index : nat) : State :=
  let '(ns, ls, rc) := st in
  let sourceAppName := orString (present (source_application_name row)) "Unknown" in
  let sourceTableCount := orZero (source_table_count row) in
  let uniqueKey := toLowerCase sourceAppName in
  if nodeMap_has uniqueKey ns then
    (updateNode uniqueKey (bumpTables sourceTableCount) ns, ls, rc)
  else
    let angle := sourceAngle sector index (rnd rc) in
    let r := innerRadius sourceTableCount index in
    let fill := orString (colorMap "source") "#34A853" in
    (ns ++ [entityNode uniqueKey sourceAppName sourceTableCount source dataPlatform
              (centerX + r * cos angle) (centerY + r * sin angle) fill],
     ls ++ [entityLink uniqueKey dataPlatform sourceTableCount fill (rnd (S rc))],
     (rc + 2)%nat).

(** Body of [downstreams.forEach((downstream, index) => ...)] for one platform. *)
Definition downstreamStep (colorMap : ColorMap) (rnd : nat -> R) (dataPlatform : string)
    (sector : R * R) (st : State) (row : DownstreamRow) (index : nat) : State :=
  let '(ns, ls, rc) := st in
  let downstreamAppName := orString (present (downstream_application_name row)) "Unknown" in
  let downstreamTableCount := orZero (share_to_downstream_table_count row) in
  let uniqueKey := toLowerCase downstreamAppName in
  if nodeMap_has uniqueKey ns then
    (updateNode uniqueKey
       (fun n => promoteMixed (orString (colorMap "mixed") "#AA46BC")
                   (bumpTables downstreamTableCount n)) ns, ls, rc)
  else
    let angle := downstreamAngle sector index (rnd rc) in
    let r := outerRadius downstreamTableCount index in
    let fill := orString (colorMap "downstream") "#EA4335" in
    (ns ++ [entityNode uniqueKey downstreamAppName downstreamTableCount downstream dataPlatform
              (centerX + r * cos angle) (centerY + r * sin angle) fill],
     ls ++ [entityLink dataPlatform uniqueKey downstreamTableCount fill (rnd (S rc))],
     (rc + 2)%nat).

(** Body of [dataPlatforms.forEach(dataPlatform => ...)] around a row loop:
    the platform is skipped when its node or its sector is missing.  (The
    source loop also computes the vector from the center to the platform node
    and its length, and uses neither.) *)
Definition perPlatform {A : Type} (groups : Amap (list A)) (regionNodeMap : list Node)
    (sectors : Amap (R * R)) (body : string -> R * R -> State -> A -> nat -> State)
    (st : State) (dataPlatform : string) (_ : nat) : State :=
  let rows := match aget dataPlatform groups with Some g => g | None => [] end in
  match nodeMap_get dataPlatform regionNodeMap, aget dataPlatform sectors with
  | Some _, Some sector => forEach (body dataPlatform sector) rows st
  | _, _ => st
  end.

(** Body of the inner loop that aggregates platform-to-platform connections;
    the two names are compared as they are ([===]), without a default. *)
Definition connectionStep (dataPlatform : string) (sourceAppName : Nullable string)
    (m : Connections) (dsEntity : DownstreamRow) : result Connections :=
  let dsAppName := downstream_application_name dsEntity in
  bind (platformOrThrow (d_data_platform dsEntity)) (fun dsPlatform =>
    if strictEq sourceAppName dsAppName && negb (dataPlatform =? dsPlatform)%string then
      let connectionKey := connectionKey dataPlatform dsPlatform in
      match aget connectionKey m with
      | None => Ok (aset connectionKey
                      {| l_source := EpId dataPlatform; l_target := EpId dsPlatform;
                         value := 1; lineStyle := None |} m)
      | Some connection =>
          Ok (aset connectionKey
                {| l_source := l_source connection; l_target := l_target connection;
                   value := (value connection + 1)%Z; lineStyle := lineStyle connection |} m)
      end
    else Ok m).

Definition dataPlatformConnections (sourceEntityList : list SourceRow)
    (downstreamEntityList : list DownstreamRow) : result Connections :=
  forEachM (fun m entity =>
              bind (platformOrThrow (s_data_platform entity)) (fun dataPlatform =>
                forEachM (connectionStep dataPlatform (source_application_name entity))
                  downstreamEntityList m))
    sourceEntityList [].

(** Body of [dataPlatformConnections.forEach((connection, key) => ...)]: only
    a connection whose value exceeds 3 becomes a link. *)
Definition platformLinkStep (rnd : nat -> R) (st : list Link * nat)
    (e : string * Link) (_ : nat) : list Link * nat :=
  let '(ls, rc) := st in
  let connection := snd e in
  if (3 <? value connection)%Z then
    let w := Rmin 4 (Rmax 1 (ln (IZR (value connection)) / 2)) in
    let o := Rmin 0.6 (0.3 + IZR (value connection) / 100) in
    (ls ++ [{| l_source := l_source connection; l_target := l_target connection;
               value := value connection;
               lineStyle := Some {| l_color := "#9370DB"; width := w; l_type := dashed;
                                    l_opacity := Some o;
                                    curveness := 0.3 + rnd rc * 0.1 |} |}],
     S rc)
  else (ls, rc).

(** The two platform loops that create the entity nodes and their links,
    sources first. *)
Definition entityLoops (colorMap : ColorMap) (rnd : nat -> R) (dataPlatforms : list string)
    (regionNodeMap : list Node) (sourceEntityList : list SourceRow)
    (downstreamEntityList : list DownstreamRow) : State :=
  let sectors := sectorMap dataPlatforms in
  let sortedSourceEntityList := sortSources sourceEntityList in
  let sortedDownstreamEntityList := sortDownstreams downstreamEntityList in
  let sourcesByPlatform := groupBy sourceGroupKey dataPlatforms sortedSourceEntityList in
  let downstreamsByPlatform :=
    groupBy downstreamGroupKey dataPlatforms sortedDownstreamEntityList in
  let st0 : State := (regionNodeMap, [], 0%nat) in
  let st1 := forEach (perPlatform sourcesByPlatform regionNodeMap sectors
                        (sourceStep colorMap rnd)) dataPlatforms st0 in
  forEach (perPlatform downstreamsByPlatform regionNodeMap sectors
             (downstreamStep colorMap rnd)) dataPlatforms st1.

(** [getVennNetworkLayout(sourceEntityList, downstreamEntityList, colorMap)]
    for two arrays (a [null] or [undefined] list returns the empty graph
    before anything else runs). *)
Definition getVennNetworkLayout (sourceEntityList : list SourceRow)
    (downstreamEntityList : list DownstreamRow) (colorMap : ColorMap) (rnd : nat -> R)
  : result Graph :=
  let dataplatformSet := collectPlatforms sourceEntityList downstreamEntityList in
  let dataPlatforms := sortPlatforms dataplatformSet in
  bind (platformConnectionCounts sourceEntityList downstreamEntityList) (fun counts =>
    let regionNodeMap := platformNodes colorMap counts dataPlatforms in
    let st2 := entityLoops colorMap rnd dataPlatforms regionNodeMap
                 sourceEntityList downstreamEntityList in
    bind (dataPlatformConnections sourceEntityList downstreamEntityList) (fun conns =>
      let '(ns, ls, rc) := st2 in
      let '(ls', _) := forEach (platformLinkStep rnd) conns (ls, rc) in
      Ok {| nodes := ns; links := ls' |})).

End Venn.

(** ** The hover highlight, [getChartOptions] *)

Module Chart.

(** [hoveredNode ? a : b]: [null] and the empty string are falsy. *)
Definition hovered (hoveredNode : option string) : bool := truthy hoveredNode.

(** [hoveredNode === s] for a string [s]. *)
Definition isHovered (hoveredNode : option string) (s : string) : bool :=
  match hoveredNode with
  | Some h => (h =? s)%string
  | None => false
  end.

(** In the node pass: [typeof e === 'object' ? e.id : e], which throws on
    [null]. *)
Definition endIdNode (e : Endpoint) : result string :=
  match e with
  | EpId i => Ok i
  | EpObj n => Ok (id n)
  | EpNull => Throw TypeError
  end.

(** In the link pass: [typeof e === 'object' ? (e ? e.id : null) : e]. *)
Definition endIdLink (e : Endpoint) : option string :=
  match e with
  | EpId i => Some i
  | EpObj n => Some (id n)
  | EpNull => None
  end.

(** The callback of [data.links.some(...)]; a throw is caught and counts as
    [false]. *)
Definition touches (h nodeId : string) (link : Link) : bool :=
  match endIdNode (l_source link), endIdNode (l_target link) with
  | Ok sourceId, Ok targetId =>
      ((sourceId =? h)%string && (targetId =? nodeId)%string)
      || ((targetId =? h)%string && (sourceId =? nodeId)%string)
  | _, _ => false
  end.

Definition nodeOpacity (ls : list Link) (hoveredNode : option string) (nodeId : string) : R :=
  match hoveredNode with
  | Some h =>
      if hovered hoveredNode then
        (if isHovered hoveredNode nodeId || existsb (touches h nodeId) ls then 1 else 0.3)
      else 1
  | None => 1
  end.

Definition processNode (ls : list Link) (hoveredNode : option string) (node : Node) : Node :=
  {| id := id node; name := name node; tables := tables node; type := type node;
     dataPlatform := dataPlatform node; isMixed := isMixed node;
     x := x node; y := y node; symbolSize := symbolSize node;
     itemStyle :=
       {| color := color (itemStyle node);
          borderWidth := Some (if isHovered hoveredNode (id node) then 3 else 1);
          borderColor := Some (if isHovered hoveredNode (id node) then "#FFD700"
                               else "rgba(255, 255, 255, 0.5)");
          opacity := Some (nodeOpacity ls hoveredNode (id node)) |} |}.

(** [o || 0.5]: an absent or zero opacity is falsy. *)
Definition orHalf (o : option R) : R :=
  match o with
  | Some r => if Req_EM_T r 0 then 0.5 else r
  | None => 0.5
  end.

(** [(sourceId === hoveredNode) || (targetId === hoveredNode)]. *)
Definition linkHit (hoveredNode : option string) (link : Link) : bool :=
  match hoveredNode with
  | Some h =>
      match endIdLink (l_source link) with Some s => (s =? h)%string | None => false end
      || match endIdLink (l_target link) with Some t => (t =? h)%string | None => false end
  | None => false
  end.

(** The callback of [data.links.map(...)]; reading [link.lineStyle.width] of a
    link without [lineStyle] throws, and the handler returns the link as it is. *)
Definition processLink (hoveredNode : option string) (link : Link) : Link :=
  match lineStyle link with
  | None => link
  | Some stl =>
      {| l_source := l_source link; l_target := l_target link; value := value link;
         lineStyle :=
           Some {| l_color := l_color stl;
                   width := if hovered hoveredNode then
                              (if linkHit hoveredNode link then width stl * 1.5 else width stl)
                            else width stl;
                   l_type := l_type stl;
                   l_opacity := Some (if hovered hoveredNode then
                                        (if linkHit hoveredNode link then 0.8 else 0.1)
                                      else orHalf (l_opacity stl));
                   curveness := curveness stl |} |}
  end.

(** [getChartOptions(data, hoveredNode)] for a graph object or missing data.
    The result is an options object, not a graph: [None] is the empty
    options object [{}] returned for missing data; [Some o] is the object
    [{tooltip, animation..., series: [{data, links, ...}]}], given by the
    [data] array ([nodes o]) and the [links] array ([links o]) of its one
    graph series (every other option is a constant). *)
Definition getChartOptions (data : option Graph) (hoveredNode : option string) : option Graph :=
  match data with
  | None => None
  | Some d =>
      Some {| nodes := map (processNode (links d) hoveredNode) (nodes d);
              links := map (processLink hoveredNode) (links d) |}
  end.

(** What a caller can pass as [data]: nothing ([null] or [undefined]), a
    graph object [{nodes, links}], or an options object that
    [getChartOptions] returned, which has the properties [tooltip], [series]
    and so on, and neither [nodes] nor [links]. *)
Inductive Data : Type :=
| NoData
| GraphData (g : Graph)
| OptionsData (o : option Graph).



End Chart.

(** ** Vocabulary of the statements *)

(** Row literals: a name that is not given is an absent field. *)
Definition srow (p n : option string) (c : option Z) : SourceRow :=
  {| s_data_platform := p; source_application_name := ofOption n;
     source_table_count := c |}.

Definition drow (p n : option string) (c : option Z) : DownstreamRow :=
  {| d_data_platform := p; downstream_application_name := ofOption n;
     share_to_downstream_table_count := c |}.

(** The canonical key and the table count a row contributes. *)
Definition sourceKey (row : SourceRow) : string :=
  toLowerCase (orString (present (source_application_name row)) "Unknown").

Definition downstreamKey (row : DownstreamRow) : string :=
  toLowerCase (orString (present (downstream_application_name row)) "Unknown").

Definition sourceCount (row : SourceRow) : Z := orZero (source_table_count row).

Definition downstreamCount (row : DownstreamRow) : Z :=
  orZero (share_to_downstream_table_count row).

Definition isDashed (l : Link) : bool :=
  match lineStyle l with
  | Some stl => match l_type stl with dashed => true | solid => false end
  | None => false
  end.

Definition isPlatformNode (n : Node) : bool := NodeType_eqb (type n) dataplatform.

(** *** The registry seen from one key

    Both builders run the same two operations on the node registry: a source
    upsert and a downstream upsert.  [upsert] is their common shape; [Upsert]
    records what one call contributes to the key it touches, and [kstep] is
    its effect on the type and the weight stored under a key [k]. *)

Definition upsert (mixedColor : string) (isDownstream : bool) (key : string) (count : Z)
    (fresh : option Node) (ns : list Node) : list Node :=
  if nodeMap_has key ns then
    updateNode key (fun n => if isDownstream then promoteMixed mixedColor (bumpTables count n)
                             else bumpTables count n) ns
  else match fresh with
       | Some n => ns ++ [n]
       | None => ns
       end.

Record Upsert : Type := {
  u_downstream : bool;
  u_key : string;
  u_count : Z;
  u_creates : bool
}.

Definition KState : Type := option (NodeType * Tables).

Definition lookKey (k : string) (ns : list Node) : KState :=
  option_map (fun n => (type n, tables n)) (nodeMap_get k ns).

Definition roleType (isDownstream : bool) : NodeType :=
  if isDownstream then downstream else source.

Definition promoteType (t : NodeType) : NodeType :=
  match t with
  | source => mixed
  | _ => t
  end.

Definition kstep (k : string) (st : KState) (u : Upsert) : KState :=
  if (u_key u =? k)%string then
    match st with
    | Some (t, w) =>
        Some (if u_downstream u then promoteType t else t, addTables w (u_count u))
    | None =>
        if u_creates u then Some (roleType (u_downstream u), TNum (u_count u)) else None
    end
  else st.

(** The sum of the counts of the upserts on key [k]. *)
Definition keySum (k : string) (us : list Upsert) : Z :=
  fold_right Z.add 0%Z (map u_count (filter (fun u => (u_key u =? k)%string) us)).

Definition hasRole (isDownstream : bool) (k : string) (us : list Upsert) : bool :=
  existsb (fun u => (u_key u =? k)%string && Bool.eqb (u_downstream u) isDownstream) us.

(** What a row contributes to the registry of the circular builder: the
    node is created only when the row's group key is a registered platform. *)
Definition mainSourceUpsert (regionNodeMap : list Node) (row : SourceRow) : Upsert :=
  {| u_downstream := false; u_key := sourceKey row; u_count := sourceCount row;
     u_creates := match Main.regionNodeMap_get regionNodeMap (sourceGroupKey row) with
                  | Some _ => true
                  | None => false
                  end |}.

Definition mainDownstreamUpsert (regionNodeMap : list Node) (row : DownstreamRow) : Upsert :=
  {| u_downstream := true; u_key := downstreamKey row; u_count := downstreamCount row;
     u_creates := match Main.regionNodeMap_get regionNodeMap (downstreamGroupKey row) with
                  | Some _ => true
                  | None => false
                  end |}.

(** What a row contributes to the registry of the Venn builder. *)
Definition vennSourceUpsert (row : SourceRow) : Upsert :=
  {| u_downstream := false; u_key := sourceKey row; u_count := sourceCount row;
     u_creates := true |}.

Definition vennDownstreamUpsert (row : DownstreamRow) : Upsert :=
  {| u_downstream := true; u_key := downstreamKey row; u_count := downstreamCount row;
     u_creates := true |}.

(** A platform node as either builder creates it. *)
Definition isRegion (n : Node) : Prop :=
  type n = dataplatform /\ tables n = TUndefined /\ symbolSize n = 120 /\ dataPlatform n = None.

(** An entity node as either builder creates it for a row with the given
    role, key, count and group key. *)
Definition isFresh (isDownstream : bool) (key : string) (count : Z) (dp : string) (n : Node)
  : Prop :=
  id n = key /\ type n = roleType isDownstream /\ tables n = TNum count
  /\ dataPlatform n = Some dp /\ symbolSize n = calculateSymbolSize (IZR count).

(** The upserts of one build of the circular builder, in processing order. *)
Definition mainUpserts (src : list SourceRow) (ds : list DownstreamRow) (cm : ColorMap)
  : list Upsert :=
  let rm := Main.platformNodes cm (collectPlatforms src ds) in
  map (mainSourceUpsert rm) (sortSources src)
  ++ map (mainDownstreamUpsert rm) (sortDownstreams ds).

(** The entity-platform links of the circular builder, one per row. *)
Definition mainSourceLink (cm : ColorMap) (row : SourceRow) : Link :=
  Main.entityLink (sourceKey row) (sourceGroupKey row) (sourceCount row)
    (orString (cm (sourceGroupKey row)) "#91cc75").

Definition mainDownstreamLink (cm : ColorMap) (row : DownstreamRow) : Link :=
  Main.entityLink (downstreamGroupKey row) (downstreamKey row) (downstreamCount row)
    (orString (cm (downstreamGroupKey row)) "#ee6666").

(** *** Inputs used in the worked examples *)

(** Two source records named "CRM" on platform "data lake". *)
Definition crmSources : list SourceRow :=
  [srow (Some "data lake") (Some "CRM") (Some 10%Z);
   srow (Some "data lake") (Some "CRM") (Some 5%Z)].

(** A record "svc" on "p1" as source and a record "svc" on "p2" as
    downstream, with table counts [c1] and [c2]. *)
Definition svcSources (c1 : option Z) : list SourceRow := [srow (Some "p1") (Some "svc") c1].
Definition svcDownstreams (c2 : option Z) : list DownstreamRow :=
  [drow (Some "p2") (Some "svc") c2].

Definition noRandom : nat -> R := fun _ => 0.

Definition someNode : Node := regionNode defaultColorMap "" 0 0.

(** Every node of type [dataplatform] keeps the constant size 120 through
    the in-place updates. *)
Definition platformSized (n : Node) : Prop := type n = dataplatform -> symbolSize n = 120.

(** *** Placement in the Venn layout *)

(** The angle of slot [slot] out of [slots] in a sector. *)
Definition slotAngle (sector : R * R) (slot slots : nat) : R :=
  fst sector + INR slot / INR slots * (snd sector - fst sector).

(** The sector of the platform at position [p] of [total]. *)
Definition sectorAt (p total : nat) : R * R :=
  (INR p / INR total * 2 * PI, INR (p + 1) / INR total * 2 * PI).

(** [n] sits in the slot of the source at index [i] of a group, for a record
    with [count] tables: layer [i mod 8], which has [5 + 3 * (i mod 8)]
    slots, slot [(i / 8) mod slots], at most 0.025 rad away from the slot
    angle in [sector]. *)
Definition sourceSlot (sector : R * R) (i : nat) (count : Z) (n : Node) : Prop :=
  exists angle,
    let layer := (i mod 8)%nat in
    let slots := (5 + 3 * layer)%nat in
    let slot := ((i / 8) mod slots)%nat in
    let radius := Venn.dpRadius * Rmin 0.8 (Rmax 0.3 (IZR count / 300))
                  * (0.25 + INR layer / 8 * 0.65) in
    x n = Venn.centerX + radius * cos angle
    /\ y n = Venn.centerY + radius * sin angle
    /\ Rabs (angle - slotAngle sector slot slots) <= 0.025.

(** The same for a downstream: layer [i mod 9] with [7 + 4 * (i mod 9)]
    slots, slot [(i / 9) mod slots]. *)
Definition downstreamSlot (sector : R * R) (i : nat) (count : Z) (n : Node) : Prop :=
  exists angle,
    let layer := (i mod 9)%nat in
    let slots := (7 + 4 * layer)%nat in
    let slot := ((i / 9) mod slots)%nat in
    let radius := Venn.dpRadius * Rmin 2.2 (Rmax 1.2 (1.2 + IZR count / 200))
                  * ((1.2 + INR layer / 9 * 1.0) / 2.2) in
    x n = Venn.centerX + radius * cos angle
    /\ y n = Venn.centerY + radius * sin angle
    /\ Rabs (angle - slotAngle sector slot slots) <= 0.025.

(** No record in the groups of the platforms [dps] has the key [k]. *)
Definition keyAbsent {A : Type} (key : A -> string) (groups : Amap (list A))
    (dps : list string) (k : string) : Prop :=
  forall dp rows row, In dp dps -> aget dp groups = Some rows -> In row rows -> key row <> k.

(** The record at index [i] of the group [rows] of the platform at position
    [p] is the first one, in the order in which a loop over the platforms
    [dps] and their groups runs, that has the key [k]. *)
Definition firstWithKey {A : Type} (key : A -> string) (groups : Amap (list A))
    (dps : list string) (p : nat) (rows : list A) (i : nat) (k : string) : Prop :=
  keyAbsent key groups (firstn p dps) k
  /\ Forall (fun row => key row <> k) (firstn i rows).

(** [n] is the node of the first source record with its key: the record at
    index [i] of the group of the platform at position [p], in whose slot
    [n] sits. *)
Definition slottedSource (dps : list string) (groups : Amap (list SourceRow)) (n : Node)
  : Prop :=
  exists p dp rows i row,
    nth_error dps p = Some dp /\ aget dp groups = Some rows /\ nth_error rows i = Some row
    /\ sourceKey row = id n
    /\ firstWithKey sourceKey groups dps p rows i (id n)
    /\ dataPlatform n = Some dp
    /\ sourceSlot (sectorAt p (List.length dps)) i (sourceCount row) n.

(** The same for the first downstream record with the key of [n]. *)
Definition slottedDownstream (dps : list string) (groups : Amap (list DownstreamRow))
    (n : Node) : Prop :=
  exists p dp rows i row,
    nth_error dps p = Some dp /\ aget dp groups = Some rows /\ nth_error rows i = Some row
    /\ downstreamKey row = id n
    /\ firstWithKey downstreamKey groups dps p rows i (id n)
    /\ dataPlatform n = Some dp
    /\ downstreamSlot (sectorAt p (List.length dps)) i (downstreamCount row) n.

(** The node list holds a node with id [k] on platform [dp] at [(px, py)]
    whose type satisfies [T]. *)
Definition holdsAt (k : string) (T : NodeType -> Prop) (dp : string) (px py : R)
    (ns : list Node) : Prop :=
  exists n, In n ns /\ id n = k /\ dataPlatform n = Some dp /\ T (type n)
            /\ x n = px /\ y n = py.

(** Ten source records "app0" .. "app9" on one platform, with decreasing
    table counts, and two downstream records, the first of which is "app9"
    again. *)
Definition tenSources : list SourceRow :=
  map (fun i => srow (Some "Lake") (Some ("App" ++ String (ascii_of_nat (48 + i)) "")%string)
                 (Some (Z.of_nat (100 - i))))
    (seq 0 10).

Definition twoDownstreams : list DownstreamRow :=
  [drow (Some "Lake") (Some "app9") (Some 7%Z); drow (Some "Lake") (Some "Report") (Some 3%Z)].

(** The fields of a node that the registry maintains. *)
Definition nodeSummary (n : Node)
  : string * NodeType * option string * option bool * Tables * string :=
  (id n, type n, dataPlatform n, isMixed n, tables n, color (itemStyle n)).

(** The aggregate kept for a connection key: both ends and the count. *)
Definition connectionSummary (e : string * Link) : string * Endpoint * Endpoint * Z :=
  (fst e, l_source (snd e), l_target (snd e), value (snd e)).

(** *** Highlight *)



(** The ids of the platform nodes of a node list, in order. *)
Definition platformIds (ns : list Node) : list string := map id (filter isPlatformNode ns).

Definition rankLe (a b : string) : Prop := (Venn.getTypeValue a <= Venn.getTypeValue b)%Z.

(** A lake platform discovered before a warehouse platform. *)
Definition lakeThenWarehouse : list SourceRow :=
  [srow (Some "Data Lake") (Some "CRM") (Some 1%Z);
   srow (Some "Data Warehouse") (Some "ERP") (Some 1%Z)].

(** *** Platform-to-platform connections *)

(** One aggregation step for a bridging pair of platforms [(a, b)]. *)
Definition tally (new : string -> string -> Link) (bump : Link -> Link)
    (m : Connections) (hit : string * string) : Connections :=
  let k := connectionKey (fst hit) (snd hit) in
  match aget k m with
  | None => aset k (new (fst hit) (snd hit)) m
  | Some c => aset k (bump c) m
  end.

(** The connection object the Venn builder creates, and its increment. *)
Definition vennNewConnection (dataPlatform dsPlatform : string) : Link :=
  {| l_source := EpId dataPlatform; l_target := EpId dsPlatform; value := 1;
     lineStyle := None |}.

Definition vennBumpConnection (connection : Link) : Link :=
  {| l_source := l_source connection; l_target := l_target connection;
     value := (value connection + 1)%Z; lineStyle := lineStyle connection |}.

(** The bridging pairs of a build, in loop order: for every source record
    and every downstream record with the same application name and different
    platforms, the pair (source platform, downstream platform). *)
Definition hitsOf {S D : Type} (bridge : S -> D -> option (string * string))
    (src : list S) (ds : list D) : list (string * string) :=
  flat_map (fun s => flat_map (fun d => match bridge s d with
                                        | Some hit => [hit]
                                        | None => []
                                        end) ds) src.

(** Names and platforms as the circular builder reads them. *)
Definition mainBridge (row : SourceRow) (dsRow : DownstreamRow) : option (string * string) :=
  let dataPlatform := sourceGroupKey row in
  let dsPlatform := downstreamGroupKey dsRow in
  if (orString (present (source_application_name row)) "Unknown"
      =? orString (present (downstream_application_name dsRow)) "Unknown")%string
     && negb (dataPlatform =? dsPlatform)%string
  then Some (dataPlatform, dsPlatform) else None.

(** Names and platforms as the Venn builder reads them (names as they are,
    platform lower-cased without a default). *)
Definition vennBridge (row : SourceRow) (dsRow : DownstreamRow) : option (string * string) :=
  match s_data_platform row, d_data_platform dsRow with
  | Some p, Some q =>
      if strictEq (source_application_name row) (downstream_application_name dsRow)
         && negb (toLowerCase p =? toLowerCase q)%string
      then Some (toLowerCase p, toLowerCase q) else None
  | _, _ => None
  end.

(** A pair bridges [p] and [q] in either direction. *)
Definition bridges (p q : string) (hit : string * string) : bool :=
  ((fst hit =? p)%string && (snd hit =? q)%string)
  || ((fst hit =? q)%string && (snd hit =? p)%string).

(** The aggregated count for the platforms [p] and [q]. *)
Definition bridgeCount (p q : string) (hits : list (string * string)) : Z :=
  Z.of_nat (List.length (filter (bridges p q) hits)).

(** The aggregated count under a connection key. *)
Definition keyCount (k : string) (hits : list (string * string)) : Z :=
  Z.of_nat (List.length
              (filter (fun hit => (connectionKey (fst hit) (snd hit) =? k)%string) hits)).

(** A link joins [p] and [q] in either direction. *)
Definition joins (p q : string) (l : Link) : Prop :=
  (l_source l = EpId p /\ l_target l = EpId q) \/ (l_source l = EpId q /\ l_target l = EpId p).

Definition hyphenFree (s : string) : Prop := includes "-" s = false.

(** What the map holds under key [k] after the pairs [seen]. *)
Definition tallied (seen : list (string * string)) (m : Connections) : Prop :=
  NoDup (map fst m)
  /\ forall k,
       match aget k m with
       | None => keyCount k seen = 0%Z
       | Some c =>
           value c = keyCount k seen
           /\ exists a b, In (a, b) seen /\ connectionKey a b = k
                          /\ l_source c = EpId a /\ l_target c = EpId b
       end.

(** Two source records and two downstream records of one application on two
    platforms: four bridging pairs. *)
Definition fourBridgesSources : list SourceRow :=
  [srow (Some "p1") (Some "svc") (Some 1%Z); srow (Some "p1") (Some "svc") (Some 2%Z)].

Definition fourBridgesDownstreams : list DownstreamRow :=
  [drow (Some "p2") (Some "svc") (Some 1%Z); drow (Some "p2") (Some "svc") (Some 2%Z)].

(** Four source records on "p1" and four downstream records on "p2", all
    without a usable application name: the name field of the sources is
    absent or [null], that of the downstreams is absent. *)
Definition unnamedSources : list SourceRow := repeat (srow (Some "p1") None (Some 1%Z)) 4.

Definition nullNamedSources : list SourceRow :=
  repeat {| s_data_platform := Some "p1"; source_application_name := Null;
            source_table_count := Some 1%Z |} 4.

Definition unnamedDownstreams : list DownstreamRow :=
  repeat (drow (Some "p2") None (Some 1%Z)) 4.

(** The dashed links of a graph: ends and value. *)
Definition dashedLinks (g : Graph) : list (Endpoint * Endpoint * Z) :=
  map (fun l => (l_source l, l_target l, value l))
    (filter isDashed (links g)).

(** What the type stored under [k] says about the upserts [seen] so far. *)
Definition roleSound (k : string) (seen : list Upsert) (st : KState) : Prop :=
  match st with
  | None => True
  | Some (t, _) =>
      match t with
      | dataplatform => False
      | source => hasRole false k seen = true
      | downstream => hasRole true k seen = true
      | mixed => hasRole false k seen = true /\ hasRole true k seen = true
      end
  end.

(** *** Weights and processing order *)

(** The sum of the table counts of the rows with canonical key [k]. *)
Definition sourceWeight (k : string) (src : list SourceRow) : Z :=
  fold_right Z.add 0%Z (map sourceCount (filter (fun row => (sourceKey row =? k)%string) src)).

Definition downstreamWeight (k : string) (ds : list DownstreamRow) : Z :=
  fold_right Z.add 0%Z
    (map downstreamCount (filter (fun row => (downstreamKey row =? k)%string) ds)).

(** The upserts of one build of the Venn builder, in processing order:
    platform by platform, the rows of the platform's group. *)
Definition vennSourceUpserts (dps : list string) (src : list SourceRow) : list Upsert :=
  flat_map (fun dp => map vennSourceUpsert
                        (filter (fun row => (sourceGroupKey row =? dp)%string)
                           (sortSources src))) dps.

Definition vennDownstreamUpserts (dps : list string) (ds : list DownstreamRow) : list Upsert :=
  flat_map (fun dp => map vennDownstreamUpsert
                        (filter (fun row => (downstreamGroupKey row =? dp)%string)
                           (sortDownstreams ds))) dps.

(** The sum of the counts of the rows with key [k] that satisfy [f]. *)
Definition wsum {A : Type} (key : A -> string) (count : A -> Z) (k : string)
    (f : A -> bool) (rows : list A) : Z :=
  fold_right Z.add 0%Z
    (map count (filter (fun row => f row && (key row =? k)%string) rows)).

(** *** Entity-platform links *)

Definition isSolid (l : Link) : bool := negb (isDashed l).

Definition isEntityNode (n : Node) : bool := negb (isPlatformNode n).

(** Both ends and the weight of a link. *)
Definition linkTriple (l : Link) : Endpoint * Endpoint * Z := (l_source l, l_target l, value l).

Definition linkEnds (l : Link) : Endpoint * Endpoint := (l_source l, l_target l).

(** The ends of the link the Venn builder pushes when it creates [n]: from
    the entity to its platform for a source, from the platform to the entity
    for a downstream. *)
Definition entityEnds (n : Node) : Endpoint * Endpoint :=
  match dataPlatform n with
  | Some dp =>
      match type n with
      | downstream => (EpId dp, EpId (id n))
      | _ => (EpId (id n), EpId dp)
      end
  | None => (EpNull, EpNull)
  end.

(** A source record without platform (absent, or the empty string) and a
    named downstream record of one application. *)
Definition unnamedSource : list SourceRow := [srow None (Some "a") (Some 10%Z)].
Definition emptyPlatformSource : list SourceRow := [srow (Some "") (Some "a") (Some 10%Z)].
Definition namedDownstream : list DownstreamRow := [drow (Some "p") (Some "a") (Some 5%Z)].

(** * The mock data of the traditional layout: src/utils/dataGenerator.js

    [generateMockData] builds a fixed population of nodes and links and hands
    them to [calculateNodePositions], which lays them out in three columns.

    Conventions, in addition to those above.
    - The [id], [type] and [label] of a node are strings; [isMixed] is absent
      ([None]) unless the literal sets it.  A link holds the ids of its two
      ends, which is how [generateMockData], the only caller of
      [calculateNodePositions], builds them.
    - [connectionCounts] is an object read as a map, for its own keys only.
    - [Math.floor] of a real number is [Int_part]; an array read outside its
      bounds is [undefined], printed as "undefined" in a template string. *)

Module Gen.

Local Open Scope R_scope.

(** A node as [generateMockData] creates it. *)
Record RawNode : Type := {
  r_id : string;
  r_type : string;
  r_label : string;
  r_isMixed : option bool
}.

(** A node as [calculateNodePositions] returns it: the fields of the raw
    node, spread, and [x], [y] and [connectionCount]. *)
Record PNode : Type := {
  raw : RawNode;
  p_x : R;
  p_y : R;
  connectionCount : Z
}.

Record RawLink : Type := {
  g_source : string;
  g_target : string
}.

Record MockData : Type := {
  m_nodes : list PNode;
  m_links : list RawLink
}.

Definition width : R := 3000.
Definition height : R := 2400.

(** The keys of [nodesByType], in the order of the literal. *)
Inductive Group : Type := GSource | GDataPlatform | GDownstream | GMixed.

Definition groups : list Group := [GSource; GDataPlatform; GDownstream; GMixed].

(** [columnPositions[type]], with the override for the mixed group. *)
Definition columnPosition (g : Group) : R :=
  match g with
  | GSource => width * 0.15
  | GDataPlatform => width * 0.5
  | GDownstream => width * 0.85
  | GMixed => (width * 0.15 + width * 0.5) / 2
  end.

Definition layerCount (g : Group) : nat :=
  match g with
  | GSource => 25
  | GDataPlatform => 1
  | GDownstream => 25
  | GMixed => 8
  end.

Definition subColumnCount (g : Group) : nat :=
  match g with
  | GSource => 6
  | GDataPlatform => 1
  | GDownstream => 6
  | GMixed => 3
  end.

(** [!!n.isMixed]. *)
Definition mixedFlag (n : RawNode) : bool :=
  match r_isMixed n with
  | Some b => b
  | None => false
  end.

(** The filter of each entry of [nodesByType]. *)
Definition inGroup (g : Group) (n : RawNode) : bool :=
  match g with
  | GSource => (r_type n =? "Source")%string && negb (mixedFlag n)
  | GDataPlatform => (r_type n =? "DataPlatform")%string
  | GDownstream => (r_type n =? "Downstream")%string && negb (mixedFlag n)
  | GMixed => mixedFlag n
  end.

Definition nodesByType (nodes : list RawNode) (g : Group) : list RawNode :=
  filter (inGroup g) nodes.

(** Body of [links.forEach(link => ...)] that fills [connectionCounts]. *)
Definition countLink (m : Amap Z) (link : RawLink) : Amap Z :=
  let sourceId := g_source link in
  let targetId := g_target link in
  let m1 := aset sourceId (orZero (aget sourceId m) + 1)%Z m in
  aset targetId (orZero (aget targetId m1) + 1)%Z m1.

Definition connectionCounts (links : list RawLink) : Amap Z :=
  fold_left countLink links [].

(** [connectionCounts[node.id] || 0]. *)
Definition countOf (m : Amap Z) (n : RawNode) : Z := orZero (aget (r_id n) m).

(** The state of the positioning loops: [positionedNodes] and the number of
    [Math.random()] draws made so far. *)
Definition State : Type := (list PNode * nat)%type.

(** Body of the loop over the platform nodes. *)
Definition platformStep (counts : Amap Z) (nodeCount : nat) (st : State) (node : RawNode)
    (index : nat) : State :=
  let '(ps, rc) := st in
  let dpHeight := height * 0.7 in
  let spacing := dpHeight / (INR nodeCount + 1) in
  (ps ++ [{| raw := node;
             p_x := columnPosition GDataPlatform;
             p_y := (INR index + 1) * spacing + height * 0.15;
             connectionCount := countOf counts node |}],
   rc).

(** [Math.ceil(a / b)] for two counts. *)
Definition ceilDiv (a b : nat) : nat := ((a + b - 1) / b)%nat.

Definition subColumnOf (g : Group) (nodeCount index : nat) : nat :=
  (index / ceilDiv nodeCount (subColumnCount g))%nat.

Definition layerHeight (g : Group) : R := height / (INR (layerCount g) + 1).

Definition subColumnWidth (g : Group) : R := width * 0.25 / INR (subColumnCount g).

Definition xPosition (g : Group) (nodeCount index : nat) : R :=
  columnPosition g
  + (INR (subColumnOf g nodeCount index) - INR (subColumnCount g / 2))
    * subColumnWidth g * 1.5.

Definition yPosition (g : Group) (nodeCount index : nat) : R :=
  let layer := (index mod layerCount g)%nat in
  let columnOffset :=
    if (subColumnOf g nodeCount index mod 2 =? 0)%nat then layerHeight g / 2 else 0 in
  let inColumnOffset := INR (index mod 3) * (layerHeight g * 0.1) in
  (INR layer + 1) * layerHeight g + columnOffset + inColumnOffset.

(** [Math.random() * 20 - 10] for the draw [r]. *)
Definition jitter (r : R) : R := r * 20 - 10.

(** Body of the loop over the nodes of any other group. *)
Definition layerStep (rnd : nat -> R) (counts : Amap Z) (g : Group) (nodeCount : nat)
    (st : State) (node : RawNode) (index : nat) : State :=
  let '(ps, rc) := st in
  (ps ++ [{| raw := node;
             p_x := xPosition g nodeCount index + jitter (rnd rc);
             p_y := yPosition g nodeCount index + jitter (rnd (S rc));
             connectionCount := countOf counts node |}],
   (rc + 2)%nat).

(** Body of [Object.keys(nodesByType).forEach(type => ...)]. *)
Definition groupStep (rnd : nat -> R) (counts : Amap Z) (nodes : list RawNode)
    (st : State) (g : Group) (_ : nat) : State :=
  let typeNodes := nodesByType nodes g in
  let nodeCount := List.length typeNodes in
  if (nodeCount =? 0)%nat then st
  else match g with
       | GDataPlatform => forEach (platformStep counts nodeCount) typeNodes st
       | _ => forEach (layerStep rnd counts g nodeCount) typeNodes st
       end.

(** [calculateNodePositions(nodes, links)], with the draws starting at
    number [rc]; the result is [positionedNodes]. *)
Definition calculateNodePositions (rnd : nat -> R) (rc : nat) (nodes : list RawNode)
    (links : list RawLink) : list PNode :=
  fst (forEach (groupStep rnd (connectionCounts links) nodes) groups ([], rc)).

(** *** [generateMockData] *)

(** The decimal digits of a number, as a template string prints it. *)
Definition digit (n : nat) : ascii := ascii_of_nat (48 + n).

Fixpoint decimalFrom (fuel n : nat) (acc : string) : string :=
  match fuel with
  | O => acc
  | S fuel' =>
      let acc' := String (digit (n mod 10)) acc in
      if (n / 10 =? 0)%nat then acc' else decimalFrom fuel' (n / 10) acc'
  end.

Definition decimal (n : nat) : string := decimalFrom (S n) n "".

Definition dataPlatforms : list RawNode :=
  [{| r_id := "dp1"; r_type := "DataPlatform"; r_label := "Data Warehouse";
      r_isMixed := None |};
   {| r_id := "dp2"; r_type := "DataPlatform"; r_label := "Data Lake"; r_isMixed := None |};
   {| r_id := "dp3"; r_type := "DataPlatform"; r_label := "Stream Processing";
      r_isMixed := None |};
   {| r_id := "dp4"; r_type := "DataPlatform"; r_label := "Big Data Platform";
      r_isMixed := None |}].

Definition sourceTypes : list string :=
  ["CRM"; "ERP"; "POS"; "Web Analytics"; "Mobile App"; "IoT Devices"; "Social Media";
   "Email"; "Call Center"; "Survey"; "External API"; "Legacy System"; "Database";
   "File System"; "Messaging Queue"; "Sensor Data"; "Payment Gateway";
   "Third-party Service"].

Definition downstreamTypes : list string :=
  ["BI Dashboard"; "Analytics"; "Reporting"; "Marketing Platform"; "Recommendation Engine";
   "Fraud Detection"; "Inventory Management"; "Customer Support"; "Forecasting";
   "Alerting"; "Monitoring"; "Visualization"; "Machine Learning"; "AI Model";
   "Decision Support"; "Operational Dashboard"; "Mobile App"; "Web Portal"].

Definition mixedTypes : list string :=
  ["Database"; "API Gateway"; "Transaction System"; "Integration Service"; "Data Service"].

(** [types[Math.floor(Math.random() * types.length)]] for the draw [r]. *)
Definition pick (types : list string) (r : R) : string :=
  nth (Z.to_nat (Int_part (r * INR (List.length types)))) types "undefined".

(** The node pushed by the iteration [i] of one of the three [for] loops;
    the loop makes one draw per iteration, starting at draw [rc0]. *)
Definition mockNode (rnd : nat -> R) (rc0 : nat) (prefix type : string) (types : list string)
    (mixed : option bool) (i : nat) : RawNode :=
  {| r_id := (prefix ++ decimal i)%string;
     r_type := type;
     r_label := (pick types (rnd (rc0 + (i - 1))%nat) ++ " " ++ decimal i)%string;
     r_isMixed := mixed |}.

(** [for (let i = 1; i <= count; i++)]. *)
Definition mockNodes (rnd : nat -> R) (rc0 : nat) (prefix type : string) (types : list string)
    (mixed : option bool) (count : nat) : list RawNode :=
  map (mockNode rnd rc0 prefix type types mixed) (seq 1 count).

(** [dataPlatforms[i].id] for an index in range. *)
Definition dpId (i : nat) : string :=
  match nth_error dataPlatforms i with
  | Some dp => r_id dp
  | None => "undefined"
  end.

Definition link (s t : string) : RawLink := {| g_source := s; g_target := t |}.

(** Bodies of the three loops that push the links. *)
Definition sourceLinks (ls : list RawLink) (source : RawNode) (index : nat) : list RawLink :=
  let n := List.length dataPlatforms in
  let dpIndex := (index mod n)%nat in
  let ls1 := ls ++ [link (r_id source) (dpId dpIndex)] in
  if (index mod 5 =? 0)%nat then ls1 ++ [link (r_id source) (dpId ((dpIndex + 1) mod n))]
  else ls1.

Definition downstreamLinks (ls : list RawLink) (downstream : RawNode) (index : nat)
  : list RawLink :=
  let n := List.length dataPlatforms in
  let dpIndex := (index mod n)%nat in
  let ls1 := ls ++ [link (dpId dpIndex) (r_id downstream)] in
  if (index mod 7 =? 0)%nat then ls1 ++ [link (dpId ((dpIndex + 2) mod n)) (r_id downstream)]
  else ls1.

Definition mixedLinks (ls : list RawLink) (mixedNode : RawNode) (index : nat)
  : list RawLink :=
  let n := List.length dataPlatforms in
  ls ++ [link (r_id mixedNode) (dpId (index mod n));
         link (dpId ((index + 1) mod n)) (r_id mixedNode)].

Definition platformRing (ls : list RawLink) (dp : RawNode) (i : nat) : list RawLink :=
  ls ++ [link (r_id dp) (dpId ((i + 1) mod List.length dataPlatforms))].

(** [generateMockData()]. *)
Definition generateMockData (rnd : nat -> R) : MockData :=
  let sources := mockNodes rnd 0 "s" "Source" sourceTypes None 150 in
  let downstreams := mockNodes rnd 150 "d" "Downstream" downstreamTypes None 150 in
  let mixedNodes := mockNodes rnd 300 "m" "Source" mixedTypes (Some true) 10 in
  let allNodes := dataPlatforms ++ sources ++ downstreams ++ mixedNodes in
  let links1 := forEach sourceLinks sources [] in
  let links2 := forEach downstreamLinks downstreams links1 in
  let links3 := forEach mixedLinks mixedNodes links2 in
  let links := forEach platformRing dataPlatforms links3 in
  let formattedLinks := map (fun l => link (g_source l) (g_target l)) links in
  {| m_nodes := calculateNodePositions rnd 310 allNodes links;
     m_links := formattedLinks |}.

End Gen.

(** * The chart component: src/components/RelationshipGraph.js

    The pure parts of the React component: the size and the colour of a node
    of the traditional layout, the series of the options object built when
    the mock data arrives, the event handlers as a transition function on the
    [hoveredNode] state, and [getOption], which chooses the builder by the
    layout type.  Rendering, timers and the chart instance are not modelled.
    An event handler sees the state left by the previous event. *)

Module Component.

Local Open Scope R_scope.

(** [getNodeSize(node)]; [node.connectionCount || 1] reads a count of 0 as 1.
    For a count of -2 or less [Math.log(connectionCount + 1)] and the size
    are [NaN], which the reals do not have: the size is meant for counts
    that are not negative only (the generator counts link ends). *)
Definition getNodeSize (node : option Gen.PNode) : R :=
  match node with
  | None => 10
  | Some n =>
      if (Gen.r_type (Gen.raw n) =? "DataPlatform")%string then 50
      else
        let minSize := 8 in
        let maxSize := 25 in
        let connectionCount :=
          if (Gen.connectionCount n =? 0)%Z then 1%Z else Gen.connectionCount n in
        let logScale := ln (IZR connectionCount + 1) / ln 1.5 in
        Rmax minSize (Rmin maxSize (minSize + logScale * 2))
  end.

(** [colors[type]] for the keys of the literal. *)
Definition colors (type : string) : option string :=
  if (type =? "DataPlatform")%string then Some "#4285F4"
  else if (type =? "Source")%string then Some "#34A853"
  else if (type =? "Downstream")%string then Some "#EA4335"
  else if (type =? "Mixed")%string then Some "#AA46BC"
  else None.

(** [getNodeColor(node)]. *)
Definition getNodeColor (node : option Gen.PNode) : string :=
  match node with
  | None => "#999"
  | Some n =>
      if negb (truthy (Some (Gen.r_type (Gen.raw n)))) then "#999"
      else if Gen.mixedFlag (Gen.raw n) then "#AA46BC"
      else orString (colors (Gen.r_type (Gen.raw n))) "#999"
  end.

(** A node and a link of a series over the mock data.  The size and the
    colour are set by the options built in the component and absent from the
    result of [getChartOptions]; a link that [getChartOptions] returns as it
    is has no line style. *)
Record ShownNode : Type := {
  sh_node : Gen.PNode;
  sh_symbolSize : option R;
  sh_color : option string;
  sh_borderWidth : R;
  sh_borderColor : string;
  sh_opacity : R
}.

Record ShownLink : Type := {
  sh_link : Gen.RawLink;
  sh_width : option R;
  sh_lineOpacity : option R
}.

(** The callback of [links.some(...)] over links that hold ids. *)
Definition touches (h nodeId : string) (link : Gen.RawLink) : bool :=
  ((Gen.g_source link =? h)%string && (Gen.g_target link =? nodeId)%string)
  || ((Gen.g_target link =? h)%string && (Gen.g_source link =? nodeId)%string).

Definition nodeOpacity (ls : list Gen.RawLink) (hoveredNode : option string)
    (nodeId : string) : R :=
  match hoveredNode with
  | Some h =>
      if Chart.hovered hoveredNode then
        (if Chart.isHovered hoveredNode nodeId || existsb (touches h nodeId) ls
         then 1 else 0.3)
      else 1
  | None => 1
  end.

Definition linkHit (hoveredNode : option string) (link : Gen.RawLink) : bool :=
  Chart.isHovered hoveredNode (Gen.g_source link)
  || Chart.isHovered hoveredNode (Gen.g_target link).

(** The [data] and [links] of the series that the component sets when the
    mock data arrives. *)
Definition seriesData (graphData : Gen.MockData) (hoveredNode : option string)
  : list ShownNode :=
  map (fun node =>
         let i := Gen.r_id (Gen.raw node) in
         {| sh_node := node;
            sh_symbolSize := Some (getNodeSize (Some node));
            sh_color := Some (getNodeColor (Some node));
            sh_borderWidth := if Chart.isHovered hoveredNode i then 3 else 1;
            sh_borderColor := if Chart.isHovered hoveredNode i then "#FFD700"
                              else "rgba(255, 255, 255, 0.5)";
            sh_opacity := nodeOpacity (Gen.m_links graphData) hoveredNode i |})
    (Gen.m_nodes graphData).

Definition seriesLinks (graphData : Gen.MockData) (hoveredNode : option string)
  : list ShownLink :=
  map (fun link =>
         {| sh_link := link;
            sh_width := Some (if Chart.hovered hoveredNode then
                                (if linkHit hoveredNode link then 3 else 1)
                              else 1);
            sh_lineOpacity := Some (if Chart.hovered hoveredNode then
                                      (if linkHit hoveredNode link then 1 else 0.1)
                                    else 0.3) |})
    (Gen.m_links graphData).

(** What [getOption] returns: the empty object, or the series of
    [getChartOptions] over a built graph or over the mock data. *)
Inductive Options : Type :=
| EmptyOptions
| GraphOptions (g : Graph)
| MockOptions (data : list ShownNode) (links : list ShownLink).

(** [getChartOptions(graphData, hoveredNode)] on the mock data: the nodes get
    an item style; reading [link.lineStyle.width] of a mock link throws, and
    the handler returns the link as it is. *)
Definition mockChartOptions (graphData : Gen.MockData) (hoveredNode : option string)
  : Options :=
  MockOptions
    (map (fun node =>
            let i := Gen.r_id (Gen.raw node) in
            {| sh_node := node;
               sh_symbolSize := None;
               sh_color := None;
               sh_borderWidth := if Chart.isHovered hoveredNode i then 3 else 1;
               sh_borderColor := if Chart.isHovered hoveredNode i then "#FFD700"
                                 else "rgba(255, 255, 255, 0.5)";
               sh_opacity := nodeOpacity (Gen.m_links graphData) hoveredNode i |})
       (Gen.m_nodes graphData))
    (map (fun link => {| sh_link := link; sh_width := None; sh_lineOpacity := None |})
       (Gen.m_links graphData)).

Definition ofChartOptions (o : option Graph) : Options :=
  match o with
  | Some g => GraphOptions g
  | None => EmptyOptions
  end.

(** [getOption()], as a function of the state it reads; a [throw] inside is
    caught and gives the empty object. *)
Definition getOption (graphData : option Gen.MockData) (sourceEntityList : list SourceRow)
    (downstreamEntityList : list DownstreamRow) (layoutType : string)
    (hoveredNode : option string) (rnd : nat -> R) : Options :=
  if match graphData with None => true | Some _ => false end
     && (List.length sourceEntityList =? 0)%nat
  then EmptyOptions
  else if (layoutType =? "circular")%string then
    ofChartOptions
      (Chart.getChartOptions
         (Some (Main.getMainGraphData sourceEntityList downstreamEntityList defaultColorMap))
         hoveredNode)
  else if (layoutType =? "venn")%string then
    match Venn.getVennNetworkLayout sourceEntityList downstreamEntityList defaultColorMap rnd
    with
    | Ok vennData => ofChartOptions (Chart.getChartOptions (Some vennData) hoveredNode)
    | Throw _ => EmptyOptions
    end
  else
    match graphData with
    | Some d => mockChartOptions d hoveredNode
    | None => EmptyOptions
    end.

(** *** The event handlers *)

Record Data : Type := { d_id : option string }.

(** The argument of a chart event. *)
Record Params : Type := {
  p_data : option Data;
  p_dataType : string
}.

(** [params && params.data && params.dataType === 'node' && params.data.id]:
    the id of the node under the pointer, if the event is on a node with a
    truthy id. *)
Definition nodeUnder (params : option Params) : option string :=
  match params with
  | Some p =>
      match p_data p with
      | Some d =>
          if (p_dataType p =? "node")%string && truthy (d_id d) then d_id d else None
      | None => None
      end
  | None => None
  end.

Inductive Event : Type :=
| MouseOver (params : option Params)
| MouseOut
| Click (params : option Params).

(** The handlers of [onChartEvents] as the next value of [hoveredNode]. *)
Definition onChartEvent (hoveredNode : option string) (e : Event) : option string :=
  match e with
  | MouseOver params =>
      match nodeUnder params with
      | Some i => Some i
      | None => hoveredNode
      end
  | MouseOut => None
  | Click params =>
      match nodeUnder params with
      | Some i => if Chart.isHovered hoveredNode i then None else Some i
      | None => None
      end
  end.

(** The state after a sequence of events, from the initial [null]. *)
Definition hoveredAfter (events : list Event) : option string :=
  fold_left onChartEvent events None.

End Component.

(** * The tooltip of [getChartOptions]: src/utils/chartOptions.js

    The [formatter] of the tooltip reads a few fields of the hovered datum and
    returns a piece of HTML.  A template literal is the list of its source
    lines joined by newlines.  An integer prints in decimal (the counts are
    far below the range where JavaScript switches to exponents). *)

Module Tooltip.

Definition nl : string := String (ascii_of_nat 10) "".

(** A template literal, line by line. *)
Definition template (lines : list string) : string := String.concat nl lines.

(** [`${z}`] for an integer. *)
Definition showZ (z : Z) : string :=
  match z with
  | Z0 => "0"
  | Zpos p => Gen.decimal (Pos.to_nat p)
  | Zneg p => ("-" ++ Gen.decimal (Pos.to_nat p))%string
  end.

(** The fields of [params.data] that the formatter reads; an absent field is
    [None] (or [TUndefined]). *)
Record Datum : Type := {
  t_name : option string;
  t_type : option string;
  t_dataPlatform : option string;
  t_tables : Tables;
  t_value : option Z
}.

Record Params : Type := {
  componentType : string;
  seriesType : string;
  dataType : string;
  data : option Datum
}.

(** [`${data.tables || 0}`]: [undefined], [NaN] and 0 all print as 0. *)
Definition showTables (t : Tables) : string :=
  match t with
  | TNum z => showZ z
  | TUndefined | TNaN => "0"
  end.

(** [`${data.value || 0}`]. *)
Definition showValue (v : option Z) : string := showZ (orZero v).

Definition nodeCard (d : Datum) (typeLabel : string) : string :=
  template
    [""; "                    <div>";
     "                      <strong>" ++ orString (t_name d) "Unknown" ++ "</strong><br/>";
     "                      Type: " ++ typeLabel ++ "<br/>";
     "                      Data Platform: " ++ orString (t_dataPlatform d) "Unknown"
       ++ "<br/>";
     "                      Tables: " ++ showTables (t_tables d);
     "                    </div>"; "                  "]%string.

(** The [formatter] of the tooltip; a [throw] inside gives the empty string,
    and nothing here throws. *)
Definition formatter (params : option Params) : string :=
  match params with
  | None => ""
  | Some params =>
      match data params with
      | None => ""
      | Some data =>
          if negb (componentType params =? "series")%string then ""
          else if negb (seriesType params =? "graph")%string then ""
          else if (dataType params =? "node")%string then
            if negb (truthy (t_type data)) then
              ("<div><strong>" ++ orString (t_name data) "Unknown" ++ "</strong></div>")%string
            else
              let type := orString (t_type data) "" in
              if (type =? "source")%string then nodeCard data "Source"
              else if (type =? "downstream")%string then nodeCard data "Downstream"
              else if (type =? "mixed")%string then nodeCard data "Source & Downstream"
              else if (type =? "dataplatform")%string then
                template
                  [""; "                    <div>";
                   "                      <strong>" ++ orString (t_name data) "Unknown"
                     ++ "</strong><br/>";
                   "                      Type: Data Platform<br/>";
                   "                      Tables: " ++ showTables (t_tables data);
                   "                    </div>"; "                  "]%string
              else
                template
                  [""; "                    <div>";
                   "                      <strong>" ++ orString (t_name data) "Unknown"
                     ++ "</strong><br/>";
                   "                      Type: " ++ orString (t_type data) "Unknown";
                   "                    </div>"; "                  "]%string
          else if (dataType params =? "edge")%string then
            template
              [""; "                <div>";
               "                  <strong>Connection</strong><br/>";
               "                  Tables: " ++ showValue (t_value data);
               "                </div>"; "              "]%string
          else ""
      end
  end.

(** The JavaScript string of a node type. *)
Definition typeString (t : NodeType) : string :=
  match t with
  | dataplatform => "dataplatform"
  | source => "source"
  | downstream => "downstream"
  | mixed => "mixed"
  end.

(** The datum of a node and of a link of a built graph, and of a node and a
    link of the mock data. *)
Definition ofNode (n : Node) : Datum :=
  {| t_name := Some (name n); t_type := Some (typeString (type n));
     t_dataPlatform := dataPlatform n; t_tables := tables n; t_value := None |}.

Definition ofLink (l : Link) : Datum :=
  {| t_name := None; t_type := None; t_dataPlatform := None; t_tables := TUndefined;
     t_value := Some (value l) |}.

Definition ofMockNode (p : Gen.PNode) : Datum :=
  {| t_name := None; t_type := Some (Gen.r_type (Gen.raw p)); t_dataPlatform := None;
     t_tables := TUndefined; t_value := None |}.

Definition ofMockLink (l : Gen.RawLink) : Datum :=
  {| t_name := None; t_type := None; t_dataPlatform := None; t_tables := TUndefined;
     t_value := None |}.

(** The argument the chart passes for a node and for an edge of the graph
    series. *)
Definition onNode (d : Datum) : option Params :=
  Some {| componentType := "series"; seriesType := "graph"; dataType := "node";
          data := Some d |}.

Definition onEdge (d : Datum) : option Params :=
  Some {| componentType := "series"; seriesType := "graph"; dataType := "edge";
          data := Some d |}.

End Tooltip.

(** ** Vocabulary of the further properties *)

(** Both ends of a link are ids of nodes of the list. *)
Definition endsIn (ns : list Node) (l : Link) : Prop :=
  exists a b, l_source l = EpId a /\ l_target l = EpId b
              /\ In a (map id ns) /\ In b (map id ns).

(** Every record names its platform (the field is present and not empty). *)
Definition allNamed (src : list SourceRow) (ds : list DownstreamRow) : Prop :=
  (forall row, In row src -> truthy (s_data_platform row) = true)
  /\ (forall row, In row ds -> truthy (d_data_platform row) = true).

(** Every record has a [data_platform] field (possibly empty). *)
Definition allPresent (src : list SourceRow) (ds : list DownstreamRow) : Prop :=
  (forall row, In row src -> s_data_platform row <> None)
  /\ (forall row, In row ds -> d_data_platform row <> None).

Definition emptyGraph : Graph := {| nodes := []; links := [] |}.

(** Rows used in the examples of the further properties. *)
Definition twoApps : list SourceRow :=
  [srow (Some "Data Lake") (Some "CRM") (Some 10%Z);
   srow (Some "Data Warehouse") (Some "Billing") (Some 3%Z)].

Definition oneConsumer : list DownstreamRow :=
  [drow (Some "Data Warehouse") (Some "crm") (Some 4%Z)].

(** *** Node literals of the builders

    The entity node each loop body pushes when the key is new, as a function
    of the row and its index. *)
Definition mainSourceNode (cm : ColorMap) (total : nat) (rn : Node) (row : SourceRow)
    (index : nat) : Node :=
  let pos := Main.sectorPos rn (nth (index mod 3) Main.sourceLayerRadii 0%R) index total in
  entityNode (sourceKey row) (orString (present (source_application_name row)) "Unknown")
    (sourceCount row) source (sourceGroupKey row) (fst pos) (snd pos)
    (orString (cm (sourceGroupKey row)) "#91cc75").

Definition mainDownstreamNode (cm : ColorMap) (total : nat) (rn : Node) (row : DownstreamRow)
    (index : nat) : Node :=
  let pos := Main.sectorPos rn (nth (index mod 5) Main.downstreamLayerRadii 0%R) index total in
  entityNode (downstreamKey row) (orString (present (downstream_application_name row)) "Unknown")
    (downstreamCount row) downstream (downstreamGroupKey row) (fst pos) (snd pos)
    (orString (cm (downstreamGroupKey row)) "#ee6666").

Definition vennSourceNode (cm : ColorMap) (dp : string) (sector : R * R) (row : SourceRow)
    (index : nat) (r : R) : Node :=
  let angle := Venn.sourceAngle sector index r in
  let radius := Venn.innerRadius (sourceCount row) index in
  entityNode (sourceKey row) (orString (present (source_application_name row)) "Unknown")
    (sourceCount row) source dp
    (Venn.centerX + radius * cos angle)%R (Venn.centerY + radius * sin angle)%R
    (orString (cm "source") "#34A853").

Definition vennDownstreamNode (cm : ColorMap) (dp : string) (sector : R * R)
    (row : DownstreamRow) (index : nat) (r : R) : Node :=
  let angle := Venn.downstreamAngle sector index r in
  let radius := Venn.outerRadius (downstreamCount row) index in
  entityNode (downstreamKey row) (orString (present (downstream_application_name row)) "Unknown")
    (downstreamCount row) downstream dp
    (Venn.centerX + radius * cos angle)%R (Venn.centerY + radius * sin angle)%R
    (orString (cm "downstream") "#EA4335").

(** A property of single nodes that the two in-place updates keep. *)
Definition updateStable (P : Node -> Prop) : Prop :=
  (forall c n, P n -> P (bumpTables c n))
  /\ (forall col n, P n -> P (promoteMixed col n)).

(** The platform node each builder pushes for the platform at [index]. *)
Definition mainPlatformNode (cm : ColorMap) (total : nat) (dp : string) (index : nat) : Node :=
  let pos := getCircularPosition index total (Main.radius * 0.6) Main.centerX Main.centerY in
  regionNode cm dp (fst pos) (snd pos).

Definition vennPlatformRadius (counts : Amap Z) (dp : string) (index : nat) : R :=
  let connectionCount := match aget dp counts with Some c => c | None => 0%Z end in
  (Venn.dpRadius * Rmin 1.2 (Rmax 0.9 (0.9 + IZR connectionCount / 1000))
   * (0.9 + INR (index mod 4) * 0.1))%R.

Definition vennPlatformNode (cm : ColorMap) (counts : Amap Z) (total : nat) (dp : string)
    (index : nat) : Node :=
  let angle := (INR index / INR total * 2 * PI)%R in
  regionNode cm dp (Venn.centerX + vennPlatformRadius counts dp index * cos angle)%R
    (Venn.centerY + vennPlatformRadius counts dp index * sin angle)%R.

(** *** Where a node comes from *)

(** [k] is the key of a source (downstream) record that names its platform. *)
Definition isSourceApp (src : list SourceRow) (k : string) : Prop :=
  exists row, In row src /\ sourceKey row = k /\ truthy (s_data_platform row) = true.

Definition isDownstreamApp (ds : list DownstreamRow) (k : string) : Prop :=
  exists row, In row ds /\ downstreamKey row = k /\ truthy (d_data_platform row) = true.

(** [n] carries the identity, the platform and the size that the builder
    gives the node it creates for one source (downstream) record. *)
Definition createdBySource (dps : list string) (src : list SourceRow) (n : Node) : Prop :=
  exists row,
    In row src /\ id n = sourceKey row
    /\ name n = orString (present (source_application_name row)) "Unknown"
    /\ dataPlatform n = Some (sourceGroupKey row) /\ In (sourceGroupKey row) dps
    /\ symbolSize n = calculateSymbolSize (IZR (sourceCount row)).

Definition createdByDownstream (dps : list string) (ds : list DownstreamRow) (n : Node)
  : Prop :=
  exists row,
    In row ds /\ id n = downstreamKey row
    /\ name n = orString (present (downstream_application_name row)) "Unknown"
    /\ dataPlatform n = Some (downstreamGroupKey row) /\ In (downstreamGroupKey row) dps
    /\ symbolSize n = calculateSymbolSize (IZR (downstreamCount row)).

Definition provenance (dps : list string) (src : list SourceRow) (ds : list DownstreamRow)
    (n : Node) : Prop :=
  match type n with
  | dataplatform => In (id n) dps /\ name n = id n /\ dataPlatform n = None
  | source | mixed => createdBySource dps src n
  | downstream => createdByDownstream dps ds n
  end.

(** One application with a small and a large source record on one platform. *)
Definition smallThenLarge : list SourceRow :=
  [srow (Some "lake") (Some "App") (Some 2%Z); srow (Some "lake") (Some "app") (Some 40%Z)].

(** *** Orders *)

(** Decreasing order of the table counts. *)
Definition sourceCountGe (a b : SourceRow) : Prop := (sourceCount b <= sourceCount a)%Z.
Definition downstreamCountGe (a b : DownstreamRow) : Prop :=
  (downstreamCount b <= downstreamCount a)%Z.

(** Two applications, each bridging one pair of platforms; the names of the
    platforms contain hyphens and the two pairs have the same connection
    key. *)
Definition hyphenSources : list SourceRow :=
  [srow (Some "a-b") (Some "x") (Some 1%Z); srow (Some "a") (Some "y") (Some 1%Z)].

Definition hyphenDownstreams : list DownstreamRow :=
  [drow (Some "c") (Some "x") (Some 1%Z); drow (Some "b-c") (Some "y") (Some 1%Z)].

(** *** Geometry *)

(** [n] lies on the circle of radius [r] around [(cx, cy)]. *)
Definition onCircle (cx cy r : R) (n : Node) : Prop :=
  ((x n - cx) * (x n - cx) + (y n - cy) * (y n - cy) = r * r)%R.

(** The rings of the circular layout, by node type. *)
Definition mainRing (n : Node) : Prop :=
  let on r := onCircle Main.centerX Main.centerY r n in
  match type n with
  | dataplatform => on 126%R
  | source | mixed => on 63%R \/ on 105%R \/ on 147%R
  | downstream => on 63%R \/ on 105%R \/ on 147%R \/ on 189%R \/ on 231%R
  end.

(** The annuli of the Venn layout, by node type (radii around the center). *)
Definition vennRing (n : Node) : Prop :=
  exists r : R,
    onCircle Venn.centerX Venn.centerY r n
    /\ match type n with
       | dataplatform => (291.6 <= r <= 518.4)%R
       | source | mixed => (27 <= r <= 235.8)%R
       | downstream => (235.6 <= r <= 752)%R
       end.

(** The squared distance of a node from the center of the Venn layout. *)
Definition vennDist2 (n : Node) : R :=
  ((x n - Venn.centerX) * (x n - Venn.centerX)
   + (y n - Venn.centerY) * (y n - Venn.centerY))%R.

(** One downstream record without tables. *)
Definition idleConsumer : list DownstreamRow := [drow (Some "p") (Some "a") (Some 0%Z)].

(** *** Link styles *)

(** No record has a negative table count (a missing count is 0). *)
Definition countsNonneg (src : list SourceRow) (ds : list DownstreamRow) : Prop :=
  (forall row, In row src -> (0 <= sourceCount row)%Z)
  /\ (forall row, In row ds -> (0 <= downstreamCount row)%Z).

(** [l] carries a line style whose width, opacity and curveness lie in the
    given ranges. *)
Definition styled (wlo whi olo ohi clo chi : R) (l : Link) : Prop :=
  exists stl o,
    lineStyle l = Some stl /\ l_opacity stl = Some o
    /\ (wlo <= width stl <= whi)%R /\ (olo <= o <= ohi)%R
    /\ (clo <= curveness stl <= chi)%R.

(** *** Built graphs and their highlight *)

(** [g] is a graph that one of the two builders returns. *)
Definition built (g : Graph) : Prop :=
  (exists src ds cm, g = Main.getMainGraphData src ds cm)
  \/ (exists src ds cm rnd, Venn.getVennNetworkLayout src ds cm rnd = Ok g).

(** The opacity of a link's line, if it has a style and an opacity. *)
Definition linkOpacity (l : Link) : option R :=
  match lineStyle l with
  | Some stl => l_opacity stl
  | None => None
  end.

(** Hovering [h] in [g] shows every node with id [k] at full opacity, and
    some link between [h] and [k] at opacity 0.8. *)
Definition lights (g : Graph) (h k : string) : Prop :=
  exists g',
    Chart.getChartOptions (Some g) (Some h) = Some g'
    /\ (forall n', In n' (nodes g') -> id n' = k -> opacity (itemStyle n') = Some 1%R)
    /\ exists l', In l' (links g') /\ joins h k l' /\ linkOpacity l' = Some 0.8%R.

(** Everything of a node but the three fields the highlight sets. *)
Definition nodeCore (n : Node)
  : string * string * Tables * NodeType * option string * option bool * R * R * R * string :=
  (id n, name n, tables n, type n, dataPlatform n, isMixed n, x n, y n, symbolSize n,
   color (itemStyle n)).

(** A link between two ids, without a style. *)
Definition bareLink (a b : string) : Link :=
  {| l_source := EpId a; l_target := EpId b; value := 1; lineStyle := None |}.

(** The link the Venn builder pushes for a connection [c] with more than
    three bridging pairs; [r] is the random draw. *)
Definition vennPlatformLink (c : Link) (r : R) : Link :=
  {| l_source := l_source c; l_target := l_target c; value := value c;
     lineStyle := Some {| l_color := "#9370DB";
                          width := Rmin 4 (Rmax 1 (ln (IZR (value c)) / 2));
                          l_type := dashed;
                          l_opacity := Some (Rmin 0.6 (0.3 + IZR (value c) / 100));
                          curveness := (0.3 + r * 0.1)%R |} |}.

(** *** The mock data *)

(** The number of link ends at the id [k]. *)
Definition degree (k : string) (links : list Gen.RawLink) : Z :=
  fold_right Z.add 0%Z
    (map (fun l => ((if (Gen.g_source l =? k)%string then 1 else 0)
                    + (if (Gen.g_target l =? k)%string then 1 else 0))%Z) links).

(** The groups a raw node is filtered into. *)
Definition groupsOf (n : Gen.RawNode) : list Gen.Group :=
  filter (fun g => Gen.inGroup g n) Gen.groups.

(** A node with one of the three types that is not a mixed platform: it is
    in exactly one group. *)
Definition oneGroup (n : Gen.RawNode) : Prop := List.length (groupsOf n) = 1%nat.

Definition pid (p : Gen.PNode) : string := Gen.r_id (Gen.raw p).

(** The column in which [calculateNodePositions] puts a node of group [g]:
    the range of [x] and of [y]. *)
Definition inColumn (g : Gen.Group) (p : Gen.PNode) : Prop :=
  match g with
  | Gen.GSource =>
      (-122.5 <= Gen.p_x p <= 835 /\ 82 <= Gen.p_y p <= 2383)%R
  | Gen.GDataPlatform =>
      (Gen.p_x p = 1500 /\ 360 < Gen.p_y p < 2040)%R
  | Gen.GDownstream =>
      (1977.5 <= Gen.p_x p <= 2935 /\ 82 <= Gen.p_y p <= 2383)%R
  | Gen.GMixed =>
      (590 <= Gen.p_x p <= 1360 /\ 256 <= Gen.p_y p <= 2330)%R
  end.

Definition placedInColumn (p : Gen.PNode) : Prop :=
  exists g, Gen.inGroup g (Gen.raw p) = true /\ inColumn g p.

(** All strings of a list are different. *)
Fixpoint distinct (l : list string) : bool :=
  match l with
  | [] => true
  | x :: l' => negb (existsb (String.eqb x) l') && distinct l'
  end.

(** Raw nodes used in the examples. *)
Definition rawNode (i t : string) (m : option bool) : Gen.RawNode :=
  {| Gen.r_id := i; Gen.r_type := t; Gen.r_label := i; Gen.r_isMixed := m |}.

(** The node each positioning loop pushes. *)
Definition platformPNode (counts : Amap Z) (nodeCount : nat) (node : Gen.RawNode)
    (index : nat) : Gen.PNode :=
  {| Gen.raw := node;
     Gen.p_x := Gen.columnPosition Gen.GDataPlatform;
     Gen.p_y := ((INR index + 1) * (Gen.height * 0.7 / (INR nodeCount + 1))
                 + Gen.height * 0.15)%R;
     Gen.connectionCount := Gen.countOf counts node |}.

Definition layerPNode (counts : Amap Z) (g : Gen.Group) (nodeCount : nat)
    (node : Gen.RawNode) (index : nat) (r1 r2 : R) : Gen.PNode :=
  {| Gen.raw := node;
     Gen.p_x := (Gen.xPosition g nodeCount index + Gen.jitter r1)%R;
     Gen.p_y := (Gen.yPosition g nodeCount index + Gen.jitter r2)%R;
     Gen.connectionCount := Gen.countOf counts node |}.

(** The sum of the connection counts of a list of positioned nodes. *)
Definition totalConnections (ps : list Gen.PNode) : Z :=
  fold_right Z.add 0%Z (map Gen.connectionCount ps).

(** Both ends of a mock link are ids of the list. *)
Definition linkInside (ids : list string) (l : Gen.RawLink) : Prop :=
  In (Gen.g_source l) ids /\ In (Gen.g_target l) ids.

(** Boolean form of [linkInside]. *)
Definition linkInsideb (ids : list string) (l : Gen.RawLink) : bool :=
  existsb (String.eqb (Gen.g_source l)) ids && existsb (String.eqb (Gen.g_target l)) ids.

(** The ids of the mock data, in the order of the result. *)
Definition mockIds : list string :=
  map (fun i => ("s" ++ Gen.decimal i)%string) (seq 1 150)
  ++ ["dp1"; "dp2"; "dp3"; "dp4"]
  ++ map (fun i => ("d" ++ Gen.decimal i)%string) (seq 1 150)
  ++ map (fun i => ("m" ++ Gen.decimal i)%string) (seq 1 10).

(** The connection counts the mock data can have: those of the four
    platforms, and one or two for every other node. *)
Definition mockCountOk (p : Gen.PNode) : bool :=
  if (Gen.r_type (Gen.raw p) =? "DataPlatform")%string
  then existsb (Z.eqb (Gen.connectionCount p)) [92; 95; 98]%Z
  else existsb (Z.eqb (Gen.connectionCount p)) [1; 2]%Z.

Definition mockTypeOk (p : Gen.PNode) : bool :=
  match groupsOf (Gen.raw p) with
  | [_] => true
  | _ => false
  end.

(** *** The component *)

(** A positioned node with a given type and connection count. *)
Definition sizedNode (t : string) (c : Z) : Gen.PNode :=
  {| Gen.raw := rawNode "n" t None; Gen.p_x := 0; Gen.p_y := 0; Gen.connectionCount := c |}.

Definition isPlatformType (p : Gen.PNode) : bool :=
  (Gen.r_type (Gen.raw p) =? "DataPlatform")%string.

(** An event on the node with id [i]. *)
Definition onNode (i : string) : option Component.Params :=
  Some {| Component.p_data := Some {| Component.d_id := Some i |};
          Component.p_dataType := "node" |}.

(** An event on an edge. *)
Definition onEdge : option Component.Params :=
  Some {| Component.p_data := Some {| Component.d_id := None |};
          Component.p_dataType := "edge" |}.

(** The colour and the size range the component gives the nodes of the mock
    data, by the first letter of the id. *)
Definition colorOk (i : string) (c : option string) : bool :=
  match i, c with
  | String "s" _, Some c => (c =? "#34A853")%string
  | String "d" (String "p" _), Some c => (c =? "#4285F4")%string
  | String "d" _, Some c => (c =? "#EA4335")%string
  | String "m" _, Some c => (c =? "#AA46BC")%string
  | _, _ => false
  end.

Definition mockColorOk (s : Component.ShownNode) : bool :=
  colorOk (pid (Component.sh_node s)) (Component.sh_color s).

Definition mockSizeOk (s : Component.ShownNode) : Prop :=
  exists r, Component.sh_symbolSize s = Some r
            /\ if isPlatformType (Component.sh_node s) then r = 50%R
               else (10 <= r <= 25)%R.

(** *** The state of a key in closed form *)

Definition isPlatformKey (src : list SourceRow) (ds : list DownstreamRow) (k : string)
  : bool :=
  existsb (String.eqb k) (collectPlatforms src ds).

Definition hasSourceKey (src : list SourceRow) (k : string) : bool :=
  existsb (fun row => (sourceKey row =? k)%string) src.

Definition hasDownstreamKey (ds : list DownstreamRow) (k : string) : bool :=
  existsb (fun row => (downstreamKey row =? k)%string) ds.

(** The type and the table count stored under a key, from what the records
    say about it: a platform name keeps its platform node, whose [tables]
    becomes [NaN] when a record has the same key; otherwise the key has a node
    when a record has it, a source (mixed when a downstream record has the key
    too) or a downstream, with the sum of the table counts. *)
Definition keyState (src : list SourceRow) (ds : list DownstreamRow) (k : string) : KState :=
  if isPlatformKey src ds k then
    Some (dataplatform, if hasSourceKey src k || hasDownstreamKey ds k then TNaN
                        else TUndefined)
  else if hasSourceKey src k then
    Some (if hasDownstreamKey ds k then mixed else source,
          TNum (sourceWeight k src + downstreamWeight k ds))
  else if hasDownstreamKey ds k then Some (downstream, TNum (downstreamWeight k ds))
  else None.

(** An application that has the name of its platform. *)
Definition lakeOnLake : list SourceRow := [srow (Some "Lake") (Some "LAKE") (Some 5%Z)].

(** *** Flags and platform counts *)

(** The [isMixed] flag says what the type says. *)
Definition flagMatchesType (n : Node) : Prop :=
  isMixed n = match type n with
              | dataplatform => None
              | mixed => Some true
              | source | downstream => Some false
              end.

(** [o] is the platform [p], up to case. *)
Definition onPlatform (p : string) (o : option string) : bool :=
  match o with
  | Some s => (toLowerCase s =? p)%string
  | None => false
  end.

(** The number of records, of both lists, on the platform [p]. *)
Definition recordsOn (p : string) (src : list SourceRow) (ds : list DownstreamRow) : Z :=
  (Z.of_nat (List.length (filter (fun row => onPlatform p (s_data_platform row)) src))
   + Z.of_nat (List.length (filter (fun row => onPlatform p (d_data_platform row)) ds)))%Z.

(** The radius of the platform at [index] that has [count] records. *)
Definition platformRadiusOf (count : Z) (index : nat) : R :=
  (360 * Rmin 1.2 (Rmax 0.9 (0.9 + IZR count / 1000)) * (0.9 + INR (index mod 4) * 0.1))%R.

(** The identity and the position of a node. *)
Definition nodePlace (n : Node) : string * R * R := (id n, x n, y n).

(** *** Tooltips *)

(** What kind of [tables] a node has: a platform never has a number, an
    entity always has one. *)
Definition tablesKind (n : Node) : Prop :=
  match type n with
  | dataplatform => tables n = TUndefined \/ tables n = TNaN
  | source | downstream | mixed => exists z, tables n = TNum z
  end.

(** The tooltip of a node of a built graph and of a node of the mock data. *)
Definition nodeTip (n : Node) : string :=
  Tooltip.formatter (Tooltip.onNode (Tooltip.ofNode n)).

Definition mockTip (p : Gen.PNode) : string :=
  Tooltip.formatter (Tooltip.onNode (Tooltip.ofMockNode p)).

(** * Properties *)

(** ** Loops, sorting and strings *)

Lemma forEachFrom_inv {A St : Type} (P : St -> Prop) (f : St -> A -> nat -> St) (l : list A) :
  (forall s a i, In a l -> P s -> P (f s a i)) ->
  forall i s, P s -> P (forEachFrom f i l s).
Proof.
  induction l as [|a l IH]; intros Hstep i s Hs; simpl.
  - exact Hs.
  - apply IH.
    + intros s' a' i' Hin. apply Hstep. now right.
    + apply Hstep; [now left | exact Hs].
Qed.

Lemma forEach_inv {A St : Type} (P : St -> Prop) (f : St -> A -> nat -> St) (l : list A) s :
  (forall s a i, In a l -> P s -> P (f s a i)) -> P s -> P (forEach f l s).
Proof. intros H Hs. unfold forEach. now apply forEachFrom_inv. Qed.

(** A loop whose body ignores the index is a left fold. *)
Lemma forEachFrom_fold {A St : Type} (f : St -> A -> nat -> St) (g : St -> A -> St) l :
  (forall s a i, f s a i = g s a) ->
  forall i s, forEachFrom f i l s = fold_left g l s.
Proof.
  intros Hfg. induction l as [|a l IH]; intros i s; simpl; [reflexivity|].
  now rewrite Hfg, IH.
Qed.

Lemma insertBy_perm {A : Type} (le : A -> A -> bool) x l :
  Permutation (x :: l) (insertBy le x l).
Proof.
  induction l as [|y l IH]; simpl.
  - apply Permutation_refl.
  - destruct (le x y).
    + apply Permutation_refl.
    + eapply perm_trans; [apply perm_swap|]. now apply perm_skip.
Qed.

Lemma sortBy_perm {A : Type} (le : A -> A -> bool) l : Permutation l (sortBy le l).
Proof.
  induction l as [|x l IH]; simpl.
  - constructor.
  - eapply perm_trans; [apply perm_skip, IH | apply insertBy_perm].
Qed.

Lemma sortBy_In {A : Type} (le : A -> A -> bool) l a : In a (sortBy le l) <-> In a l.
Proof.
  split; intro H.
  - eapply Permutation_in; [apply Permutation_sym, sortBy_perm | exact H].
  - eapply Permutation_in; [apply sortBy_perm | exact H].
Qed.

Lemma sortBy_length {A : Type} (le : A -> A -> bool) l :
  List.length (sortBy le l) = List.length l.
Proof. symmetry. apply Permutation_length, sortBy_perm. Qed.

Section SortedByKey.
Context {A : Type} (key : A -> Z).

Let le (a b : A) : bool := (key a <=? key b)%Z.
Let leKey (a b : A) : Prop := (key a <= key b)%Z.

Lemma insertBy_key_sorted x l :
  StronglySorted leKey l -> StronglySorted leKey (insertBy le x l).
Proof.
  induction l as [|y l IH]; intros Hs; simpl.
  - repeat constructor.
  - inversion Hs as [|? ? Hs' Hall]; subst.
    unfold le at 1. destruct (Z.leb_spec (key x) (key y)) as [Hxy|Hxy].
    + constructor; [exact Hs|]. constructor; [exact Hxy|].
      eapply Forall_impl; [|exact Hall]. intros a Ha. unfold leKey in *. lia.
    + constructor; [now apply IH|].
      assert (Hp : Permutation (x :: l) (insertBy le x l)) by apply insertBy_perm.
      rewrite Forall_forall. intros a Ha.
      apply Permutation_sym in Hp. apply (Permutation_in _ Hp) in Ha.
      destruct Ha as [<-|Ha]; [unfold leKey; lia|].
      rewrite Forall_forall in Hall. now apply Hall.
Qed.

Lemma sortBy_key_sorted l : StronglySorted leKey (sortBy le l).
Proof.
  induction l as [|x l IH]; simpl; [constructor|]. now apply insertBy_key_sorted.
Qed.
End SortedByKey.

Lemma lowerAscii_not_upper c :
  let n := nat_of_ascii (lowerAscii c) in ~ (65 <= n <= 90)%nat.
Proof.
  unfold lowerAscii. cbv zeta.
  destruct ((65 <=? nat_of_ascii c)%nat && (nat_of_ascii c <=? 90)%nat) eqn:E.
  - apply andb_true_iff in E. destruct E as [E1 E2].
    apply Nat.leb_le in E1. apply Nat.leb_le in E2.
    rewrite nat_ascii_embedding by lia. lia.
  - apply andb_false_iff in E. destruct E as [E|E]; apply Nat.leb_gt in E; lia.
Qed.

(** No lower-cased string is the default group key ["Unknown"]. *)
Lemma toLowerCase_not_Unknown s : toLowerCase s <> "Unknown".
Proof.
  destruct s as [|c s]; simpl; [discriminate|].
  intros H. injection H as Hc _.
  pose proof (lowerAscii_not_upper c) as Hn. cbv zeta in Hn.
  rewrite Hc in Hn. apply Hn.
  change (nat_of_ascii "U") with 85%nat. lia.
Qed.

Lemma toLowerCase_idem s : toLowerCase (toLowerCase s) = toLowerCase s.
Proof.
  induction s as [|c s IH]; simpl; [reflexivity|]. rewrite IH. f_equal.
  pose proof (lowerAscii_not_upper c) as Hn. cbv zeta in Hn.
  unfold lowerAscii at 1.
  destruct ((65 <=? nat_of_ascii (lowerAscii c))%nat
            && (nat_of_ascii (lowerAscii c) <=? 90)%nat) eqn:E; [|reflexivity].
  apply andb_true_iff in E. destruct E as [E1 E2].
  apply Nat.leb_le in E1. apply Nat.leb_le in E2. lia.
Qed.

Lemma fold_left_map {A B C : Type} (f : C -> B -> C) (g : A -> B) l c :
  fold_left f (map g l) c = fold_left (fun c a => f c (g a)) l c.
Proof. revert c. induction l as [|a l IH]; intros c; simpl; [reflexivity | apply IH]. Qed.

Lemma fold_left_snoc {A B : Type} (f : A -> B) l acc :
  fold_left (fun ls a => ls ++ [f a]) l acc = acc ++ map f l.
Proof.
  revert acc. induction l as [|a l IH]; intros acc; simpl.
  - now rewrite app_nil_r.
  - rewrite IH, <- app_assoc. reflexivity.
Qed.

(** ** Maps in insertion order *)

Lemma NoDup_snoc {A : Type} (l : list A) (a : A) :
  NoDup l -> ~ In a l -> NoDup (l ++ [a]).
Proof.
  intros Hnd Hnotin. apply NoDup_app.
  - exact Hnd.
  - constructor; [intros [] | constructor].
  - intros b Hb [<-|[]]. now apply Hnotin.
Qed.

Section AmapFacts.
Context {V : Type}.
Implicit Types (m : Amap V) (k : string) (v : V).

Lemma ahas_aget k m : ahas k m = match aget k m with Some _ => true | None => false end.
Proof.
  unfold ahas, aget. induction m as [|[k' v'] m IH]; simpl; [reflexivity|].
  destruct (k' =? k)%string; simpl; [reflexivity | exact IH].
Qed.

Lemma aget_app k m1 m2 :
  aget k (m1 ++ m2) = match aget k m1 with Some v => Some v | None => aget k m2 end.
Proof.
  unfold aget. induction m1 as [|[k' v'] m1 IH]; simpl; [reflexivity|].
  destruct (k' =? k)%string; simpl; [reflexivity | exact IH].
Qed.

Lemma aget_aset_same k v m : aget k (aset k v m) = Some v.
Proof.
  unfold aset. destruct (ahas k m) eqn:E.
  - unfold ahas, aget in *. induction m as [|[k' v'] m IH]; simpl in *; [discriminate|].
    destruct (k' =? k)%string eqn:Ek; simpl.
    + now rewrite String.eqb_refl.
    + rewrite Ek. simpl in E. now apply IH.
  - rewrite aget_app. rewrite ahas_aget in E.
    destruct (aget k m); [discriminate|].
    unfold aget. simpl. now rewrite String.eqb_refl.
Qed.

Lemma aget_aset_other k k' v m : k <> k' -> aget k (aset k' v m) = aget k m.
Proof.
  intros Hne. unfold aset. destruct (ahas k' m).
  - unfold aget. induction m as [|[k0 v0] m IH]; simpl; [reflexivity|].
    destruct (k0 =? k')%string eqn:E0; simpl.
    + apply String.eqb_eq in E0. subst k0.
      destruct (String.eqb_spec k' k) as [->|_]; [congruence|].
      destruct (String.eqb_spec k' k) as [->|_]; [congruence|]. exact IH.
    + destruct (k0 =? k)%string; simpl; [reflexivity | exact IH].
  - rewrite aget_app. destruct (aget k m); [reflexivity|].
    unfold aget. simpl. destruct (String.eqb_spec k' k) as [->|_]; [congruence | reflexivity].
Qed.

Lemma aget_aset k k' v m :
  aget k (aset k' v m) = if (k' =? k)%string then Some v else aget k m.
Proof.
  destruct (String.eqb_spec k' k) as [->|Hne].
  - apply aget_aset_same.
  - apply aget_aset_other. congruence.
Qed.

Lemma keys_aset k v m :
  map fst (aset k v m) = if ahas k m then map fst m else map fst m ++ [k].
Proof.
  unfold aset. destruct (ahas k m).
  - induction m as [|[k0 v0] m IH]; simpl; [reflexivity|].
    rewrite IH. f_equal. destruct (String.eqb_spec k0 k) as [->|_]; reflexivity.
  - now rewrite map_app.
Qed.

Lemma ahas_In k m : ahas k m = true <-> In k (map fst m).
Proof.
  unfold ahas. rewrite existsb_exists. split.
  - intros [e [He Hk]]. apply String.eqb_eq in Hk. subst. now apply in_map.
  - intros Hin. apply in_map_iff in Hin. destruct Hin as [e [<- He]].
    exists e. split; [exact He | apply String.eqb_refl].
Qed.

Lemma aget_In k v m : aget k m = Some v -> In (k, v) m.
Proof.
  unfold aget. intros H. destruct (find _ m) as [[k' v']|] eqn:E; [|discriminate].
  injection H as <-. apply find_some in E. destruct E as [E1 E2].
  simpl in E2. apply String.eqb_eq in E2. now subst.
Qed.

Lemma In_aget k v m : NoDup (map fst m) -> In (k, v) m -> aget k m = Some v.
Proof.
  unfold aget. induction m as [|[k0 v0] m IH]; simpl; intros Hnd Hin; [contradiction|].
  inversion Hnd as [|? ? Hnotin Hnd']; subst.
  destruct Hin as [Heq|Hin].
  - injection Heq as -> ->. now rewrite String.eqb_refl.
  - destruct (String.eqb_spec k0 k) as [->|_].
    + exfalso. apply Hnotin. change k with (fst (k, v)). now apply in_map.
    + now apply IH.
Qed.

Lemma NoDup_keys_aset k v m : NoDup (map fst m) -> NoDup (map fst (aset k v m)).
Proof.
  intros Hnd. rewrite keys_aset. destruct (ahas k m) eqn:E; [exact Hnd|].
  apply NoDup_snoc; [exact Hnd|].
  intros Hin. apply ahas_In in Hin. congruence.
Qed.
End AmapFacts.

(** ** The node registry *)

Lemma nodeMap_has_get k ns :
  nodeMap_has k ns = match nodeMap_get k ns with Some _ => true | None => false end.
Proof.
  unfold nodeMap_has, nodeMap_get. induction ns as [|n ns IH]; simpl; [reflexivity|].
  destruct (id n =? k)%string; simpl; [reflexivity | exact IH].
Qed.

Lemma nodeMap_has_In k ns : nodeMap_has k ns = true <-> In k (map id ns).
Proof.
  unfold nodeMap_has. rewrite existsb_exists. split.
  - intros [n [Hn Hk]]. apply String.eqb_eq in Hk. subst. now apply in_map.
  - intros Hin. apply in_map_iff in Hin. destruct Hin as [n [<- Hn]].
    exists n. split; [exact Hn | apply String.eqb_refl].
Qed.

Lemma nodeMap_get_app k ns1 ns2 :
  nodeMap_get k (ns1 ++ ns2)
  = match nodeMap_get k ns1 with Some n => Some n | None => nodeMap_get k ns2 end.
Proof.
  unfold nodeMap_get. induction ns1 as [|n ns1 IH]; simpl; [reflexivity|].
  destruct (id n =? k)%string; [reflexivity | exact IH].
Qed.

Lemma nodeMap_get_id k ns n : nodeMap_get k ns = Some n -> id n = k /\ In n ns.
Proof.
  unfold nodeMap_get. intros H. apply find_some in H. destruct H as [H1 H2].
  apply String.eqb_eq in H2. now split.
Qed.

Lemma nodeMap_get_unique ns n :
  NoDup (map id ns) -> In n ns -> nodeMap_get (id n) ns = Some n.
Proof.
  unfold nodeMap_get. induction ns as [|m ns IH]; simpl; intros Hnd Hin; [contradiction|].
  inversion Hnd as [|? ? Hnotin Hnd']; subst.
  destruct Hin as [->|Hin].
  - now rewrite String.eqb_refl.
  - destruct (String.eqb_spec (id m) (id n)) as [E|_].
    + exfalso. apply Hnotin. rewrite E. now apply in_map.
    + now apply IH.
Qed.

Lemma bumpTables_id c n : id (bumpTables c n) = id n.
Proof. reflexivity. Qed.

Lemma promoteMixed_id col n : id (promoteMixed col n) = id n.
Proof. unfold promoteMixed. now destruct (type n). Qed.

Lemma promoteMixed_type col n : type (promoteMixed col n) = promoteType (type n).
Proof. unfold promoteMixed, promoteType. now destruct (type n) eqn:E. Qed.

Lemma promoteMixed_tables col n : tables (promoteMixed col n) = tables n.
Proof. unfold promoteMixed. now destruct (type n). Qed.

Lemma promoteMixed_dataPlatform col n : dataPlatform (promoteMixed col n) = dataPlatform n.
Proof. unfold promoteMixed. now destruct (type n). Qed.

Lemma promoteMixed_symbolSize col n : symbolSize (promoteMixed col n) = symbolSize n.
Proof. unfold promoteMixed. now destruct (type n). Qed.

Lemma updateNode_ids k f ns :
  (forall n, id (f n) = id n) -> map id (updateNode k f ns) = map id ns.
Proof.
  intros Hf. unfold updateNode. rewrite map_map. apply map_ext.
  intros n. destruct (id n =? k)%string; [apply Hf | reflexivity].
Qed.

Lemma nodeMap_get_updateNode k k' f ns :
  (forall n, id (f n) = id n) ->
  nodeMap_get k (updateNode k' f ns)
  = if (k' =? k)%string then option_map f (nodeMap_get k ns) else nodeMap_get k ns.
Proof.
  intros Hf. unfold nodeMap_get, updateNode.
  induction ns as [|n ns IH]; simpl.
  - now destruct (k' =? k)%string.
  - destruct (String.eqb_spec (id n) k') as [E1|E1].
    + rewrite Hf. destruct (String.eqb_spec (id n) k) as [E2|E2].
      * subst. now rewrite String.eqb_refl.
      * rewrite IH. reflexivity.
    + destruct (String.eqb_spec (id n) k) as [E2|E2].
      * destruct (String.eqb_spec k' k) as [E3|E3]; [congruence | reflexivity].
      * exact IH.
Qed.

Section UpsertFacts.
Variables (mixedColor : string) (isDownstream : bool) (key : string) (count : Z)
          (fresh : option Node).

Let hit (n : Node) : Node :=
  if isDownstream then promoteMixed mixedColor (bumpTables count n) else bumpTables count n.

Lemma upsert_hit_id n : id (hit n) = id n.
Proof. unfold hit. destruct isDownstream; [now rewrite promoteMixed_id | reflexivity]. Qed.

(** An upsert never changes the ids already registered, and adds at most
    its own key. *)
Lemma upsert_ids ns :
  (forall n, fresh = Some n -> id n = key) ->
  map id (upsert mixedColor isDownstream key count fresh ns)
  = if nodeMap_has key ns then map id ns
    else match fresh with Some _ => map id ns ++ [key] | None => map id ns end.
Proof.
  intros Hfresh. unfold upsert. destruct (nodeMap_has key ns).
  - apply updateNode_ids, upsert_hit_id.
  - destruct fresh as [n|]; [|reflexivity].
    rewrite map_app. simpl. now rewrite (Hfresh n eq_refl).
Qed.

Lemma upsert_NoDup ns :
  (forall n, fresh = Some n -> id n = key) ->
  NoDup (map id ns) -> NoDup (map id (upsert mixedColor isDownstream key count fresh ns)).
Proof.
  intros Hfresh Hnd. rewrite upsert_ids by exact Hfresh.
  destruct (nodeMap_has key ns) eqn:E; [exact Hnd|].
  destruct fresh; [|exact Hnd].
  apply NoDup_snoc; [exact Hnd|].
  intros Hin. apply nodeMap_has_In in Hin. congruence.
Qed.

(** A property of single nodes that the two in-place updates keep and the
    fresh node has is kept by an upsert. *)
Lemma upsert_Forall (P : Node -> Prop) ns :
  (forall n, P n -> P (hit n)) ->
  (forall n, fresh = Some n -> P n) ->
  Forall P ns -> Forall P (upsert mixedColor isDownstream key count fresh ns).
Proof.
  intros Hhit Hfresh Hall. unfold upsert. destruct (nodeMap_has key ns).
  - unfold updateNode. rewrite Forall_forall in *. intros n Hn.
    apply in_map_iff in Hn. destruct Hn as [n0 [<- Hn0]].
    destruct (id n0 =? key)%string; [apply Hhit|]; now apply Hall.
  - destruct fresh as [n|]; [|exact Hall].
    apply Forall_app. split; [exact Hall|]. constructor; [now apply Hfresh | constructor].
Qed.

(** The effect of an upsert on the type and weight stored under a key. *)
Lemma lookKey_upsert k ns :
  (forall n, fresh = Some n ->
             id n = key /\ type n = roleType isDownstream /\ tables n = TNum count) ->
  lookKey k (upsert mixedColor isDownstream key count fresh ns)
  = kstep k (lookKey k ns)
      {| u_downstream := isDownstream; u_key := key; u_count := count;
         u_creates := match fresh with Some _ => true | None => false end |}.
Proof.
  intros Hfresh. unfold upsert, kstep, lookKey. simpl.
  rewrite nodeMap_has_get.
  destruct (nodeMap_get key ns) as [n0|] eqn:Eget.
  - rewrite nodeMap_get_updateNode by apply upsert_hit_id.
    destruct (String.eqb_spec key k) as [->|Hne]; [|reflexivity].
    rewrite Eget. simpl. unfold hit.
    destruct isDownstream; simpl;
      [now rewrite promoteMixed_type, promoteMixed_tables | reflexivity].
  - destruct fresh as [n|].
    + destruct (Hfresh n eq_refl) as (Hid & Hty & Htb).
      rewrite nodeMap_get_app.
      destruct (String.eqb_spec key k) as [->|Hne].
      * rewrite Eget. unfold nodeMap_get. simpl. rewrite Hid, String.eqb_refl.
        simpl. now rewrite Hty, Htb.
      * destruct (nodeMap_get k ns); [reflexivity|].
        unfold nodeMap_get. simpl. rewrite Hid.
        destruct (String.eqb_spec key k); [congruence | reflexivity].
    + destruct (String.eqb_spec key k) as [->|Hne]; [now rewrite Eget | reflexivity].
Qed.
End UpsertFacts.

(** ** The platform set *)

Lemma forEachFrom_proj {A St T : Type} (f : St -> A -> nat -> St) (proj : St -> T)
    (g : T -> A -> T) (l : list A) :
  (forall s a i, In a l -> proj (f s a i) = g (proj s) a) ->
  forall i s, proj (forEachFrom f i l s) = fold_left g l (proj s).
Proof.
  induction l as [|a l IH]; intros H i s; simpl; [reflexivity|].
  rewrite IH.
  - now rewrite H by now left.
  - intros s' a' i' Hin. apply H. now right.
Qed.

Lemma setAdd_NoDup s a : NoDup s -> NoDup (setAdd s a).
Proof.
  intros Hnd. unfold setAdd. destruct (existsb (String.eqb a) s) eqn:E; [exact Hnd|].
  apply NoDup_snoc; [exact Hnd|]. intros Hin.
  assert (existsb (String.eqb a) s = true); [|congruence].
  apply existsb_exists. exists a. split; [exact Hin | apply String.eqb_refl].
Qed.

Lemma setAdd_In s a b : In b (setAdd s a) <-> In b s \/ b = a.
Proof.
  unfold setAdd. destruct (existsb (String.eqb a) s) eqn:E.
  - apply existsb_exists in E. destruct E as [c [Hc Hac]]. apply String.eqb_eq in Hac. subst c.
    split; [now left | intros [H| ->]; assumption].
  - rewrite in_app_iff. simpl. split.
    + intros [H|[<-|[]]]; [now left | now right].
    + intros [H| ->]; [now left | right; now left].
Qed.

Lemma fold_setAdd_NoDup {A : Type} (f : A -> string) l s :
  NoDup s -> NoDup (fold_left (fun s row => setAdd s (f row)) l s).
Proof.
  revert s. induction l as [|a l IH]; intros s Hnd; simpl; [exact Hnd|].
  apply IH. now apply setAdd_NoDup.
Qed.

Lemma fold_setAdd_In {A : Type} (f : A -> string) l s b :
  In b (fold_left (fun s row => setAdd s (f row)) l s) <-> In b s \/ In b (map f l).
Proof.
  revert s. induction l as [|a l IH]; intros s; simpl.
  - tauto.
  - rewrite IH, setAdd_In. intuition congruence.
Qed.

Lemma collectPlatforms_NoDup src ds : NoDup (collectPlatforms src ds).
Proof.
  unfold collectPlatforms. apply fold_setAdd_NoDup, fold_setAdd_NoDup. constructor.
Qed.

Lemma collectPlatforms_In src ds p :
  In p (collectPlatforms src ds) <->
  In p (map (fun row => toLowerCase (orString (s_data_platform row) "Unknown")) src)
  \/ In p (map (fun row => toLowerCase (orString (d_data_platform row) "Unknown")) ds).
Proof.
  unfold collectPlatforms. rewrite !fold_setAdd_In. simpl. tauto.
Qed.

(** A group key is a registered platform exactly when the row names its
    platform (the default ["Unknown"] is registered lower-cased). *)
Lemma groupKey_lower (o : option string) :
  truthy o = true ->
  orString (optLower o) "Unknown" = toLowerCase (orString o "Unknown").
Proof.
  destruct o as [[|c s]|]; simpl; intros H; try discriminate. reflexivity.
Qed.

Lemma groupKey_unnamed (o : option string) :
  truthy o = false -> orString (optLower o) "Unknown" = "Unknown".
Proof.
  destruct o as [[|c s]|]; simpl; intros H; try discriminate; reflexivity.
Qed.

Lemma collectPlatforms_lower src ds p : In p (collectPlatforms src ds) -> toLowerCase p = p.
Proof.
  rewrite collectPlatforms_In. intros [H|H]; apply in_map_iff in H;
    destruct H as [row [<- _]]; apply toLowerCase_idem.
Qed.

Lemma collectPlatforms_not_Unknown src ds : ~ In "Unknown" (collectPlatforms src ds).
Proof.
  intros H. apply collectPlatforms_lower in H. now apply toLowerCase_not_Unknown in H.
Qed.

Lemma sourceGroupKey_registered src ds row :
  In row src -> truthy (s_data_platform row) = true ->
  In (sourceGroupKey row) (collectPlatforms src ds).
Proof.
  intros Hin Ht. unfold sourceGroupKey. rewrite groupKey_lower by exact Ht.
  apply collectPlatforms_In. left.
  now apply (in_map (fun row => toLowerCase (orString (s_data_platform row) "Unknown"))).
Qed.

Lemma downstreamGroupKey_registered src ds row :
  In row ds -> truthy (d_data_platform row) = true ->
  In (downstreamGroupKey row) (collectPlatforms src ds).
Proof.
  intros Hin Ht. unfold downstreamGroupKey. rewrite groupKey_lower by exact Ht.
  apply collectPlatforms_In. right.
  now apply (in_map (fun row => toLowerCase (orString (d_data_platform row) "Unknown"))).
Qed.

(** ** Platform nodes *)

Lemma regionNode_isRegion cm dp px py : isRegion (regionNode cm dp px py).
Proof. repeat split. Qed.

Lemma Main_platformNodes_from cm size l : forall i ns,
  NoDup (map id ns ++ l) ->
  Forall isRegion ns ->
  let r := forEachFrom (Main.platformStep cm size) i l ns in
  map id r = map id ns ++ l /\ Forall isRegion r.
Proof.
  induction l as [|dp l IH]; intros i ns Hnd Hall; simpl.
  - now rewrite app_nil_r.
  - assert (Hnew : nodeMap_has dp ns = false).
    { destruct (nodeMap_has dp ns) eqn:E; [|reflexivity].
      apply nodeMap_has_In in E. apply NoDup_remove_2 in Hnd.
      exfalso. apply Hnd. apply in_or_app. now left. }
    unfold Main.platformStep at 2 4. rewrite Hnew. simpl.
    specialize (IH (S i) (ns ++ [regionNode cm dp
       (fst (getCircularPosition i size (Main.radius * 0.6) Main.centerX Main.centerY))
       (snd (getCircularPosition i size (Main.radius * 0.6) Main.centerX Main.centerY))])).
    rewrite map_app in IH. simpl in IH. rewrite <- app_assoc in IH. simpl in IH.
    apply IH; [exact Hnd|].
    apply Forall_app. split; [exact Hall|]. constructor; [apply regionNode_isRegion | constructor].
Qed.

Lemma Main_platformNodes_ids cm dps :
  NoDup dps -> map id (Main.platformNodes cm dps) = dps.
Proof.
  intros Hnd. unfold Main.platformNodes, forEach.
  now destruct (Main_platformNodes_from cm (List.length dps) dps 0 [] Hnd (Forall_nil _)).
Qed.

Lemma Main_platformNodes_region cm dps :
  NoDup dps -> Forall isRegion (Main.platformNodes cm dps).
Proof.
  intros Hnd. unfold Main.platformNodes, forEach.
  now destruct (Main_platformNodes_from cm (List.length dps) dps 0 [] Hnd (Forall_nil _)).
Qed.

Lemma Venn_platformNodes_from cm counts size l : forall i ns,
  Forall isRegion ns ->
  let r := forEachFrom (Venn.platformStep cm counts size) i l ns in
  map id r = map id ns ++ l /\ Forall isRegion r.
Proof.
  induction l as [|dp l IH]; intros i ns Hall; simpl.
  - now rewrite app_nil_r.
  - unfold Venn.platformStep at 2 4.
    match goal with |- context [forEachFrom _ _ _ (ns ++ [?n])] =>
      specialize (IH (S i) (ns ++ [n])) end.
    rewrite map_app in IH. simpl in IH. rewrite <- app_assoc in IH. simpl in IH.
    apply IH. apply Forall_app. split; [exact Hall|].
    constructor; [apply regionNode_isRegion | constructor].
Qed.

Lemma Venn_platformNodes_ids cm counts dps : map id (Venn.platformNodes cm counts dps) = dps.
Proof.
  unfold Venn.platformNodes, forEach.
  now destruct (Venn_platformNodes_from cm counts (List.length dps) dps 0 [] (Forall_nil _)).
Qed.

Lemma Venn_platformNodes_region cm counts dps :
  Forall isRegion (Venn.platformNodes cm counts dps).
Proof.
  unfold Venn.platformNodes, forEach.
  now destruct (Venn_platformNodes_from cm counts (List.length dps) dps 0 [] (Forall_nil _)).
Qed.

(** What the registry holds under a key before any row is processed. *)
Lemma lookKey_regions k ns :
  Forall isRegion ns ->
  lookKey k ns = if nodeMap_has k ns then Some (dataplatform, TUndefined) else None.
Proof.
  intros Hall. unfold lookKey. rewrite nodeMap_has_get.
  destruct (nodeMap_get k ns) as [n|] eqn:E; [|reflexivity].
  apply nodeMap_get_id in E. destruct E as [_ Hin].
  rewrite Forall_forall in Hall. destruct (Hall n Hin) as (Ht & Htb & _).
  simpl. now rewrite Ht, Htb.
Qed.

(** ** The circular builder as a sequence of upserts *)

Lemma Main_sourceStep_upsert cm rm total ns ls row i :
  exists fresh,
    Main.sourceStep cm rm total (ns, ls) row i
    = (upsert "#AA46BC" false (sourceKey row) (sourceCount row) fresh ns,
       ls ++ [mainSourceLink cm row])
    /\ (forall n, fresh = Some n ->
          isFresh false (sourceKey row) (sourceCount row) (sourceGroupKey row) n)
    /\ match fresh with Some _ => true | None => false end
       = u_creates (mainSourceUpsert rm row).
Proof.
  unfold Main.sourceStep, upsert, mainSourceLink, mainSourceUpsert, sourceKey, sourceCount.
  simpl.
  destruct (Main.regionNodeMap_get rm (sourceGroupKey row)) as [rn|] eqn:E.
  - eexists (Some _). split; [reflexivity|]. split; [|reflexivity].
    intros n Hn. injection Hn as <-. repeat split.
  - exists None. split; [reflexivity|]. split; [discriminate | reflexivity].
Qed.

Lemma Main_downstreamStep_upsert cm rm total ns ls row i :
  exists fresh,
    Main.downstreamStep cm rm total (ns, ls) row i
    = (upsert "#AA46BC" true (downstreamKey row) (downstreamCount row) fresh ns,
       ls ++ [mainDownstreamLink cm row])
    /\ (forall n, fresh = Some n ->
          isFresh true (downstreamKey row) (downstreamCount row)
            (downstreamGroupKey row) n)
    /\ match fresh with Some _ => true | None => false end
       = u_creates (mainDownstreamUpsert rm row).
Proof.
  unfold Main.downstreamStep, upsert, mainDownstreamLink, mainDownstreamUpsert, downstreamKey,
    downstreamCount. simpl.
  destruct (Main.regionNodeMap_get rm (downstreamGroupKey row)) as [rn|] eqn:E.
  - eexists (Some _). split; [reflexivity|]. split; [|reflexivity].
    intros n Hn. injection Hn as <-. repeat split.
  - exists None. split; [reflexivity|]. split; [discriminate | reflexivity].
Qed.

(** The state of the circular builder after both row loops. *)
Lemma Main_nodes_unfold src ds cm :
  nodes (Main.getMainGraphData src ds cm)
  = fst (forEach (Main.downstreamStep cm (Main.platformNodes cm (collectPlatforms src ds))
                    (List.length (sortDownstreams ds)))
           (sortDownstreams ds)
           (forEach (Main.sourceStep cm (Main.platformNodes cm (collectPlatforms src ds))
                       (List.length (sortSources src)))
              (sortSources src)
              (Main.platformNodes cm (collectPlatforms src ds), []))).
Proof. reflexivity. Qed.

(** Induction principle over the nodes of the circular builder: a property
    of the platform nodes that every upsert keeps holds of the result. *)
Lemma Main_nodes_ind (Q : list Node -> Prop) src ds cm :
  Q (Main.platformNodes cm (collectPlatforms src ds)) ->
  (forall col isDs key count dp fresh ns,
      toLowerCase key = key ->
      (forall n, fresh = Some n -> isFresh isDs key count dp n) ->
      Q ns -> Q (upsert col isDs key count fresh ns)) ->
  Q (nodes (Main.getMainGraphData src ds cm)).
Proof.
  intros H0 Hstep. rewrite Main_nodes_unfold.
  apply (forEach_inv (fun st => Q (fst st))).
  - intros [ns ls] row i _ HQ.
    destruct (Main_downstreamStep_upsert cm
                (Main.platformNodes cm (collectPlatforms src ds))
                (List.length (sortDownstreams ds)) ns ls row i) as (fresh & -> & Hf & _).
    simpl. eapply Hstep; eauto. apply toLowerCase_idem.
  - apply (forEach_inv (fun st => Q (fst st))); [|exact H0].
    intros [ns ls] row i _ HQ.
    destruct (Main_sourceStep_upsert cm
                (Main.platformNodes cm (collectPlatforms src ds))
                (List.length (sortSources src)) ns ls row i) as (fresh & -> & Hf & _).
    simpl. eapply Hstep; eauto. apply toLowerCase_idem.
Qed.

Lemma isFresh_id isDs key count dp fresh :
  (forall n, fresh = Some n -> isFresh isDs key count dp n) ->
  forall n : Node, fresh = Some n -> id n = key.
Proof. intros H n Hn. now destruct (H n Hn). Qed.

Lemma isFresh_look isDs key count dp fresh :
  (forall n, fresh = Some n -> isFresh isDs key count dp n) ->
  forall n : Node, fresh = Some n ->
    id n = key /\ type n = roleType isDs /\ tables n = TNum count.
Proof. intros H n Hn. destruct (H n Hn) as (? & ? & ? & _). now repeat split. Qed.

(** The node ids of a build are pairwise distinct. *)
Lemma Main_nodes_NoDup src ds cm : NoDup (map id (nodes (Main.getMainGraphData src ds cm))).
Proof.
  apply (Main_nodes_ind (fun ns => NoDup (map id ns))).
  - rewrite Main_platformNodes_ids by apply collectPlatforms_NoDup.
    apply collectPlatforms_NoDup.
  - intros col isDs key count dp fresh ns _ Hf Hnd.
    apply upsert_NoDup; [|exact Hnd]. eapply isFresh_id; eauto.
Qed.

(** What the circular builder stores under a key is the fold of [kstep] over
    its upserts. *)
Lemma Main_lookKey src ds cm k :
  lookKey k (nodes (Main.getMainGraphData src ds cm))
  = fold_left (kstep k) (mainUpserts src ds cm)
      (lookKey k (Main.platformNodes cm (collectPlatforms src ds))).
Proof.
  rewrite Main_nodes_unfold. unfold mainUpserts. cbv zeta.
  set (rm := Main.platformNodes cm (collectPlatforms src ds)).
  rewrite fold_left_app, !fold_left_map. unfold forEach.
  pose (proj := fun st : Main.State => lookKey k (fst st)).
  change (lookKey k (fst ?st)) with (proj st).
  change (lookKey k rm) with (proj (rm, [])).
  rewrite (forEachFrom_proj _ proj (fun st row => kstep k st (mainDownstreamUpsert rm row))).
  - rewrite (forEachFrom_proj _ proj (fun st row => kstep k st (mainSourceUpsert rm row)));
      [reflexivity|].
    intros [ns ls] row i _.
    destruct (Main_sourceStep_upsert cm rm (List.length (sortSources src)) ns ls row i)
      as (fresh & -> & Hf & Hc).
    unfold proj. simpl. rewrite lookKey_upsert by (eapply isFresh_look; eauto).
    f_equal. unfold mainSourceUpsert in *. simpl in *. now rewrite Hc.
  - intros [ns ls] row i _.
    destruct (Main_downstreamStep_upsert cm rm (List.length (sortDownstreams ds)) ns ls row i)
      as (fresh & -> & Hf & Hc).
    unfold proj. simpl. rewrite lookKey_upsert by (eapply isFresh_look; eauto).
    f_equal. unfold mainDownstreamUpsert in *. simpl in *. now rewrite Hc.
Qed.

(** The links of the circular builder: one per source row, one per
    downstream row, then every aggregated platform connection. *)
Lemma Main_links_unfold src ds cm :
  links (Main.getMainGraphData src ds cm)
  = map (mainSourceLink cm) (sortSources src)
    ++ map (mainDownstreamLink cm) (sortDownstreams ds)
    ++ map snd (Main.dataPlatformConnections (sortSources src) (sortDownstreams ds)).
Proof.
  unfold Main.getMainGraphData. cbv zeta. cbn [links]. rewrite app_assoc. f_equal.
  set (rm := Main.platformNodes cm (collectPlatforms src ds)).
  unfold forEach.
  pose (proj := fun st : Main.State => snd st).
  change (snd ?st) with (proj st) at 1.
  rewrite (forEachFrom_proj _ proj (fun ls row => ls ++ [mainDownstreamLink cm row])).
  - rewrite (forEachFrom_proj _ proj (fun ls row => ls ++ [mainSourceLink cm row])).
    + unfold proj. simpl. now rewrite !fold_left_snoc.
    + intros [ns ls] row i _.
      now destruct (Main_sourceStep_upsert cm rm (List.length (sortSources src)) ns ls row i)
        as (fresh & -> & _).
  - intros [ns ls] row i _.
    now destruct (Main_downstreamStep_upsert cm rm (List.length (sortDownstreams ds)) ns ls row i)
      as (fresh & -> & _).
Qed.

(** ** The Venn builder as a sequence of upserts *)

Lemma Venn_sourceStep_upsert cm rnd dp sector ns ls rc row i :
  exists n,
    isFresh false (sourceKey row) (sourceCount row) dp n
    /\ fst (fst (Venn.sourceStep cm rnd dp sector (ns, ls, rc) row i))
       = upsert (orString (cm "mixed") "#AA46BC") false (sourceKey row) (sourceCount row)
           (Some n) ns.
Proof.
  unfold Venn.sourceStep, upsert, sourceKey, sourceCount.
  eexists (entityNode _ _ _ source dp _ _ _). split; [repeat split|].
  destruct (nodeMap_has _ ns); reflexivity.
Qed.

Lemma Venn_downstreamStep_upsert cm rnd dp sector ns ls rc row i :
  exists n,
    isFresh true (downstreamKey row) (downstreamCount row) dp n
    /\ fst (fst (Venn.downstreamStep cm rnd dp sector (ns, ls, rc) row i))
       = upsert (orString (cm "mixed") "#AA46BC") true (downstreamKey row)
           (downstreamCount row) (Some n) ns.
Proof.
  unfold Venn.downstreamStep, upsert, downstreamKey, downstreamCount.
  eexists (entityNode _ _ _ downstream dp _ _ _). split; [repeat split|].
  destruct (nodeMap_has _ ns); reflexivity.
Qed.

(** A successful Venn build, taken apart. *)
Lemma Venn_unfold src ds cm rnd g :
  Venn.getVennNetworkLayout src ds cm rnd = Ok g ->
  exists counts conns,
    Venn.platformConnectionCounts src ds = Ok counts
    /\ Venn.dataPlatformConnections src ds = Ok conns
    /\ let st2 := Venn.entityLoops cm rnd (Venn.sortPlatforms (collectPlatforms src ds))
                    (Venn.platformNodes cm counts (Venn.sortPlatforms (collectPlatforms src ds)))
                    src ds in
       nodes g = fst (fst st2)
       /\ links g = fst (forEach (Venn.platformLinkStep rnd) conns (snd (fst st2), snd st2)).
Proof.
  unfold Venn.getVennNetworkLayout. cbv zeta.
  destruct (Venn.platformConnectionCounts src ds) as [counts|e]; simpl; [|discriminate].
  destruct (Venn.dataPlatformConnections src ds) as [conns|e]; simpl; [|discriminate].
  intros H. exists counts, conns. split; [reflexivity|]. split; [reflexivity|].
  destruct (Venn.entityLoops _ _ _ _ _ _) as [[ns ls] rc]. simpl.
  destruct (forEach (Venn.platformLinkStep rnd) conns (ls, rc)) as [ls' rc'].
  injection H as <-. split; reflexivity.
Qed.

(** Induction principle over the nodes of the Venn builder. *)
Lemma Venn_entityLoops_ind (Q : list Node -> Prop) cm rnd dps rm src ds :
  Q rm ->
  (forall col isDs key count dp fresh ns,
      toLowerCase key = key ->
      (forall n, fresh = Some n -> isFresh isDs key count dp n) ->
      Q ns -> Q (upsert col isDs key count fresh ns)) ->
  Q (fst (fst (Venn.entityLoops cm rnd dps rm src ds))).
Proof.
  intros H0 Hstep. unfold Venn.entityLoops. cbv zeta.
  apply (forEach_inv (fun st : Venn.State => Q (fst (fst st)))).
  - intros st dp i _ HQ. unfold Venn.perPlatform.
    destruct (nodeMap_get dp rm) as [rn|]; [|exact HQ].
    destruct (aget dp (Venn.sectorMap dps)) as [sector|]; [|exact HQ].
    apply (forEach_inv (fun st : Venn.State => Q (fst (fst st)))); [|exact HQ].
    intros [[ns ls] rc] row j _ HQ'.
    destruct (Venn_downstreamStep_upsert cm rnd dp sector ns ls rc row j) as (n & Hn & ->).
    eapply Hstep; [apply toLowerCase_idem | | exact HQ'].
    intros n' E. injection E as <-. exact Hn.
  - apply (forEach_inv (fun st : Venn.State => Q (fst (fst st)))); [|exact H0].
    intros st dp i _ HQ. unfold Venn.perPlatform.
    destruct (nodeMap_get dp rm) as [rn|]; [|exact HQ].
    destruct (aget dp (Venn.sectorMap dps)) as [sector|]; [|exact HQ].
    apply (forEach_inv (fun st : Venn.State => Q (fst (fst st)))); [|exact HQ].
    intros [[ns ls] rc] row j _ HQ'.
    destruct (Venn_sourceStep_upsert cm rnd dp sector ns ls rc row j) as (n & Hn & ->).
    eapply Hstep; [apply toLowerCase_idem | | exact HQ'].
    intros n' E. injection E as <-. exact Hn.
Qed.

Lemma Venn_nodes_ind (Q : list Node -> Prop) src ds cm rnd g :
  Venn.getVennNetworkLayout src ds cm rnd = Ok g ->
  (forall counts, Q (Venn.platformNodes cm counts (Venn.sortPlatforms (collectPlatforms src ds)))) ->
  (forall col isDs key count dp fresh ns,
      toLowerCase key = key ->
      (forall n, fresh = Some n -> isFresh isDs key count dp n) ->
      Q ns -> Q (upsert col isDs key count fresh ns)) ->
  Q (nodes g).
Proof.
  intros Hok H0 Hstep. apply Venn_unfold in Hok.
  destruct Hok as (counts & conns & _ & _ & Hn & _). rewrite Hn.
  apply Venn_entityLoops_ind; [apply H0 | exact Hstep].
Qed.

(** The platform list of the Venn builder has no repetition. *)
Lemma sortPlatforms_NoDup src ds : NoDup (Venn.sortPlatforms (collectPlatforms src ds)).
Proof.
  eapply Permutation_NoDup; [apply sortBy_perm | apply collectPlatforms_NoDup].
Qed.

Lemma Venn_nodes_NoDup src ds cm rnd g :
  Venn.getVennNetworkLayout src ds cm rnd = Ok g -> NoDup (map id (nodes g)).
Proof.
  intros Hok. apply (Venn_nodes_ind (fun ns => NoDup (map id ns)) _ _ _ _ _ Hok).
  - intros counts. rewrite Venn_platformNodes_ids. apply sortPlatforms_NoDup.
  - intros col isDs key count dp fresh ns _ Hf Hnd.
    apply upsert_NoDup; [|exact Hnd]. eapply isFresh_id; eauto.
Qed.

(** ** When the Venn builder throws *)

Lemma forEachM_Ok_inv {A St : Type} (f : St -> A -> result St) l s s' :
  Venn.forEachM f l s = Ok s' -> forall a, In a l -> exists s1 s2, f s1 a = Ok s2.
Proof.
  revert s. induction l as [|a l IH]; intros s H b Hb; [contradiction|].
  simpl in H. destruct (f s a) as [s1|e] eqn:E; simpl in H; [|discriminate].
  destruct Hb as [<-|Hb]; [now exists s, s1 | now apply (IH s1)].
Qed.

Lemma forEachM_total {A St : Type} (f : St -> A -> result St) (g : St -> A -> St) l :
  (forall s a, In a l -> f s a = Ok (g s a)) ->
  forall s, Venn.forEachM f l s = Ok (fold_left g l s).
Proof.
  induction l as [|a l IH]; intros H s; simpl; [reflexivity|].
  rewrite H by now left. simpl. apply IH. intros s' a' Hin. apply H. now right.
Qed.

Lemma countStep_Ok_inv o m m' : Venn.countStep o m = Ok m' -> o <> None.
Proof. destruct o; [discriminate | intros H; discriminate H]. Qed.

Lemma platformConnectionCounts_Ok_inv src ds counts :
  Venn.platformConnectionCounts src ds = Ok counts ->
  (forall row, In row src -> s_data_platform row <> None)
  /\ (forall row, In row ds -> d_data_platform row <> None).
Proof.
  unfold Venn.platformConnectionCounts.
  destruct (Venn.forEachM (fun m e => Venn.countStep (s_data_platform e) m) src [])
    as [m|e] eqn:E1; simpl; [|discriminate].
  intros E2. split; intros row Hin.
  - destruct (forEachM_Ok_inv _ _ _ _ E1 row Hin) as (s1 & s2 & H).
    now apply countStep_Ok_inv in H.
  - destruct (forEachM_Ok_inv _ _ _ _ E2 row Hin) as (s1 & s2 & H).
    now apply countStep_Ok_inv in H.
Qed.

(** A successful Venn build had a [data_platform] on every row. *)
Lemma Venn_Ok_platforms src ds cm rnd g :
  Venn.getVennNetworkLayout src ds cm rnd = Ok g ->
  (forall row, In row src -> s_data_platform row <> None)
  /\ (forall row, In row ds -> d_data_platform row <> None).
Proof.
  intros H. apply Venn_unfold in H. destruct H as (counts & conns & Hc & _).
  now apply platformConnectionCounts_Ok_inv in Hc.
Qed.

(** Any row without [data_platform] makes the Venn builder throw. *)
Lemma Venn_throws src ds cm rnd :
  (exists row, In row src /\ s_data_platform row = None)
  \/ (exists row, In row ds /\ d_data_platform row = None) ->
  Venn.getVennNetworkLayout src ds cm rnd = Throw TypeError.
Proof.
  intros H. destruct (Venn.getVennNetworkLayout src ds cm rnd) as [g|[]] eqn:E; [|reflexivity].
  apply Venn_Ok_platforms in E. destruct E as [Hs Hd].
  destruct H as [(row & Hin & Hn)|(row & Hin & Hn)]; exfalso.
  - now apply (Hs row Hin).
  - now apply (Hd row Hin).
Qed.

(** ** Symbol size *)

Lemma clamp_mono a b : a <= b -> Rmin 100 (Rmax 20 a) <= Rmin 100 (Rmax 20 b).
Proof.
  intros H. apply Rle_min_compat_l. apply Rle_max_compat_l. exact H.
Qed.

Lemma clamp_bounds a : 20 <= Rmin 100 (Rmax 20 a) <= 100.
Proof.
  split.
  - apply Rmin_glb; [lra | apply Rmax_l].
  - apply Rmin_l.
Qed.

Lemma calculateSymbolSize_bounds v : 20 <= calculateSymbolSize v <= 100.
Proof.
  unfold calculateSymbolSize. destruct (Rle_dec v 0); [lra | apply clamp_bounds].
Qed.

Lemma calculateSymbolSize_mono v1 v2 :
  v1 <= v2 -> calculateSymbolSize v1 <= calculateSymbolSize v2.
Proof.
  intros H. unfold calculateSymbolSize.
  destruct (Rle_dec v1 0) as [H1|H1], (Rle_dec v2 0) as [H2|H2].
  - lra.
  - apply clamp_bounds.
  - lra.
  - apply clamp_mono. apply Rmult_le_compat_r; [lra|].
    destruct (Req_dec v1 v2) as [->|Hne]; [lra|].
    left. apply ln_increasing; lra.
Qed.


Lemma upsert_Forall_closed (P : Node -> Prop) col isDs key count fresh ns :
  (forall c n, P n -> P (bumpTables c n)) ->
  (forall c n, P n -> P (promoteMixed c n)) ->
  (forall n, fresh = Some n -> P n) ->
  Forall P ns -> Forall P (upsert col isDs key count fresh ns).
Proof.
  intros Hb Hp Hf Hall. apply upsert_Forall; [|exact Hf | exact Hall].
  intros n Hn. destruct isDs; [apply Hp|]; now apply Hb.
Qed.

Lemma platformSized_upsert col isDs key count dp fresh ns :
  (forall n, fresh = Some n -> isFresh isDs key count dp n) ->
  Forall platformSized ns -> Forall platformSized (upsert col isDs key count fresh ns).
Proof.
  intros Hf. apply upsert_Forall_closed.
  - intros c n Hn. exact Hn.
  - intros c n Hn. unfold platformSized.
    rewrite promoteMixed_type, promoteMixed_symbolSize.
    intros Ht. apply Hn. now destruct (type n).
  - intros n Hn Ht. destruct (Hf n Hn) as (_ & Hty & _).
    rewrite Hty in Ht. now destruct isDs.
Qed.

Lemma regions_platformSized ns : Forall isRegion ns -> Forall platformSized ns.
Proof.
  apply Forall_impl. intros n (_ & _ & Hs & _) _. exact Hs.
Qed.

(** C7. The symbol size is non-decreasing in the weight and always between
    20 and 100, for every real weight (zero and negative included); and in
    the graphs of both builders every platform node has the constant symbol
    size 120, whatever was added to its weight. *)
Theorem symbol_size_monotone_bounded :
  (forall v1 v2 : R, v1 <= v2 -> calculateSymbolSize v1 <= calculateSymbolSize v2)
  /\ (forall v : R, 20 <= calculateSymbolSize v <= 100)
  /\ (forall src ds cm n,
        In n (nodes (Main.getMainGraphData src ds cm)) ->
        type n = dataplatform -> symbolSize n = 120)
  /\ (forall src ds cm rnd g n,
        Venn.getVennNetworkLayout src ds cm rnd = Ok g ->
        In n (nodes g) ->
        type n = dataplatform -> symbolSize n = 120).
Proof.
  split; [exact calculateSymbolSize_mono|].
  split; [exact calculateSymbolSize_bounds|].
  split.
  - intros src ds cm n Hin.
    assert (H : Forall platformSized (nodes (Main.getMainGraphData src ds cm))).
    { apply (Main_nodes_ind (Forall platformSized)).
      - apply regions_platformSized, Main_platformNodes_region, collectPlatforms_NoDup.
      - intros col isDs key count dp fresh ns _ Hf. now apply platformSized_upsert with dp. }
    rewrite Forall_forall in H. now apply H.
  - intros src ds cm rnd g n Hok Hin.
    assert (H : Forall platformSized (nodes g)).
    { apply (Venn_nodes_ind (Forall platformSized) _ _ _ _ _ Hok).
      - intros counts. apply regions_platformSized, Venn_platformNodes_region.
      - intros col isDs key count dp fresh ns _ Hf. now apply platformSized_upsert with dp. }
    rewrite Forall_forall in H. now apply H.
Qed.

Lemma symbol_size_witness :
  calculateSymbolSize 1 <= calculateSymbolSize 2
  /\ symbolSize (nth 0 (nodes (Main.getMainGraphData crmSources [] defaultColorMap)) someNode)
     = 120
  /\ match Venn.getVennNetworkLayout crmSources [] defaultColorMap noRandom with
     | Ok g => symbolSize (nth 0 (nodes g) someNode) = 120
     | Throw _ => False
     end.
Proof.
  destruct symbol_size_monotone_bounded as (Hmono & _ & Hmain & Hvenn).
  split; [apply Hmono; lra|]. split.
  - apply (Hmain crmSources [] defaultColorMap).
    + apply nth_In. lazy. lia.
    + lazy. reflexivity.
  - pose proof (Hvenn crmSources [] defaultColorMap noRandom) as H.
    assert (Hg : match Venn.getVennNetworkLayout crmSources [] defaultColorMap noRandom with
                 | Ok g => (0 < List.length (nodes g))%nat
                           /\ type (nth 0 (nodes g) someNode) = dataplatform
                 | Throw _ => False
                 end).
    { lazy. split; [lia | reflexivity]. }
    destruct (Venn.getVennNetworkLayout crmSources [] defaultColorMap noRandom) as [g|e].
    + destruct Hg as [Hlen Hty]. apply (H g _ eq_refl); [now apply nth_In | exact Hty].
    + exact Hg.
Defined.

(** ** Rows with absent fields *)

(** C3. The Venn builder does not substitute a default for an absent
    [data_platform]: on one source record without that field the loop that
    fills [platformConnectionCounts] throws a [TypeError], for every color
    map and every random source, where the circular builder returns a graph
    on the same input. *)
Theorem venn_throws_on_absent_platform :
  forall (cm : ColorMap) (rnd : nat -> R),
    Venn.getVennNetworkLayout [srow None (Some "a") (Some 1%Z)] [] cm rnd = Throw TypeError
    /\ map id (nodes (Main.getMainGraphData [srow None (Some "a") (Some 1%Z)] [] cm))
       = ["unknown"].
Proof.
  intros cm rnd. split; reflexivity.
Qed.

(** C10. The circular builder pushes the entity-platform link of every row
    but creates the entity node only when the row's group key is a
    registered platform.  A source row whose [data_platform] is absent or
    empty is grouped under ["Unknown"], and no node has that id; on the
    one-row input below neither end of the emitted link is a node. *)
Theorem main_dangling_link :
  (forall src ds cm row,
      In row src -> truthy (s_data_platform row) = false ->
      exists l, In l (links (Main.getMainGraphData src ds cm))
                /\ l_source l = EpId (sourceKey row)
                /\ l_target l = EpId "Unknown"
                /\ forall n, In n (nodes (Main.getMainGraphData src ds cm)) ->
                             id n <> "Unknown")
  /\ (let g := Main.getMainGraphData [srow None (Some "a") (Some 1%Z)] [] defaultColorMap in
      exists l, In l (links g)
                /\ l_source l = EpId "a" /\ l_target l = EpId "Unknown"
                /\ forall n, In n (nodes g) -> id n <> "a" /\ id n <> "Unknown").
Proof.
  split.
  - intros src ds cm row Hin Hun.
    exists (mainSourceLink cm row). split; [|split; [|split]].
    + rewrite Main_links_unfold. apply in_or_app. left.
      apply in_map. now apply sortBy_In.
    + reflexivity.
    + unfold mainSourceLink, Main.entityLink, sourceGroupKey. simpl.
      now rewrite groupKey_unnamed.
    + assert (H : Forall (fun n => id n <> "Unknown")
                    (nodes (Main.getMainGraphData src ds cm))).
      { apply (Main_nodes_ind (fun ns => Forall (fun n => id n <> "Unknown") ns)).
        - rewrite Forall_forall. intros n Hn Hid.
          apply (collectPlatforms_not_Unknown src ds).
          rewrite <- (Main_platformNodes_ids cm (collectPlatforms src ds))
            by apply collectPlatforms_NoDup.
          rewrite <- Hid. now apply in_map.
        - intros col isDs key count dp fresh ns Hlow Hf Hall.
          apply upsert_Forall_closed; try exact Hall.
          + intros c n Hn. exact Hn.
          + intros c n Hn. now rewrite promoteMixed_id.
          + intros n Hn Hid. destruct (Hf n Hn) as (Hk & _).
            rewrite Hk in Hid. subst key. now apply toLowerCase_not_Unknown in Hlow. }
      rewrite Forall_forall in H. exact H.
  - cbv zeta. exists (mainSourceLink defaultColorMap (srow None (Some "a") (Some 1%Z))).
    split; [rewrite Main_links_unfold; now left|].
    split; [reflexivity|]. split; [reflexivity|].
    intros n Hn. apply (in_map id) in Hn.
    change (In (id n) ["unknown"]) in Hn.
    destruct Hn as [<-|[]]. split; discriminate.
Qed.

Lemma main_dangling_link_witness :
  exists l, In l (links (Main.getMainGraphData [srow None (Some "a") (Some 1%Z)] []
                           defaultColorMap))
            /\ l_source l = EpId (sourceKey (srow None (Some "a") (Some 1%Z)))
            /\ l_target l = EpId "Unknown"
            /\ forall n, In n (nodes (Main.getMainGraphData [srow None (Some "a") (Some 1%Z)] []
                                        defaultColorMap)) ->
                         id n <> "Unknown".
Proof.
  apply (proj1 main_dangling_link); [now left | reflexivity].
Defined.

(** ** Layers and slots of the Venn layout *)

Lemma forEachFrom_inv_nth {A St : Type} (P : St -> Prop) (f : St -> A -> nat -> St) (l : list A) :
  forall i0 s,
    (forall s a j, nth_error l j = Some a -> P s -> P (f s a (i0 + j)%nat)) ->
    P s -> P (forEachFrom f i0 l s).
Proof.
  induction l as [|a l IH]; intros i0 s Hstep Hs; simpl; [exact Hs|].
  apply IH.
  - intros s' a' j Hj. replace (S i0 + j)%nat with (i0 + S j)%nat by lia.
    now apply Hstep.
  - specialize (Hstep s a 0%nat eq_refl Hs). now rewrite Nat.add_0_r in Hstep.
Qed.

Lemma randomOffset_bound r : 0 <= r < 1 -> Rabs (Venn.randomOffset r) <= 0.025.
Proof.
  intros [H0 H1]. unfold Venn.randomOffset. apply Rabs_le. lra.
Qed.

Lemma sourceAngle_near sector i r :
  0 <= r < 1 ->
  Rabs (Venn.sourceAngle sector i r
        - slotAngle sector ((i / 8) mod (5 + 3 * (i mod 8))) (5 + 3 * (i mod 8))) <= 0.025.
Proof.
  intros Hr. unfold Venn.sourceAngle, Venn.angleOffset, slotAngle, Venn.indexInLayer,
    Venn.nodesPerLayer, Venn.layerIndex, Venn.totalLayers.
  replace (5 + i mod 8 * 3)%nat with (5 + 3 * (i mod 8))%nat by lia.
  match goal with |- Rabs ?e <= _ => replace e with (Venn.randomOffset r) by ring end.
  now apply randomOffset_bound.
Qed.

Lemma downstreamAngle_near sector i r :
  0 <= r < 1 ->
  Rabs (Venn.downstreamAngle sector i r
        - slotAngle sector ((i / 9) mod (7 + 4 * (i mod 9))) (7 + 4 * (i mod 9))) <= 0.025.
Proof.
  intros Hr. unfold Venn.downstreamAngle, Venn.dsAngleOffset, slotAngle, Venn.dsIndexInLayer,
    Venn.dsNodesPerLayer, Venn.dsLayerIndex, Venn.dsLayerCount.
  replace (7 + i mod 9 * 4)%nat with (7 + 4 * (i mod 9))%nat by lia.
  match goal with |- Rabs ?e <= _ => replace e with (Venn.randomOffset r) by ring end.
  now apply randomOffset_bound.
Qed.

Lemma INR_totalLayers : INR Venn.totalLayers = 8.
Proof. unfold Venn.totalLayers. simpl. lra. Qed.

Lemma INR_dsLayerCount : INR Venn.dsLayerCount = 9.
Proof. unfold Venn.dsLayerCount. simpl. lra. Qed.

(** ** First write wins *)

Lemma updateNode_In k f ns n :
  In n ns -> id n = k -> In (f n) (updateNode k f ns).
Proof.
  intros Hin Hid. unfold updateNode. apply in_map_iff. exists n. split; [|exact Hin].
  rewrite Hid. now rewrite String.eqb_refl.
Qed.

Lemma promoted_summary col c n :
  type n = source ->
  nodeSummary (promoteMixed col (bumpTables c n))
  = (id n, mixed, dataPlatform n, Some true, addTables (tables n) c, col).
Proof.
  intros Ht. unfold nodeSummary, promoteMixed. simpl. rewrite Ht. reflexivity.
Qed.

(** C5. A downstream upsert that hits an existing source node turns it into
    a mixed node with the mixed color and the added weight, and leaves its
    platform field as first recorded, in both builders.  For "svc" on "p1" as
    source and "svc" on "p2" as downstream (any table counts, any color map)
    both builders yield the two platform nodes and one mixed node "svc" on
    platform "p1", and the connection map holds exactly one entry, for the
    key of the pair (p1, p2), with count 1. *)
Theorem first_write_wins :
  (forall cm rm total ns ls row i n,
      In n ns -> id n = downstreamKey row -> type n = source ->
      exists n', In n' (fst (Main.downstreamStep cm rm total (ns, ls) row i))
                 /\ nodeSummary n'
                    = (id n, mixed, dataPlatform n, Some true,
                       addTables (tables n) (downstreamCount row), "#AA46BC"))
  /\ (forall cm rnd dp sector ns ls rc row i n,
        In n ns -> id n = downstreamKey row -> type n = source ->
        exists n', In n' (fst (fst (Venn.downstreamStep cm rnd dp sector (ns, ls, rc) row i)))
                   /\ nodeSummary n'
                      = (id n, mixed, dataPlatform n, Some true,
                         addTables (tables n) (downstreamCount row),
                         orString (cm "mixed") "#AA46BC"))
  /\ (forall c1 c2 cm,
        map nodeSummary (nodes (Main.getMainGraphData (svcSources c1) (svcDownstreams c2) cm))
        = [("p1", dataplatform, None, None, TUndefined, orString (cm "p1") "#4285F4");
           ("p2", dataplatform, None, None, TUndefined, orString (cm "p2") "#4285F4");
           ("svc", mixed, Some "p1", Some true, TNum (orZero c1 + orZero c2), "#AA46BC")]
        /\ map connectionSummary
             (Main.dataPlatformConnections (sortSources (svcSources c1))
                (sortDownstreams (svcDownstreams c2)))
           = [("p1-p2", EpId "p1", EpId "p2", 1%Z)])
  /\ (forall c1 c2 cm rnd,
        exists g,
          Venn.getVennNetworkLayout (svcSources c1) (svcDownstreams c2) cm rnd = Ok g
          /\ map nodeSummary (nodes g)
             = [("p1", dataplatform, None, None, TUndefined, orString (cm "p1") "#4285F4");
                ("p2", dataplatform, None, None, TUndefined, orString (cm "p2") "#4285F4");
                ("svc", mixed, Some "p1", Some true, TNum (orZero c1 + orZero c2),
                 orString (cm "mixed") "#AA46BC")]
          /\ exists conns,
               Venn.dataPlatformConnections (svcSources c1) (svcDownstreams c2) = Ok conns
               /\ map connectionSummary conns = [("p1-p2", EpId "p1", EpId "p2", 1%Z)]).
Proof.
  split; [|split; [|split]].
  - intros cm rm total ns ls row i n Hin Hid Ht.
    exists (promoteMixed "#AA46BC" (bumpTables (downstreamCount row) n)).
    split; [|now apply promoted_summary].
    unfold Main.downstreamStep. cbv zeta.
    assert (Hhas : nodeMap_has (downstreamKey row) ns = true).
    { apply nodeMap_has_In. rewrite <- Hid. now apply in_map. }
    unfold downstreamKey in Hhas. rewrite Hhas. simpl.
    now apply (updateNode_In _ (fun n => promoteMixed "#AA46BC" (bumpTables _ n))).
  - intros cm rnd dp sector ns ls rc row i n Hin Hid Ht.
    exists (promoteMixed (orString (cm "mixed") "#AA46BC")
              (bumpTables (downstreamCount row) n)).
    split; [|now apply promoted_summary].
    unfold Venn.downstreamStep. cbv zeta.
    assert (Hhas : nodeMap_has (downstreamKey row) ns = true).
    { apply nodeMap_has_In. rewrite <- Hid. now apply in_map. }
    unfold downstreamKey in Hhas. rewrite Hhas. simpl.
    now apply (updateNode_In _ (fun n => promoteMixed _ (bumpTables _ n))).
  - intros c1 c2 cm. split; reflexivity.
  - intros c1 c2 cm rnd. eexists. split; [reflexivity|]. split; [reflexivity|].
    eexists. split; reflexivity.
Qed.

Lemma first_write_wins_witness :
  let n := entityNode "svc" "svc" 0 source "p1" 0 0 "#91cc75" in
  let row := drow (Some "p2") (Some "svc") None in
  (exists n', In n' (fst (Main.downstreamStep defaultColorMap [] 1 ([n], []) row 0))
              /\ nodeSummary n'
                 = (id n, mixed, dataPlatform n, Some true,
                    addTables (tables n) (downstreamCount row), "#AA46BC"))
  /\ (exists n', In n' (fst (fst (Venn.downstreamStep defaultColorMap noRandom "p2" (0, 1)
                                    ([n], [], 0%nat) row 0)))
                 /\ nodeSummary n'
                    = (id n, mixed, dataPlatform n, Some true,
                       addTables (tables n) (downstreamCount row),
                       orString (defaultColorMap "mixed") "#AA46BC")).
Proof.
  cbv zeta. split.
  - apply (proj1 first_write_wins); [now left | reflexivity | reflexivity].
  - apply (proj1 (proj2 first_write_wins)); [now left | reflexivity | reflexivity].
Defined.

(** ** Highlight *)

Lemma processLink_source h l : l_source (Chart.processLink h l) = l_source l.
Proof. unfold Chart.processLink. now destruct (lineStyle l). Qed.

Lemma processLink_target h l : l_target (Chart.processLink h l) = l_target l.
Proof. unfold Chart.processLink. now destruct (lineStyle l). Qed.

Lemma processLink_value h l : value (Chart.processLink h l) = value l.
Proof. unfold Chart.processLink. now destruct (lineStyle l). Qed.







(** ** Order of the platforms *)

Lemma platformIds_regions ns : Forall isRegion ns -> platformIds ns = map id ns.
Proof.
  unfold platformIds. induction ns as [|n ns IH]; intros H; [reflexivity|].
  inversion H as [|? ? Hn Hns]; subst. simpl.
  unfold isPlatformNode at 1. destruct Hn as (-> & _). simpl. f_equal. now apply IH.
Qed.

Lemma platformIds_upsert col isDs key count dp fresh ns :
  (forall n, fresh = Some n -> isFresh isDs key count dp n) ->
  platformIds (upsert col isDs key count fresh ns) = platformIds ns.
Proof.
  intros Hf. unfold upsert, platformIds. destruct (nodeMap_has key ns).
  - unfold updateNode. induction ns as [|n ns IH]; [reflexivity|]. simpl.
    assert (Hkeep : forall m, isPlatformNode
                      (if isDs then promoteMixed col (bumpTables count m)
                       else bumpTables count m) = isPlatformNode m
                    /\ id (if isDs then promoteMixed col (bumpTables count m)
                           else bumpTables count m) = id m).
    { intros m. destruct isDs; [|now split]. unfold isPlatformNode.
      rewrite promoteMixed_type, promoteMixed_id. simpl. now destruct (type m). }
    destruct (id n =? key)%string.
    + destruct (Hkeep n) as [-> Hid]. destruct (isPlatformNode n); simpl; now rewrite ?Hid, IH.
    + destruct (isPlatformNode n); simpl; now rewrite IH.
  - destruct fresh as [n|]; [|reflexivity].
    rewrite filter_app. simpl. destruct (Hf n eq_refl) as (_ & Hty & _).
    unfold isPlatformNode at 2. rewrite Hty. destruct isDs; simpl; now rewrite app_nil_r.
Qed.

Lemma StronglySorted_nth {A : Type} (rel : A -> A -> Prop) l :
  StronglySorted rel l ->
  forall i j a b, (i < j)%nat -> nth_error l i = Some a -> nth_error l j = Some b -> rel a b.
Proof.
  induction 1 as [|x l Hs IH Hall]; intros i j a b Hij Hi Hj.
  - destruct i; discriminate.
  - destruct j as [|j]; [lia|]. simpl in Hj. destruct i as [|i]; simpl in Hi.
    + injection Hi as <-. rewrite Forall_forall in Hall. apply Hall.
      eapply nth_error_In; eauto.
    + apply (IH i j); [lia | assumption | assumption].
Qed.

(** The sector of the platform at position [p] of a duplicate-free list. *)
Lemma sectorMap_from total l : forall i m p dp,
  NoDup l -> nth_error l p = Some dp ->
  aget dp (forEachFrom (fun m dataPlatform index =>
                          aset dataPlatform
                            (INR index / INR total * 2 * PI,
                             INR (index + 1) / INR total * 2 * PI) m) i l m)
  = Some (INR (i + p) / INR total * 2 * PI, INR (i + p + 1) / INR total * 2 * PI).
Proof.
  induction l as [|a l IH]; intros i m p dp Hnd Hp; [destruct p; discriminate|].
  inversion Hnd as [|? ? Hnotin Hnd']; subst. simpl.
  destruct p as [|p]; simpl in Hp.
  - injection Hp as ->. rewrite Nat.add_0_r. clear IH.
    assert (Hkeep : forall l' j m', ~ In dp l' ->
              aget dp (forEachFrom (fun m dataPlatform index =>
                          aset dataPlatform
                            (INR index / INR total * 2 * PI,
                             INR (index + 1) / INR total * 2 * PI) m) j l' m')
              = aget dp m').
    { induction l' as [|b l' IH']; intros j m' Hn; [reflexivity|]. simpl.
      rewrite IH' by (intros H; apply Hn; now right).
      apply aget_aset_other. intros ->. apply Hn. now left. }
    rewrite Hkeep by exact Hnotin. apply aget_aset_same.
  - rewrite (IH (S i) _ p dp Hnd' Hp).
    now replace (S i + p)%nat with (i + S p)%nat by lia.
Qed.

Lemma sectorMap_nth dps p dp :
  NoDup dps -> nth_error dps p = Some dp ->
  aget dp (Venn.sectorMap dps)
  = Some (INR p / INR (List.length dps) * 2 * PI,
          INR (p + 1) / INR (List.length dps) * 2 * PI).
Proof.
  intros Hnd Hp. unfold Venn.sectorMap, forEach.
  now rewrite (sectorMap_from (List.length dps) dps 0 [] p dp Hnd Hp).
Qed.

(** ** Connection keys *)

Lemma includes_hyphen_cons c s :
  includes "-" (String c s) = (if ascii_dec "-" c then true else false) || includes "-" s.
Proof.
  change (includes "-" (String c s)) with (String.prefix "-" (String c s) || includes "-" s).
  f_equal.
  change (String.prefix "-" (String c s))
    with (if ascii_dec "-" c then String.prefix "" s else false).
  destruct (ascii_dec "-" c); [now destruct s | reflexivity].
Qed.

Lemma hyphenFree_cons c s : hyphenFree (String c s) <-> c <> "-"%char /\ hyphenFree s.
Proof.
  unfold hyphenFree. rewrite includes_hyphen_cons.
  destruct (ascii_dec "-" c) as [<-|Hne]; simpl.
  - split; [discriminate | intros [H _]; now elim H].
  - split; [intros H; split; [congruence | exact H] | now intros [_ H]].
Qed.

Lemma join_inj a b c d :
  hyphenFree a -> hyphenFree c ->
  (a ++ "-" ++ b)%string = (c ++ "-" ++ d)%string -> a = c /\ b = d.
Proof.
  revert c. induction a as [|x a IH]; intros c Ha Hc H.
  - destruct c as [|y c]; simpl in H.
    + injection H as ->. now split.
    + injection H as <- _. apply hyphenFree_cons in Hc. now destruct Hc as [Hc _].
  - destruct c as [|y c]; simpl in H.
    + injection H as -> _. apply hyphenFree_cons in Ha. now destruct Ha as [Ha _].
    + injection H as -> H. apply hyphenFree_cons in Ha. apply hyphenFree_cons in Hc.
      destruct (IH c (proj2 Ha) (proj2 Hc) H) as [-> ->]. now split.
Qed.

Lemma connectionKey_sym a b : connectionKey a b = connectionKey b a.
Proof.
  unfold connectionKey.
  destruct (String.leb a b) eqn:E1, (String.leb b a) eqn:E2; try reflexivity.
  - now rewrite (String.leb_antisym a b E1 E2).
  - destruct (String.leb_total a b); congruence.
Qed.

Lemma connectionKey_inj a b p q :
  hyphenFree a -> hyphenFree b -> hyphenFree p -> hyphenFree q ->
  connectionKey a b = connectionKey p q -> (a = p /\ b = q) \/ (a = q /\ b = p).
Proof.
  intros Ha Hb Hp Hq. unfold connectionKey.
  destruct (String.leb a b), (String.leb p q); intros H; apply join_inj in H; tauto.
Qed.

Lemma bridges_key p q hit :
  hyphenFree p -> hyphenFree q -> hyphenFree (fst hit) -> hyphenFree (snd hit) ->
  (connectionKey (fst hit) (snd hit) =? connectionKey p q)%string = bridges p q hit.
Proof.
  intros Hp Hq Ha Hb. unfold bridges. destruct hit as [a b]. simpl in *.
  destruct (String.eqb_spec (connectionKey a b) (connectionKey p q)) as [E|E].
  - destruct (connectionKey_inj a b p q Ha Hb Hp Hq E) as [[-> ->]|[-> ->]].
    + now rewrite !String.eqb_refl.
    + rewrite !String.eqb_refl. simpl. now rewrite orb_true_r.
  - symmetry. apply orb_false_iff. split; apply andb_false_iff.
    + destruct (String.eqb_spec a p) as [->|]; [|now left].
      destruct (String.eqb_spec b q) as [->|]; [|now right]. congruence.
    + destruct (String.eqb_spec a q) as [->|]; [|now left].
      destruct (String.eqb_spec b p) as [->|]; [|now right].
      rewrite connectionKey_sym in E. congruence.
Qed.

Lemma keyCount_bridgeCount p q hits :
  hyphenFree p -> hyphenFree q ->
  Forall (fun hit => hyphenFree (fst hit) /\ hyphenFree (snd hit)) hits ->
  keyCount (connectionKey p q) hits = bridgeCount p q hits.
Proof.
  intros Hp Hq Hall. unfold keyCount, bridgeCount. do 2 f_equal.
  induction Hall as [|hit hits [Ha Hb] _ IH]; [reflexivity|]. simpl.
  rewrite (bridges_key p q hit Hp Hq Ha Hb). now rewrite IH.
Qed.

(** ** Aggregation *)

Section Tally.
Variables (new : string -> string -> Link) (bump : Link -> Link).
Hypothesis new_ends : forall a b,
    l_source (new a b) = EpId a /\ l_target (new a b) = EpId b /\ value (new a b) = 1%Z.
Hypothesis bump_ends : forall c,
    l_source (bump c) = l_source c /\ l_target (bump c) = l_target c
    /\ value (bump c) = (value c + 1)%Z.

Lemma keyCount_snoc k seen hit :
  keyCount k (seen ++ [hit])
  = (keyCount k seen
     + if (connectionKey (fst hit) (snd hit) =? k)%string then 1 else 0)%Z.
Proof.
  unfold keyCount. rewrite filter_app, length_app. simpl.
  destruct (connectionKey (fst hit) (snd hit) =? k)%string; simpl; lia.
Qed.

Lemma tally_tallied seen m hit :
  tallied seen m -> tallied (seen ++ [hit]) (tally new bump m hit).
Proof.
  intros [Hnd Hm]. unfold tally. cbv zeta.
  set (k0 := connectionKey (fst hit) (snd hit)).
  assert (Hin0 : In (fst hit, snd hit) (seen ++ [hit])).
  { apply in_or_app. right. left. now destruct hit. }
  split.
  - destruct (aget k0 m); now apply NoDup_keys_aset.
  - intros k. rewrite keyCount_snoc. fold k0.
    pose proof (Hm k) as Hk. pose proof (Hm k0) as Hk0.
    destruct (aget k0 m) as [c0|] eqn:E0; rewrite aget_aset;
      destruct (String.eqb_spec k0 k) as [<-|Hne].
    + rewrite E0 in Hk. destruct Hk as (Hv & a & b & Hin & Hkey & Hs & Ht).
      destruct (bump_ends c0) as (Hbs & Hbt & Hbv). split; [lia|].
      exists a, b. repeat split; try congruence. apply in_or_app. now left.
    + destruct (aget k m) as [c|].
      * destruct Hk as (Hv & a & b & Hin & Hkey & Hs & Ht). split; [lia|].
        exists a, b. repeat split; try assumption. apply in_or_app. now left.
      * lia.
    + rewrite E0 in Hk. destruct (new_ends (fst hit) (snd hit)) as (Hs & Ht & Hv).
      split; [lia|]. exists (fst hit), (snd hit). now repeat split.
    + destruct (aget k m) as [c|].
      * destruct Hk as (Hv & a & b & Hin & Hkey & Hs & Ht). split; [lia|].
        exists a, b. repeat split; try assumption. apply in_or_app. now left.
      * lia.
Qed.

Lemma tally_fold_tallied hits : forall seen m,
  tallied seen m -> tallied (seen ++ hits) (fold_left (tally new bump) hits m).
Proof.
  induction hits as [|hit hits IH]; intros seen m H; simpl.
  - now rewrite app_nil_r.
  - replace (seen ++ hit :: hits) with ((seen ++ [hit]) ++ hits)
      by now rewrite <- app_assoc.
    apply IH. now apply tally_tallied.
Qed.

Lemma tally_all hits : tallied hits (fold_left (tally new bump) hits []).
Proof.
  apply (tally_fold_tallied hits [] []). split; [constructor|]. intros k. reflexivity.
Qed.
End Tally.

Lemma fold_left_flat_map {A B C : Type} (f : C -> B -> C) (g : A -> list B) l c :
  fold_left f (flat_map g l) c = fold_left (fun c a => fold_left f (g a) c) l c.
Proof.
  revert c. induction l as [|a l IH]; intros c; simpl; [reflexivity|].
  now rewrite fold_left_app, IH.
Qed.

Lemma forEach_fold {A St : Type} (f : St -> A -> nat -> St) (g : St -> A -> St) l s :
  (forall s a i, f s a i = g s a) -> forEach f l s = fold_left g l s.
Proof. intros H. unfold forEach. now apply forEachFrom_fold. Qed.

(** The aggregation loops of the circular builder tally its bridging pairs. *)
Lemma Main_connectionStep_tally row m dsRow i :
  Main.connectionStep row m dsRow i
  = match mainBridge row dsRow with
    | Some hit => tally Main.newConnection Main.bumpConnection m hit
    | None => m
    end.
Proof.
  unfold Main.connectionStep, mainBridge, tally. cbv zeta.
  destruct ((orString (present (source_application_name row)) "Unknown"
             =? orString (present (downstream_application_name dsRow)) "Unknown")%string
            && negb (sourceGroupKey row =? downstreamGroupKey dsRow)%string);
    reflexivity.
Qed.

Lemma Main_connections_tally src ds :
  Main.dataPlatformConnections src ds
  = fold_left (tally Main.newConnection Main.bumpConnection) (hitsOf mainBridge src ds) [].
Proof.
  unfold Main.dataPlatformConnections, hitsOf.
  rewrite fold_left_flat_map.
  apply forEach_fold. intros m row _.
  rewrite fold_left_flat_map.
  apply forEach_fold. intros m' dsRow i. rewrite Main_connectionStep_tally.
  now destruct (mainBridge row dsRow).
Qed.

(** The same for the Venn builder once every row has a platform. *)
Lemma Venn_connectionStep_tally row m dsRow p :
  s_data_platform row = Some p -> d_data_platform dsRow <> None ->
  Venn.connectionStep (toLowerCase p) (source_application_name row) m dsRow
  = Ok match vennBridge row dsRow with
       | Some hit => tally vennNewConnection vennBumpConnection m hit
       | None => m
       end.
Proof.
  intros Hp Hq. unfold Venn.connectionStep, vennBridge, tally. rewrite Hp.
  destruct (d_data_platform dsRow) as [q|]; [|congruence]. simpl.
  destruct (strictEq (source_application_name row) (downstream_application_name dsRow)
            && negb (toLowerCase p =? toLowerCase q)%string); [|reflexivity].
  simpl. now destruct (aget (connectionKey (toLowerCase p) (toLowerCase q)) m).
Qed.

Lemma Venn_connections_tally src ds :
  (forall row, In row src -> s_data_platform row <> None) ->
  (forall row, In row ds -> d_data_platform row <> None) ->
  Venn.dataPlatformConnections src ds
  = Ok (fold_left (tally vennNewConnection vennBumpConnection) (hitsOf vennBridge src ds) []).
Proof.
  intros Hs Hd. unfold Venn.dataPlatformConnections, hitsOf.
  rewrite fold_left_flat_map.
  apply forEachM_total. intros m row Hrow.
  destruct (s_data_platform row) as [p|] eqn:Ep; [|now elim (Hs row Hrow)].
  simpl. rewrite fold_left_flat_map.
  apply forEachM_total. intros m' dsRow HdsRow.
  rewrite (Venn_connectionStep_tally row m' dsRow p Ep (Hd dsRow HdsRow)).
  now destruct (vennBridge row dsRow).
Qed.

Lemma tally_Forall (P : Link -> Prop) new bump hits :
  (forall a b, P (new a b)) -> (forall c, P c -> P (bump c)) ->
  forall m, Forall (fun e => P (snd e)) m ->
            Forall (fun e => P (snd e)) (fold_left (tally new bump) hits m).
Proof.
  intros Hnew Hbump. induction hits as [|hit hits IH]; intros m Hm; simpl; [exact Hm|].
  apply IH. unfold tally. cbv zeta.
  assert (Hset : forall k v, P v -> Forall (fun e => P (snd e)) (aset k v m)).
  { intros k v Hv. unfold aset. destruct (ahas k m).
    - rewrite Forall_forall in *. intros e He. apply in_map_iff in He.
      destruct He as [e0 [<- He0]]. destruct (fst e0 =? k)%string; [exact Hv | now apply Hm].
    - apply Forall_app. split; [exact Hm | now repeat constructor]. }
  destruct (aget _ m) as [c|] eqn:E; apply Hset; [|apply Hnew].
  apply Hbump. apply aget_In in E. rewrite Forall_forall in Hm. now apply (Hm _ E).
Qed.

(** ** Bridging pairs *)

Lemma In_hitsOf {S D : Type} (bridge : S -> D -> option (string * string)) src ds hit :
  In hit (hitsOf bridge src ds)
  <-> exists s d, In s src /\ In d ds /\ bridge s d = Some hit.
Proof.
  unfold hitsOf. rewrite in_flat_map. split.
  - intros (s & Hs & H). apply in_flat_map in H. destruct H as (d & Hd & H).
    exists s, d. destruct (bridge s d) as [h|]; [|contradiction].
    destruct H as [->|[]]. now repeat split.
  - intros (s & d & Hs & Hd & H). exists s. split; [exact Hs|].
    apply in_flat_map. exists d. split; [exact Hd|]. rewrite H. now left.
Qed.

Lemma flat_map_perm_pointwise {A B : Type} (f g : A -> list B) l :
  (forall a, Permutation (f a) (g a)) -> Permutation (flat_map f l) (flat_map g l).
Proof.
  intros H. induction l as [|a l IH]; simpl; [constructor|].
  now apply Permutation_app.
Qed.

Lemma hitsOf_perm {S D : Type} (bridge : S -> D -> option (string * string)) src src' ds ds' :
  Permutation src src' -> Permutation ds ds' ->
  Permutation (hitsOf bridge src ds) (hitsOf bridge src' ds').
Proof.
  intros Hs Hd. unfold hitsOf.
  eapply perm_trans.
  - apply flat_map_perm_pointwise. intros s. apply Permutation_flat_map. exact Hd.
  - apply Permutation_flat_map. exact Hs.
Qed.

Lemma filter_perm {A : Type} (f : A -> bool) l l' :
  Permutation l l' -> Permutation (filter f l) (filter f l').
Proof.
  induction 1 as [|a l l' _ IH|a b l|l1 l2 l3 _ IH1 _ IH2]; simpl.
  - constructor.
  - destruct (f a); [now constructor | exact IH].
  - destruct (f a), (f b); try apply Permutation_refl. apply perm_swap.
  - eapply perm_trans; eassumption.
Qed.

Lemma bridgeCount_perm p q hits hits' :
  Permutation hits hits' -> bridgeCount p q hits = bridgeCount p q hits'.
Proof.
  intros H. unfold bridgeCount. f_equal. apply Permutation_length. now apply filter_perm.
Qed.

Lemma bridgeCount_pos p q hits :
  (0 < bridgeCount p q hits)%Z <-> exists hit, In hit hits /\ bridges p q hit = true.
Proof.
  unfold bridgeCount. split.
  - intros H. destruct (filter (bridges p q) hits) as [|hit l] eqn:E; [simpl in H; lia|].
    exists hit. apply filter_In. rewrite E. now left.
  - intros (hit & Hin & Hb).
    assert (Hf : In hit (filter (bridges p q) hits)) by now apply filter_In.
    destruct (filter (bridges p q) hits); [contradiction | simpl; lia].
Qed.

Lemma bridges_spec p q hit :
  bridges p q hit = true <-> hit = (p, q) \/ hit = (q, p).
Proof.
  unfold bridges. destruct hit as [a b]. simpl.
  rewrite orb_true_iff, !andb_true_iff, !String.eqb_eq.
  split.
  - intros [[-> ->]|[-> ->]]; auto.
  - intros [H|H]; injection H as -> ->; auto.
Qed.

Section Tallied.
Variables (hits : list (string * string)) (m : Connections).
Hypothesis Htallied : tallied hits m.
Hypothesis Hfree : Forall (fun hit => hyphenFree (fst hit) /\ hyphenFree (snd hit)) hits.

(** A stored connection that joins [p] and [q] carries their aggregated
    count, which is positive. *)
Lemma tallied_joins p q k c :
  In (k, c) m -> joins p q c ->
  value c = bridgeCount p q hits /\ (0 < bridgeCount p q hits)%Z.
Proof.
  intros Hin Hj. destruct Htallied as [Hnd Hm].
  pose proof (Hm k) as Hk. rewrite (In_aget k c m Hnd Hin) in Hk.
  destruct Hk as (Hv & a & b & Hab & Hkey & Hs & Ht).
  rewrite Forall_forall in Hfree. destruct (Hfree _ Hab) as [Ha Hb]. simpl in Ha, Hb.
  assert (Hpq : (a, b) = (p, q) \/ (a, b) = (q, p)).
  { destruct Hj as [[H1 H2]|[H1 H2]]; rewrite Hs in H1; rewrite Ht in H2;
      injection H1 as ->; injection H2 as ->; auto. }
  assert (Hp : hyphenFree p /\ hyphenFree q).
  { destruct Hpq as [E|E]; injection E as <- <-; now split. }
  assert (Hk : k = connectionKey p q).
  { destruct Hpq as [E|E]; injection E as <- <-;
      [now symmetry | rewrite connectionKey_sym; now symmetry]. }
  split.
  - rewrite Hv, Hk. apply keyCount_bridgeCount; try tauto. now apply Forall_forall.
  - apply bridgeCount_pos. exists (a, b). split; [exact Hab | now apply bridges_spec].
Qed.

(** A pair of platforms with a positive aggregated count has a stored
    connection that joins them. *)
Lemma tallied_exists p q :
  (0 < bridgeCount p q hits)%Z ->
  exists k c, In (k, c) m /\ joins p q c /\ value c = bridgeCount p q hits.
Proof.
  intros Hpos. destruct Htallied as [Hnd Hm].
  destruct (proj1 (bridgeCount_pos p q hits) Hpos) as (hit & Hin & Hb).
  rewrite Forall_forall in Hfree. destruct (Hfree _ Hin) as [Ha Hb'].
  assert (Hp : hyphenFree p /\ hyphenFree q).
  { apply bridges_spec in Hb. destruct Hb as [->| ->]; simpl in *; now split. }
  pose proof (Hm (connectionKey p q)) as Hk.
  rewrite keyCount_bridgeCount in Hk by (try tauto; now apply Forall_forall).
  destruct (aget (connectionKey p q) m) as [c|] eqn:E; [|lia].
  destruct Hk as (Hv & a & b & Hab & Hkey & Hs & Ht).
  exists (connectionKey p q), c. split; [now apply aget_In|]. split; [|exact Hv].
  destruct (Hfree _ Hab) as [Ha2 Hb2]. simpl in Ha2, Hb2.
  destruct (connectionKey_inj a b p q Ha2 Hb2 (proj1 Hp) (proj2 Hp) Hkey) as [[-> ->]|[-> ->]];
    [left | right]; now split.
Qed.
End Tallied.

Lemma mainBridge_free src ds :
  (forall row, In row src -> hyphenFree (sourceGroupKey row)) ->
  (forall row, In row ds -> hyphenFree (downstreamGroupKey row)) ->
  Forall (fun hit => hyphenFree (fst hit) /\ hyphenFree (snd hit)) (hitsOf mainBridge src ds).
Proof.
  intros Hs Hd. rewrite Forall_forall. intros hit Hin.
  apply In_hitsOf in Hin. destruct Hin as (s & d & Hsin & Hdin & Hb).
  unfold mainBridge in Hb. cbv zeta in Hb.
  destruct (_ && _); [|discriminate]. injection Hb as <-. simpl. split; auto.
Qed.

Lemma lower_hyphenFree (p : string) :
  hyphenFree (orString (optLower (Some p)) "Unknown") -> hyphenFree (toLowerCase p).
Proof.
  destruct p as [|c p]; [reflexivity|]. simpl. auto.
Qed.

Lemma vennBridge_free src ds :
  (forall row, In row src -> hyphenFree (sourceGroupKey row)) ->
  (forall row, In row ds -> hyphenFree (downstreamGroupKey row)) ->
  Forall (fun hit => hyphenFree (fst hit) /\ hyphenFree (snd hit)) (hitsOf vennBridge src ds).
Proof.
  intros Hs Hd. rewrite Forall_forall. intros hit Hin.
  apply In_hitsOf in Hin. destruct Hin as (s & d & Hsin & Hdin & Hb).
  unfold vennBridge in Hb.
  specialize (Hs s Hsin). specialize (Hd d Hdin).
  unfold sourceGroupKey in Hs. unfold downstreamGroupKey in Hd.
  destruct (s_data_platform s) as [p|]; [|discriminate].
  destruct (d_data_platform d) as [q|]; [|discriminate].
  destruct (_ && _); [|discriminate]. injection Hb as <-. simpl.
  split; now apply lower_hyphenFree.
Qed.

(** ** Which links are dashed *)

Lemma Main_connections_dashed src ds :
  Forall (fun e => isDashed (snd e) = true) (Main.dataPlatformConnections src ds).
Proof.
  rewrite Main_connections_tally.
  apply (tally_Forall (fun c => isDashed c = true)); [reflexivity | | constructor].
  intros c Hc. unfold isDashed, Main.bumpConnection in *. simpl.
  now destruct (lineStyle c).
Qed.

Lemma Main_dashed_links src ds cm l :
  In l (links (Main.getMainGraphData src ds cm)) /\ isDashed l = true
  <-> exists k, In (k, l) (Main.dataPlatformConnections (sortSources src) (sortDownstreams ds)).
Proof.
  rewrite Main_links_unfold. split.
  - intros [Hin Hd]. apply in_app_or in Hin. destruct Hin as [Hin|Hin].
    { apply in_map_iff in Hin. destruct Hin as (row & <- & _). discriminate Hd. }
    apply in_app_or in Hin. destruct Hin as [Hin|Hin].
    { apply in_map_iff in Hin. destruct Hin as (row & <- & _). discriminate Hd. }
    apply in_map_iff in Hin. destruct Hin as ([k c] & <- & Hin). now exists k.
  - intros [k Hin]. split.
    + apply in_or_app. right. apply in_or_app. right.
      apply in_map_iff. now exists (k, l).
    + pose proof (Main_connections_dashed (sortSources src) (sortDownstreams ds)) as H.
      rewrite Forall_forall in H. now apply (H (k, l)).
Qed.

Lemma Venn_entity_links_solid cm rnd dps rm src ds :
  Forall (fun l => isDashed l = false) (snd (fst (Venn.entityLoops cm rnd dps rm src ds))).
Proof.
  unfold Venn.entityLoops. cbv zeta.
  pose (P := fun st : Venn.State => Forall (fun l => isDashed l = false) (snd (fst st))).
  assert (Hsrc : forall dp sector st row i, P st -> P (Venn.sourceStep cm rnd dp sector st row i)).
  { intros dp sector [[ns ls] rc] row i H. unfold P, Venn.sourceStep in *.
    destruct (nodeMap_has _ ns); simpl in *; [exact H|].
    apply Forall_app. split; [exact H | now repeat constructor]. }
  assert (Hds : forall dp sector st row i,
             P st -> P (Venn.downstreamStep cm rnd dp sector st row i)).
  { intros dp sector [[ns ls] rc] row i H. unfold P, Venn.downstreamStep in *.
    destruct (nodeMap_has _ ns); simpl in *; [exact H|].
    apply Forall_app. split; [exact H | now repeat constructor]. }
  apply (forEach_inv P).
  - intros st dp i _ H. unfold Venn.perPlatform.
    destruct (nodeMap_get dp rm) as [rn|]; [|exact H].
    destruct (aget dp (Venn.sectorMap dps)) as [sector|]; [|exact H].
    apply (forEach_inv P); [|exact H]. intros s row j _. apply Hds.
  - apply (forEach_inv P); [|constructor].
    intros st dp i _ H. unfold Venn.perPlatform.
    destruct (nodeMap_get dp rm) as [rn|]; [|exact H].
    destruct (aget dp (Venn.sectorMap dps)) as [sector|]; [|exact H].
    apply (forEach_inv P); [|exact H]. intros s row j _. apply Hsrc.
Qed.

(** The last loop of the Venn builder appends one dashed link for every
    connection whose count exceeds 3, and nothing else. *)
Lemma Venn_platformLinks_sound rnd conns : forall i ls rc l,
  In l (fst (forEachFrom (Venn.platformLinkStep rnd) i conns (ls, rc))) ->
  In l ls
  \/ (isDashed l = true
      /\ exists k c, In (k, c) conns /\ (3 < value c)%Z
                     /\ l_source l = l_source c /\ l_target l = l_target c
                     /\ value l = value c).
Proof.
  induction conns as [|[k c] conns IH]; intros i ls rc l; simpl; [now left|].
  destruct (Z.ltb_spec 3 (value c)) as [Hbig|Hsmall]; intros H; apply IH in H.
  - destruct H as [H|(Hd & k' & c' & Hin & Hv & He)].
    + apply in_app_or in H. destruct H as [H|[<-|[]]]; [now left|].
      right. split; [reflexivity|]. exists k, c. repeat split; auto.
    + right. split; [exact Hd|]. exists k', c'. split; [now right | now split].
  - destruct H as [H|(Hd & k' & c' & Hin & Hv & He)]; [now left|].
    right. split; [exact Hd|]. exists k', c'. split; [now right | now split].
Qed.

Lemma Venn_platformLinks_keep rnd conns : forall i ls rc l,
  In l ls -> In l (fst (forEachFrom (Venn.platformLinkStep rnd) i conns (ls, rc))).
Proof.
  induction conns as [|[k c] conns IH]; intros i ls rc l H; simpl; [exact H|].
  destruct (3 <? value c)%Z; apply IH; [|exact H]. apply in_or_app. now left.
Qed.

Lemma Venn_platformLinks_complete rnd conns : forall i ls rc k c,
  In (k, c) conns -> (3 < value c)%Z ->
  exists l, In l (fst (forEachFrom (Venn.platformLinkStep rnd) i conns (ls, rc)))
            /\ isDashed l = true
            /\ l_source l = l_source c /\ l_target l = l_target c /\ value l = value c.
Proof.
  induction conns as [|[k0 c0] conns IH]; intros i ls rc k c Hin Hv; [contradiction|].
  simpl. destruct Hin as [E|Hin].
  - injection E as -> ->. apply Z.ltb_lt in Hv. rewrite Hv.
    eexists. split; [apply Venn_platformLinks_keep; apply in_or_app; right; now left|].
    now repeat split.
  - destruct (3 <? value c0)%Z; now apply (IH _ _ _ k c).
Qed.

(** How the two builders compare application names that are missing. *)
Lemma dashed_examples cm rnd :
  match Venn.getVennNetworkLayout unnamedSources unnamedDownstreams cm rnd with
  | Ok g => dashedLinks g = [(EpId "p1", EpId "p2", 16%Z)]
  | Throw _ => False
  end
  /\ match Venn.getVennNetworkLayout nullNamedSources unnamedDownstreams cm rnd with
     | Ok g => dashedLinks g = []
     | Throw _ => False
     end
  /\ dashedLinks (Main.getMainGraphData nullNamedSources unnamedDownstreams cm)
     = [(EpId "p1", EpId "p2", 16%Z)].
Proof.
  split; [|split].
  - lazy. reflexivity.
  - lazy. reflexivity.
  - lazy. reflexivity.
Qed.

(** C2, as the code has it.  With platform names free of "-" (the separator
    of the connection key): the Venn builder emits a dashed link joining two
    platforms exactly when their aggregated count of bridging record pairs
    exceeds 3, and the circular builder emits one as soon as the count is
    positive, without a threshold; in both the link carries the count.  A
    pair of records bridges when the platforms differ and the application
    names are equal: the circular builder compares the names after the
    default "Unknown", the Venn builder compares them as they are, so that
    there an absent name equals an absent name but not a [null] one. *)
Theorem platform_links_threshold :
  (forall src ds cm rnd g p q,
      Venn.getVennNetworkLayout src ds cm rnd = Ok g ->
      (forall row, In row src -> hyphenFree (sourceGroupKey row)) ->
      (forall row, In row ds -> hyphenFree (downstreamGroupKey row)) ->
      ((exists l, In l (links g) /\ isDashed l = true /\ joins p q l)
       <-> (3 < bridgeCount p q (hitsOf vennBridge src ds))%Z)
      /\ (forall l, In l (links g) -> isDashed l = true -> joins p q l ->
                    value l = bridgeCount p q (hitsOf vennBridge src ds)))
  /\ (forall src ds cm p q,
        (forall row, In row src -> hyphenFree (sourceGroupKey row)) ->
        (forall row, In row ds -> hyphenFree (downstreamGroupKey row)) ->
        ((exists l, In l (links (Main.getMainGraphData src ds cm))
                    /\ isDashed l = true /\ joins p q l)
         <-> (0 < bridgeCount p q (hitsOf mainBridge src ds))%Z)
        /\ (forall l, In l (links (Main.getMainGraphData src ds cm)) ->
                      isDashed l = true -> joins p q l ->
                      value l = bridgeCount p q (hitsOf mainBridge src ds)))
  /\ (forall cm rnd,
        match Venn.getVennNetworkLayout unnamedSources unnamedDownstreams cm rnd with
        | Ok g => dashedLinks g = [(EpId "p1", EpId "p2", 16%Z)]
        | Throw _ => False
        end
        /\ match Venn.getVennNetworkLayout nullNamedSources unnamedDownstreams cm rnd with
           | Ok g => dashedLinks g = []
           | Throw _ => False
           end
        /\ dashedLinks (Main.getMainGraphData nullNamedSources unnamedDownstreams cm)
           = [(EpId "p1", EpId "p2", 16%Z)]).
Proof.
  split; [|split; [|exact dashed_examples]].
  - intros src ds cm rnd g p q Hok Hs Hd.
    destruct (Venn_Ok_platforms _ _ _ _ _ Hok) as [Hps Hpd].
    apply Venn_unfold in Hok. destruct Hok as (counts & conns & _ & Hconns & _ & Hlinks).
    rewrite Venn_connections_tally in Hconns by assumption. injection Hconns as <-.
    set (hits := hitsOf vennBridge src ds) in *.
    set (conns := fold_left (tally vennNewConnection vennBumpConnection) hits []) in *.
    assert (Ht : tallied hits conns).
    { apply tally_all; [intros a b | intros c]; now repeat split. }
    assert (Hf : Forall (fun hit => hyphenFree (fst hit) /\ hyphenFree (snd hit)) hits)
      by now apply vennBridge_free.
    pose proof (Venn_entity_links_solid cm rnd (Venn.sortPlatforms (collectPlatforms src ds))
                  (Venn.platformNodes cm counts (Venn.sortPlatforms (collectPlatforms src ds)))
                  src ds) as Hsolid.
    rewrite Forall_forall in Hsolid. unfold forEach in Hlinks.
    assert (Hfrom : forall l, In l (links g) -> isDashed l = true -> joins p q l ->
                      value l = bridgeCount p q hits /\ (3 < bridgeCount p q hits)%Z).
    { intros l Hin Hdash Hj. rewrite Hlinks in Hin.
      apply Venn_platformLinks_sound in Hin.
      destruct Hin as [Hin|(_ & k & c & Hin & Hv & Hsrc & Htgt & Hval)].
      { apply Hsolid in Hin. congruence. }
      assert (Hjc : joins p q c).
      { unfold joins in *. now rewrite <- Hsrc, <- Htgt. }
      destruct (tallied_joins hits conns Ht Hf p q k c Hin Hjc) as [Hvc _].
      split; lia. }
    split; [split|].
    + intros (l & Hin & Hdash & Hj). now apply (Hfrom l).
    + intros Hbig.
      destruct (tallied_exists hits conns Ht Hf p q) as (k & c & Hin & Hj & Hv); [lia|].
      destruct (Venn_platformLinks_complete rnd conns 0
                  (snd (fst (Venn.entityLoops cm rnd
                     (Venn.sortPlatforms (collectPlatforms src ds))
                     (Venn.platformNodes cm counts
                        (Venn.sortPlatforms (collectPlatforms src ds))) src ds)))
                  (snd (Venn.entityLoops cm rnd
                     (Venn.sortPlatforms (collectPlatforms src ds))
                     (Venn.platformNodes cm counts
                        (Venn.sortPlatforms (collectPlatforms src ds))) src ds))
                  k c Hin) as (l & Hl & Hdash & Hsrc & Htgt & _); [lia|].
      exists l. rewrite Hlinks. split; [exact Hl|]. split; [exact Hdash|].
      unfold joins in *. now rewrite Hsrc, Htgt.
    + intros l Hin Hdash Hj. now apply (Hfrom l).
  - intros src ds cm p q Hs Hd.
    set (hits := hitsOf mainBridge (sortSources src) (sortDownstreams ds)).
    assert (Hperm : bridgeCount p q (hitsOf mainBridge src ds) = bridgeCount p q hits).
    { apply bridgeCount_perm, hitsOf_perm; apply sortBy_perm. }
    rewrite Hperm.
    assert (Ht : tallied hits
                   (Main.dataPlatformConnections (sortSources src) (sortDownstreams ds))).
    { rewrite Main_connections_tally. apply tally_all; [intros a b | intros c]; now repeat split. }
    assert (Hf : Forall (fun hit => hyphenFree (fst hit) /\ hyphenFree (snd hit)) hits).
    { apply mainBridge_free; intros row Hin; [apply Hs | apply Hd];
        eapply sortBy_In; exact Hin. }
    assert (Hfrom : forall l, In l (links (Main.getMainGraphData src ds cm)) ->
                      isDashed l = true -> joins p q l ->
                      value l = bridgeCount p q hits /\ (0 < bridgeCount p q hits)%Z).
    { intros l Hin Hdash Hj.
      destruct (proj1 (Main_dashed_links src ds cm l) (conj Hin Hdash)) as [k Hk].
      now apply (tallied_joins hits _ Ht Hf p q k l). }
    split; [split|].
    + intros (l & Hin & Hdash & Hj). now apply (Hfrom l).
    + intros Hpos.
      destruct (tallied_exists hits _ Ht Hf p q Hpos) as (k & c & Hin & Hj & _).
      exists c. destruct (proj2 (Main_dashed_links src ds cm c) (ex_intro _ k Hin)) as [H1 H2].
      now repeat split.
    + intros l Hin Hdash Hj. now apply (Hfrom l).
Qed.

Lemma platform_links_threshold_witness :
  match Venn.getVennNetworkLayout fourBridgesSources fourBridgesDownstreams defaultColorMap
          noRandom with
  | Ok g => exists l, In l (links g) /\ isDashed l = true /\ joins "p1" "p2" l
  | Throw _ => False
  end.
Proof.
  destruct (Venn.getVennNetworkLayout fourBridgesSources fourBridgesDownstreams defaultColorMap
              noRandom) as [g|e] eqn:E.
  - apply (proj1 platform_links_threshold fourBridgesSources fourBridgesDownstreams
             defaultColorMap noRandom g "p1" "p2" E).
    + intros row [<-|[<-|[]]]; reflexivity.
    + intros row [<-|[<-|[]]]; reflexivity.
    + reflexivity.
  - assert (H : match Venn.getVennNetworkLayout fourBridgesSources fourBridgesDownstreams
                        defaultColorMap noRandom
                with Ok _ => True | Throw _ => False end) by (lazy; exact I).
    now rewrite E in H.
Defined.

(** C2 as stated fails for the circular builder: one bridging pair is enough
    for a dashed platform link. *)
Lemma main_link_below_threshold :
  exists l,
    In l (links (Main.getMainGraphData (svcSources None) (svcDownstreams None) defaultColorMap))
    /\ isDashed l = true /\ joins "p1" "p2" l /\ value l = 1%Z
    /\ bridgeCount "p1" "p2" (hitsOf mainBridge (svcSources None) (svcDownstreams None)) = 1%Z.
Proof.
  exists (Main.newConnection "p1" "p2").
  split; [rewrite Main_links_unfold; right; right; now left|].
  split; [reflexivity|]. split; [left; now split|]. split; reflexivity.
Qed.

(** ** The registry under one key *)

Lemma kstep_other k st u : u_key u <> k -> kstep k st u = st.
Proof.
  intros H. unfold kstep. destruct (String.eqb_spec (u_key u) k); [contradiction | reflexivity].
Qed.

Lemma keySum_cons k u us :
  keySum k (u :: us) = ((if (u_key u =? k)%string then u_count u else 0) + keySum k us)%Z.
Proof. unfold keySum. simpl. now destruct (u_key u =? k)%string. Qed.

Lemma keySum_app k us1 us2 : keySum k (us1 ++ us2) = (keySum k us1 + keySum k us2)%Z.
Proof.
  induction us1 as [|u us1 IH]; [reflexivity|].
  simpl. rewrite !keySum_cons, IH. lia.
Qed.

Lemma hasRole_app r k us1 us2 : hasRole r k (us1 ++ us2) = hasRole r k us1 || hasRole r k us2.
Proof. unfold hasRole. apply existsb_app. Qed.

Lemma hasRole_In r k us :
  hasRole r k us = true <-> exists u, In u us /\ u_key u = k /\ u_downstream u = r.
Proof.
  unfold hasRole. rewrite existsb_exists. split; intros (u & Hin & H); exists u.
  - apply andb_true_iff in H. destruct H as [H1 H2].
    apply String.eqb_eq in H1. apply Bool.eqb_prop in H2. now repeat split.
  - destruct H as [<- <-]. split; [exact Hin|].
    now rewrite String.eqb_refl, Bool.eqb_reflx.
Qed.

(** Once a key is registered, its type only moves from source to mixed, on a
    downstream upsert, and its weight grows by every count. *)
Lemma pair_eq {A B : Type} (a a' : A) (b b' : B) : a = a' -> b = b' -> (a, b) = (a', b').
Proof. now intros -> ->. Qed.

Lemma kfold_Some k us : forall t w,
  fold_left (kstep k) us (Some (t, TNum w))
  = Some (if hasRole true k us then promoteType t else t, TNum (w + keySum k us)).
Proof.
  induction us as [|u us IH]; intros t w; simpl.
  - unfold keySum. simpl. now rewrite Z.add_0_r.
  - rewrite keySum_cons. unfold kstep at 2. unfold hasRole. simpl. fold (hasRole true k us).
    destruct (u_key u =? k)%string; simpl; rewrite IH; f_equal; apply pair_eq;
      try (f_equal; lia).
    destruct (u_downstream u); simpl; [|reflexivity].
    destruct (hasRole true k us); now destruct t.
Qed.

(** A key whose upserts all create is registered by the first of them; its
    weight is the sum of all counts on the key. *)
Lemma kfold_None k us :
  (forall u, In u us -> u_key u = k -> u_creates u = true) ->
  fold_left (kstep k) us None
  = match filter (fun u => (u_key u =? k)%string) us with
    | [] => None
    | u :: rest =>
        Some (if u_downstream u then downstream
              else if hasRole true k rest then mixed else source,
              TNum (keySum k us))
    end.
Proof.
  induction us as [|u us IH]; intros Hc; [reflexivity|].
  simpl. unfold kstep at 2. rewrite keySum_cons.
  destruct (String.eqb_spec (u_key u) k) as [E|E].
  - rewrite (Hc u (or_introl eq_refl) E). rewrite kfold_Some.
    assert (Hrole : hasRole true k (filter (fun u => (u_key u =? k)%string) us)
                    = hasRole true k us).
    { clear. unfold hasRole. induction us as [|v us IH]; [reflexivity|]. simpl.
      destruct (u_key v =? k)%string eqn:Ev; simpl; [now rewrite Ev, IH | exact IH]. }
    rewrite Hrole. unfold roleType.
    destruct (u_downstream u); simpl; [now destruct (hasRole true k us)|].
    now destruct (hasRole true k us).
  - rewrite IH by (intros v Hv; apply Hc; now right). rewrite Z.add_0_l. reflexivity.
Qed.

(** Whatever the upserts, the type stored under a key that was not a
    platform tells in which roles the key was upserted. *)
Lemma kstep_roleSound k seen st u :
  roleSound k seen st -> roleSound k (seen ++ [u]) (kstep k st u).
Proof.
  unfold roleSound, kstep. intros H.
  assert (Hmono : forall r, hasRole r k seen = true -> hasRole r k (seen ++ [u]) = true).
  { intros r Hr. now rewrite hasRole_app, Hr. }
  destruct (String.eqb_spec (u_key u) k) as [E|E].
  - assert (Hu : hasRole (u_downstream u) k (seen ++ [u]) = true).
    { rewrite hasRole_app. unfold hasRole at 2. simpl.
      apply String.eqb_eq in E. rewrite E, Bool.eqb_reflx. simpl. apply orb_true_r. }
    destruct st as [[t w]|].
    + destruct (u_downstream u); destruct t; simpl; intuition.
    + destruct (u_creates u); [|exact I].
      unfold roleType. now destruct (u_downstream u).
  - destruct st as [[t w]|]; [|exact I]. destruct t; intuition.
Qed.

Lemma kfold_roleSound k us : forall seen st,
  roleSound k seen st -> roleSound k (seen ++ us) (fold_left (kstep k) us st).
Proof.
  induction us as [|u us IH]; intros seen st H; simpl.
  - now rewrite app_nil_r.
  - replace (seen ++ u :: us) with ((seen ++ [u]) ++ us) by now rewrite <- app_assoc.
    apply IH. now apply kstep_roleSound.
Qed.

(** A platform key stays a platform. *)
Lemma kfold_platform k us : forall w,
  exists w', fold_left (kstep k) us (Some (dataplatform, w)) = Some (dataplatform, w').
Proof.
  induction us as [|u us IH]; intros w; simpl; [now exists w|].
  unfold kstep at 2. destruct (u_key u =? k)%string; [|apply IH].
  destruct (u_downstream u); apply IH.
Qed.


(** ** Types and weights in the circular builder *)

Lemma Main_sourceLoop_lookKey cm rm total k rows st :
  lookKey k (fst (forEach (Main.sourceStep cm rm total) rows st))
  = fold_left (kstep k) (map (mainSourceUpsert rm) rows) (lookKey k (fst st)).
Proof.
  rewrite fold_left_map. unfold forEach.
  pose (proj := fun st : Main.State => lookKey k (fst st)).
  change (lookKey k (fst ?s)) with (proj s).
  apply (forEachFrom_proj _ proj (fun s row => kstep k s (mainSourceUpsert rm row))).
  intros [ns ls] row i _.
  destruct (Main_sourceStep_upsert cm rm total ns ls row i) as (fresh & -> & Hf & Hc).
  unfold proj. simpl. rewrite lookKey_upsert by (eapply isFresh_look; eauto).
  f_equal. unfold mainSourceUpsert in *. simpl in *. now rewrite Hc.
Qed.

Lemma Main_downstreamLoop_lookKey cm rm total k rows st :
  lookKey k (fst (forEach (Main.downstreamStep cm rm total) rows st))
  = fold_left (kstep k) (map (mainDownstreamUpsert rm) rows) (lookKey k (fst st)).
Proof.
  rewrite fold_left_map. unfold forEach.
  pose (proj := fun st : Main.State => lookKey k (fst st)).
  change (lookKey k (fst ?s)) with (proj s).
  apply (forEachFrom_proj _ proj (fun s row => kstep k s (mainDownstreamUpsert rm row))).
  intros [ns ls] row i _.
  destruct (Main_downstreamStep_upsert cm rm total ns ls row i) as (fresh & -> & Hf & Hc).
  unfold proj. simpl. rewrite lookKey_upsert by (eapply isFresh_look; eauto).
  f_equal. unfold mainDownstreamUpsert in *. simpl in *. now rewrite Hc.
Qed.

Lemma regionNodeMap_get_In rm dp :
  In dp (map id rm) -> exists rn, Main.regionNodeMap_get rm dp = Some rn.
Proof.
  intros H. apply nodeMap_has_In in H. rewrite nodeMap_has_get in H.
  unfold Main.regionNodeMap_get. fold (nodeMap_get dp rm).
  destruct (nodeMap_get dp rm) as [rn|]; [now exists rn | discriminate].
Qed.

(** A row that names its platform creates its node when the key is new. *)
Lemma mainSourceUpsert_creates src ds cm row :
  In row src -> truthy (s_data_platform row) = true ->
  u_creates (mainSourceUpsert (Main.platformNodes cm (collectPlatforms src ds)) row) = true.
Proof.
  intros Hin Ht. unfold mainSourceUpsert. simpl.
  destruct (regionNodeMap_get_In (Main.platformNodes cm (collectPlatforms src ds))
              (sourceGroupKey row)) as [rn ->]; [|reflexivity].
  rewrite Main_platformNodes_ids by apply collectPlatforms_NoDup.
  now apply sourceGroupKey_registered.
Qed.

Lemma mainDownstreamUpsert_creates src ds cm row :
  In row ds -> truthy (d_data_platform row) = true ->
  u_creates (mainDownstreamUpsert (Main.platformNodes cm (collectPlatforms src ds)) row) = true.
Proof.
  intros Hin Ht. unfold mainDownstreamUpsert. simpl.
  destruct (regionNodeMap_get_In (Main.platformNodes cm (collectPlatforms src ds))
              (downstreamGroupKey row)) as [rn ->]; [|reflexivity].
  rewrite Main_platformNodes_ids by apply collectPlatforms_NoDup.
  now apply downstreamGroupKey_registered.
Qed.

(** Sums of counts, by rows and by upserts. *)
Lemma keySum_map {A : Type} (up : A -> Upsert) k rows :
  keySum k (map up rows)
  = fold_right Z.add 0%Z
      (map (fun row => u_count (up row))
         (filter (fun row => (u_key (up row) =? k)%string) rows)).
Proof.
  unfold keySum. induction rows as [|row rows IH]; [reflexivity|]. simpl.
  destruct (u_key (up row) =? k)%string; simpl; now rewrite IH.
Qed.

Lemma sum_perm l l' : Permutation l l' -> fold_right Z.add 0%Z l = fold_right Z.add 0%Z l'.
Proof.
  induction 1 as [| | |l1 l2 l3 _ IH1 _ IH2]; simpl; lia.
Qed.

Lemma sourceWeight_perm k src src' :
  Permutation src src' -> sourceWeight k src = sourceWeight k src'.
Proof.
  intros H. unfold sourceWeight. apply sum_perm, Permutation_map. now apply filter_perm.
Qed.

Lemma downstreamWeight_perm k ds ds' :
  Permutation ds ds' -> downstreamWeight k ds = downstreamWeight k ds'.
Proof.
  intros H. unfold downstreamWeight. apply sum_perm, Permutation_map. now apply filter_perm.
Qed.

Lemma keySum_mainSource rm k src :
  keySum k (map (mainSourceUpsert rm) (sortSources src)) = sourceWeight k src.
Proof.
  rewrite keySum_map. rewrite (sourceWeight_perm k src (sortSources src)) by apply sortBy_perm.
  reflexivity.
Qed.

Lemma keySum_mainDownstream rm k ds :
  keySum k (map (mainDownstreamUpsert rm) (sortDownstreams ds)) = downstreamWeight k ds.
Proof.
  rewrite keySum_map.
  rewrite (downstreamWeight_perm k ds (sortDownstreams ds)) by apply sortBy_perm.
  reflexivity.
Qed.

(** An entity node of a build was registered by the upserts alone. *)
Lemma lookKey_node ns n :
  NoDup (map id ns) -> In n ns -> lookKey (id n) ns = Some (type n, tables n).
Proof.
  intros Hnd Hin. unfold lookKey. now rewrite nodeMap_get_unique.
Qed.

Lemma entity_from_None k us rm t w :
  Forall isRegion rm ->
  fold_left (kstep k) us (lookKey k rm) = Some (t, w) ->
  t <> dataplatform ->
  lookKey k rm = None.
Proof.
  intros Hreg H Ht. rewrite lookKey_regions in * by exact Hreg.
  destruct (nodeMap_has k rm); [|reflexivity].
  destruct (kfold_platform k us TUndefined) as [w' Hw]. rewrite Hw in H.
  injection H as <- _. now elim Ht.
Qed.

Lemma Main_entity_state src ds cm n :
  In n (nodes (Main.getMainGraphData src ds cm)) -> type n <> dataplatform ->
  fold_left (kstep (id n)) (mainUpserts src ds cm) None = Some (type n, tables n).
Proof.
  intros Hin Ht.
  pose proof (lookKey_node _ n (Main_nodes_NoDup src ds cm) Hin) as H.
  rewrite Main_lookKey in H.
  rewrite (entity_from_None _ _ _ _ _
             (Main_platformNodes_region cm _ (collectPlatforms_NoDup src ds)) H Ht) in H.
  exact H.
Qed.

Lemma mainUpserts_role_source src ds cm k :
  hasRole false k (mainUpserts src ds cm) = true ->
  exists row, In row src /\ sourceKey row = k.
Proof.
  intros H. apply hasRole_In in H. destruct H as (u & Hin & Hk & Hr).
  unfold mainUpserts in Hin. cbv zeta in Hin. apply in_app_or in Hin.
  destruct Hin as [Hin|Hin]; apply in_map_iff in Hin; destruct Hin as (row & <- & Hrow).
  - exists row. split; [now apply sortBy_In in Hrow | exact Hk].
  - discriminate Hr.
Qed.

Lemma mainUpserts_role_downstream src ds cm k :
  hasRole true k (mainUpserts src ds cm) = true ->
  exists row, In row ds /\ downstreamKey row = k.
Proof.
  intros H. apply hasRole_In in H. destruct H as (u & Hin & Hk & Hr).
  unfold mainUpserts in Hin. cbv zeta in Hin. apply in_app_or in Hin.
  destruct Hin as [Hin|Hin]; apply in_map_iff in Hin; destruct Hin as (row & <- & Hrow).
  - discriminate Hr.
  - exists row. split; [now apply sortBy_In in Hrow | exact Hk].
Qed.

(** A key registered by source upserts alone, one of which creates, is a
    source node. *)
Lemma kfold_source_created k us :
  (forall u, In u us -> u_downstream u = false) ->
  (exists u, In u us /\ u_key u = k /\ u_creates u = true) ->
  exists w, fold_left (kstep k) us None = Some (source, TNum w).
Proof.
  induction us as [|u us IH]; intros Hrole (u0 & Hin & Hk & Hc); [contradiction|].
  assert (Hno : hasRole true k us = false).
  { destruct (hasRole true k us) eqn:E; [|reflexivity].
    apply hasRole_In in E. destruct E as (v & Hv & _ & Hr).
    rewrite (Hrole v (or_intror Hv)) in Hr. discriminate. }
  simpl. unfold kstep at 2.
  destruct (String.eqb_spec (u_key u) k) as [E|E].
  - destruct (u_creates u) eqn:Ec.
    + rewrite (Hrole u (or_introl eq_refl)). simpl. rewrite kfold_Some, Hno. eauto.
    + apply IH; [intros v Hv; apply Hrole; now right|].
      destruct Hin as [->|Hin]; [congruence|]. now exists u0.
  - apply IH; [intros v Hv; apply Hrole; now right|].
    destruct Hin as [->|Hin]; [congruence|]. now exists u0.
Qed.

Lemma Main_mixed_complete src ds cm n :
  In n (nodes (Main.getMainGraphData src ds cm)) -> type n <> dataplatform ->
  (exists row, In row src /\ sourceKey row = id n /\ truthy (s_data_platform row) = true) ->
  (exists row, In row ds /\ downstreamKey row = id n) ->
  type n = mixed.
Proof.
  intros Hin Ht (s & Hs & Hsk & Hst) (d & Hd & Hdk).
  pose proof (Main_entity_state src ds cm n Hin Ht) as H.
  unfold mainUpserts in H. cbv zeta in H. rewrite fold_left_app in H.
  set (rm := Main.platformNodes cm (collectPlatforms src ds)) in *.
  destruct (kfold_source_created (id n) (map (mainSourceUpsert rm) (sortSources src)))
    as [w Hw].
  - intros u Hu. apply in_map_iff in Hu. now destruct Hu as (row & <- & _).
  - exists (mainSourceUpsert rm s). split; [|split].
    + apply in_map. now apply sortBy_In.
    + exact Hsk.
    + now apply mainSourceUpsert_creates.
  - rewrite Hw, kfold_Some in H.
    assert (Hrole : hasRole true (id n) (map (mainDownstreamUpsert rm) (sortDownstreams ds))
                    = true).
    { apply hasRole_In. exists (mainDownstreamUpsert rm d). split; [|now split].
      apply in_map. now apply sortBy_In. }
    rewrite Hrole in H. simpl in H. now injection H as <- _.
Qed.

(** The weight of an entity node whose rows all name their platform. *)
Lemma Main_weight src ds cm n :
  In n (nodes (Main.getMainGraphData src ds cm)) -> type n <> dataplatform ->
  (forall row, In row src -> sourceKey row = id n -> truthy (s_data_platform row) = true) ->
  (forall row, In row ds -> downstreamKey row = id n -> truthy (d_data_platform row) = true) ->
  tables n = TNum (sourceWeight (id n) src + downstreamWeight (id n) ds).
Proof.
  intros Hin Ht Hs Hd.
  pose proof (Main_entity_state src ds cm n Hin Ht) as H.
  rewrite kfold_None in H.
  - destruct (filter _ (mainUpserts src ds cm)); [discriminate|].
    injection H as _ <-. unfold mainUpserts. cbv zeta.
    now rewrite keySum_app, keySum_mainSource, keySum_mainDownstream.
  - intros u Hu Hk. unfold mainUpserts in Hu. cbv zeta in Hu. apply in_app_or in Hu.
    destruct Hu as [Hu|Hu]; apply in_map_iff in Hu; destruct Hu as (row & <- & Hrow);
      apply sortBy_In in Hrow.
    + apply mainSourceUpsert_creates; auto.
    + apply mainDownstreamUpsert_creates; auto.
Qed.

Lemma Main_mixed_sound src ds cm n :
  In n (nodes (Main.getMainGraphData src ds cm)) -> type n = mixed ->
  (exists row, In row src /\ sourceKey row = id n)
  /\ (exists row, In row ds /\ downstreamKey row = id n).
Proof.
  intros Hin Ht.
  assert (Hnp : type n <> dataplatform) by (rewrite Ht; discriminate).
  pose proof (Main_entity_state src ds cm n Hin Hnp) as H.
  pose proof (kfold_roleSound (id n) (mainUpserts src ds cm) [] None I) as Hs.
  simpl in Hs. rewrite H in Hs. simpl in Hs. rewrite Ht in Hs. destruct Hs as [H1 H2].
  split; [now apply (mainUpserts_role_source src ds cm) | now apply (mainUpserts_role_downstream src ds cm)].
Qed.

Lemma regions_initial k rm :
  Forall isRegion rm ->
  lookKey k rm = None \/ (exists w, lookKey k rm = Some (dataplatform, w)).
Proof.
  intros H. rewrite lookKey_regions by exact H.
  destruct (nodeMap_has k rm); [right; now exists TUndefined | now left].
Qed.


(** ** Groups of the Venn builder *)

Lemma groupBy_init {A : Type} dps dp : forall m : Amap (list A),
  aget dp (fold_left (fun m dp => aset dp (@nil A) m) dps m)
  = if existsb (String.eqb dp) dps then Some [] else aget dp m.
Proof.
  induction dps as [|d dps IH]; intros m; simpl; [reflexivity|].
  rewrite IH. destruct (existsb (String.eqb dp) dps); [now rewrite orb_true_r|].
  rewrite orb_false_r, aget_aset. rewrite (String.eqb_sym dp d).
  now destruct (d =? dp)%string.
Qed.

Lemma groupBy_rows {A : Type} (key : A -> string) dp rows : forall m g,
  aget dp m = Some g ->
  aget dp (fold_left (fun m row =>
                        aset (key row)
                          (match aget (key row) m with Some g => g | None => [] end ++ [row]) m)
             rows m)
  = Some (g ++ filter (fun row => (key row =? dp)%string) rows).
Proof.
  induction rows as [|row rows IH]; intros m g Hg; simpl.
  - now rewrite app_nil_r.
  - destruct (String.eqb_spec (key row) dp) as [E|E].
    + rewrite (IH _ (g ++ [row])).
      * now rewrite <- app_assoc.
      * rewrite E, Hg. apply aget_aset_same.
    + apply IH. rewrite aget_aset_other by congruence. exact Hg.
Qed.

(** The group of a platform is the sorted rows with that group key, in order. *)
Lemma groupBy_get {A : Type} (key : A -> string) dps rows dp :
  In dp dps ->
  aget dp (Venn.groupBy key dps rows) = Some (filter (fun row => (key row =? dp)%string) rows).
Proof.
  intros Hin. unfold Venn.groupBy. cbv zeta.
  rewrite (groupBy_rows key dp rows _ []); [reflexivity|].
  rewrite groupBy_init.
  assert (H : existsb (String.eqb dp) dps = true).
  { apply existsb_exists. exists dp. split; [exact Hin | apply String.eqb_refl]. }
  now rewrite H.
Qed.

(** ** Types and weights in the Venn builder *)

Lemma Venn_sourceRows_lookKey cm rnd dp sector k rows st :
  lookKey k (fst (fst (forEach (Venn.sourceStep cm rnd dp sector) rows st)))
  = fold_left (kstep k) (map vennSourceUpsert rows) (lookKey k (fst (fst st))).
Proof.
  rewrite fold_left_map. unfold forEach.
  pose (proj := fun st : Venn.State => lookKey k (fst (fst st))).
  change (lookKey k (fst (fst ?s))) with (proj s).
  apply (forEachFrom_proj _ proj (fun s row => kstep k s (vennSourceUpsert row))).
  intros [[ns ls] rc] row i _.
  destruct (Venn_sourceStep_upsert cm rnd dp sector ns ls rc row i) as (n & Hn & E).
  unfold proj. rewrite E. simpl.
  rewrite lookKey_upsert; [reflexivity|].
  intros n' E'. injection E' as <-. destruct Hn as (? & ? & ? & _). now repeat split.
Qed.

Lemma Venn_downstreamRows_lookKey cm rnd dp sector k rows st :
  lookKey k (fst (fst (forEach (Venn.downstreamStep cm rnd dp sector) rows st)))
  = fold_left (kstep k) (map vennDownstreamUpsert rows) (lookKey k (fst (fst st))).
Proof.
  rewrite fold_left_map. unfold forEach.
  pose (proj := fun st : Venn.State => lookKey k (fst (fst st))).
  change (lookKey k (fst (fst ?s))) with (proj s).
  apply (forEachFrom_proj _ proj (fun s row => kstep k s (vennDownstreamUpsert row))).
  intros [[ns ls] rc] row i _.
  destruct (Venn_downstreamStep_upsert cm rnd dp sector ns ls rc row i) as (n & Hn & E).
  unfold proj. rewrite E. simpl.
  rewrite lookKey_upsert; [reflexivity|].
  intros n' E'. injection E' as <-. destruct Hn as (? & ? & ? & _). now repeat split.
Qed.

Section VennLoops.
Variables (cm : ColorMap) (rnd : nat -> R) (dps : list string) (rm : list Node).
Hypothesis rm_ids : map id rm = dps.
Hypothesis dps_NoDup : NoDup dps.

Lemma region_found dp : In dp dps -> exists rn, nodeMap_get dp rm = Some rn.
Proof.
  intros H. rewrite <- rm_ids in H. apply nodeMap_has_In in H. rewrite nodeMap_has_get in H.
  destruct (nodeMap_get dp rm) as [rn|]; [now exists rn | discriminate].
Qed.

Lemma sector_found dp : In dp dps -> exists sector, aget dp (Venn.sectorMap dps) = Some sector.
Proof.
  intros H. apply In_nth_error in H. destruct H as [p Hp].
  rewrite (sectorMap_nth dps p dp dps_NoDup Hp). eauto.
Qed.

Lemma Venn_sourceLoop_lookKey k src l st :
  incl l dps ->
  lookKey k (fst (fst (forEach (Venn.perPlatform
                                  (Venn.groupBy sourceGroupKey dps (sortSources src))
                                  rm (Venn.sectorMap dps) (Venn.sourceStep cm rnd)) l st)))
  = fold_left (kstep k) (vennSourceUpserts l src) (lookKey k (fst (fst st))).
Proof.
  intros Hl. unfold vennSourceUpserts. rewrite fold_left_flat_map. unfold forEach.
  pose (proj := fun st : Venn.State => lookKey k (fst (fst st))).
  change (lookKey k (fst (fst ?s))) with (proj s).
  apply (forEachFrom_proj _ proj
           (fun s dp => fold_left (kstep k)
                          (map vennSourceUpsert
                             (filter (fun row => (sourceGroupKey row =? dp)%string)
                                (sortSources src))) s)).
  intros s dp i Hdp. apply Hl in Hdp. unfold Venn.perPlatform.
  destruct (region_found dp Hdp) as [rn ->]. destruct (sector_found dp Hdp) as [sector ->].
  rewrite groupBy_get by exact Hdp. unfold proj. apply Venn_sourceRows_lookKey.
Qed.

Lemma Venn_downstreamLoop_lookKey k ds l st :
  incl l dps ->
  lookKey k (fst (fst (forEach (Venn.perPlatform
                                  (Venn.groupBy downstreamGroupKey dps
                                     (sortDownstreams ds))
                                  rm (Venn.sectorMap dps) (Venn.downstreamStep cm rnd)) l st)))
  = fold_left (kstep k) (vennDownstreamUpserts l ds) (lookKey k (fst (fst st))).
Proof.
  intros Hl. unfold vennDownstreamUpserts. rewrite fold_left_flat_map. unfold forEach.
  pose (proj := fun st : Venn.State => lookKey k (fst (fst st))).
  change (lookKey k (fst (fst ?s))) with (proj s).
  apply (forEachFrom_proj _ proj
           (fun s dp => fold_left (kstep k)
                          (map vennDownstreamUpsert
                             (filter (fun row => (downstreamGroupKey row =? dp)%string)
                                (sortDownstreams ds))) s)).
  intros s dp i Hdp. apply Hl in Hdp. unfold Venn.perPlatform.
  destruct (region_found dp Hdp) as [rn ->]. destruct (sector_found dp Hdp) as [sector ->].
  rewrite groupBy_get by exact Hdp. unfold proj. apply Venn_downstreamRows_lookKey.
Qed.

Lemma Venn_entityLoops_lookKey k src ds :
  lookKey k (fst (fst (Venn.entityLoops cm rnd dps rm src ds)))
  = fold_left (kstep k) (vennSourceUpserts dps src ++ vennDownstreamUpserts dps ds)
      (lookKey k rm).
Proof.
  unfold Venn.entityLoops. cbv zeta.
  rewrite Venn_downstreamLoop_lookKey by apply incl_refl.
  rewrite Venn_sourceLoop_lookKey by apply incl_refl.
  now rewrite fold_left_app.
Qed.

End VennLoops.

Section GroupSums.
Context {A : Type} (up : A -> Upsert) (gk : A -> string).

Let key (row : A) : string := u_key (up row).
Let count (row : A) : Z := u_count (up row).

Lemma keySum_filter k f rows :
  keySum k (map up (filter f rows)) = wsum key count k f rows.
Proof.
  unfold keySum, wsum, key, count. induction rows as [|row rows IH]; [reflexivity|]. simpl.
  destruct (f row); simpl; [|exact IH].
  destruct (u_key (up row) =? k)%string; simpl; now rewrite IH.
Qed.

Lemma wsum_split k d dps rows :
  ~ In d dps ->
  wsum key count k (fun row => existsb (String.eqb (gk row)) (d :: dps)) rows
  = (wsum key count k (fun row => (gk row =? d)%string) rows
     + wsum key count k (fun row => existsb (String.eqb (gk row)) dps) rows)%Z.
Proof.
  intros Hd. unfold wsum. simpl existsb.
  induction rows as [|row rows IH]; [reflexivity|]. simpl.
  destruct (String.eqb_spec (gk row) d) as [E|E]; simpl.
  - assert (Hno : existsb (String.eqb (gk row)) dps = false).
    { destruct (existsb (String.eqb (gk row)) dps) eqn:Ex; [|reflexivity].
      apply existsb_exists in Ex. destruct Ex as (x & Hx & Hex).
      apply String.eqb_eq in Hex. subst. contradiction. }
    rewrite Hno. simpl. destruct (key row =? k)%string; simpl; lia.
  - destruct (existsb (String.eqb (gk row)) dps); simpl; [|exact IH].
    destruct (key row =? k)%string; simpl; lia.
Qed.

Lemma keySum_groups k dps rows :
  NoDup dps ->
  keySum k (flat_map (fun dp => map up (filter (fun row => (gk row =? dp)%string) rows)) dps)
  = wsum key count k (fun row => existsb (String.eqb (gk row)) dps) rows.
Proof.
  induction 1 as [|d dps Hd Hnd IH]; simpl.
  - unfold wsum. induction rows as [|row rows IHr]; [reflexivity | exact IHr].
  - rewrite keySum_app, IH, keySum_filter. symmetry. now apply wsum_split.
Qed.

Lemma wsum_all k f rows :
  (forall row, In row rows -> key row = k -> f row = true) ->
  wsum key count k f rows = wsum key count k (fun _ => true) rows.
Proof.
  intros H. unfold wsum. induction rows as [|row rows IH]; [reflexivity|]. simpl.
  destruct (String.eqb_spec (key row) k) as [E|E].
  - rewrite (H row (or_introl eq_refl) E). simpl.
    rewrite IH by (intros r Hr; apply H; now right). reflexivity.
  - rewrite andb_false_r. apply IH. intros r Hr. apply H. now right.
Qed.

Lemma In_groups dps rows u :
  In u (flat_map (fun dp => map up (filter (fun row => (gk row =? dp)%string) rows)) dps)
  <-> exists row, In row rows /\ In (gk row) dps /\ u = up row.
Proof.
  rewrite in_flat_map. split.
  - intros (dp & Hdp & Hu). apply in_map_iff in Hu. destruct Hu as (row & <- & Hrow).
    apply filter_In in Hrow. destruct Hrow as [Hrow E]. apply String.eqb_eq in E. subst dp.
    now exists row.
  - intros (row & Hrow & Hdp & ->). exists (gk row). split; [exact Hdp|].
    apply in_map. apply filter_In. split; [exact Hrow | apply String.eqb_refl].
Qed.
End GroupSums.

Lemma existsb_eqb_In x l : existsb (String.eqb x) l = true <-> In x l.
Proof.
  rewrite existsb_exists. split.
  - intros (y & Hy & E). apply String.eqb_eq in E. now subst.
  - intros H. exists x. split; [exact H | apply String.eqb_refl].
Qed.

Lemma keySum_vennSource k dps src :
  NoDup dps ->
  (forall row, In row src -> sourceKey row = k -> In (sourceGroupKey row) dps) ->
  keySum k (vennSourceUpserts dps src) = sourceWeight k src.
Proof.
  intros Hnd Hall. unfold vennSourceUpserts.
  rewrite (keySum_groups vennSourceUpsert sourceGroupKey) by exact Hnd.
  rewrite wsum_all.
  - rewrite (sourceWeight_perm k src (sortSources src)) by apply sortBy_perm.
    unfold wsum, sourceWeight. reflexivity.
  - intros row Hrow Hk. apply existsb_eqb_In. apply Hall; [|exact Hk].
    now apply sortBy_In in Hrow.
Qed.

Lemma keySum_vennDownstream k dps ds :
  NoDup dps ->
  (forall row, In row ds -> downstreamKey row = k -> In (downstreamGroupKey row) dps) ->
  keySum k (vennDownstreamUpserts dps ds) = downstreamWeight k ds.
Proof.
  intros Hnd Hall. unfold vennDownstreamUpserts.
  rewrite (keySum_groups vennDownstreamUpsert downstreamGroupKey) by exact Hnd.
  rewrite wsum_all.
  - rewrite (downstreamWeight_perm k ds (sortDownstreams ds)) by apply sortBy_perm.
    unfold wsum, downstreamWeight. reflexivity.
  - intros row Hrow Hk. apply existsb_eqb_In. apply Hall; [|exact Hk].
    now apply sortBy_In in Hrow.
Qed.

Lemma In_vennSourceUpserts dps src u :
  In u (vennSourceUpserts dps src)
  <-> exists row, In row src /\ In (sourceGroupKey row) dps /\ u = vennSourceUpsert row.
Proof.
  unfold vennSourceUpserts. rewrite (In_groups vennSourceUpsert sourceGroupKey).
  split; intros (row & H1 & H2 & H3); exists row; repeat split; auto;
    [now apply sortBy_In in H1 | now apply sortBy_In].
Qed.

Lemma In_vennDownstreamUpserts dps ds u :
  In u (vennDownstreamUpserts dps ds)
  <-> exists row, In row ds /\ In (downstreamGroupKey row) dps
                  /\ u = vennDownstreamUpsert row.
Proof.
  unfold vennDownstreamUpserts.
  rewrite (In_groups vennDownstreamUpsert downstreamGroupKey).
  split; intros (row & H1 & H2 & H3); exists row; repeat split; auto;
    [now apply sortBy_In in H1 | now apply sortBy_In].
Qed.

Lemma sourceGroupKey_sorted src ds row :
  In row src -> truthy (s_data_platform row) = true ->
  In (sourceGroupKey row) (Venn.sortPlatforms (collectPlatforms src ds)).
Proof.
  intros Hin Ht. apply sortBy_In. now apply sourceGroupKey_registered.
Qed.

Lemma downstreamGroupKey_sorted src ds row :
  In row ds -> truthy (d_data_platform row) = true ->
  In (downstreamGroupKey row) (Venn.sortPlatforms (collectPlatforms src ds)).
Proof.
  intros Hin Ht. apply sortBy_In. now apply downstreamGroupKey_registered.
Qed.

Lemma Venn_entity_state src ds cm rnd g n :
  Venn.getVennNetworkLayout src ds cm rnd = Ok g ->
  In n (nodes g) -> type n <> dataplatform ->
  let dps := Venn.sortPlatforms (collectPlatforms src ds) in
  fold_left (kstep (id n)) (vennSourceUpserts dps src ++ vennDownstreamUpserts dps ds) None
  = Some (type n, tables n).
Proof.
  intros Hok Hin Ht dps.
  pose proof (lookKey_node _ n (Venn_nodes_NoDup _ _ _ _ _ Hok) Hin) as H.
  apply Venn_unfold in Hok. destruct Hok as (counts & conns & _ & _ & Hn & _).
  rewrite Hn in H. fold dps in H.
  rewrite (Venn_entityLoops_lookKey cm rnd dps (Venn.platformNodes cm counts dps))
    in H by (apply Venn_platformNodes_ids || apply sortPlatforms_NoDup).
  rewrite (entity_from_None _ _ _ _ _ (Venn_platformNodes_region cm counts dps) H Ht) in H.
  exact H.
Qed.

Lemma Venn_mixed_sound src ds cm rnd g n :
  Venn.getVennNetworkLayout src ds cm rnd = Ok g ->
  In n (nodes g) -> type n = mixed ->
  (exists row, In row src /\ sourceKey row = id n)
  /\ (exists row, In row ds /\ downstreamKey row = id n).
Proof.
  intros Hok Hin Ht.
  assert (Hnp : type n <> dataplatform) by (rewrite Ht; discriminate).
  pose proof (Venn_entity_state src ds cm rnd g n Hok Hin Hnp) as H. cbv zeta in H.
  pose proof (kfold_roleSound (id n)
                (vennSourceUpserts (Venn.sortPlatforms (collectPlatforms src ds)) src
                 ++ vennDownstreamUpserts (Venn.sortPlatforms (collectPlatforms src ds)) ds)
                [] None I) as Hs.
  simpl in Hs. rewrite H in Hs. simpl in Hs. rewrite Ht in Hs. destruct Hs as [H1 H2].
  apply hasRole_In in H1. apply hasRole_In in H2.
  destruct H1 as (u1 & Hu1 & Hk1 & Hr1). destruct H2 as (u2 & Hu2 & Hk2 & Hr2).
  apply in_app_or in Hu1. apply in_app_or in Hu2. split.
  - destruct Hu1 as [Hu1|Hu1].
    + apply In_vennSourceUpserts in Hu1. destruct Hu1 as (row & Hrow & _ & ->).
      now exists row.
    + apply In_vennDownstreamUpserts in Hu1. destruct Hu1 as (row & _ & _ & ->).
      discriminate Hr1.
  - destruct Hu2 as [Hu2|Hu2].
    + apply In_vennSourceUpserts in Hu2. destruct Hu2 as (row & _ & _ & ->).
      discriminate Hr2.
    + apply In_vennDownstreamUpserts in Hu2. destruct Hu2 as (row & Hrow & _ & ->).
      now exists row.
Qed.

Lemma Venn_mixed_complete src ds cm rnd g n :
  Venn.getVennNetworkLayout src ds cm rnd = Ok g ->
  In n (nodes g) -> type n <> dataplatform ->
  (exists row, In row src /\ sourceKey row = id n /\ truthy (s_data_platform row) = true) ->
  (exists row, In row ds /\ downstreamKey row = id n
               /\ truthy (d_data_platform row) = true) ->
  type n = mixed.
Proof.
  intros Hok Hin Ht (s & Hs & Hsk & Hst) (d & Hd & Hdk & Hdt).
  pose proof (Venn_entity_state src ds cm rnd g n Hok Hin Ht) as H. cbv zeta in H.
  set (dps := Venn.sortPlatforms (collectPlatforms src ds)) in *.
  rewrite fold_left_app in H.
  destruct (kfold_source_created (id n) (vennSourceUpserts dps src)) as [w Hw].
  - intros u Hu. apply In_vennSourceUpserts in Hu. now destruct Hu as (row & _ & _ & ->).
  - exists (vennSourceUpsert s). split; [|now split].
    apply In_vennSourceUpserts. exists s. split; [exact Hs|]. split; [|reflexivity].
    now apply sourceGroupKey_sorted.
  - rewrite Hw, kfold_Some in H.
    assert (Hrole : hasRole true (id n) (vennDownstreamUpserts dps ds) = true).
    { apply hasRole_In. exists (vennDownstreamUpsert d). split; [|now split].
      apply In_vennDownstreamUpserts. exists d. split; [exact Hd|]. split; [|reflexivity].
      now apply downstreamGroupKey_sorted. }
    rewrite Hrole in H. simpl in H. now injection H as <- _.
Qed.

Lemma Venn_weight src ds cm rnd g n :
  Venn.getVennNetworkLayout src ds cm rnd = Ok g ->
  In n (nodes g) -> type n <> dataplatform ->
  (forall row, In row src -> sourceKey row = id n -> truthy (s_data_platform row) = true) ->
  (forall row, In row ds -> downstreamKey row = id n -> truthy (d_data_platform row) = true) ->
  tables n = TNum (sourceWeight (id n) src + downstreamWeight (id n) ds).
Proof.
  intros Hok Hin Ht Hs Hd.
  pose proof (Venn_entity_state src ds cm rnd g n Hok Hin Ht) as H. cbv zeta in H.
  set (dps := Venn.sortPlatforms (collectPlatforms src ds)) in *.
  rewrite kfold_None in H.
  - destruct (filter _ (vennSourceUpserts dps src ++ vennDownstreamUpserts dps ds));
      [discriminate|].
    injection H as _ <-.
    rewrite keySum_app, keySum_vennSource, keySum_vennDownstream; try reflexivity;
      try apply sortPlatforms_NoDup.
    + intros row Hrow Hk. apply downstreamGroupKey_sorted; auto.
    + intros row Hrow Hk. apply sourceGroupKey_sorted; auto.
  - intros u Hu _. apply in_app_or in Hu. destruct Hu as [Hu|Hu].
    + apply In_vennSourceUpserts in Hu. now destruct Hu as (row & _ & _ & ->).
    + apply In_vennDownstreamUpserts in Hu. now destruct Hu as (row & _ & _ & ->).
Qed.


(** ** One link per record, or one link per node *)

Lemma filter_all {A : Type} (f : A -> bool) l :
  (forall a, In a l -> f a = true) -> filter f l = l.
Proof.
  induction l as [|a l IH]; intros H; [reflexivity|]. simpl.
  rewrite (H a (or_introl eq_refl)). f_equal. apply IH. intros b Hb. apply H. now right.
Qed.

Lemma filter_none {A : Type} (f : A -> bool) l :
  (forall a, In a l -> f a = false) -> filter f l = [].
Proof.
  induction l as [|a l IH]; intros H; [reflexivity|]. simpl.
  rewrite (H a (or_introl eq_refl)). apply IH. intros b Hb. apply H. now right.
Qed.

Lemma Main_solid_links src ds cm :
  map linkTriple (filter isSolid (links (Main.getMainGraphData src ds cm)))
  = map (fun row => (EpId (sourceKey row), EpId (sourceGroupKey row), sourceCount row))
      (sortSources src)
    ++ map (fun row => (EpId (downstreamGroupKey row), EpId (downstreamKey row),
                        downstreamCount row))
         (sortDownstreams ds).
Proof.
  rewrite Main_links_unfold, !filter_app, !map_app.
  rewrite (filter_none isSolid (map snd _)).
  - rewrite !filter_all.
    + now rewrite app_nil_r, !map_map.
    + intros l Hl. apply in_map_iff in Hl. now destruct Hl as (row & <- & _).
    + intros l Hl. apply in_map_iff in Hl. now destruct Hl as (row & <- & _).
  - intros l Hl. apply in_map_iff in Hl. destruct Hl as ([k c] & <- & Hin).
    pose proof (Main_connections_dashed (sortSources src) (sortDownstreams ds)) as H.
    rewrite Forall_forall in H. unfold isSolid. now rewrite (H _ Hin).
Qed.

Lemma Venn_platformLinks_app rnd conns : forall i ls rc,
  exists L, fst (forEachFrom (Venn.platformLinkStep rnd) i conns (ls, rc)) = ls ++ L
            /\ Forall (fun l => isDashed l = true) L.
Proof.
  induction conns as [|[k c] conns IH]; intros i ls rc; simpl.
  - exists []. now rewrite app_nil_r.
  - destruct (3 <? value c)%Z.
    + destruct (IH (S i) (ls ++ [{| l_source := l_source c; l_target := l_target c;
                                    value := value c;
                                    lineStyle :=
                                      Some {| l_color := "#9370DB";
                                              width := Rmin 4 (Rmax 1 (ln (IZR (value c)) / 2));
                                              l_type := dashed;
                                              l_opacity :=
                                                Some (Rmin 0.6 (0.3 + IZR (value c) / 100));
                                              curveness := 0.3 + rnd rc * 0.1 |} |}]) (S rc))
        as (L & -> & HL).
      eexists (_ :: L). rewrite <- app_assoc. split; [reflexivity|]. now constructor.
    + apply IH.
Qed.

Lemma entityEnds_updateNode k f ns :
  (forall n, entityEnds (f n) = entityEnds n /\ isEntityNode (f n) = isEntityNode n) ->
  map entityEnds (filter isEntityNode (updateNode k f ns))
  = map entityEnds (filter isEntityNode ns).
Proof.
  intros Hf. unfold updateNode. induction ns as [|n ns IH]; [reflexivity|]. simpl.
  destruct (id n =? k)%string.
  - destruct (Hf n) as [He ->]. destruct (isEntityNode n); simpl; now rewrite ?He, IH.
  - destruct (isEntityNode n); simpl; now rewrite IH.
Qed.

Lemma entityEnds_bump c n :
  entityEnds (bumpTables c n) = entityEnds n
  /\ isEntityNode (bumpTables c n) = isEntityNode n.
Proof. now split. Qed.

Lemma entityEnds_promote col c n :
  entityEnds (promoteMixed col (bumpTables c n)) = entityEnds n
  /\ isEntityNode (promoteMixed col (bumpTables c n)) = isEntityNode n.
Proof.
  unfold entityEnds, isEntityNode, isPlatformNode.
  rewrite promoteMixed_dataPlatform, promoteMixed_type, promoteMixed_id. simpl.
  destruct (dataPlatform n); now destruct (type n).
Qed.

(** In the Venn builder the entity links are the entity nodes: the row that
    creates a node pushes its link, a row that hits an existing node pushes
    none. *)
Lemma Venn_entity_links cm rnd dps rm src ds :
  Forall isRegion rm ->
  let st := Venn.entityLoops cm rnd dps rm src ds in
  map linkEnds (snd (fst st)) = map entityEnds (filter isEntityNode (fst (fst st))).
Proof.
  intros Hrm. cbv zeta. unfold Venn.entityLoops. cbv zeta.
  pose (P := fun st : Venn.State =>
               map linkEnds (snd (fst st))
               = map entityEnds (filter isEntityNode (fst (fst st)))).
  assert (Hsrc : forall dp sector st row i, P st -> P (Venn.sourceStep cm rnd dp sector st row i)).
  { intros dp sector [[ns ls] rc] row i H. unfold P, Venn.sourceStep in *.
    destruct (nodeMap_has _ ns); simpl in *.
    - rewrite entityEnds_updateNode; [exact H | intros n; apply entityEnds_bump].
    - rewrite filter_app, !map_app, H. reflexivity. }
  assert (Hds : forall dp sector st row i,
             P st -> P (Venn.downstreamStep cm rnd dp sector st row i)).
  { intros dp sector [[ns ls] rc] row i H. unfold P, Venn.downstreamStep in *.
    destruct (nodeMap_has _ ns); simpl in *.
    - rewrite entityEnds_updateNode; [exact H | intros n; apply entityEnds_promote].
    - rewrite filter_app, !map_app, H. reflexivity. }
  apply (forEach_inv P).
  - intros st dp i _ H. unfold Venn.perPlatform.
    destruct (nodeMap_get dp rm) as [rn|]; [|exact H].
    destruct (aget dp (Venn.sectorMap dps)) as [sector|]; [|exact H].
    apply (forEach_inv P); [|exact H]. intros s row j _. apply Hds.
  - apply (forEach_inv P).
    + intros st dp i _ H. unfold Venn.perPlatform.
      destruct (nodeMap_get dp rm) as [rn|]; [|exact H].
      destruct (aget dp (Venn.sectorMap dps)) as [sector|]; [|exact H].
      apply (forEach_inv P); [|exact H]. intros s row j _. apply Hsrc.
    + unfold P. simpl. rewrite filter_none; [reflexivity|].
      intros n Hn. rewrite Forall_forall in Hrm. destruct (Hrm n Hn) as (Ht & _).
      unfold isEntityNode, isPlatformNode. now rewrite Ht.
Qed.

Lemma Venn_solid_links src ds cm rnd g :
  Venn.getVennNetworkLayout src ds cm rnd = Ok g ->
  map linkEnds (filter isSolid (links g)) = map entityEnds (filter isEntityNode (nodes g)).
Proof.
  intros Hok. apply Venn_unfold in Hok.
  destruct Hok as (counts & conns & _ & _ & Hn & Hl). cbv zeta in Hn, Hl.
  set (dps := Venn.sortPlatforms (collectPlatforms src ds)) in *.
  set (rm := Venn.platformNodes cm counts dps) in *.
  unfold forEach in Hl.
  destruct (Venn_platformLinks_app rnd conns 0
              (snd (fst (Venn.entityLoops cm rnd dps rm src ds)))
              (snd (Venn.entityLoops cm rnd dps rm src ds))) as (L & HL & Hdash).
  rewrite Hl, HL, Hn, filter_app.
  rewrite (filter_none isSolid L).
  - rewrite app_nil_r, filter_all.
    + apply Venn_entity_links. apply Venn_platformNodes_region.
    + intros l Hin. pose proof (Venn_entity_links_solid cm rnd dps rm src ds) as Hs.
      rewrite Forall_forall in Hs. unfold isSolid. now rewrite (Hs l Hin).
  - intros l Hin. rewrite Forall_forall in Hdash. unfold isSolid. now rewrite (Hdash l Hin).
Qed.

(** C4, as the code has it.  The circular builder pushes exactly one solid
    entity-platform link per source record and per downstream record, each
    with the record's own table count.  The Venn builder pushes one only for
    the record that creates a node, so its solid links are one per entity
    node.  In both, the weight of an entity node is the sum of the table
    counts of all records with its canonical key, provided those records name
    their platform.  For the two "CRM" records on "data lake" (10 and 5)
    both builders yield one source node "crm" of weight 15; the circular
    builder yields two links, of weights 10 and 5, the Venn builder one link,
    of weight 10. *)
Theorem links_and_weights :
  (forall src ds cm,
      map linkTriple (filter isSolid (links (Main.getMainGraphData src ds cm)))
      = map (fun row => (EpId (sourceKey row), EpId (sourceGroupKey row), sourceCount row))
          (sortSources src)
        ++ map (fun row => (EpId (downstreamGroupKey row), EpId (downstreamKey row),
                            downstreamCount row))
             (sortDownstreams ds))
  /\ (forall src ds cm rnd g,
        Venn.getVennNetworkLayout src ds cm rnd = Ok g ->
        map linkEnds (filter isSolid (links g))
        = map entityEnds (filter isEntityNode (nodes g)))
  /\ (forall src ds cm n,
        In n (nodes (Main.getMainGraphData src ds cm)) -> type n <> dataplatform ->
        (forall row, In row src -> sourceKey row = id n ->
                     truthy (s_data_platform row) = true) ->
        (forall row, In row ds -> downstreamKey row = id n ->
                     truthy (d_data_platform row) = true) ->
        tables n = TNum (sourceWeight (id n) src + downstreamWeight (id n) ds))
  /\ (forall src ds cm rnd g n,
        Venn.getVennNetworkLayout src ds cm rnd = Ok g ->
        In n (nodes g) -> type n <> dataplatform ->
        (forall row, In row src -> sourceKey row = id n ->
                     truthy (s_data_platform row) = true) ->
        (forall row, In row ds -> downstreamKey row = id n ->
                     truthy (d_data_platform row) = true) ->
        tables n = TNum (sourceWeight (id n) src + downstreamWeight (id n) ds))
  /\ (forall cm,
        map (fun n => (id n, type n, tables n)) (nodes (Main.getMainGraphData crmSources [] cm))
        = [("data lake", dataplatform, TUndefined); ("crm", source, TNum 15)]
        /\ map linkTriple (links (Main.getMainGraphData crmSources [] cm))
           = [(EpId "crm", EpId "data lake", 10%Z); (EpId "crm", EpId "data lake", 5%Z)])
  /\ (forall cm rnd,
        exists g,
          Venn.getVennNetworkLayout crmSources [] cm rnd = Ok g
          /\ map (fun n => (id n, type n, tables n)) (nodes g)
             = [("data lake", dataplatform, TUndefined); ("crm", source, TNum 15)]
          /\ map linkTriple (links g) = [(EpId "crm", EpId "data lake", 10%Z)]).
Proof.
  split; [exact Main_solid_links|].
  split; [exact Venn_solid_links|].
  split; [exact Main_weight|].
  split; [exact Venn_weight|].
  split.
  - intros cm. split; reflexivity.
  - intros cm rnd. eexists. split; [reflexivity|]. split; reflexivity.
Qed.

Lemma links_and_weights_witness :
  tables (nth 1 (nodes (Main.getMainGraphData crmSources [] defaultColorMap)) someNode)
  = TNum (sourceWeight "crm" crmSources + downstreamWeight "crm" [])
  /\ match Venn.getVennNetworkLayout crmSources [] defaultColorMap noRandom with
     | Ok g =>
         map linkEnds (filter isSolid (links g))
         = map entityEnds (filter isEntityNode (nodes g))
     | Throw _ => False
     end.
Proof.
  destruct links_and_weights as (_ & Hvl & Hmw & _).
  split.
  - apply (Hmw crmSources [] defaultColorMap
             (nth 1 (nodes (Main.getMainGraphData crmSources [] defaultColorMap)) someNode)).
    + apply nth_In. lazy. lia.
    + lazy. discriminate.
    + intros row [<-|[<-|[]]] _; reflexivity.
    + intros row [].
  - destruct (Venn.getVennNetworkLayout crmSources [] defaultColorMap noRandom) as [g|e] eqn:E.
    + now apply (Hvl crmSources [] defaultColorMap noRandom).
    + assert (H : match Venn.getVennNetworkLayout crmSources [] defaultColorMap noRandom
                  with Ok _ => True | Throw _ => False end) by (lazy; exact I).
      now rewrite E in H.
Defined.

(** C4 as stated fails for the Venn builder: the second "CRM" record adds its
    count to the node and pushes no link. *)
Lemma venn_links_deduplicated :
  exists g,
    Venn.getVennNetworkLayout crmSources [] defaultColorMap noRandom = Ok g
    /\ map (fun n => (id n, type n, tables n)) (nodes g)
       = [("data lake", dataplatform, TUndefined); ("crm", source, TNum 15)]
    /\ map linkTriple (links g) = [(EpId "crm", EpId "data lake", 10%Z)]
    /\ List.length (links g) <> 2%nat.
Proof.
  eexists. split; [reflexivity|]. split; [reflexivity|]. split; [reflexivity|].
  simpl. discriminate.
Qed.
(** ** Mixed nodes *)

(** C1.  The builders promote a source node to mixed when a downstream
    record has its key, so that a mixed node's key is in a source record and
    in a downstream record, and an entity node whose key is in a source
    record that names its platform and in a downstream record (one that
    names its platform, for the Venn builder) is mixed.  The source record
    that does not name its platform is missed: the circular builder looks
    its platform up as "Unknown" where the platform node is "unknown", creates
    no node, and the key "a", present in both lists, ends as a downstream
    node of weight 5 instead of a mixed node of weight 15; the Venn builder
    does the same when the platform is the empty string. *)
Theorem mixed_missed_without_platform :
  (forall cm,
      map (fun n => (id n, type n, tables n))
        (nodes (Main.getMainGraphData unnamedSource namedDownstream cm))
      = [("unknown", dataplatform, TUndefined); ("p", dataplatform, TUndefined);
         ("a", downstream, TNum 5)])
  /\ (forall cm rnd,
        match Venn.getVennNetworkLayout emptyPlatformSource namedDownstream cm rnd with
        | Ok g => map (fun n => (id n, type n, tables n)) (nodes g)
                  = [("unknown", dataplatform, TUndefined); ("p", dataplatform, TUndefined);
                     ("a", downstream, TNum 5)]
        | Throw _ => False
        end)
  /\ map sourceKey unnamedSource = ["a"]
  /\ map sourceKey emptyPlatformSource = ["a"]
  /\ map downstreamKey namedDownstream = ["a"]
  /\ (forall src ds cm n,
        In n (nodes (Main.getMainGraphData src ds cm)) ->
        (type n = mixed ->
         (exists row, In row src /\ sourceKey row = id n)
         /\ (exists row, In row ds /\ downstreamKey row = id n))
        /\ (type n <> dataplatform ->
            (exists row, In row src /\ sourceKey row = id n
                         /\ truthy (s_data_platform row) = true) ->
            (exists row, In row ds /\ downstreamKey row = id n) ->
            type n = mixed))
  /\ (forall src ds cm rnd g n,
        Venn.getVennNetworkLayout src ds cm rnd = Ok g ->
        In n (nodes g) ->
        (type n = mixed ->
         (exists row, In row src /\ sourceKey row = id n)
         /\ (exists row, In row ds /\ downstreamKey row = id n))
        /\ (type n <> dataplatform ->
            (exists row, In row src /\ sourceKey row = id n
                         /\ truthy (s_data_platform row) = true) ->
            (exists row, In row ds /\ downstreamKey row = id n
                         /\ truthy (d_data_platform row) = true) ->
            type n = mixed)).
Proof.
  split; [|split; [|split; [|split; [|split; [|split]]]]]; try reflexivity.
  - intros src ds cm n Hin. split.
    + now apply (Main_mixed_sound src ds cm).
    + now apply (Main_mixed_complete src ds cm).
  - intros src ds cm rnd g n Hok Hin. split.
    + now apply (Venn_mixed_sound src ds cm rnd g).
    + now apply (Venn_mixed_complete src ds cm rnd g).
Qed.

(** * Further properties of the builders *)

(** ** When the Venn builder returns *)

Lemma platformConnectionCounts_Ok src ds :
  allPresent src ds -> exists counts, Venn.platformConnectionCounts src ds = Ok counts.
Proof.
  intros [Hs Hd]. unfold Venn.platformConnectionCounts.
  rewrite (forEachM_total _
             (fun m e => match s_data_platform e with
                         | Some p => aset (toLowerCase p)
                                       (match aget (toLowerCase p) m with
                                        | Some c => c | None => 0 end + 1)%Z m
                         | None => m
                         end)).
  - simpl.
    rewrite (forEachM_total _
               (fun m e => match d_data_platform e with
                           | Some p => aset (toLowerCase p)
                                         (match aget (toLowerCase p) m with
                                          | Some c => c | None => 0 end + 1)%Z m
                           | None => m
                           end)); [eauto|].
    intros m e He. unfold Venn.countStep.
    destruct (d_data_platform e) as [p|] eqn:E; [reflexivity | now elim (Hd e He)].
  - intros m e He. unfold Venn.countStep.
    destruct (s_data_platform e) as [p|] eqn:E; [reflexivity | now elim (Hs e He)].
Qed.

Lemma Venn_Ok_of_present src ds cm rnd :
  allPresent src ds -> exists g, Venn.getVennNetworkLayout src ds cm rnd = Ok g.
Proof.
  intros H. destruct (platformConnectionCounts_Ok src ds H) as [counts Hc].
  destruct H as [Hs Hd]. unfold Venn.getVennNetworkLayout. cbv zeta.
  rewrite Hc, (Venn_connections_tally src ds Hs Hd). simpl.
  destruct (Venn.entityLoops _ _ _ _ _ _) as [[ns ls] rc].
  destruct (forEach (Venn.platformLinkStep rnd) _ (ls, rc)) as [ls' rc'].
  eauto.
Qed.

(** X1. [getVennNetworkLayout] returns a graph exactly when every record of
    both lists has a [data_platform] field; otherwise it throws a
    [TypeError]. *)
Theorem venn_returns_iff_platforms_present :
  forall src ds cm rnd,
    ((exists g, Venn.getVennNetworkLayout src ds cm rnd = Ok g) <-> allPresent src ds)
    /\ (~ allPresent src ds -> Venn.getVennNetworkLayout src ds cm rnd = Throw TypeError).
Proof.
  intros src ds cm rnd. split; [split|].
  - intros [g Hg]. exact (Venn_Ok_platforms src ds cm rnd g Hg).
  - apply Venn_Ok_of_present.
  - intros Hn. destruct (Venn.getVennNetworkLayout src ds cm rnd) as [g|[]] eqn:E;
      [|reflexivity].
    elim Hn. exact (Venn_Ok_platforms src ds cm rnd g E).
Qed.

Lemma venn_returns_iff_platforms_present_witness :
  Venn.getVennNetworkLayout [srow None (Some "a") None] [] defaultColorMap noRandom
  = Throw TypeError.
Proof.
  apply (proj2 (venn_returns_iff_platforms_present [srow None (Some "a") None] []
                  defaultColorMap noRandom)).
  intros [Hs _]. now apply (Hs (srow None (Some "a") None) (or_introl eq_refl)).
Defined.

(** ** Node ids *)

(** X2. The node ids of a built graph are pairwise distinct, in both
    builders. *)
Theorem node_ids_unique :
  (forall src ds cm, NoDup (map id (nodes (Main.getMainGraphData src ds cm))))
  /\ (forall src ds cm rnd g,
        Venn.getVennNetworkLayout src ds cm rnd = Ok g -> NoDup (map id (nodes g))).
Proof.
  split; [exact Main_nodes_NoDup | exact Venn_nodes_NoDup].
Qed.

Lemma node_ids_unique_witness :
  match Venn.getVennNetworkLayout twoApps oneConsumer defaultColorMap noRandom with
  | Ok g => NoDup (map id (nodes g))
  | Throw _ => False
  end.
Proof.
  destruct (Venn.getVennNetworkLayout twoApps oneConsumer defaultColorMap noRandom)
    as [g|e] eqn:E.
  - exact (proj2 node_ids_unique twoApps oneConsumer defaultColorMap noRandom g E).
  - assert (H : match Venn.getVennNetworkLayout twoApps oneConsumer defaultColorMap noRandom
                with Ok _ => True | Throw _ => False end) by (lazy; exact I).
    now rewrite E in H.
Defined.

(** ** Node-wise invariants of the builders

    A property of single nodes holds of every node of a built graph when it
    holds of the platform nodes and of every entity node as created, and the
    in-place updates keep it. *)

Lemma updateNode_Forall (P : Node -> Prop) k f ns :
  (forall n, P n -> P (f n)) -> Forall P ns -> Forall P (updateNode k f ns).
Proof.
  intros Hf Hall. unfold updateNode. rewrite Forall_forall in *. intros n Hn.
  apply in_map_iff in Hn. destruct Hn as [n0 [<- Hn0]].
  destruct (id n0 =? k)%string; [apply Hf|]; now apply Hall.
Qed.

Lemma Forall_snoc {A : Type} (P : A -> Prop) l a : Forall P l -> P a -> Forall P (l ++ [a]).
Proof. intros Hl Ha. apply Forall_app. split; [exact Hl | now constructor]. Qed.

Lemma Main_platformNodes_Forall (P : Node -> Prop) cm dps :
  (forall dp i, nth_error dps i = Some dp -> P (mainPlatformNode cm (List.length dps) dp i)) ->
  Forall P (Main.platformNodes cm dps).
Proof.
  intros H. unfold Main.platformNodes, forEach.
  apply (forEachFrom_inv_nth (Forall P)); [|constructor].
  intros ns dp j Hj Hall. unfold Main.platformStep. cbv zeta.
  destruct (nodeMap_has dp ns); simpl; [exact Hall|].
  apply Forall_snoc; [exact Hall | exact (H dp j Hj)].
Qed.

Lemma Venn_platformNodes_Forall (P : Node -> Prop) cm counts dps :
  (forall dp i, nth_error dps i = Some dp ->
     P (vennPlatformNode cm counts (List.length dps) dp i)) ->
  Forall P (Venn.platformNodes cm counts dps).
Proof.
  intros H. unfold Venn.platformNodes, forEach.
  apply (forEachFrom_inv_nth (Forall P)); [|constructor].
  intros ns dp j Hj Hall. simpl.
  apply Forall_snoc; [exact Hall | exact (H dp j Hj)].
Qed.

Section MainNodes.
Variables (P : Node -> Prop) (src : list SourceRow) (ds : list DownstreamRow) (cm : ColorMap).
Hypothesis P_stable : updateStable P.
Hypothesis P_platforms : Forall P (Main.platformNodes cm (collectPlatforms src ds)).
Hypothesis P_source : forall row i rn,
  In row src ->
  Main.regionNodeMap_get (Main.platformNodes cm (collectPlatforms src ds)) (sourceGroupKey row)
  = Some rn ->
  P (mainSourceNode cm (List.length (sortSources src)) rn row i).
Hypothesis P_downstream : forall row i rn,
  In row ds ->
  Main.regionNodeMap_get (Main.platformNodes cm (collectPlatforms src ds))
    (downstreamGroupKey row) = Some rn ->
  P (mainDownstreamNode cm (List.length (sortDownstreams ds)) rn row i).

Lemma Main_nodes_Forall : Forall P (nodes (Main.getMainGraphData src ds cm)).
Proof.
  destruct P_stable as [Hb Hp].
  rewrite Main_nodes_unfold.
  apply (forEach_inv (fun st : Main.State => Forall P (fst st))).
  - intros [ns ls] row i Hin Hall. unfold Main.downstreamStep. cbv zeta.
    apply sortBy_In in Hin. cbn [fst].
    destruct (nodeMap_has _ ns).
    + apply updateNode_Forall; [|exact Hall]. intros n Hn. now apply Hp, Hb.
    + destruct (Main.regionNodeMap_get _ _) as [rn|] eqn:E; [|exact Hall].
      apply Forall_snoc; [exact Hall|]. exact (P_downstream row i rn Hin E).
  - apply (forEach_inv (fun st : Main.State => Forall P (fst st))); [|exact P_platforms].
    intros [ns ls] row i Hin Hall. unfold Main.sourceStep. cbv zeta.
    apply sortBy_In in Hin. cbn [fst].
    destruct (nodeMap_has _ ns).
    + apply updateNode_Forall; [|exact Hall]. intros n Hn. now apply Hb.
    + destruct (Main.regionNodeMap_get _ _) as [rn|] eqn:E; [|exact Hall].
      apply Forall_snoc; [exact Hall|]. exact (P_source row i rn Hin E).
Qed.
End MainNodes.

Section VennNodes.
Variables (P : Node -> Prop) (src : list SourceRow) (ds : list DownstreamRow) (cm : ColorMap).
Variable rnd : nat -> R.
Hypothesis P_stable : updateStable P.
Hypothesis P_source : forall dp sector row i k,
  In dp (Venn.sortPlatforms (collectPlatforms src ds)) ->
  In row src -> sourceGroupKey row = dp ->
  P (vennSourceNode cm dp sector row i (rnd k)).
Hypothesis P_downstream : forall dp sector row i k,
  In dp (Venn.sortPlatforms (collectPlatforms src ds)) ->
  In row ds -> downstreamGroupKey row = dp ->
  P (vennDownstreamNode cm dp sector row i (rnd k)).

Lemma Venn_entityLoops_Forall rm :
  Forall P rm ->
  Forall P (fst (fst (Venn.entityLoops cm rnd (Venn.sortPlatforms (collectPlatforms src ds))
                        rm src ds))).
Proof.
  intros Hrm. destruct P_stable as [Hb Hp].
  unfold Venn.entityLoops. cbv zeta.
  set (dps := Venn.sortPlatforms (collectPlatforms src ds)) in *.
  apply (forEach_inv (fun st : Venn.State => Forall P (fst (fst st)))).
  - intros st dp i Hdp Hall. unfold Venn.perPlatform.
    destruct (nodeMap_get dp rm) as [rn|]; [|exact Hall].
    destruct (aget dp (Venn.sectorMap dps)) as [sector|]; [|exact Hall].
    rewrite (groupBy_get downstreamGroupKey dps _ dp Hdp).
    apply (forEach_inv (fun st : Venn.State => Forall P (fst (fst st)))); [|exact Hall].
    intros [[ns ls] rc] row j Hrow Hall'. apply filter_In in Hrow.
    destruct Hrow as [Hrow Hk]. apply sortBy_In in Hrow. apply String.eqb_eq in Hk.
    unfold Venn.downstreamStep. cbv zeta.
    destruct (nodeMap_has _ ns); cbn [fst].
    + apply updateNode_Forall; [|exact Hall']. intros n Hn. now apply Hp, Hb.
    + apply Forall_snoc; [exact Hall'|]. exact (P_downstream dp sector row j rc Hdp Hrow Hk).
  - apply (forEach_inv (fun st : Venn.State => Forall P (fst (fst st)))); [|exact Hrm].
    intros st dp i Hdp Hall. unfold Venn.perPlatform.
    destruct (nodeMap_get dp rm) as [rn|]; [|exact Hall].
    destruct (aget dp (Venn.sectorMap dps)) as [sector|]; [|exact Hall].
    rewrite (groupBy_get sourceGroupKey dps _ dp Hdp).
    apply (forEach_inv (fun st : Venn.State => Forall P (fst (fst st)))); [|exact Hall].
    intros [[ns ls] rc] row j Hrow Hall'. apply filter_In in Hrow.
    destruct Hrow as [Hrow Hk]. apply sortBy_In in Hrow. apply String.eqb_eq in Hk.
    unfold Venn.sourceStep. cbv zeta.
    destruct (nodeMap_has _ ns); cbn [fst].
    + apply updateNode_Forall; [|exact Hall']. intros n Hn. now apply Hb.
    + apply Forall_snoc; [exact Hall'|]. exact (P_source dp sector row j rc Hdp Hrow Hk).
Qed.

Lemma Venn_nodes_Forall g :
  Venn.getVennNetworkLayout src ds cm rnd = Ok g ->
  (forall counts,
     Forall P (Venn.platformNodes cm counts (Venn.sortPlatforms (collectPlatforms src ds)))) ->
  Forall P (nodes g).
Proof.
  intros Hok Hrm. apply Venn_unfold in Hok.
  destruct Hok as (counts & conns & _ & _ & Hn & _). rewrite Hn.
  apply Venn_entityLoops_Forall, Hrm.
Qed.
End VennNodes.

(** ** Which nodes a graph has, and where they come from *)

Lemma In_ids_lookKey k ns : In k (map id ns) <-> lookKey k ns <> None.
Proof.
  rewrite <- nodeMap_has_In, nodeMap_has_get. unfold lookKey.
  destruct (nodeMap_get k ns); simpl; split; intro H; congruence.
Qed.

Lemma kstep_defined k st u :
  kstep k st u <> None <-> st <> None \/ (u_key u = k /\ u_creates u = true).
Proof.
  unfold kstep. destruct (String.eqb_spec (u_key u) k) as [E|E].
  - destruct st as [[t w]|].
    + split; [now left | discriminate].
    + destruct (u_creates u).
      * split; [now right | discriminate].
      * split; [intros H; now elim H|].
        intros [H|[_ H]]; [now elim H | discriminate].
  - split; [now left|]. intros [H|[H _]]; [exact H | contradiction].
Qed.

Lemma kfold_defined k us : forall st,
  fold_left (kstep k) us st <> None
  <-> st <> None \/ exists u, In u us /\ u_key u = k /\ u_creates u = true.
Proof.
  induction us as [|u us IH]; intros st; simpl.
  - split; [now left|]. intros [H|(u & [] & _)]. exact H.
  - rewrite IH, kstep_defined. split.
    + intros [[H|[Hk Hc]]|(u' & Hin & Hk & Hc)]; [now left | right | right].
      * exists u. auto.
      * exists u'. auto.
    + intros [H|(u' & [<-|Hin] & Hk & Hc)]; [now left; left | now left; right |].
      right. exists u'. auto.
Qed.

(** A row is looked up successfully exactly when it names its platform. *)
Lemma sourceGroupKey_In_iff src ds row :
  In row src ->
  (In (sourceGroupKey row) (collectPlatforms src ds) <-> truthy (s_data_platform row) = true).
Proof.
  intros Hin. split; [|now apply sourceGroupKey_registered].
  intros H. destruct (truthy (s_data_platform row)) eqn:E; [reflexivity|].
  unfold sourceGroupKey in H. rewrite (groupKey_unnamed _ E) in H.
  now apply collectPlatforms_not_Unknown in H.
Qed.

Lemma downstreamGroupKey_In_iff src ds row :
  In row ds ->
  (In (downstreamGroupKey row) (collectPlatforms src ds)
   <-> truthy (d_data_platform row) = true).
Proof.
  intros Hin. split; [|now apply downstreamGroupKey_registered].
  intros H. destruct (truthy (d_data_platform row)) eqn:E; [reflexivity|].
  unfold downstreamGroupKey in H. rewrite (groupKey_unnamed _ E) in H.
  now apply collectPlatforms_not_Unknown in H.
Qed.

Lemma regionNodeMap_get_Some rm dp rn :
  Main.regionNodeMap_get rm dp = Some rn -> In dp (map id rm).
Proof.
  unfold Main.regionNodeMap_get. intros H. apply find_some in H.
  destruct H as [Hin E]. apply String.eqb_eq in E. subst dp. now apply in_map.
Qed.

Lemma mainSourceUpsert_creates_iff src ds cm row :
  In row src ->
  (u_creates (mainSourceUpsert (Main.platformNodes cm (collectPlatforms src ds)) row) = true
   <-> truthy (s_data_platform row) = true).
Proof.
  intros Hin. split; [|now apply mainSourceUpsert_creates].
  unfold mainSourceUpsert. simpl.
  destruct (Main.regionNodeMap_get _ _) as [rn|] eqn:E; [|discriminate]. intros _.
  apply regionNodeMap_get_Some in E.
  rewrite Main_platformNodes_ids in E by apply collectPlatforms_NoDup.
  now apply (sourceGroupKey_In_iff src ds).
Qed.

Lemma mainDownstreamUpsert_creates_iff src ds cm row :
  In row ds ->
  (u_creates (mainDownstreamUpsert (Main.platformNodes cm (collectPlatforms src ds)) row)
   = true
   <-> truthy (d_data_platform row) = true).
Proof.
  intros Hin. split; [|now apply mainDownstreamUpsert_creates].
  unfold mainDownstreamUpsert. simpl.
  destruct (Main.regionNodeMap_get _ _) as [rn|] eqn:E; [|discriminate]. intros _.
  apply regionNodeMap_get_Some in E.
  rewrite Main_platformNodes_ids in E by apply collectPlatforms_NoDup.
  now apply (downstreamGroupKey_In_iff src ds).
Qed.

Lemma Main_node_ids src ds cm k :
  In k (map id (nodes (Main.getMainGraphData src ds cm)))
  <-> In k (collectPlatforms src ds) \/ isSourceApp src k \/ isDownstreamApp ds k.
Proof.
  rewrite In_ids_lookKey, Main_lookKey, kfold_defined, <- In_ids_lookKey.
  rewrite Main_platformNodes_ids by apply collectPlatforms_NoDup.
  apply or_iff_compat_l. unfold mainUpserts. cbv zeta. split.
  - intros (u & Hin & Hk & Hc). apply in_app_or in Hin. destruct Hin as [Hin|Hin];
      apply in_map_iff in Hin; destruct Hin as (row & <- & Hrow); apply sortBy_In in Hrow.
    + left. exists row. repeat split; auto.
      now apply (mainSourceUpsert_creates_iff src ds cm).
    + right. exists row. repeat split; auto.
      now apply (mainDownstreamUpsert_creates_iff src ds cm).
  - intros [(row & Hrow & Hk & Ht)|(row & Hrow & Hk & Ht)].
    + exists (mainSourceUpsert (Main.platformNodes cm (collectPlatforms src ds)) row).
      split; [|split; [exact Hk | now apply mainSourceUpsert_creates]].
      apply in_or_app. left. apply in_map. now apply sortBy_In.
    + exists (mainDownstreamUpsert (Main.platformNodes cm (collectPlatforms src ds)) row).
      split; [|split; [exact Hk | now apply mainDownstreamUpsert_creates]].
      apply in_or_app. right. apply in_map. now apply sortBy_In.
Qed.

Lemma In_sortPlatforms src ds p :
  In p (Venn.sortPlatforms (collectPlatforms src ds)) <-> In p (collectPlatforms src ds).
Proof. apply sortBy_In. Qed.

Lemma Venn_node_ids src ds cm rnd g k :
  Venn.getVennNetworkLayout src ds cm rnd = Ok g ->
  In k (map id (nodes g))
  <-> In k (collectPlatforms src ds) \/ isSourceApp src k \/ isDownstreamApp ds k.
Proof.
  intros Hok. apply Venn_unfold in Hok.
  destruct Hok as (counts & conns & _ & _ & Hn & _). cbv zeta in Hn. rewrite Hn.
  set (dps := Venn.sortPlatforms (collectPlatforms src ds)).
  rewrite In_ids_lookKey.
  rewrite (Venn_entityLoops_lookKey cm rnd dps (Venn.platformNodes cm counts dps))
    by (apply Venn_platformNodes_ids || apply sortPlatforms_NoDup).
  rewrite kfold_defined, <- In_ids_lookKey, Venn_platformNodes_ids.
  unfold dps at 1. rewrite In_sortPlatforms.
  apply or_iff_compat_l. split.
  - intros (u & Hin & Hk & _). apply in_app_or in Hin. destruct Hin as [Hin|Hin].
    + apply In_vennSourceUpserts in Hin. destruct Hin as (row & Hrow & Hdp & ->).
      left. exists row. repeat split; auto.
      apply In_sortPlatforms in Hdp. now apply (sourceGroupKey_In_iff src ds).
    + apply In_vennDownstreamUpserts in Hin. destruct Hin as (row & Hrow & Hdp & ->).
      right. exists row. repeat split; auto.
      apply In_sortPlatforms in Hdp. now apply (downstreamGroupKey_In_iff src ds).
  - intros [(row & Hrow & Hk & Ht)|(row & Hrow & Hk & Ht)].
    + exists (vennSourceUpsert row). split; [|now split].
      apply in_or_app. left. apply In_vennSourceUpserts. exists row.
      split; [exact Hrow|]. split; [|reflexivity]. now apply sourceGroupKey_sorted.
    + exists (vennDownstreamUpsert row). split; [|now split].
      apply in_or_app. right. apply In_vennDownstreamUpserts. exists row.
      split; [exact Hrow|]. split; [|reflexivity]. now apply downstreamGroupKey_sorted.
Qed.

(** X3. The node ids of a built graph are exactly the lower-cased platform
    names and the keys of the records that name their platform; the two
    builders produce the same set of ids. *)
Theorem node_ids_characterised :
  (forall src ds cm k,
      In k (map id (nodes (Main.getMainGraphData src ds cm)))
      <-> In k (collectPlatforms src ds) \/ isSourceApp src k \/ isDownstreamApp ds k)
  /\ (forall src ds cm rnd g k,
        Venn.getVennNetworkLayout src ds cm rnd = Ok g ->
        (In k (map id (nodes g))
         <-> In k (collectPlatforms src ds) \/ isSourceApp src k \/ isDownstreamApp ds k)
        /\ (In k (map id (nodes g))
            <-> In k (map id (nodes (Main.getMainGraphData src ds cm))))).
Proof.
  split; [exact Main_node_ids|].
  intros src ds cm rnd g k Hok. split; [exact (Venn_node_ids src ds cm rnd g k Hok)|].
  now rewrite Main_node_ids, (Venn_node_ids src ds cm rnd g k Hok).
Qed.

Lemma node_ids_characterised_witness :
  match Venn.getVennNetworkLayout twoApps oneConsumer defaultColorMap noRandom with
  | Ok g => In "crm" (map id (nodes g))
            <-> In "crm" (map id (nodes (Main.getMainGraphData twoApps oneConsumer
                                           defaultColorMap)))
  | Throw _ => False
  end.
Proof.
  destruct (Venn.getVennNetworkLayout twoApps oneConsumer defaultColorMap noRandom)
    as [g|e] eqn:E.
  - exact (proj2 (proj2 node_ids_characterised twoApps oneConsumer defaultColorMap
                    noRandom g "crm" E)).
  - assert (H : match Venn.getVennNetworkLayout twoApps oneConsumer defaultColorMap noRandom
                with Ok _ => True | Throw _ => False end) by (lazy; exact I).
    now rewrite E in H.
Defined.

(** ** Provenance of nodes and integrity of links *)

Lemma provenance_stable dps src ds : updateStable (provenance dps src ds).
Proof.
  split.
  - intros c n H. exact H.
  - intros col n H. unfold promoteMixed, provenance in *.
    destruct (type n) eqn:Et; try (rewrite Et; exact H).
    simpl. destruct H as (row & H). now exists row.
Qed.

Lemma Main_provenance src ds cm :
  Forall (provenance (collectPlatforms src ds) src ds)
    (nodes (Main.getMainGraphData src ds cm)).
Proof.
  apply Main_nodes_Forall.
  - apply provenance_stable.
  - apply Main_platformNodes_Forall. intros dp i Hi. apply nth_error_In in Hi.
    now repeat split.
  - intros row i rn Hrow Hrn. exists row. repeat split; auto.
    apply regionNodeMap_get_Some in Hrn.
    now rewrite Main_platformNodes_ids in Hrn by apply collectPlatforms_NoDup.
  - intros row i rn Hrow Hrn. exists row. repeat split; auto.
    apply regionNodeMap_get_Some in Hrn.
    now rewrite Main_platformNodes_ids in Hrn by apply collectPlatforms_NoDup.
Qed.

Lemma Venn_provenance src ds cm rnd g :
  Venn.getVennNetworkLayout src ds cm rnd = Ok g ->
  Forall (provenance (collectPlatforms src ds) src ds) (nodes g).
Proof.
  intros Hok. apply (Venn_nodes_Forall _ src ds cm rnd) with (g := g); [| | |exact Hok|].
  - apply provenance_stable.
  - intros dp sector row i k Hdp Hrow Hk. exists row. subst dp.
    apply In_sortPlatforms in Hdp. now repeat split.
  - intros dp sector row i k Hdp Hrow Hk. exists row. subst dp.
    apply In_sortPlatforms in Hdp. now repeat split.
  - intros counts. apply Venn_platformNodes_Forall. intros dp i Hi.
    apply nth_error_In, In_sortPlatforms in Hi. now repeat split.
Qed.



(** *** Links join nodes *)

Lemma named_lower p :
  truthy (Some p) = true -> orString (optLower (Some p)) "Unknown" = toLowerCase p.
Proof. destruct p; [discriminate | reflexivity]. Qed.

Lemma connection_ends new bump hits k c :
  (forall a b, l_source (new a b) = EpId a /\ l_target (new a b) = EpId b
               /\ value (new a b) = 1%Z) ->
  (forall c, l_source (bump c) = l_source c /\ l_target (bump c) = l_target c
             /\ value (bump c) = (value c + 1)%Z) ->
  In (k, c) (fold_left (tally new bump) hits []) ->
  exists a b, In (a, b) hits /\ l_source c = EpId a /\ l_target c = EpId b.
Proof.
  intros Hnew Hbump Hin.
  destruct (tally_all new bump Hnew Hbump hits) as [Hnd Hm].
  specialize (Hm k). rewrite (In_aget k c _ Hnd Hin) in Hm.
  destruct Hm as (_ & a & b & Hab & _ & Hs & Ht). now exists a, b.
Qed.

Lemma Main_links_join src ds cm l :
  allNamed src ds ->
  In l (links (Main.getMainGraphData src ds cm)) ->
  endsIn (nodes (Main.getMainGraphData src ds cm)) l.
Proof.
  intros [Hs Hd] Hin. rewrite Main_links_unfold in Hin.
  assert (Hplat : forall p, In p (collectPlatforms src ds) ->
                            In p (map id (nodes (Main.getMainGraphData src ds cm)))).
  { intros p Hp. apply Main_node_ids. now left. }
  apply in_app_or in Hin. destruct Hin as [Hin|Hin]; [|apply in_app_or in Hin;
                                                        destruct Hin as [Hin|Hin]].
  - apply in_map_iff in Hin. destruct Hin as (row & <- & Hrow). apply sortBy_In in Hrow.
    exists (sourceKey row), (sourceGroupKey row). repeat split.
    + apply Main_node_ids. right. left. exists row. auto.
    + apply Hplat, sourceGroupKey_registered; auto.
  - apply in_map_iff in Hin. destruct Hin as (row & <- & Hrow). apply sortBy_In in Hrow.
    exists (downstreamGroupKey row), (downstreamKey row). repeat split.
    + apply Hplat, downstreamGroupKey_registered; auto.
    + apply Main_node_ids. right. right. exists row. auto.
  - apply in_map_iff in Hin. destruct Hin as ([k c] & <- & Hin).
    rewrite Main_connections_tally in Hin.
    apply connection_ends in Hin; [|intros a b; now repeat split|intros c0; now repeat split].
    destruct Hin as (a & b & Hab & Hsrc & Htgt).
    apply In_hitsOf in Hab. destruct Hab as (s & d & Hsin & Hdin & Hb).
    apply sortBy_In in Hsin. apply sortBy_In in Hdin.
    unfold mainBridge in Hb. cbv zeta in Hb.
    destruct (_ && _); [|discriminate]. injection Hb as <- <-.
    exists (sourceGroupKey s), (downstreamGroupKey d). simpl. repeat split; auto.
    + apply Hplat, sourceGroupKey_registered; auto.
    + apply Hplat, downstreamGroupKey_registered; auto.
Qed.

Lemma Venn_solid_links_join src ds cm rnd g l :
  Venn.getVennNetworkLayout src ds cm rnd = Ok g ->
  In l (links g) -> isDashed l = false -> endsIn (nodes g) l.
Proof.
  intros Hok Hin Hsolid.
  assert (Hl : In (linkEnds l) (map linkEnds (filter isSolid (links g)))).
  { apply in_map, filter_In. split; [exact Hin|]. unfold isSolid. now rewrite Hsolid. }
  rewrite (Venn_solid_links src ds cm rnd g Hok) in Hl.
  apply in_map_iff in Hl. destruct Hl as (n & Hends & Hn).
  apply filter_In in Hn. destruct Hn as [Hn Hent].
  pose proof (proj1 (Forall_forall _ _) (Venn_provenance src ds cm rnd g Hok) n Hn) as Hp.
  assert (Hdp : exists dp, dataPlatform n = Some dp /\ In dp (collectPlatforms src ds)).
  { unfold provenance in Hp. unfold isEntityNode, isPlatformNode in Hent.
    destruct (type n); [discriminate| | |];
      destruct Hp as (row & _ & _ & _ & Hdp & Hreg & _); eauto. }
  destruct Hdp as (dp & Hdp & Hreg).
  assert (Hdpid : In dp (map id (nodes g))).
  { apply (Venn_node_ids src ds cm rnd g dp Hok). now left. }
  assert (Hnid : In (id n) (map id (nodes g))) by now apply in_map.
  unfold entityEnds, linkEnds in Hends. rewrite Hdp in Hends.
  destruct (type n); injection Hends as Hs Ht; symmetry in Hs, Ht;
    (exists (id n), dp; now repeat split) || (exists dp, (id n); now repeat split).
Qed.

Lemma Venn_links_join src ds cm rnd g l :
  Venn.getVennNetworkLayout src ds cm rnd = Ok g ->
  (isDashed l = true -> allNamed src ds) ->
  In l (links g) -> endsIn (nodes g) l.
Proof.
  intros Hok Hnamed Hin.
  destruct (isDashed l) eqn:Hd; [|now apply (Venn_solid_links_join src ds cm rnd g l Hok)].
  destruct (Hnamed eq_refl) as [Hs Hds].
  pose proof (Venn_unfold _ _ _ _ _ Hok) as (counts & conns & _ & Hconns & _ & Hl).
  pose proof (Venn_Ok_platforms _ _ _ _ _ Hok) as [Hps Hpd].
  rewrite (Venn_connections_tally src ds Hps Hpd) in Hconns. injection Hconns as <-.
  rewrite Hl in Hin. unfold forEach in Hin.
  apply Venn_platformLinks_sound in Hin. destruct Hin as [Hin|(_ & k & c & Hkc & _ & Hsrc & Htgt & _)].
  - pose proof (Venn_entity_links_solid cm rnd (Venn.sortPlatforms (collectPlatforms src ds))
                  (Venn.platformNodes cm counts (Venn.sortPlatforms (collectPlatforms src ds)))
                  src ds) as Hsolid.
    rewrite Forall_forall in Hsolid. rewrite (Hsolid l Hin) in Hd. discriminate.
  - apply connection_ends in Hkc; [|intros a b; now repeat split|intros c0; now repeat split].
    destruct Hkc as (a & b & Hab & Hca & Hcb).
    apply In_hitsOf in Hab. destruct Hab as (s & d & Hsin & Hdin & Hb).
    unfold vennBridge in Hb.
    destruct (s_data_platform s) as [p|] eqn:Ep; [|discriminate].
    destruct (d_data_platform d) as [q|] eqn:Eq; [|discriminate].
    destruct (_ && _); [|discriminate]. injection Hb as <- <-.
    exists (toLowerCase p), (toLowerCase q).
    split; [congruence|]. split; [congruence|].
    pose proof (Hs s Hsin) as Hts. pose proof (Hds d Hdin) as Htd.
    split; apply (Venn_node_ids src ds cm rnd g _ Hok); left.
    + rewrite <- (named_lower p) by now rewrite <- Ep.
      replace (orString (optLower (Some p)) "Unknown") with (sourceGroupKey s)
        by (unfold sourceGroupKey; now rewrite Ep).
      now apply sourceGroupKey_registered.
    + rewrite <- (named_lower q) by now rewrite <- Eq.
      replace (orString (optLower (Some q)) "Unknown") with (downstreamGroupKey d)
        by (unfold downstreamGroupKey; now rewrite Eq).
      now apply downstreamGroupKey_registered.
Qed.

(** X5. When every record names its platform, every link of the circular
    graph joins two nodes of the graph.  In the Venn graph every
    entity-platform link joins two nodes whatever the records are, and every
    platform-platform link does when every record names its platform. *)
Theorem links_join_nodes :
  (forall src ds cm l,
      allNamed src ds ->
      In l (links (Main.getMainGraphData src ds cm)) ->
      endsIn (nodes (Main.getMainGraphData src ds cm)) l)
  /\ (forall src ds cm rnd g l,
        Venn.getVennNetworkLayout src ds cm rnd = Ok g ->
        (isDashed l = true -> allNamed src ds) ->
        In l (links g) -> endsIn (nodes g) l).
Proof.
  split; [exact Main_links_join | exact Venn_links_join].
Qed.

Lemma links_join_nodes_witness :
  endsIn (nodes (Main.getMainGraphData twoApps oneConsumer defaultColorMap))
    (mainSourceLink defaultColorMap (srow (Some "Data Lake") (Some "CRM") (Some 10%Z))).
Proof.
  apply (proj1 links_join_nodes twoApps oneConsumer defaultColorMap).
  - split; intros row Hrow; simpl in Hrow;
      repeat (destruct Hrow as [<-|Hrow]; [reflexivity|]); contradiction.
  - left. reflexivity.
Defined.

(** ** Connection keys, sorting and empty inputs *)

(** X6. The connection key does not depend on the order of the two
    platforms, and for names without a hyphen it determines the unordered
    pair.  With hyphens two different pairs can share a key: the pairs
    ("a-b", "c") and ("a", "b-c") are then aggregated into one connection. *)
Theorem connection_key_pairs :
  (forall a b, connectionKey a b = connectionKey b a)
  /\ (forall a b p q,
        hyphenFree a -> hyphenFree b -> hyphenFree p -> hyphenFree q ->
        connectionKey a b = connectionKey p q -> (a = p /\ b = q) \/ (a = q /\ b = p))
  /\ connectionKey "a-b" "c" = connectionKey "a" "b-c"
  /\ map connectionSummary
       (Main.dataPlatformConnections (sortSources hyphenSources)
          (sortDownstreams hyphenDownstreams))
     = [("a-b-c", EpId "a-b", EpId "c", 2%Z)].
Proof.
  split; [exact connectionKey_sym|]. split; [exact connectionKey_inj|].
  split; reflexivity.
Qed.

Lemma connection_key_pairs_witness :
  ("data lake" = "data mesh" /\ "data mesh" = "data lake")
  \/ ("data lake" = "data lake" /\ "data mesh" = "data mesh").
Proof.
  apply (proj1 (proj2 connection_key_pairs) "data lake" "data mesh" "data mesh" "data lake");
    reflexivity.
Defined.

(** *** Sorting *)

Section SortDescending.
Context {A : Type}.
Variable count : A -> Z.
Let le (a b : A) : bool := (count b <=? count a)%Z.

Lemma insertBy_count_sorted x l :
  StronglySorted (fun a b => (count b <= count a)%Z) l ->
  StronglySorted (fun a b => (count b <= count a)%Z) (insertBy le x l).
Proof.
  induction l as [|y l IH]; intros Hs; simpl.
  - repeat constructor.
  - inversion Hs as [|? ? Hs' Hall]; subst.
    unfold le at 1. destruct (Z.leb_spec (count y) (count x)) as [Hxy|Hxy].
    + constructor; [exact Hs|]. constructor; [exact Hxy|].
      eapply Forall_impl; [|exact Hall]. intros a Ha. simpl in *. lia.
    + constructor; [now apply IH|].
      rewrite Forall_forall. intros a Ha.
      apply (Permutation_in _ (Permutation_sym (insertBy_perm le x l))) in Ha.
      destruct Ha as [<-|Ha]; [lia|].
      rewrite Forall_forall in Hall. now apply Hall.
Qed.

Lemma sortBy_count_sorted l :
  StronglySorted (fun a b => (count b <= count a)%Z) (sortBy le l).
Proof.
  induction l as [|x l IH]; simpl; [constructor|]. now apply insertBy_count_sorted.
Qed.

Lemma insertBy_class c x l :
  filter (fun a => (count a =? c)%Z) (insertBy le x l)
  = filter (fun a => (count a =? c)%Z) (x :: l).
Proof.
  induction l as [|y l IH]; [reflexivity|]. simpl insertBy. unfold le at 1.
  destruct (Z.leb_spec (count y) (count x)) as [Hle|Hgt]; [reflexivity|].
  simpl in *. rewrite IH.
  destruct (Z.eqb_spec (count x) c) as [Ex|Ex]; [|reflexivity].
  destruct (Z.eqb_spec (count y) c) as [Ey|Ey]; [lia | reflexivity].
Qed.

Lemma sortBy_stable c l :
  filter (fun a => (count a =? c)%Z) (sortBy le l) = filter (fun a => (count a =? c)%Z) l.
Proof.
  induction l as [|x l IH]; [reflexivity|]. simpl sortBy.
  rewrite insertBy_class. simpl. now rewrite IH.
Qed.
End SortDescending.

(** X7. Sorting the records keeps them all, puts them in decreasing order
    of the table count (a missing count is 0), and keeps records with the
    same count in their input order. *)
Theorem records_sorted_by_count :
  (forall src,
      Permutation src (sortSources src)
      /\ StronglySorted sourceCountGe (sortSources src)
      /\ forall c, filter (fun row => (sourceCount row =? c)%Z) (sortSources src)
                   = filter (fun row => (sourceCount row =? c)%Z) src)
  /\ (forall ds,
        Permutation ds (sortDownstreams ds)
        /\ StronglySorted downstreamCountGe (sortDownstreams ds)
        /\ forall c, filter (fun row => (downstreamCount row =? c)%Z) (sortDownstreams ds)
                     = filter (fun row => (downstreamCount row =? c)%Z) ds).
Proof.
  split.
  - intros src. split; [apply sortBy_perm|]. split.
    + apply (sortBy_count_sorted sourceCount).
    + intros c. apply (sortBy_stable sourceCount).
  - intros ds. split; [apply sortBy_perm|]. split.
    + apply (sortBy_count_sorted downstreamCount).
    + intros c. apply (sortBy_stable downstreamCount).
Qed.

(** *** Empty inputs *)

Lemma collectPlatforms_nil src ds : collectPlatforms src ds = [] -> src = [] /\ ds = [].
Proof.
  intros E. split.
  - destruct src as [|row src]; [reflexivity|]. exfalso.
    assert (H : In (toLowerCase (orString (s_data_platform row) "Unknown"))
                  (collectPlatforms (row :: src) ds)).
    { apply collectPlatforms_In. left. now left. }
    now rewrite E in H.
  - destruct ds as [|row ds]; [reflexivity|]. exfalso.
    assert (H : In (toLowerCase (orString (d_data_platform row) "Unknown"))
                  (collectPlatforms src (row :: ds))).
    { apply collectPlatforms_In. right. now left. }
    now rewrite E in H.
Qed.

Lemma no_ids_no_records src ds (ns : list Node) :
  (forall k, In k (map id ns) <-> In k (collectPlatforms src ds) \/ isSourceApp src k
                                  \/ isDownstreamApp ds k) ->
  ns = [] -> src = [] /\ ds = [].
Proof.
  intros H ->. apply collectPlatforms_nil.
  destruct (collectPlatforms src ds) as [|p l]; [reflexivity|].
  exfalso. apply (proj2 (H p)). left. now left.
Qed.

(** X8. Without records both builders return the empty graph, and a graph
    without nodes only comes from two empty lists: every record contributes
    at least its platform node. *)
Theorem empty_graph_iff_no_records :
  (forall cm, Main.getMainGraphData [] [] cm = emptyGraph)
  /\ (forall cm rnd, Venn.getVennNetworkLayout [] [] cm rnd = Ok emptyGraph)
  /\ (forall src ds cm,
        nodes (Main.getMainGraphData src ds cm) = [] <-> src = [] /\ ds = [])
  /\ (forall src ds cm rnd g,
        Venn.getVennNetworkLayout src ds cm rnd = Ok g ->
        (nodes g = [] <-> src = [] /\ ds = [])).
Proof.
  split; [reflexivity|]. split; [reflexivity|]. split.
  - intros src ds cm. split.
    + apply (no_ids_no_records src ds). intros k. apply Main_node_ids.
    + now intros [-> ->].
  - intros src ds cm rnd g Hok. split.
    + apply (no_ids_no_records src ds). intros k.
      apply (Venn_node_ids src ds cm rnd g k Hok).
    + intros [-> ->]. simpl in Hok. now injection Hok as <-.
Qed.

Lemma empty_graph_iff_no_records_witness :
  nodes emptyGraph = [] <-> (@nil SourceRow) = [] /\ (@nil DownstreamRow) = [].
Proof.
  apply (proj2 (proj2 (proj2 empty_graph_iff_no_records)) [] [] defaultColorMap noRandom).
  reflexivity.
Defined.

(** ** Geometry of the two layouts *)

Local Open Scope R_scope.

Lemma circle_point cx cy r a :
  (cx + r * cos a - cx) * (cx + r * cos a - cx)
  + (cy + r * sin a - cy) * (cy + r * sin a - cy) = r * r.
Proof.
  pose proof (sin2_cos2 a) as H. unfold Rsqr in H.
  replace ((cx + r * cos a - cx) * (cx + r * cos a - cx)
           + (cy + r * sin a - cy) * (cy + r * sin a - cy))
    with (r * r * (sin a * sin a + cos a * cos a)) by ring.
  rewrite H. ring.
Qed.

Lemma getCircularPosition_onCircle index total radius cx cy :
  let p := getCircularPosition index total radius cx cy in
  (fst p - cx) * (fst p - cx) + (snd p - cy) * (snd p - cy) = radius * radius.
Proof. apply circle_point. Qed.

Lemma getSectorPosition_onCircle index total radius cx cy a b :
  let p := getSectorPosition index total radius cx cy a b in
  (fst p - cx) * (fst p - cx) + (snd p - cy) * (snd p - cy) = radius * radius.
Proof. apply circle_point. Qed.

Lemma Main_radius_value : Main.radius = 210.
Proof.
  unfold Main.radius, Main.containerWidth, Main.containerHeight, Main.margin, Rmin.
  destruct (Rle_dec 1600 900); lra.
Qed.

Lemma Venn_dpRadius_value : Venn.dpRadius = 360.
Proof.
  unfold Venn.dpRadius, Venn.containerWidth, Venn.containerHeight, Rmin.
  destruct (Rle_dec 1600 900); lra.
Qed.

Lemma onCircle_eq cx cy r r' n : r = r' -> onCircle cx cy r n -> onCircle cx cy r' n.
Proof. now intros ->. Qed.

Lemma mainRing_stable : updateStable mainRing.
Proof.
  split.
  - intros c n H. exact H.
  - intros col n H. unfold promoteMixed, mainRing in *.
    destruct (type n) eqn:Et; try (rewrite Et; exact H). exact H.
Qed.

Lemma sourceLayer_cases i :
  let r := nth (i mod 3) Main.sourceLayerRadii 0 in r = 63 \/ r = 105 \/ r = 147.
Proof.
  cbv zeta. unfold Main.sourceLayerRadii. rewrite Main_radius_value.
  pose proof (Nat.mod_upper_bound i 3) as Hb.
  destruct (i mod 3)%nat as [|[|[|k]]]; simpl; [left | right; left | right; right | lia]; lra.
Qed.

Lemma downstreamLayer_cases i :
  let r := nth (i mod 5) Main.downstreamLayerRadii 0 in
  r = 63 \/ r = 105 \/ r = 147 \/ r = 189 \/ r = 231.
Proof.
  cbv zeta. unfold Main.downstreamLayerRadii. rewrite Main_radius_value.
  pose proof (Nat.mod_upper_bound i 5) as Hb.
  destruct (i mod 5)%nat as [|[|[|[|[|k]]]]]; simpl;
    [left | right; left | right; right; left | right; right; right; left
     | right; right; right; right | lia]; lra.
Qed.

Lemma entityNode_onCircle k nm c ty dp fill cx cy r a :
  onCircle cx cy r (entityNode k nm c ty dp (cx + r * cos a) (cy + r * sin a) fill).
Proof. unfold onCircle. simpl. apply circle_point. Qed.

Lemma regionNode_onCircle cm dp cx cy r a :
  onCircle cx cy r (regionNode cm dp (cx + r * cos a) (cy + r * sin a)).
Proof. unfold onCircle. simpl. apply circle_point. Qed.

Lemma mainSourceNode_onCircle cm total rn row i :
  onCircle Main.centerX Main.centerY (nth (i mod 3) Main.sourceLayerRadii 0)
    (mainSourceNode cm total rn row i).
Proof. apply entityNode_onCircle. Qed.

Lemma mainDownstreamNode_onCircle cm total rn row i :
  onCircle Main.centerX Main.centerY (nth (i mod 5) Main.downstreamLayerRadii 0)
    (mainDownstreamNode cm total rn row i).
Proof. apply entityNode_onCircle. Qed.

Lemma mainPlatformNode_onCircle cm total dp i :
  onCircle Main.centerX Main.centerY 126 (mainPlatformNode cm total dp i).
Proof.
  apply (onCircle_eq _ _ (Main.radius * 0.6)); [rewrite Main_radius_value; lra|].
  apply regionNode_onCircle.
Qed.

Lemma Main_rings src ds cm : Forall mainRing (nodes (Main.getMainGraphData src ds cm)).
Proof.
  apply Main_nodes_Forall.
  - apply mainRing_stable.
  - apply Main_platformNodes_Forall. intros dp i _. apply mainPlatformNode_onCircle.
  - intros row i rn _ _. pose proof (mainSourceNode_onCircle cm (List.length (sortSources src)) rn row i) as H.
    unfold mainRing. cbv zeta.
    change (type (mainSourceNode cm (List.length (sortSources src)) rn row i)) with source.
    cbv iota.
    destruct (sourceLayer_cases i) as [E|[E|E]]; cbv zeta in E; rewrite E in H; auto.
  - intros row i rn _ _.
    pose proof (mainDownstreamNode_onCircle cm (List.length (sortDownstreams ds)) rn row i)
      as H.
    unfold mainRing. cbv zeta.
    change (type (mainDownstreamNode cm (List.length (sortDownstreams ds)) rn row i))
      with downstream.
    cbv iota.
    destruct (downstreamLayer_cases i) as [E|[E|[E|[E|E]]]]; cbv zeta in E; rewrite E in H;
      auto 6.
Qed.

Lemma sq_le_bound d r : 0 <= r -> d * d <= r * r -> - r <= d <= r.
Proof.
  intros Hr H. split; apply Rnot_lt_le; intro Hc.
  - assert (0 < - d - r) by lra. assert (0 < (- d - r) * (- d + r)) by nra. nra.
  - assert (0 < d - r) by lra. assert (0 < (d - r) * (d + r)) by nra. nra.
Qed.

Lemma onCircle_box cx cy r rmax n :
  0 <= r <= rmax -> onCircle cx cy r n ->
  cx - rmax <= x n <= cx + rmax /\ cy - rmax <= y n <= cy + rmax.
Proof.
  unfold onCircle. intros [H0 Hr] H.
  assert (Hx : (x n - cx) * (x n - cx) <= r * r).
  { pose proof (Rle_0_sqr (y n - cy)) as Hs. unfold Rsqr in Hs. lra. }
  assert (Hy : (y n - cy) * (y n - cy) <= r * r).
  { pose proof (Rle_0_sqr (x n - cx)) as Hs. unfold Rsqr in Hs. lra. }
  apply sq_le_bound in Hx; [|exact H0]. apply sq_le_bound in Hy; [|exact H0]. lra.
Qed.

(** X9. In the circular layout every node lies on one of five circles
    around the center (800, 450): platforms at radius 126, sources at 63, 105
    or 147, downstreams at 63, 105, 147, 189 or 231; in particular every node
    lies inside the 1600 by 900 container. *)
Theorem main_nodes_on_rings :
  forall src ds cm n,
    In n (nodes (Main.getMainGraphData src ds cm)) ->
    mainRing n /\ 569 <= x n <= 1031 /\ 219 <= y n <= 681.
Proof.
  intros src ds cm n Hin.
  pose proof (proj1 (Forall_forall _ _) (Main_rings src ds cm) n Hin) as H.
  split; [exact H|].
  assert (Hbox : exists r, 0 <= r <= 231 /\ onCircle Main.centerX Main.centerY r n).
  { unfold mainRing in H. cbv zeta in H.
    destruct (type n); repeat (destruct H as [H|H]); eexists; (split; [|exact H]); lra. }
  destruct Hbox as (r & Hr & Hon).
  apply (onCircle_box _ _ r 231) in Hon; [|exact Hr].
  unfold Main.centerX, Main.centerY, Main.containerWidth, Main.containerHeight in Hon. lra.
Qed.

Lemma main_nodes_on_rings_witness :
  let n := nth 1 (nodes (Main.getMainGraphData smallThenLarge [] defaultColorMap)) someNode in
  mainRing n /\ 569 <= x n <= 1031 /\ 219 <= y n <= 681.
Proof.
  apply (main_nodes_on_rings smallThenLarge [] defaultColorMap).
  right. left. reflexivity.
Defined.

(** *** The Venn layout *)

Lemma prod_bounds a b la ua lb ub :
  0 <= la <= a -> a <= ua -> 0 <= lb <= b -> b <= ub -> la * lb <= a * b <= ua * ub.
Proof. intros. split; nra. Qed.

Lemma clamp_range lo hi v : lo <= hi -> lo <= Rmin hi (Rmax lo v) <= hi.
Proof.
  intros H. unfold Rmin, Rmax.
  destruct (Rle_dec lo v); destruct (Rle_dec hi _); lra.
Qed.

Lemma INR_mod_bound i m k : (0 < m)%nat -> INR m = k + 1 -> 0 <= INR (i mod m) <= k.
Proof.
  intros Hm Hk. pose proof (Nat.mod_upper_bound i m) as Hb.
  split; [apply pos_INR|].
  assert (H : (i mod m <= m - 1)%nat) by lia.
  apply le_INR in H. rewrite minus_INR in H by lia. change (INR 1) with 1 in H. lra.
Qed.

Lemma vennPlatformRadius_range counts dp i :
  291.6 <= vennPlatformRadius counts dp i <= 518.4.
Proof.
  unfold vennPlatformRadius. cbv zeta. rewrite Venn_dpRadius_value.
  pose proof (clamp_range 0.9 1.2
                (0.9 + IZR match aget dp counts with Some c => c | None => 0%Z end / 1000))
    as Hc.
  assert (Hm : 0 <= INR (i mod 4) <= 3) by (apply INR_mod_bound; [lia | simpl; lra]).
  set (f := Rmin 1.2 _) in *. set (m := INR (i mod 4)) in *.
  assert (Hf : 0.9 <= f <= 1.2) by (apply Hc; lra).
  rewrite Rmult_assoc.
  pose proof (prod_bounds f (0.9 + m * 0.1) 0.9 1.2 0.9 1.2) as Hp.
  lra.
Qed.

Lemma innerRadius_range c i : 27 <= Venn.innerRadius c i <= 235.8.
Proof.
  unfold Venn.innerRadius, Venn.layerIndex. cbv zeta.
  rewrite Venn_dpRadius_value, INR_totalLayers.
  pose proof (clamp_range 0.3 0.8 (IZR c / 300)) as Hc.
  assert (Hm : 0 <= INR (i mod Venn.totalLayers) <= 7)
    by (apply INR_mod_bound; [unfold Venn.totalLayers; lia | rewrite INR_totalLayers; lra]).
  set (f := Rmin 0.8 _) in *. set (m := INR (i mod Venn.totalLayers)) in *.
  assert (Hf : 0.3 <= f <= 0.8) by (apply Hc; lra).
  rewrite Rmult_assoc.
  pose proof (prod_bounds f (0.25 + m / 8 * 0.65) 0.3 0.8 0.25 0.81875) as Hp.
  lra.
Qed.

Lemma outerRadius_range c i : 235.6 <= Venn.outerRadius c i <= 752.
Proof.
  unfold Venn.outerRadius, Venn.dsLayerIndex. cbv zeta.
  rewrite Venn_dpRadius_value, INR_dsLayerCount.
  pose proof (clamp_range 1.2 2.2 (1.2 + IZR c / 200)) as Hc.
  assert (Hm : 0 <= INR (i mod Venn.dsLayerCount) <= 8)
    by (apply INR_mod_bound; [unfold Venn.dsLayerCount; lia | rewrite INR_dsLayerCount; lra]).
  set (f := Rmin 2.2 _) in *. set (m := INR (i mod Venn.dsLayerCount)) in *.
  assert (Hf : 1.2 <= f <= 2.2) by (apply Hc; lra).
  rewrite Rmult_assoc.
  pose proof (prod_bounds f ((1.2 + m / 9 * 1.0) / 2.2) 1.2 2.2 (1.2 / 2.2)
                ((1.2 + 8 / 9) / 2.2)) as Hp.
  lra.
Qed.

Lemma vennRing_stable : updateStable vennRing.
Proof.
  split.
  - intros c n H. exact H.
  - intros col n (r & Hon & Hr). exists r. unfold promoteMixed.
    destruct (type n) eqn:Et; try (rewrite Et; now split). now split.
Qed.

Lemma Venn_rings src ds cm rnd g :
  Venn.getVennNetworkLayout src ds cm rnd = Ok g -> Forall vennRing (nodes g).
Proof.
  intros Hok. apply (Venn_nodes_Forall _ src ds cm rnd) with (g := g); [| | |exact Hok|].
  - apply vennRing_stable.
  - intros dp sector row i k _ _ _. exists (Venn.innerRadius (sourceCount row) i).
    split; [apply entityNode_onCircle | apply innerRadius_range].
  - intros dp sector row i k _ _ _. exists (Venn.outerRadius (downstreamCount row) i).
    split; [apply entityNode_onCircle | apply outerRadius_range].
  - intros counts. apply Venn_platformNodes_Forall. intros dp i _.
    exists (vennPlatformRadius counts dp i).
    split; [apply regionNode_onCircle | apply vennPlatformRadius_range].
Qed.

Lemma vennRing_dist2 n r :
  onCircle Venn.centerX Venn.centerY r n -> vennDist2 n = r * r.
Proof. intros H. exact H. Qed.

Lemma vennDownstreamNode_dist2 cm dp sector row i r :
  vennDist2 (vennDownstreamNode cm dp sector row i r)
  = Venn.outerRadius (downstreamCount row) i * Venn.outerRadius (downstreamCount row) i.
Proof. apply circle_point. Qed.

Lemma vennPlatformNode_dist2 cm counts total dp i :
  vennDist2 (vennPlatformNode cm counts total dp i)
  = vennPlatformRadius counts dp i * vennPlatformRadius counts dp i.
Proof. apply circle_point. Qed.

(** X10. In the Venn layout every node lies in an annulus around the center
    (800, 450) that depends on its type only: platforms between radius 291.6
    and 518.4, sources and mixed nodes between 27 and 235.8, downstreams
    between 235.6 and 752.  Hence every source or mixed node is strictly
    closer to the center than every platform node, while a downstream node
    can be closer to the center than its platform. *)
Theorem venn_nodes_in_annuli :
  (forall src ds cm rnd g n,
      Venn.getVennNetworkLayout src ds cm rnd = Ok g -> In n (nodes g) -> vennRing n)
  /\ (forall src ds cm rnd g s p,
        Venn.getVennNetworkLayout src ds cm rnd = Ok g ->
        In s (nodes g) -> In p (nodes g) ->
        type s = source \/ type s = mixed -> type p = dataplatform ->
        vennDist2 s < vennDist2 p)
  /\ (forall cm rnd,
        exists g p n,
          Venn.getVennNetworkLayout [] idleConsumer cm rnd = Ok g
          /\ nodes g = [p; n]
          /\ type p = dataplatform /\ type n = downstream /\ dataPlatform n = Some (id p)
          /\ vennDist2 n < vennDist2 p).
Proof.
  split; [|split].
  - intros src ds cm rnd g n Hok Hin.
    exact (proj1 (Forall_forall _ _) (Venn_rings src ds cm rnd g Hok) n Hin).
  - intros src ds cm rnd g s p Hok Hs Hp Hts Htp.
    pose proof (Venn_rings src ds cm rnd g Hok) as Hall. rewrite Forall_forall in Hall.
    destruct (Hall s Hs) as (rs & Hons & Hrs). destruct (Hall p Hp) as (rp & Honp & Hrp).
    rewrite (vennRing_dist2 s rs Hons), (vennRing_dist2 p rp Honp).
    rewrite Htp in Hrp. destruct Hts as [Hts|Hts]; rewrite Hts in Hrs; nra.
  - intros cm rnd.
    exists {| nodes := [vennPlatformNode cm [("p", 1%Z)] 1 "p" 0;
                        vennDownstreamNode cm "p" (0 / 1 * 2 * PI, INR 1 / 1 * 2 * PI)
                          (drow (Some "p") (Some "a") (Some 0%Z)) 0 (rnd 0%nat)];
              links := [Venn.entityLink "p" "a" 0 (orString (cm "downstream") "#EA4335")
                          (rnd 1%nat)] |}.
    eexists. eexists. split; [reflexivity|]. split; [reflexivity|].
    split; [reflexivity|]. split; [reflexivity|]. split; [reflexivity|].
    rewrite vennDownstreamNode_dist2, vennPlatformNode_dist2.
    pose proof (vennPlatformRadius_range [("p", 1%Z)] "p" 0) as Hp.
    assert (Hn : Venn.outerRadius 0 0 < 236).
    { unfold Venn.outerRadius, Venn.dsLayerIndex. cbv zeta.
      rewrite Venn_dpRadius_value, INR_dsLayerCount. simpl INR.
      unfold Rmin, Rmax. destruct (Rle_dec 1.2 (1.2 + 0 / 200)); [|lra].
      destruct (Rle_dec 2.2 (1.2 + 0 / 200)); lra. }
    pose proof (outerRadius_range 0 0) as Hlo.
    change (downstreamCount (drow (Some "p") (Some "a") (Some 0%Z))) with 0%Z.
    nra.
Qed.

Lemma venn_nodes_in_annuli_witness :
  match Venn.getVennNetworkLayout twoApps oneConsumer defaultColorMap noRandom with
  | Ok g => Forall vennRing (nodes g)
  | Throw _ => False
  end.
Proof.
  destruct (Venn.getVennNetworkLayout twoApps oneConsumer defaultColorMap noRandom)
    as [g|e] eqn:E.
  - apply Forall_forall. intros n Hn.
    exact (proj1 venn_nodes_in_annuli twoApps oneConsumer defaultColorMap noRandom g n E Hn).
  - assert (H : match Venn.getVennNetworkLayout twoApps oneConsumer defaultColorMap noRandom
                with Ok _ => True | Throw _ => False end) by (lazy; exact I).
    now rewrite E in H.
Defined.

(** ** Line styles of the built links *)

Lemma clamp_range' lo hi v : lo <= hi -> lo <= Rmax lo (Rmin hi v) <= hi.
Proof.
  intros H. unfold Rmin, Rmax.
  destruct (Rle_dec hi v); destruct (Rle_dec lo _); lra.
Qed.

Lemma Main_entityLink_styled a b c fill :
  styled 1 5 0.5 0.5 0.2 0.3 (Main.entityLink a b c fill).
Proof.
  eexists. eexists. split; [reflexivity|]. split; [reflexivity|]. simpl.
  split; [apply clamp_range'; lra|]. lra.
Qed.

Lemma Main_connections_styled src ds :
  Forall (fun e => styled 1 5 0.5 0.5 0.2 0.3 (snd e) /\ (1 <= value (snd e))%Z)
    (Main.dataPlatformConnections src ds).
Proof.
  rewrite Main_connections_tally.
  apply (tally_Forall (fun c => styled 1 5 0.5 0.5 0.2 0.3 c /\ (1 <= value c)%Z));
    [| |constructor].
  - intros a b. split; [|simpl; lia].
    eexists. eexists. split; [reflexivity|]. split; [reflexivity|]. simpl. lra.
  - intros c [(stl & o & Hs & Ho & Hw & Hor & Hc) Hv]. split; [|simpl; lia].
    unfold Main.bumpConnection. cbv zeta. rewrite Hs.
    eexists. eexists. split; [reflexivity|]. split; [exact Ho|]. simpl.
    split; [|split; assumption].
    assert (Hr : 2 <= IZR (value c + 1)) by (apply IZR_le; lia).
    unfold Rmin. destruct (Rle_dec 5 _); lra.
Qed.

Lemma Main_links_styled src ds cm :
  Forall (styled 1 5 0.5 0.5 0.2 0.3) (links (Main.getMainGraphData src ds cm)).
Proof.
  rewrite Main_links_unfold. apply Forall_app. split; [|apply Forall_app; split].
  - apply Forall_forall. intros l Hl. apply in_map_iff in Hl.
    destruct Hl as (row & <- & _). apply Main_entityLink_styled.
  - apply Forall_forall. intros l Hl. apply in_map_iff in Hl.
    destruct Hl as (row & <- & _). apply Main_entityLink_styled.
  - apply Forall_forall. intros l Hl. apply in_map_iff in Hl.
    destruct Hl as (e & <- & He).
    pose proof (Main_connections_styled (sortSources src) (sortDownstreams ds)) as H.
    rewrite Forall_forall in H. now apply H.
Qed.

Section VennLinks.
Variables (P : Link -> Prop) (cm : ColorMap) (rnd : nat -> R).
Hypothesis P_entity : forall a b c fill k, P (Venn.entityLink a b c fill (rnd k)).
Hypothesis P_platform : forall c k, (3 < value c)%Z -> P (vennPlatformLink c (rnd k)).

Lemma Venn_entity_links_Forall dps rm src ds :
  Forall P (snd (fst (Venn.entityLoops cm rnd dps rm src ds))).
Proof.
  unfold Venn.entityLoops. cbv zeta.
  pose (Q := fun st : Venn.State => Forall P (snd (fst st))).
  assert (Hsrc : forall dp sector st row i, Q st -> Q (Venn.sourceStep cm rnd dp sector st row i)).
  { intros dp sector [[ns ls] rc] row i H. unfold Q, Venn.sourceStep in *.
    destruct (nodeMap_has _ ns); simpl in *; [exact H|].
    apply Forall_snoc; [exact H | apply P_entity]. }
  assert (Hds : forall dp sector st row i,
             Q st -> Q (Venn.downstreamStep cm rnd dp sector st row i)).
  { intros dp sector [[ns ls] rc] row i H. unfold Q, Venn.downstreamStep in *.
    destruct (nodeMap_has _ ns); simpl in *; [exact H|].
    apply Forall_snoc; [exact H | apply P_entity]. }
  apply (forEach_inv Q).
  - intros st dp i _ H. unfold Venn.perPlatform.
    destruct (nodeMap_get dp rm); [|exact H]. destruct (aget dp _); [|exact H].
    apply (forEach_inv Q); [|exact H]. intros s row j _. apply Hds.
  - apply (forEach_inv Q); [|constructor].
    intros st dp i _ H. unfold Venn.perPlatform.
    destruct (nodeMap_get dp rm); [|exact H]. destruct (aget dp _); [|exact H].
    apply (forEach_inv Q); [|exact H]. intros s row j _. apply Hsrc.
Qed.

Lemma Venn_platformLinks_Forall conns : forall i ls rc,
  Forall P ls -> Forall P (fst (forEachFrom (Venn.platformLinkStep rnd) i conns (ls, rc))).
Proof.
  induction conns as [|[k c] conns IH]; intros i ls rc H; simpl; [exact H|].
  destruct (Z.ltb_spec 3 (value c)) as [Hbig|Hsmall]; apply IH; [|exact H].
  apply Forall_snoc; [exact H|]. exact (P_platform c rc Hbig).
Qed.

Lemma Venn_links_Forall src ds g :
  Venn.getVennNetworkLayout src ds cm rnd = Ok g -> Forall P (links g).
Proof.
  intros Hok. apply Venn_unfold in Hok.
  destruct Hok as (counts & conns & _ & _ & _ & Hl). cbv zeta in Hl. rewrite Hl.
  unfold forEach. apply Venn_platformLinks_Forall, Venn_entity_links_Forall.
Qed.
End VennLinks.

Lemma Venn_links_have_style src ds cm rnd g :
  Venn.getVennNetworkLayout src ds cm rnd = Ok g ->
  Forall (fun l => lineStyle l <> None) (links g).
Proof. apply Venn_links_Forall; discriminate. Qed.

Lemma Venn_links_styled src ds cm rnd g :
  (forall k, 0 <= rnd k < 1) ->
  Venn.getVennNetworkLayout src ds cm rnd = Ok g ->
  Forall (fun l => if isDashed l then styled 1 4 0.3 0.6 0.3 0.4 l
                   else styled 1 3 0.2 0.5 0.2 0.3 l) (links g).
Proof.
  intros Hrnd. apply Venn_links_Forall.
  - intros a b c fill k. simpl.
    eexists. eexists. split; [reflexivity|]. split; [reflexivity|]. simpl.
    split; [apply clamp_range'; lra|]. split; [apply clamp_range'; lra|].
    pose proof (Hrnd k). lra.
  - intros c k Hbig. simpl.
    eexists. eexists. split; [reflexivity|]. split; [reflexivity|]. simpl.
    split; [apply clamp_range; lra|].
    assert (Hv : 4 <= IZR (value c)) by (apply IZR_le; lia).
    pose proof (Hrnd k).
    split; [unfold Rmin; destruct (Rle_dec 0.6 _); lra | lra].
Qed.

(** X11. When no record has a negative table count, every link of a built
    graph carries a line style.  In the circular graph the width lies
    between 1 and 5, the opacity is 0.5 and the curveness is 0.2 or more and
    0.3 or less.  In the Venn graph, for random draws in [0, 1), an entity
    link has width in [1, 3], opacity in [0.2, 0.5] and curveness in
    [0.2, 0.3], and a platform link has width in [1, 4], opacity in
    [0.3, 0.6] and curveness in [0.3, 0.4].  (The width of an entity link is
    computed with [Math.log(count + 1)], which is [NaN] for a count of -2 or
    less.) *)
Theorem built_links_are_styled :
  (forall src ds cm l,
      countsNonneg src ds ->
      In l (links (Main.getMainGraphData src ds cm)) -> styled 1 5 0.5 0.5 0.2 0.3 l)
  /\ (forall src ds cm rnd g l,
        countsNonneg src ds ->
        (forall k, 0 <= rnd k < 1) ->
        Venn.getVennNetworkLayout src ds cm rnd = Ok g ->
        In l (links g) ->
        if isDashed l then styled 1 4 0.3 0.6 0.3 0.4 l
        else styled 1 3 0.2 0.5 0.2 0.3 l).
Proof.
  split.
  - intros src ds cm l _ Hl.
    exact (proj1 (Forall_forall _ _) (Main_links_styled src ds cm) l Hl).
  - intros src ds cm rnd g l _ Hrnd Hok Hl.
    exact (proj1 (Forall_forall _ _) (Venn_links_styled src ds cm rnd g Hrnd Hok) l Hl).
Qed.

Lemma built_links_are_styled_witness :
  countsNonneg twoApps oneConsumer
  /\ styled 1 5 0.5 0.5 0.2 0.3
       (mainSourceLink defaultColorMap (srow (Some "Data Lake") (Some "CRM") (Some 10%Z))).
Proof.
  assert (H : countsNonneg twoApps oneConsumer).
  { split; intros row Hrow; simpl in Hrow;
      repeat (destruct Hrow as [<-|Hrow]; [vm_compute; discriminate|]); destruct Hrow. }
  split; [exact H|].
  apply (proj1 built_links_are_styled twoApps oneConsumer defaultColorMap); [exact H|].
  left. reflexivity.
Defined.

(** ** The highlight on built graphs *)

Lemma toLowerCase_nonempty s : s <> "" -> toLowerCase s <> "".
Proof. destruct s; [congruence | discriminate]. Qed.

Lemma orString_nonempty o d : d <> "" -> orString o d <> "".
Proof. intros Hd. destruct o as [[|c s]|]; simpl; (exact Hd || discriminate). Qed.

Lemma sourceKey_nonempty row : sourceKey row <> "".
Proof. apply toLowerCase_nonempty, orString_nonempty. discriminate. Qed.

Lemma downstreamKey_nonempty row : downstreamKey row <> "".
Proof. apply toLowerCase_nonempty, orString_nonempty. discriminate. Qed.

Lemma collectPlatforms_nonempty src ds p : In p (collectPlatforms src ds) -> p <> "".
Proof.
  intros H. apply collectPlatforms_In in H.
  destruct H as [H|H]; apply in_map_iff in H; destruct H as (row & <- & _);
    apply toLowerCase_nonempty, orString_nonempty; discriminate.
Qed.

Lemma provenance_id_nonempty dps src ds n :
  (forall p, In p dps -> p <> "") -> provenance dps src ds n -> id n <> "".
Proof.
  intros Hdps H. unfold provenance in H.
  destruct (type n).
  - destruct H as (Hin & _). now apply Hdps.
  - destruct H as (row & _ & -> & _). apply sourceKey_nonempty.
  - destruct H as (row & _ & -> & _). apply downstreamKey_nonempty.
  - destruct H as (row & _ & -> & _). apply sourceKey_nonempty.
Qed.

Lemma built_provenance g :
  built g ->
  exists src ds,
    Forall (provenance (collectPlatforms src ds) src ds) (nodes g).
Proof.
  intros [(src & ds & cm & ->)|(src & ds & cm & rnd & Hok)]; exists src, ds.
  - apply Main_provenance.
  - exact (Venn_provenance src ds cm rnd g Hok).
Qed.

(** The ids of a built graph are not empty, so hovering a node is always
    seen as a hover. *)
Lemma built_id_nonempty g n : built g -> In n (nodes g) -> id n <> "".
Proof.
  intros Hb Hn. destruct (built_provenance g Hb) as (src & ds & Hall).
  rewrite Forall_forall in Hall.
  apply (provenance_id_nonempty _ src ds n (collectPlatforms_nonempty src ds)), Hall, Hn.
Qed.

Lemma hovered_nonempty h : h <> "" -> Chart.hovered (Some h) = true.
Proof. destruct h; [congruence | reflexivity]. Qed.

(** Every entity node of a built graph has a styled link to its platform. *)
Lemma Main_entity_link src ds cm n :
  In n (nodes (Main.getMainGraphData src ds cm)) -> type n <> dataplatform ->
  exists dp l,
    dataPlatform n = Some dp /\ In l (links (Main.getMainGraphData src ds cm))
    /\ joins (id n) dp l /\ lineStyle l <> None.
Proof.
  intros Hn Ht.
  pose proof (proj1 (Forall_forall _ _) (Main_provenance src ds cm) n Hn) as Hp.
  unfold provenance in Hp. rewrite Main_links_unfold.
  destruct (type n); [congruence| | |];
    destruct Hp as (row & Hrow & Hid & _ & Hdp & _).
  - exists (sourceGroupKey row), (mainSourceLink cm row). split; [exact Hdp|].
    split; [apply in_or_app; left; apply in_map; now apply sortBy_In|].
    split; [left; rewrite Hid; now split | discriminate].
  - exists (downstreamGroupKey row), (mainDownstreamLink cm row). split; [exact Hdp|].
    split; [apply in_or_app; right; apply in_or_app; left; apply in_map; now apply sortBy_In|].
    split; [right; rewrite Hid; now split | discriminate].
  - exists (sourceGroupKey row), (mainSourceLink cm row). split; [exact Hdp|].
    split; [apply in_or_app; left; apply in_map; now apply sortBy_In|].
    split; [left; rewrite Hid; now split | discriminate].
Qed.

Lemma Venn_entity_link src ds cm rnd g n :
  Venn.getVennNetworkLayout src ds cm rnd = Ok g ->
  In n (nodes g) -> type n <> dataplatform ->
  exists dp l,
    dataPlatform n = Some dp /\ In l (links g) /\ joins (id n) dp l /\ lineStyle l <> None.
Proof.
  intros Hok Hn Ht.
  assert (Hin : In (entityEnds n) (map entityEnds (filter isEntityNode (nodes g)))).
  { apply in_map, filter_In. split; [exact Hn|].
    unfold isEntityNode, isPlatformNode. now destruct (type n). }
  rewrite <- (Venn_solid_links src ds cm rnd g Hok) in Hin.
  apply in_map_iff in Hin. destruct Hin as (l & Hends & Hl).
  apply filter_In in Hl. destruct Hl as [Hl Hsolid].
  pose proof (proj1 (Forall_forall _ _) (Venn_provenance src ds cm rnd g Hok) n Hn) as Hp.
  assert (Hdp : exists dp, dataPlatform n = Some dp).
  { unfold provenance in Hp.
    destruct (type n); [congruence| | |]; destruct Hp as (row & _ & _ & _ & Hdp & _); eauto. }
  destruct Hdp as (dp & Hdp). exists dp, l. split; [exact Hdp|]. split; [exact Hl|].
  split.
  - unfold entityEnds, linkEnds in Hends. rewrite Hdp in Hends.
    destruct (type n); injection Hends as Hs Ht'; (now left) || (now right).
  - exact (proj1 (Forall_forall _ _) (Venn_links_have_style src ds cm rnd g Hok) l Hl).
Qed.

Lemma touches_joins h k l : joins h k l -> Chart.touches h k l = true.
Proof.
  unfold joins, Chart.touches.
  intros [[-> ->]|[-> ->]]; simpl; rewrite !String.eqb_refl; simpl;
    [reflexivity | apply orb_true_r].
Qed.

Lemma joins_sym h k l : joins h k l -> joins k h l.
Proof. unfold joins. tauto. Qed.

Lemma linkHit_joins h k l : joins h k l -> Chart.linkHit (Some h) l = true.
Proof.
  unfold joins, Chart.linkHit.
  intros [[-> ->]|[-> ->]]; simpl; rewrite String.eqb_refl;
    [reflexivity | apply orb_true_r].
Qed.

Lemma nodeOpacity_neighbour ls h k l :
  In l ls -> Chart.touches h k l = true -> Chart.nodeOpacity ls (Some h) k = 1.
Proof.
  intros Hin Ht. unfold Chart.nodeOpacity.
  destruct (Chart.hovered (Some h)); [|reflexivity].
  assert (E : existsb (Chart.touches h k) ls = true)
    by (apply existsb_exists; now exists l).
  rewrite E. now rewrite orb_true_r.
Qed.

Lemma joins_processLink h' h k l : joins h k l -> joins h k (Chart.processLink h' l).
Proof. unfold joins. now rewrite processLink_source, processLink_target. Qed.

Lemma lights_link g h k l :
  h <> "" -> In l (links g) -> joins h k l -> lineStyle l <> None -> lights g h k.
Proof.
  intros Hh Hl Hj Hsty. eexists. split; [reflexivity|]. simpl. split.
  - intros n' Hn' Hid. apply in_map_iff in Hn'. destruct Hn' as (n & <- & _).
    simpl in *. f_equal. rewrite Hid.
    apply (nodeOpacity_neighbour _ h k l Hl), touches_joins, Hj.
  - exists (Chart.processLink (Some h) l).
    split; [now apply in_map|]. split; [now apply joins_processLink|].
    unfold linkOpacity, Chart.processLink.
    destruct (lineStyle l) as [stl|]; [|congruence]. cbn [lineStyle l_opacity].
    now rewrite (hovered_nonempty h Hh), (linkHit_joins h k l Hj).
Qed.

Lemma built_platform_node g n dp :
  built g -> In n (nodes g) -> type n <> dataplatform -> dataPlatform n = Some dp ->
  In dp (map id (nodes g)) /\ dp <> "".
Proof.
  intros Hb Hn Ht Hdp.
  assert (H : exists src ds,
             provenance (collectPlatforms src ds) src ds n
             /\ forall p, In p (collectPlatforms src ds) -> In p (map id (nodes g))).
  { destruct Hb as [(src & ds & cm & ->)|(src & ds & cm & rnd & Hok)]; exists src, ds.
    - split; [exact (proj1 (Forall_forall _ _) (Main_provenance src ds cm) n Hn)|].
      intros p Hp. apply Main_node_ids. now left.
    - split; [exact (proj1 (Forall_forall _ _) (Venn_provenance src ds cm rnd g Hok) n Hn)|].
      intros p Hp. apply (Venn_node_ids src ds cm rnd g p Hok). now left. }
  destruct H as (src & ds & Hp & Hplat). unfold provenance in Hp.
  assert (Hin : In dp (collectPlatforms src ds)).
  { destruct (type n); [congruence| | |];
      destruct Hp as (row & _ & _ & _ & Hdp' & Hin & _); congruence. }
  split; [now apply Hplat | now apply (collectPlatforms_nonempty src ds)].
Qed.

Lemma built_entity_link g n :
  built g -> In n (nodes g) -> type n <> dataplatform ->
  exists dp l, dataPlatform n = Some dp /\ In l (links g) /\ joins (id n) dp l
               /\ lineStyle l <> None.
Proof.
  intros [(src & ds & cm & ->)|(src & ds & cm & rnd & Hok)] Hn Ht.
  - now apply Main_entity_link.
  - now apply (Venn_entity_link src ds cm rnd).
Qed.

(** X12. In a built graph every entity node names a platform that is a node
    of the graph, and the highlight keeps the two together: hovering the
    entity shows its platform at full opacity and a link between them at
    opacity 0.8, and hovering the platform does the same for the entity. *)
Theorem hover_keeps_entity_and_platform :
  forall g n,
    built g -> In n (nodes g) -> type n <> dataplatform ->
    exists dp,
      dataPlatform n = Some dp /\ In dp (map id (nodes g))
      /\ lights g (id n) dp /\ lights g dp (id n).
Proof.
  intros g n Hb Hn Ht.
  destruct (built_entity_link g n Hb Hn Ht) as (dp & l & Hdp & Hl & Hj & Hsty).
  destruct (built_platform_node g n dp Hb Hn Ht Hdp) as [Hin Hne].
  exists dp. split; [exact Hdp|]. split; [exact Hin|]. split.
  - apply (lights_link g (id n) dp l); auto. now apply (built_id_nonempty g).
  - apply (lights_link g dp (id n) l); auto. now apply joins_sym.
Qed.

Lemma hover_keeps_entity_and_platform_witness :
  let g := Main.getMainGraphData smallThenLarge [] defaultColorMap in
  exists dp,
    dataPlatform (nth 1 (nodes g) someNode) = Some dp /\ In dp (map id (nodes g))
    /\ lights g (id (nth 1 (nodes g) someNode)) dp
    /\ lights g dp (id (nth 1 (nodes g) someNode)).
Proof.
  apply (hover_keeps_entity_and_platform
           (Main.getMainGraphData smallThenLarge [] defaultColorMap)).
  - left. now exists smallThenLarge, [], defaultColorMap.
  - right. left. reflexivity.
  - discriminate.
Defined.

(** *** The highlight on any graph *)

Lemma touches_sym h k l : Chart.touches h k l = Chart.touches k h l.
Proof.
  unfold Chart.touches.
  destruct (Chart.endIdNode (l_source l)), (Chart.endIdNode (l_target l)); try reflexivity.
  rewrite orb_comm. f_equal; apply andb_comm.
Qed.

Lemma nodeOpacity_sym ls h k :
  h <> "" -> k <> "" -> Chart.nodeOpacity ls (Some h) k = Chart.nodeOpacity ls (Some k) h.
Proof.
  intros Hh Hk. unfold Chart.nodeOpacity.
  rewrite (hovered_nonempty h Hh), (hovered_nonempty k Hk). simpl.
  rewrite (String.eqb_sym h k).
  replace (existsb (Chart.touches h k) ls) with (existsb (Chart.touches k h) ls);
    [reflexivity|].
  induction ls as [|l ls IH]; simpl; [reflexivity|]. now rewrite IH, touches_sym.
Qed.

Lemma nodeOpacity_values ls h k :
  Chart.nodeOpacity ls h k = 1 \/ Chart.nodeOpacity ls h k = 0.3.
Proof.
  unfold Chart.nodeOpacity. destruct h as [h|]; [|now left].
  destruct (Chart.hovered (Some h)); [|now left].
  destruct (_ || _); [now left | now right].
Qed.

(** X13. [getChartOptions] returns nothing for a missing graph.  Otherwise
    it changes only the border and the opacity of the nodes and the style of
    the links: the other fields of every node, and the ends and the value of
    every link, are as in the input, in the same order.  Every node is shown
    at opacity 1 or 0.3; the hovered node itself at 1 with border width 3.
    Being lit is symmetric: hovering [h] lights [k] exactly when hovering [k]
    lights [h].  A graph without links dims every other node. *)
Theorem highlight_structure :
  (forall h, Chart.getChartOptions None h = None)
  /\ (forall g h,
        exists g',
          Chart.getChartOptions (Some g) h = Some g'
          /\ map nodeCore (nodes g') = map nodeCore (nodes g)
          /\ map linkTriple (links g') = map linkTriple (links g)
          /\ Forall (fun n' => opacity (itemStyle n') = Some 1
                               \/ opacity (itemStyle n') = Some 0.3) (nodes g')
          /\ Forall (fun n' => Chart.isHovered h (id n') = true ->
                               opacity (itemStyle n') = Some 1
                               /\ borderWidth (itemStyle n') = Some 3) (nodes g'))
  /\ (forall ls h k,
        h <> "" -> k <> "" ->
        Chart.nodeOpacity ls (Some h) k = Chart.nodeOpacity ls (Some k) h)
  /\ (forall h k, h <> "" -> k <> h -> Chart.nodeOpacity [] (Some h) k = 0.3).
Proof.
  split; [reflexivity|]. split; [|split].
  - intros g h. eexists. split; [reflexivity|]. simpl. split; [|split; [|split]].
    + rewrite map_map. apply map_ext. reflexivity.
    + rewrite map_map. apply map_ext. intros l.
      unfold linkTriple. now rewrite processLink_source, processLink_target, processLink_value.
    + apply Forall_forall. intros n' Hn'. apply in_map_iff in Hn'.
      destruct Hn' as (n & <- & _). simpl.
      destruct (nodeOpacity_values (links g) h (id n)) as [E|E]; rewrite E; auto.
    + apply Forall_forall. intros n' Hn'. apply in_map_iff in Hn'.
      destruct Hn' as (n & <- & _). simpl. intros Hh. rewrite Hh.
      split; [|reflexivity]. f_equal. unfold Chart.nodeOpacity.
      destruct h as [h|]; [|reflexivity].
      destruct (Chart.hovered (Some h)); [|reflexivity]. now rewrite Hh.
  - exact nodeOpacity_sym.
  - intros h k Hh Hk. unfold Chart.nodeOpacity. rewrite (hovered_nonempty h Hh). simpl.
    destruct (String.eqb_spec h k); [congruence | reflexivity].
Qed.

Lemma highlight_structure_witness :
  Chart.nodeOpacity [bareLink "a" "b"] (Some "a") "b"
  = Chart.nodeOpacity [bareLink "a" "b"] (Some "b") "a".
Proof.
  apply (proj1 (proj2 (proj2 highlight_structure)) [bareLink "a" "b"] "a" "b"); discriminate.
Defined.

(** * Properties of the mock data generator *)

(** ** Which nodes [calculateNodePositions] returns *)

Lemma platformLoop_raw counts nodeCount l : forall i st,
  map Gen.raw (fst (forEachFrom (Gen.platformStep counts nodeCount) i l st))
  = map Gen.raw (fst st) ++ l.
Proof.
  induction l as [|n l IH]; intros i [ps rc]; simpl.
  - now rewrite app_nil_r.
  - rewrite IH. simpl. rewrite map_app. simpl. now rewrite <- app_assoc.
Qed.

Lemma layerLoop_raw rnd counts g nodeCount l : forall i st,
  map Gen.raw (fst (forEachFrom (Gen.layerStep rnd counts g nodeCount) i l st))
  = map Gen.raw (fst st) ++ l.
Proof.
  induction l as [|n l IH]; intros i [ps rc]; simpl.
  - now rewrite app_nil_r.
  - rewrite IH. simpl. rewrite map_app. simpl. now rewrite <- app_assoc.
Qed.

Lemma groupStep_raw rnd counts nodes st g i :
  map Gen.raw (fst (Gen.groupStep rnd counts nodes st g i))
  = map Gen.raw (fst st) ++ Gen.nodesByType nodes g.
Proof.
  unfold Gen.groupStep. cbv zeta.
  destruct (Gen.nodesByType nodes g) as [|n l] eqn:E.
  - simpl. now rewrite app_nil_r.
  - rewrite <- E. replace (List.length (Gen.nodesByType nodes g) =? 0)%nat with false
      by (rewrite E; reflexivity).
    destruct g; unfold forEach; (apply platformLoop_raw || apply layerLoop_raw).
Qed.

Lemma calculateNodePositions_raw rnd rc nodes links :
  map Gen.raw (Gen.calculateNodePositions rnd rc nodes links)
  = Gen.nodesByType nodes Gen.GSource ++ Gen.nodesByType nodes Gen.GDataPlatform
    ++ Gen.nodesByType nodes Gen.GDownstream ++ Gen.nodesByType nodes Gen.GMixed.
Proof.
  unfold Gen.calculateNodePositions, forEach, Gen.groups. simpl forEachFrom.
  rewrite !groupStep_raw. simpl. now rewrite <- !app_assoc.
Qed.

Lemma oneGroup_cases n :
  oneGroup n ->
  let b g := Gen.inGroup g n in
  (b Gen.GSource = true /\ b Gen.GDataPlatform = false /\ b Gen.GDownstream = false
   /\ b Gen.GMixed = false)
  \/ (b Gen.GSource = false /\ b Gen.GDataPlatform = true /\ b Gen.GDownstream = false
      /\ b Gen.GMixed = false)
  \/ (b Gen.GSource = false /\ b Gen.GDataPlatform = false /\ b Gen.GDownstream = true
      /\ b Gen.GMixed = false)
  \/ (b Gen.GSource = false /\ b Gen.GDataPlatform = false /\ b Gen.GDownstream = false
      /\ b Gen.GMixed = true).
Proof.
  unfold oneGroup, groupsOf, Gen.groups. cbv zeta. cbn [filter].
  destruct (Gen.inGroup Gen.GSource n), (Gen.inGroup Gen.GDataPlatform n),
    (Gen.inGroup Gen.GDownstream n), (Gen.inGroup Gen.GMixed n); cbn [List.length];
    intros H; try discriminate H;
    first [ left; now repeat split | right; left; now repeat split
          | right; right; left; now repeat split | right; right; right; now repeat split ].
Qed.

Lemma groups_partition nodes :
  Forall oneGroup nodes ->
  Permutation
    (Gen.nodesByType nodes Gen.GSource ++ Gen.nodesByType nodes Gen.GDataPlatform
     ++ Gen.nodesByType nodes Gen.GDownstream ++ Gen.nodesByType nodes Gen.GMixed)
    nodes.
Proof.
  unfold Gen.nodesByType. induction 1 as [|n nodes Hn _ IH]; [constructor|].
  cbn [filter]. apply oneGroup_cases in Hn. cbv zeta in Hn.
  destruct Hn as [(-> & -> & -> & ->)|[(-> & -> & -> & ->)|[(-> & -> & -> & ->)
                                                           |(-> & -> & -> & ->)]]].
  - simpl. now constructor.
  - apply Permutation_sym, Permutation_cons_app, Permutation_sym, IH.
  - rewrite app_assoc. apply Permutation_sym, Permutation_cons_app, Permutation_sym.
    rewrite <- app_assoc. exact IH.
  - rewrite !app_assoc. apply Permutation_sym, Permutation_cons_app, Permutation_sym.
    rewrite <- !app_assoc. exact IH.
Qed.

(** X14. [calculateNodePositions] returns the non-mixed sources, then the
    platforms, then the non-mixed downstreams, then the mixed nodes, each
    group in input order and with the fields of the input node.  When every
    node is in exactly one group the result is a rearrangement of the input;
    a node of another type is left out, and a platform flagged as mixed is
    returned twice. *)
Theorem positioned_nodes_by_group :
  (forall rnd rc nodes links,
      map Gen.raw (Gen.calculateNodePositions rnd rc nodes links)
      = Gen.nodesByType nodes Gen.GSource ++ Gen.nodesByType nodes Gen.GDataPlatform
        ++ Gen.nodesByType nodes Gen.GDownstream ++ Gen.nodesByType nodes Gen.GMixed)
  /\ (forall rnd rc nodes links,
        Forall oneGroup nodes ->
        Permutation (map Gen.raw (Gen.calculateNodePositions rnd rc nodes links)) nodes)
  /\ (forall rnd rc links,
        map pid (Gen.calculateNodePositions rnd rc
                   [rawNode "a" "Other" None; rawNode "b" "DataPlatform" (Some true)] links)
        = ["b"; "b"]).
Proof.
  split; [exact calculateNodePositions_raw|]. split.
  - intros rnd rc nodes links H. rewrite calculateNodePositions_raw.
    now apply groups_partition.
  - reflexivity.
Qed.

Lemma positioned_nodes_by_group_witness :
  Permutation
    (map Gen.raw (Gen.calculateNodePositions noRandom 0
                    [rawNode "p" "DataPlatform" None; rawNode "s" "Source" None] []))
    [rawNode "p" "DataPlatform" None; rawNode "s" "Source" None].
Proof.
  apply (proj1 (proj2 positioned_nodes_by_group)).
  repeat constructor.
Defined.

(** ** Node-wise invariants of [calculateNodePositions] *)

Section GenNodes.
Variables (P : Gen.PNode -> Prop) (rnd : nat -> R) (nodes : list Gen.RawNode)
          (links : list Gen.RawLink).
Hypothesis P_platform : forall node index,
  nth_error (Gen.nodesByType nodes Gen.GDataPlatform) index = Some node ->
  P (platformPNode (Gen.connectionCounts links)
       (List.length (Gen.nodesByType nodes Gen.GDataPlatform)) node index).
Hypothesis P_layer : forall g node index k,
  g <> Gen.GDataPlatform ->
  nth_error (Gen.nodesByType nodes g) index = Some node ->
  P (layerPNode (Gen.connectionCounts links) g (List.length (Gen.nodesByType nodes g))
       node index (rnd k) (rnd (S k))).

Lemma groupStep_Forall st g i :
  Forall P (fst st) ->
  Forall P (fst (Gen.groupStep rnd (Gen.connectionCounts links) nodes st g i)).
Proof.
  intros Hst. unfold Gen.groupStep. cbv zeta.
  destruct (List.length (Gen.nodesByType nodes g) =? 0)%nat; [exact Hst|].
  assert (Hlayer : g <> Gen.GDataPlatform ->
            Forall P (fst (forEach (Gen.layerStep rnd (Gen.connectionCounts links) g
                                      (List.length (Gen.nodesByType nodes g)))
                             (Gen.nodesByType nodes g) st))).
  { intros Hg. unfold forEach.
    apply (forEachFrom_inv_nth (fun s : Gen.State => Forall P (fst s))); [|exact Hst].
    intros [ps rc] node j Hj Hps. simpl.
    apply Forall_snoc; [exact Hps|]. exact (P_layer g node j rc Hg Hj). }
  destruct g; try (apply Hlayer; discriminate).
  unfold forEach.
  apply (forEachFrom_inv_nth (fun s : Gen.State => Forall P (fst s))); [|exact Hst].
  intros [ps rc] node j Hj Hps. simpl.
  apply Forall_snoc; [exact Hps|]. exact (P_platform node j Hj).
Qed.

Lemma calculateNodePositions_Forall rc :
  Forall P (Gen.calculateNodePositions rnd rc nodes links).
Proof.
  unfold Gen.calculateNodePositions, forEach, Gen.groups. simpl forEachFrom.
  repeat apply groupStep_Forall. constructor.
Qed.
End GenNodes.

(** ** Connection counts *)

Lemma orZero_aget_aset k k' v (m : Amap Z) :
  orZero (aget k (aset k' v m)) = if (k' =? k)%string then v else orZero (aget k m).
Proof. rewrite aget_aset. now destruct (k' =? k)%string. Qed.

Lemma countLink_count k m l :
  orZero (aget k (Gen.countLink m l))
  = (orZero (aget k m)
     + ((if (Gen.g_source l =? k)%string then 1 else 0)
        + (if (Gen.g_target l =? k)%string then 1 else 0)))%Z.
Proof.
  unfold Gen.countLink. cbv zeta.
  set (s := Gen.g_source l). set (t := Gen.g_target l).
  rewrite (orZero_aget_aset k t), (orZero_aget_aset t s), (orZero_aget_aset k s).
  clearbody s t.
  destruct (String.eqb_spec t k) as [Et|Et]; destruct (String.eqb_spec s k) as [Es|Es];
    destruct (String.eqb_spec s t) as [Est|Est]; subst; try congruence; lia.
Qed.

Lemma connectionCounts_from k links : forall m,
  orZero (aget k (fold_left Gen.countLink links m)) = (orZero (aget k m) + degree k links)%Z.
Proof.
  induction links as [|l links IH]; intros m; simpl.
  - unfold degree. simpl. lia.
  - rewrite IH, countLink_count. unfold degree. simpl. lia.
Qed.

Lemma countOf_degree links n :
  Gen.countOf (Gen.connectionCounts links) n = degree (Gen.r_id n) links.
Proof.
  unfold Gen.countOf, Gen.connectionCounts. rewrite connectionCounts_from. reflexivity.
Qed.

Lemma positioned_degree rnd rc nodes links :
  Forall (fun p => Gen.connectionCount p = degree (pid p) links)
    (Gen.calculateNodePositions rnd rc nodes links).
Proof.
  apply calculateNodePositions_Forall.
  - intros node index _. apply countOf_degree.
  - intros g node index k _ _. apply countOf_degree.
Qed.

(** The handshake: over distinct ids that cover the ends of the links, the
    degrees add up to twice the number of links. *)
Lemma indicator_sum k ids :
  NoDup ids -> In k ids ->
  fold_right Z.add 0%Z (map (fun i => if (k =? i)%string then 1 else 0)%Z ids) = 1%Z.
Proof.
  induction 1 as [|i ids Hni Hnd IH]; intros Hin; [contradiction|]. simpl.
  destruct (String.eqb_spec k i) as [->|Hne].
  - assert (E : fold_right Z.add 0%Z
                  (map (fun j => if (i =? j)%string then 1 else 0)%Z ids) = 0%Z).
    { clear IH Hin Hnd. induction ids as [|j ids IHids]; [reflexivity|]. simpl.
      destruct (String.eqb_spec i j) as [->|_]; [elim Hni; now left|].
      rewrite IHids; [reflexivity|]. intros H. apply Hni. now right. }
    rewrite E. reflexivity.
  - destruct Hin as [->|Hin]; [congruence|]. now rewrite IH.
Qed.

Lemma degree_sum ids links :
  NoDup ids -> Forall (linkInside ids) links ->
  fold_right Z.add 0%Z (map (fun i => degree i links) ids)
  = (2 * Z.of_nat (List.length links))%Z.
Proof.
  intros Hnd. induction 1 as [|l links [Hs Ht] _ IH]; simpl.
  - unfold degree. simpl. induction ids as [|i ids IHids]; [reflexivity|]. simpl.
    inversion Hnd; subst. now rewrite IHids.
  - assert (E : forall ids',
               fold_right Z.add 0%Z (map (fun i => degree i (l :: links)) ids')
               = (fold_right Z.add 0%Z
                    (map (fun i => if (Gen.g_source l =? i)%string then 1 else 0)%Z ids')
                  + fold_right Z.add 0%Z
                      (map (fun i => if (Gen.g_target l =? i)%string then 1 else 0)%Z ids')
                  + fold_right Z.add 0%Z (map (fun i => degree i links) ids'))%Z).
    { induction ids' as [|i ids' IH']; [reflexivity|]. simpl. rewrite IH'.
      unfold degree at 1. simpl. fold (degree i links). lia. }
    rewrite E, IH, (indicator_sum _ ids Hnd Hs), (indicator_sum _ ids Hnd Ht). lia.
Qed.

(** X15. The [connectionCount] of every node that [calculateNodePositions]
    returns is the number of link ends at its id (a link from a node to
    itself counts twice, a node without links gets 0).  When the returned ids
    are distinct and every link joins two of them, the counts add up to twice
    the number of links. *)
Theorem connection_count_is_degree :
  (forall rnd rc nodes links p,
      In p (Gen.calculateNodePositions rnd rc nodes links) ->
      Gen.connectionCount p = degree (pid p) links)
  /\ (forall rnd rc nodes links,
        let ps := Gen.calculateNodePositions rnd rc nodes links in
        NoDup (map pid ps) -> Forall (linkInside (map pid ps)) links ->
        totalConnections ps = (2 * Z.of_nat (List.length links))%Z).
Proof.
  split.
  - intros rnd rc nodes links p Hp.
    exact (proj1 (Forall_forall _ _) (positioned_degree rnd rc nodes links) p Hp).
  - intros rnd rc nodes links ps Hnd Hin. unfold totalConnections.
    rewrite <- (degree_sum (map pid ps) links Hnd Hin), map_map.
    f_equal. apply map_ext_in. intros p Hp.
    exact (proj1 (Forall_forall _ _) (positioned_degree rnd rc nodes links) p Hp).
Qed.

Lemma connection_count_is_degree_witness :
  totalConnections
    (Gen.calculateNodePositions noRandom 0
       [rawNode "p" "DataPlatform" None; rawNode "s" "Source" None]
       [Gen.link "s" "p"; Gen.link "p" "p"])
  = 4%Z.
Proof.
  apply (proj2 connection_count_is_degree noRandom 0%nat
           [rawNode "p" "DataPlatform" None; rawNode "s" "Source" None]
           [Gen.link "s" "p"; Gen.link "p" "p"]).
  - change (NoDup ["s"; "p"]). repeat constructor; simpl; intuition discriminate.
  - change (Forall (linkInside ["s"; "p"]) [Gen.link "s" "p"; Gen.link "p" "p"]).
    apply Forall_cons; [split; simpl; auto|].
    apply Forall_cons; [split; simpl; auto | constructor].
Defined.

(** ** The three columns *)

Local Open Scope R_scope.

Lemma ceilDiv_mul n k : (0 < k)%nat -> (n <= Gen.ceilDiv n k * k)%nat.
Proof.
  intros Hk. unfold Gen.ceilDiv.
  pose proof (Nat.div_mod_eq (n + k - 1) k) as E.
  pose proof (Nat.mod_upper_bound (n + k - 1) k) as Hm. nia.
Qed.

Lemma subColumnOf_lt g n i :
  (i < n)%nat -> (Gen.subColumnOf g n i < Gen.subColumnCount g)%nat.
Proof.
  intros Hi. unfold Gen.subColumnOf.
  assert (Hk : (0 < Gen.subColumnCount g)%nat) by (destruct g; simpl; lia).
  pose proof (ceilDiv_mul n (Gen.subColumnCount g) Hk) as Hc.
  apply Nat.Div0.div_lt_upper_bound. nia.
Qed.

Lemma INR_lt_bound a k b : (a < k)%nat -> INR k = b + 1 -> 0 <= INR a <= b.
Proof.
  intros Ha Hk. split; [apply pos_INR|].
  assert (H : (a <= k - 1)%nat) by lia.
  apply le_INR in H. rewrite minus_INR in H by lia. change (INR 1) with 1 in H. lra.
Qed.

Lemma jitter_range r : 0 <= r < 1 -> -10 <= Gen.jitter r < 10.
Proof. unfold Gen.jitter. lra. Qed.

Lemma frac_range a b c : 0 < a < b -> 0 < c -> 0 < a * (c / b) < c.
Proof.
  intros [Ha Hab] Hc.
  assert (Hb : 0 < / b) by (apply Rinv_0_lt_compat; lra).
  assert (H1 : a * / b < 1).
  { apply Rmult_lt_reg_r with b; [lra|]. rewrite Rmult_assoc, Rinv_l by lra. lra. }
  assert (H0 : 0 < a * / b) by (apply Rmult_lt_0_compat; lra).
  unfold Rdiv. replace (a * (c * / b)) with (c * (a * / b)) by ring. nra.
Qed.

Lemma platformPNode_column counts nodeCount node index :
  (index < nodeCount)%nat ->
  inColumn Gen.GDataPlatform (platformPNode counts nodeCount node index).
Proof.
  intros Hi. unfold inColumn, platformPNode. simpl.
  unfold Gen.width, Gen.height. split; [lra|].
  assert (Hab : 0 < INR index + 1 < INR nodeCount + 1).
  { pose proof (pos_INR index). apply lt_INR in Hi. lra. }
  pose proof (frac_range (INR index + 1) (INR nodeCount + 1) (2400 * 0.7) Hab) as H.
  lra.
Qed.

Lemma yPosition_parts g n i :
  exists layer off third,
    Gen.yPosition g n i
    = (layer + 1) * Gen.layerHeight g + off + third * (Gen.layerHeight g * 0.1)
    /\ 0 <= layer <= INR (Gen.layerCount g) - 1
    /\ (off = 0 \/ off = Gen.layerHeight g / 2)
    /\ 0 <= third <= 2.
Proof.
  unfold Gen.yPosition. cbv zeta.
  exists (INR (i mod Gen.layerCount g)),
    (if (Gen.subColumnOf g n i mod 2 =? 0)%nat then Gen.layerHeight g / 2 else 0),
    (INR (i mod 3)).
  split; [reflexivity|]. split; [|split].
  - apply INR_mod_bound; [destruct g; simpl; lia | lra].
  - destruct (_ =? 0)%nat; auto.
  - apply INR_mod_bound; [lia | simpl; lra].
Qed.

Lemma layerPNode_column counts g n node i r1 r2 :
  g <> Gen.GDataPlatform -> (i < n)%nat -> 0 <= r1 < 1 -> 0 <= r2 < 1 ->
  inColumn g (layerPNode counts g n node i r1 r2).
Proof.
  intros Hg Hi Hr1 Hr2.
  pose proof (jitter_range r1 Hr1) as Hj1. pose proof (jitter_range r2 Hr2) as Hj2.
  pose proof (subColumnOf_lt g n i Hi) as Hsc.
  destruct (yPosition_parts g n i) as (layer & off & third & Ey & Hl & Hoff & Hth).
  unfold inColumn, layerPNode. cbn [Gen.p_x Gen.p_y]. rewrite Ey.
  unfold Gen.xPosition, Gen.columnPosition, Gen.subColumnWidth, Gen.layerHeight,
    Gen.width, Gen.height in *.
  set (sc := Gen.subColumnOf g n i) in *. clearbody sc.
  destruct g; [| congruence | |]; cbn [Gen.subColumnCount Gen.layerCount] in *.
  - assert (Hs : 0 <= INR sc <= 5) by (apply (INR_lt_bound sc 6); [lia | simpl; lra]).
    replace (INR (6 / 2)) with 3 by (simpl; lra).
    replace (INR 6) with 6 by (simpl; lra).
    replace (INR 25) with 25 in * by (simpl; lra).
    split; [lra|]. destruct Hoff as [-> | ->]; lra.
  - assert (Hs : 0 <= INR sc <= 5) by (apply (INR_lt_bound sc 6); [lia | simpl; lra]).
    replace (INR (6 / 2)) with 3 by (simpl; lra).
    replace (INR 6) with 6 by (simpl; lra).
    replace (INR 25) with 25 in * by (simpl; lra).
    split; [lra|]. destruct Hoff as [-> | ->]; lra.
  - assert (Hs : 0 <= INR sc <= 2) by (apply (INR_lt_bound sc 3); [lia | simpl; lra]).
    replace (INR (3 / 2)) with 1 by (simpl; lra).
    replace (INR 3) with 3 by (simpl; lra).
    replace (INR 8) with 8 in * by (simpl; lra).
    split; [lra|]. destruct Hoff as [-> | ->]; lra.
Qed.

Lemma nth_error_group nodes g i node :
  nth_error (Gen.nodesByType nodes g) i = Some node ->
  Gen.inGroup g node = true /\ (i < List.length (Gen.nodesByType nodes g))%nat.
Proof.
  intros H. split.
  - apply nth_error_In in H. unfold Gen.nodesByType in H. now apply filter_In in H.
  - apply nth_error_Some. congruence.
Qed.

Lemma positioned_columns rnd rc nodes links :
  (forall k, 0 <= rnd k < 1) ->
  Forall placedInColumn (Gen.calculateNodePositions rnd rc nodes links).
Proof.
  intros Hrnd. apply calculateNodePositions_Forall.
  - intros node index Hn. apply nth_error_group in Hn. destruct Hn as [Hg Hi].
    exists Gen.GDataPlatform. split; [exact Hg | now apply platformPNode_column].
  - intros g node index k Hg Hn. apply nth_error_group in Hn. destruct Hn as [Hin Hi].
    exists g. split; [exact Hin | now apply layerPNode_column].
Qed.

Lemma layerStep_eq rnd counts g n ps rc node i :
  Gen.layerStep rnd counts g n (ps, rc) node i
  = (ps ++ [layerPNode counts g n node i (rnd rc) (rnd (S rc))], (rc + 2)%nat).
Proof. reflexivity. Qed.

Lemma platformStep_eq counts n ps rc node i :
  Gen.platformStep counts n (ps, rc) node i = (ps ++ [platformPNode counts n node i], rc).
Proof. reflexivity. Qed.

Lemma layerLoop_app rnd counts g n l : forall i st,
  exists ps, fst (forEachFrom (Gen.layerStep rnd counts g n) i l st) = fst st ++ ps.
Proof.
  induction l as [|node l IH]; intros i [ps0 rc]; cbn [forEachFrom].
  - exists []. now rewrite app_nil_r.
  - rewrite layerStep_eq.
    destruct (IH (S i) (ps0 ++ [layerPNode counts g n node i (rnd rc) (rnd (S rc))],
                        (rc + 2)%nat)) as (ps & E).
    rewrite E. cbn [fst]. rewrite <- app_assoc. now eexists.
Qed.

Lemma platformLoop_app counts n l : forall i st,
  exists ps, fst (forEachFrom (Gen.platformStep counts n) i l st) = fst st ++ ps.
Proof.
  induction l as [|node l IH]; intros i [ps0 rc]; cbn [forEachFrom].
  - exists []. now rewrite app_nil_r.
  - rewrite platformStep_eq.
    destruct (IH (S i) (ps0 ++ [platformPNode counts n node i], rc)) as (ps & E).
    rewrite E. cbn [fst]. rewrite <- app_assoc. now eexists.
Qed.

Lemma groupStep_app rnd counts nodes st g i :
  exists ps, fst (Gen.groupStep rnd counts nodes st g i) = fst st ++ ps.
Proof.
  unfold Gen.groupStep. cbv zeta.
  destruct (_ =? 0)%nat; [exists []; now rewrite app_nil_r|].
  destruct g; unfold forEach; (apply platformLoop_app || apply layerLoop_app).
Qed.

(** The first non-mixed source is the first node of the result. *)
Lemma first_source_first rnd rc nodes links node srcs :
  Gen.nodesByType nodes Gen.GSource = node :: srcs ->
  exists ps,
    Gen.calculateNodePositions rnd rc nodes links
    = layerPNode (Gen.connectionCounts links) Gen.GSource (S (List.length srcs)) node 0
        (rnd rc) (rnd (S rc))
      :: ps.
Proof.
  intros Hs. unfold Gen.calculateNodePositions, forEach, Gen.groups. simpl forEachFrom.
  set (counts := Gen.connectionCounts links).
  assert (E1 : exists ps1,
             fst (Gen.groupStep rnd counts nodes ([], rc) Gen.GSource 0)
             = layerPNode counts Gen.GSource (S (List.length srcs)) node 0
                 (rnd rc) (rnd (S rc)) :: ps1).
  { unfold Gen.groupStep. cbv zeta. rewrite Hs.
    cbn [List.length Nat.eqb]. unfold forEach. cbn [forEachFrom].
    destruct (layerLoop_app rnd counts Gen.GSource (S (List.length srcs)) srcs 1
                (Gen.layerStep rnd counts Gen.GSource (S (List.length srcs))
                   ([], rc) node 0)) as (ps & E).
    rewrite E, layerStep_eq. cbn [fst app]. now eexists. }
  destruct E1 as (ps1 & E1).
  set (st1 := Gen.groupStep rnd counts nodes ([], rc) Gen.GSource 0) in *.
  destruct (groupStep_app rnd counts nodes st1 Gen.GDataPlatform 1) as (ps2 & E2).
  set (st2 := Gen.groupStep rnd counts nodes st1 Gen.GDataPlatform 1) in *.
  destruct (groupStep_app rnd counts nodes st2 Gen.GDownstream 2) as (ps3 & E3).
  set (st3 := Gen.groupStep rnd counts nodes st2 Gen.GDownstream 2) in *.
  destruct (groupStep_app rnd counts nodes st3 Gen.GMixed 3) as (ps4 & E4).
  rewrite E4, E3, E2, E1. simpl. now eexists.
Qed.

(** The non-mixed sources of a list whose first non-mixed source is [node]. *)
Lemma nodesByType_first g pre node rest :
  Forall (fun n => Gen.inGroup g n = false) pre -> Gen.inGroup g node = true ->
  Gen.nodesByType (pre ++ node :: rest) g = node :: Gen.nodesByType rest g.
Proof.
  intros Hpre Hnode. unfold Gen.nodesByType. rewrite filter_app. cbn [filter].
  rewrite Hnode.
  replace (filter (Gen.inGroup g) pre) with (@nil Gen.RawNode); [reflexivity|].
  induction Hpre as [|n pre Hn _ IH]; [reflexivity|]. cbn [filter]. now rewrite Hn.
Qed.

(** The first slot of the source column lies left of the canvas. *)
Lemma first_source_x counts n node r1 r2 :
  0 <= r1 < 1 -> Gen.p_x (layerPNode counts Gen.GSource n node 0 r1 r2) < 0.
Proof.
  intros Hr. cbn [layerPNode Gen.p_x].
  pose proof (jitter_range r1 Hr) as Hj.
  unfold Gen.xPosition, Gen.subColumnOf, Gen.columnPosition, Gen.subColumnWidth,
    Gen.width. cbn [Gen.subColumnCount].
  rewrite Nat.Div0.div_0_l.
  replace (INR (6 / 2)) with 3 by (simpl; lra).
  replace (INR 6) with 6 by (simpl; lra).
  change (INR 0) with 0. lra.
Qed.

(** X16. For random draws in [0, 1), [calculateNodePositions] puts every
    node in the column of its group: platforms at x = 1500 with y strictly
    between 360 and 2040, non-mixed sources at x between -122.5 and 835,
    mixed nodes between 590 and 1360, non-mixed downstreams between 1977.5
    and 2935; every y lies strictly between 0 and 2400.  So sources and mixed
    nodes are left of the platform column and downstreams right of it.  The
    first non-mixed source of the input, wherever it stands in the input, is
    the first node of the result and has a negative x; in the mock data,
    whose input starts with the four platforms, this is the node "s1". *)
Theorem positioned_in_columns :
  (forall rnd rc nodes links p,
      (forall k, 0 <= rnd k < 1) ->
      In p (Gen.calculateNodePositions rnd rc nodes links) ->
      placedInColumn p /\ 0 < Gen.p_y p < 2400)
  /\ (forall rnd rc pre node rest links,
        (forall k, 0 <= rnd k < 1) ->
        Forall (fun n => Gen.inGroup Gen.GSource n = false) pre ->
        Gen.inGroup Gen.GSource node = true ->
        exists p ps,
          Gen.calculateNodePositions rnd rc (pre ++ node :: rest) links = p :: ps
          /\ Gen.raw p = node /\ Gen.p_x p < 0)
  /\ (forall rnd,
        (forall k, 0 <= rnd k < 1) ->
        exists p ps,
          Gen.m_nodes (Gen.generateMockData rnd) = p :: ps
          /\ pid p = "s1" /\ Gen.p_x p < 0).
Proof.
  assert (Hfirst : forall rnd rc pre node rest links,
             (forall k, 0 <= rnd k < 1) ->
             Forall (fun n => Gen.inGroup Gen.GSource n = false) pre ->
             Gen.inGroup Gen.GSource node = true ->
             exists p ps,
               Gen.calculateNodePositions rnd rc (pre ++ node :: rest) links = p :: ps
               /\ Gen.raw p = node /\ Gen.p_x p < 0).
  { intros rnd rc pre node rest links Hrnd Hpre Hg.
    destruct (first_source_first rnd rc (pre ++ node :: rest) links node
                (Gen.nodesByType rest Gen.GSource)
                (nodesByType_first Gen.GSource pre node rest Hpre Hg)) as (ps & E).
    eexists. exists ps. split; [exact E|]. split; [reflexivity|].
    now apply first_source_x. }
  split; [|split; [exact Hfirst|]].
  - intros rnd rc nodes links p Hrnd Hp.
    pose proof (proj1 (Forall_forall _ _) (positioned_columns rnd rc nodes links Hrnd) p Hp)
      as H.
    split; [exact H|]. destruct H as (g & _ & H). destruct g; simpl in H; lra.
  - intros rnd Hrnd. unfold Gen.generateMockData. cbv zeta. cbn [Gen.m_nodes].
    set (s1 := Gen.mockNode rnd 0 "s" "Source" Gen.sourceTypes None 1).
    set (rest := map (Gen.mockNode rnd 0 "s" "Source" Gen.sourceTypes None) (seq 2 149)
                 ++ Gen.mockNodes rnd 150 "d" "Downstream" Gen.downstreamTypes None 150
                 ++ Gen.mockNodes rnd 300 "m" "Source" Gen.mixedTypes (Some true) 10).
    change (Gen.dataPlatforms
            ++ Gen.mockNodes rnd 0 "s" "Source" Gen.sourceTypes None 150
            ++ Gen.mockNodes rnd 150 "d" "Downstream" Gen.downstreamTypes None 150
            ++ Gen.mockNodes rnd 300 "m" "Source" Gen.mixedTypes (Some true) 10)
      with (Gen.dataPlatforms ++ s1 :: rest).
    match goal with
    | |- exists p ps, Gen.calculateNodePositions rnd 310 _ ?ls = _ /\ _ =>
        destruct (Hfirst rnd 310%nat Gen.dataPlatforms s1 rest ls Hrnd) as (p & ps & E & Hraw & Hx)
    end.
    + repeat constructor.
    + reflexivity.
    + exists p, ps. split; [exact E|]. split; [|exact Hx].
      unfold pid. now rewrite Hraw.
Qed.

Lemma positioned_in_columns_witness :
  exists p ps,
    Gen.calculateNodePositions noRandom 0
      [rawNode "dp" "DataPlatform" None; rawNode "m" "Source" (Some true);
       rawNode "s" "Source" None; rawNode "d" "Downstream" None] []
    = p :: ps
    /\ Gen.raw p = rawNode "s" "Source" None /\ Gen.p_x p < 0.
Proof.
  destruct positioned_in_columns as (_ & Hfirst & _).
  apply (Hfirst noRandom 0%nat
           [rawNode "dp" "DataPlatform" None; rawNode "m" "Source" (Some true)]
           (rawNode "s" "Source" None) [rawNode "d" "Downstream" None] []).
  - intros k. unfold noRandom. lra.
  - repeat constructor.
  - reflexivity.
Defined.

(** ** The mock data *)

Lemma distinct_NoDup l : distinct l = true -> NoDup l.
Proof.
  induction l as [|x l IH]; simpl; intros H; [constructor|].
  apply andb_true_iff in H. destruct H as [Hx Hl]. constructor; [|now apply IH].
  intros Hin. apply negb_true_iff in Hx.
  assert (E : existsb (String.eqb x) l = true).
  { apply existsb_exists. exists x. split; [exact Hin | apply String.eqb_refl]. }
  congruence.
Qed.

Lemma linkInsideb_spec ids l : linkInsideb ids l = true -> linkInside ids l.
Proof.
  unfold linkInsideb, linkInside. intros H. apply andb_true_iff in H.
  destruct H as [Hs Ht]. apply existsb_exists in Hs. apply existsb_exists in Ht.
  destruct Hs as (a & Ha & Ea). destruct Ht as (b & Hb & Eb).
  apply String.eqb_eq in Ea. apply String.eqb_eq in Eb. now subst.
Qed.

Lemma forallb_Forall {A : Type} (f : A -> bool) (P : A -> Prop) l :
  (forall a, f a = true -> P a) -> forallb f l = true -> Forall P l.
Proof.
  intros Hf H. apply Forall_forall. intros a Ha.
  apply Hf. rewrite forallb_forall in H. now apply H.
Qed.

Lemma mock_ids rnd : map pid (Gen.m_nodes (Gen.generateMockData rnd)) = mockIds.
Proof. reflexivity. Qed.

Lemma mock_links_inside rnd :
  Forall (linkInside mockIds) (Gen.m_links (Gen.generateMockData rnd)).
Proof.
  apply (forallb_Forall (linkInsideb mockIds)); [apply linkInsideb_spec|].
  reflexivity.
Qed.

Lemma mockTypeOk_spec p : mockTypeOk p = true -> oneGroup (Gen.raw p).
Proof.
  unfold mockTypeOk, oneGroup.
  destruct (groupsOf (Gen.raw p)) as [|g [|g' l]]; [discriminate | reflexivity | discriminate].
Qed.

Lemma mock_types rnd :
  Forall (fun p => oneGroup (Gen.raw p)) (Gen.m_nodes (Gen.generateMockData rnd)).
Proof. apply (forallb_Forall mockTypeOk); [apply mockTypeOk_spec | reflexivity]. Qed.

Lemma mock_counts rnd :
  Forall (fun p => mockCountOk p = true) (Gen.m_nodes (Gen.generateMockData rnd)).
Proof. apply (forallb_Forall (fun p => mockCountOk p)); [auto | reflexivity]. Qed.

Lemma mock_total rnd : totalConnections (Gen.m_nodes (Gen.generateMockData rnd)) = 752%Z.
Proof.
  assert (Hnd : NoDup mockIds) by (apply distinct_NoDup; vm_compute; reflexivity).
  unfold totalConnections.
  replace (map Gen.connectionCount (Gen.m_nodes (Gen.generateMockData rnd)))
    with (map (fun i => degree i (Gen.m_links (Gen.generateMockData rnd)))
            (map pid (Gen.m_nodes (Gen.generateMockData rnd)))).
  - rewrite mock_ids, (degree_sum mockIds _ Hnd (mock_links_inside rnd)). reflexivity.
  - rewrite map_map. apply map_ext_in. intros p Hp. symmetry.
    unfold Gen.generateMockData in Hp. cbv zeta in Hp. cbn [Gen.m_nodes] in Hp.
    pose proof (proj1 (Forall_forall _ _) (positioned_degree _ _ _ _) p Hp) as H.
    rewrite H. reflexivity.
Qed.

(** X17. Whatever the random draws, [generateMockData] returns 314 nodes
    with distinct ids, in the order s1..s150, dp1..dp4, d1..d150, m1..m10,
    each in exactly one group, and 376 links that all join two of these
    nodes.  The four platforms have 92, 95 or 98 connections, every other
    node has one or two, and the counts add up to 752. *)
Theorem mock_data_shape :
  forall rnd,
    let d := Gen.generateMockData rnd in
    map pid (Gen.m_nodes d) = mockIds
    /\ List.length (Gen.m_nodes d) = 314%nat
    /\ NoDup (map pid (Gen.m_nodes d))
    /\ Forall (fun p => oneGroup (Gen.raw p)) (Gen.m_nodes d)
    /\ List.length (Gen.m_links d) = 376%nat
    /\ Forall (linkInside (map pid (Gen.m_nodes d))) (Gen.m_links d)
    /\ Forall (fun p => mockCountOk p = true) (Gen.m_nodes d)
    /\ totalConnections (Gen.m_nodes d) = 752%Z.
Proof.
  intros rnd d.
  assert (Hids : map pid (Gen.m_nodes d) = mockIds) by apply mock_ids.
  assert (Hnd : NoDup mockIds) by (apply distinct_NoDup; vm_compute; reflexivity).
  assert (Hin : Forall (linkInside mockIds) (Gen.m_links d)) by apply mock_links_inside.
  split; [exact Hids|]. split; [reflexivity|]. split; [now rewrite Hids|].
  split; [apply mock_types|].
  split; [reflexivity|]. split; [now rewrite Hids|].
  split; [apply mock_counts|].
  apply mock_total.
Qed.

(** * Properties of the component *)

(** ** Node sizes of the traditional layout *)

Lemma ln_15_pos : 0 < ln 1.5.
Proof. rewrite <- ln_1. apply ln_increasing; lra. Qed.

Lemma ln_mono a b : 0 < a -> a <= b -> ln a <= ln b.
Proof.
  intros Ha [Hab| ->]; [left; now apply ln_increasing | lra].
Qed.

Lemma logScale_mono a b : 0 < a -> a <= b -> ln a / ln 1.5 <= ln b / ln 1.5.
Proof.
  intros Ha Hab. apply Rmult_le_compat_r.
  - left. apply Rinv_0_lt_compat, ln_15_pos.
  - now apply ln_mono.
Qed.

Lemma size_clamp_mono a b : a <= b -> Rmax 8 (Rmin 25 a) <= Rmax 8 (Rmin 25 b).
Proof. intros H. apply Rle_max_compat_l, Rle_min_compat_l, H. Qed.

Lemma effective_count c :
  (0 <= c)%Z -> (1 <= (if (c =? 0)%Z then 1 else c))%Z.
Proof. intros H. destruct (Z.eqb_spec c 0); lia. Qed.

Lemma getNodeSize_entity p :
  isPlatformType p = false ->
  Component.getNodeSize (Some p)
  = Rmax 8 (Rmin 25
              (8 + ln (IZR (if (Gen.connectionCount p =? 0)%Z then 1
                            else Gen.connectionCount p) + 1) / ln 1.5 * 2)).
Proof. unfold isPlatformType, Component.getNodeSize. now intros ->. Qed.

(** 1.5 ^ 17 < 32 ^ 2, so the logarithmic scale of 31 connections or more
    reaches the cap. *)
Lemma logScale_cap x : 32 <= x -> 8.5 <= ln x / ln 1.5.
Proof.
  intros Hx. pose proof ln_15_pos as Hpos.
  assert (H17 : 17 * ln 1.5 <= 2 * ln 32).
  { replace (17 * ln 1.5) with (INR 17 * ln 1.5) by (simpl; lra).
    replace (2 * ln 32) with (INR 2 * ln 32) by (simpl; lra).
    rewrite <- !ln_pow by lra. apply ln_mono; [apply pow_lt; lra | simpl; lra]. }
  assert (H32 : ln 32 <= ln x) by (apply ln_mono; lra).
  apply Rmult_le_reg_r with (ln 1.5); [exact Hpos|].
  unfold Rdiv. rewrite Rmult_assoc, Rinv_l by lra. lra.
Qed.

Lemma getNodeSize_range p :
  isPlatformType p = false -> 8 <= Component.getNodeSize (Some p) <= 25.
Proof. intros Hp. rewrite (getNodeSize_entity p Hp). apply clamp_range'. lra. Qed.

Lemma getNodeSize_ge_10 p :
  isPlatformType p = false -> (0 <= Gen.connectionCount p)%Z ->
  10 <= Component.getNodeSize (Some p).
Proof.
  intros Hp H0. rewrite (getNodeSize_entity p Hp).
  pose proof (effective_count _ H0) as H1. apply IZR_le in H1.
  set (c := IZR (if (Gen.connectionCount p =? 0)%Z then 1 else Gen.connectionCount p))
    in *.
  assert (Hl : 1 <= ln (c + 1) / ln 1.5).
  { pose proof ln_15_pos as Hpos.
    assert (H2 : ln 1.5 <= ln (c + 1)) by (apply ln_mono; lra).
    apply Rmult_le_reg_r with (ln 1.5); [exact Hpos|].
    unfold Rdiv. rewrite Rmult_assoc, Rinv_l by lra. lra. }
  eapply Rle_trans; [|apply Rmax_r]. apply Rmin_glb; lra.
Qed.

Lemma getNodeSize_platform p :
  isPlatformType p = true -> Component.getNodeSize (Some p) = 50.
Proof. intros Hp. unfold isPlatformType in Hp. unfold Component.getNodeSize. now rewrite Hp. Qed.

(** X18. [getNodeSize] gives 10 for a missing node and 50 for a platform.
    For any other node whose connection count is not negative the size lies
    between 10 and 25, grows with the connection count, is the same for 0
    and for 1 connection, and is 25 from 31 connections on.  (For a count of
    -2 or less [Math.log] and the size are [NaN].) *)
Theorem node_size_scale :
  Component.getNodeSize None = 10
  /\ (forall p, isPlatformType p = true -> Component.getNodeSize (Some p) = 50)
  /\ (forall p, isPlatformType p = false -> (0 <= Gen.connectionCount p)%Z ->
                10 <= Component.getNodeSize (Some p) <= 25)
  /\ (forall p q,
        isPlatformType p = false -> isPlatformType q = false ->
        (0 <= Gen.connectionCount p <= Gen.connectionCount q)%Z ->
        Component.getNodeSize (Some p) <= Component.getNodeSize (Some q))
  /\ (forall t, Component.getNodeSize (Some (sizedNode t 0))
                = Component.getNodeSize (Some (sizedNode t 1)))
  /\ (forall p, isPlatformType p = false -> (31 <= Gen.connectionCount p)%Z ->
                Component.getNodeSize (Some p) = 25).
Proof.
  split; [reflexivity|]. split; [|split; [|split; [|split]]].
  - exact getNodeSize_platform.
  - intros p Hp H0. split; [now apply getNodeSize_ge_10|].
    now apply getNodeSize_range.
  - intros p q Hp Hq [H0 Hle].
    rewrite (getNodeSize_entity p Hp), (getNodeSize_entity q Hq).
    apply size_clamp_mono.
    pose proof (effective_count _ H0) as H1.
    assert (Hc : ((if (Gen.connectionCount p =? 0)%Z then 1 else Gen.connectionCount p)
                  <= (if (Gen.connectionCount q =? 0)%Z then 1 else Gen.connectionCount q))%Z).
    { destruct (Z.eqb_spec (Gen.connectionCount p) 0), (Z.eqb_spec (Gen.connectionCount q) 0);
        lia. }
    apply IZR_le in H1. apply IZR_le in Hc.
    set (a := IZR (if (Gen.connectionCount p =? 0)%Z then 1 else Gen.connectionCount p)) in *.
    set (b := IZR (if (Gen.connectionCount q =? 0)%Z then 1 else Gen.connectionCount q)) in *.
    assert (Hm : ln (a + 1) / ln 1.5 <= ln (b + 1) / ln 1.5)
      by (apply logScale_mono; lra).
    lra.
  - intros t. reflexivity.
  - intros p Hp H31. rewrite (getNodeSize_entity p Hp).
    destruct (Z.eqb_spec (Gen.connectionCount p) 0) as [E|_]; [lia|].
    apply IZR_le in H31.
    pose proof (logScale_cap (IZR (Gen.connectionCount p) + 1) ltac:(lra)) as Hcap.
    rewrite Rmin_left by lra. apply Rmax_right. lra.
Qed.

Lemma node_size_scale_witness :
  Component.getNodeSize (Some (sizedNode "Source" 40)) = 25
  /\ 10 <= Component.getNodeSize (Some (sizedNode "Source" 2)) <= 25.
Proof.
  destruct node_size_scale as (_ & _ & Hrange & _ & _ & Hcap).
  split.
  - apply (Hcap (sizedNode "Source" 40)); [reflexivity | simpl; lia].
  - apply (Hrange (sizedNode "Source" 2)); [reflexivity | simpl; lia].
Defined.

(** ** The hover state *)

Lemma nodeUnder_nonempty params i : Component.nodeUnder params = Some i -> i <> "".
Proof.
  unfold Component.nodeUnder. destruct params as [p|]; [|discriminate].
  destruct (Component.p_data p) as [d|]; [|discriminate].
  destruct (_ =? _)%string; [|discriminate]. simpl.
  destruct (Component.d_id d) as [[|c s]|]; simpl; try discriminate.
  intros H. injection H as <-. discriminate.
Qed.

Lemma onChartEvent_nonempty h e :
  (forall s, h = Some s -> s <> "") ->
  forall s, Component.onChartEvent h e = Some s -> s <> "".
Proof.
  intros Hh s. destruct e as [params| |params]; simpl.
  - destruct (Component.nodeUnder params) as [i|] eqn:E; [|apply Hh].
    intros H. injection H as <-. now apply (nodeUnder_nonempty params).
  - discriminate.
  - destruct (Component.nodeUnder params) as [i|] eqn:E; [|discriminate].
    destruct (Chart.isHovered h i); [discriminate|].
    intros H. injection H as <-. now apply (nodeUnder_nonempty params).
Qed.

Lemma hoveredAfter_nonempty events : forall s,
  Component.hoveredAfter events = Some s -> s <> "".
Proof.
  unfold Component.hoveredAfter.
  assert (H : forall h, (forall s, h = Some s -> s <> "") ->
                        forall s, fold_left Component.onChartEvent events h = Some s ->
                                  s <> "").
  { induction events as [|e events IH]; intros h Hh s; simpl; [apply Hh|].
    apply IH. now apply onChartEvent_nonempty. }
  apply H. discriminate.
Qed.

Lemma hoveredAfter_snoc events e :
  Component.hoveredAfter (events ++ [e])
  = Component.onChartEvent (Component.hoveredAfter events) e.
Proof. unfold Component.hoveredAfter. now rewrite fold_left_app. Qed.

Lemma nodeUnder_onNode i : i <> "" -> Component.nodeUnder (onNode i) = Some i.
Proof. destruct i; [congruence | reflexivity]. Qed.

Lemma isHovered_refl i : Chart.isHovered (Some i) i = true.
Proof. apply String.eqb_refl. Qed.

(** X19. The hover state after any sequence of chart events is [null] or a
    non-empty id, so the highlight treats it as a hover exactly when it is
    not [null].  A mouseout clears it; a mouseover on a node sets it, and a
    mouseover on anything else leaves it as it is; a click on the node that
    is hovered clears it (so hovering a node and then clicking it removes the
    highlight), a click on another node moves it, and a click elsewhere
    clears it. *)
Theorem hover_state_machine :
  (forall events,
      (forall s, Component.hoveredAfter events = Some s -> s <> "")
      /\ (Chart.hovered (Component.hoveredAfter events) = true
          <-> Component.hoveredAfter events <> None))
  /\ (forall events, Component.hoveredAfter (events ++ [Component.MouseOut]) = None)
  /\ (forall events i,
        i <> "" ->
        Component.hoveredAfter (events ++ [Component.MouseOver (onNode i)]) = Some i
        /\ Component.hoveredAfter
             (events ++ [Component.MouseOver (onNode i); Component.Click (onNode i)])
           = None)
  /\ (forall events params,
        Component.nodeUnder params = None ->
        Component.hoveredAfter (events ++ [Component.MouseOver params])
        = Component.hoveredAfter events
        /\ Component.hoveredAfter (events ++ [Component.Click params]) = None)
  /\ (forall h i,
        i <> "" -> h <> Some i ->
        Component.onChartEvent h (Component.Click (onNode i)) = Some i).
Proof.
  split; [|split; [|split; [|split]]].
  - intros events. split; [apply hoveredAfter_nonempty|].
    pose proof (hoveredAfter_nonempty events) as H.
    destruct (Component.hoveredAfter events) as [s|]; simpl.
    + split; [discriminate|]. intros _. specialize (H s eq_refl). now destruct s.
    + split; [discriminate | congruence].
  - intros events. now rewrite hoveredAfter_snoc.
  - intros events i Hi. split.
    + rewrite hoveredAfter_snoc. cbn [Component.onChartEvent].
      now rewrite (nodeUnder_onNode i Hi).
    + replace (events ++ [Component.MouseOver (onNode i); Component.Click (onNode i)])
        with ((events ++ [Component.MouseOver (onNode i)]) ++ [Component.Click (onNode i)])
        by now rewrite <- app_assoc.
      rewrite !hoveredAfter_snoc. cbn [Component.onChartEvent].
      rewrite (nodeUnder_onNode i Hi). now rewrite isHovered_refl.
  - intros events params Hp. rewrite !hoveredAfter_snoc. cbn [Component.onChartEvent].
    now rewrite Hp.
  - intros h i Hi Hh. cbn [Component.onChartEvent]. rewrite (nodeUnder_onNode i Hi).
    destruct h as [s|]; simpl; [|reflexivity].
    destruct (String.eqb_spec s i); [congruence | reflexivity].
Qed.

Lemma hover_state_machine_witness :
  Component.hoveredAfter
    ([Component.Click (onNode "a")]
     ++ [Component.MouseOver (onNode "dp1"); Component.Click (onNode "dp1")])
  = None.
Proof.
  apply (proj1 (proj2 (proj2 hover_state_machine)) [Component.Click (onNode "a")] "dp1").
  discriminate.
Defined.

(** ** [getOption] *)

Lemma getOption_guard_false (gd : option Gen.MockData) (src : list SourceRow) :
  gd <> None \/ src <> [] ->
  match gd with None => true | Some _ => false end && (List.length src =? 0)%nat = false.
Proof.
  intros [H|H].
  - destruct gd; [reflexivity | congruence].
  - destruct src; [congruence|]. apply andb_false_r.
Qed.

(** X20. [getOption] returns the empty object when there is neither mock
    data nor a source record, whatever the downstream records are.
    Otherwise the circular layout always gives the highlighted circular
    graph; the Venn layout gives the highlighted Venn graph when every record
    has a [data_platform] field and the empty object when one lacks it (the
    error is swallowed); any other layout name shows the mock data, with the
    hover applied to the nodes and every link returned without a line
    style, and ignores the records. *)
Theorem get_option_by_layout :
  (forall ds layout h rnd,
      Component.getOption None [] ds layout h rnd = Component.EmptyOptions)
  /\ (forall gd src ds h rnd,
        gd <> None \/ src <> [] ->
        exists g',
          Component.getOption gd src ds "circular" h rnd = Component.GraphOptions g'
          /\ Chart.getChartOptions (Some (Main.getMainGraphData src ds defaultColorMap)) h
             = Some g')
  /\ (forall gd src ds h rnd,
        gd <> None \/ src <> [] ->
        (allPresent src ds ->
         exists g g',
           Venn.getVennNetworkLayout src ds defaultColorMap rnd = Ok g
           /\ Component.getOption gd src ds "venn" h rnd = Component.GraphOptions g'
           /\ Chart.getChartOptions (Some g) h = Some g')
        /\ (~ allPresent src ds ->
            Component.getOption gd src ds "venn" h rnd = Component.EmptyOptions))
  /\ (forall gd src ds layout h rnd,
        layout <> "circular" -> layout <> "venn" ->
        Component.getOption gd src ds layout h rnd
        = match gd with
          | Some d => Component.mockChartOptions d h
          | None => Component.EmptyOptions
          end)
  /\ (forall d h data links,
        Component.mockChartOptions d h = Component.MockOptions data links ->
        map Component.sh_node data = Gen.m_nodes d
        /\ map Component.sh_link links = Gen.m_links d
        /\ Forall (fun l => Component.sh_width l = None
                            /\ Component.sh_lineOpacity l = None) links).
Proof.
  split; [reflexivity|]. split; [|split; [|split]].
  - intros gd src ds h rnd Hg. eexists. unfold Component.getOption.
    rewrite (getOption_guard_false gd src Hg). split; reflexivity.
  - intros gd src ds h rnd Hg. unfold Component.getOption.
    rewrite (getOption_guard_false gd src Hg). cbn [String.eqb Ascii.eqb Bool.eqb].
    split.
    + intros Hp. destruct (Venn_Ok_of_present src ds defaultColorMap rnd Hp) as (g & Hok).
      exists g. eexists. rewrite Hok. repeat split.
    + intros Hn.
      destruct (Venn.getVennNetworkLayout src ds defaultColorMap rnd) as [g|e] eqn:E;
        [|reflexivity].
      elim Hn. exact (Venn_Ok_platforms src ds defaultColorMap rnd g E).
  - intros gd src ds layout h rnd Hc Hv. unfold Component.getOption.
    apply String.eqb_neq in Hc. apply String.eqb_neq in Hv. rewrite Hc, Hv.
    destruct gd as [d|]; [reflexivity|]. simpl. now destruct (List.length src =? 0)%nat.
  - intros d h data links H. unfold Component.mockChartOptions in H.
    injection H as <- <-. rewrite !map_map. repeat split.
    + now rewrite map_id.
    + now rewrite map_id.
    + apply Forall_forall. intros l Hl. apply in_map_iff in Hl.
      destruct Hl as (l0 & <- & _). now split.
Qed.

Lemma get_option_by_layout_witness :
  Component.getOption None [srow None (Some "a") None] [] "venn" None noRandom
  = Component.EmptyOptions.
Proof.
  assert (Hg : @None Gen.MockData <> None \/ [srow None (Some "a") None] <> [])
    by (right; discriminate).
  destruct get_option_by_layout as (_ & _ & Hvenn & _).
  destruct (Hvenn None [srow None (Some "a") None] [] None noRandom Hg) as [_ H].
  apply H. intros [Hs _]. now apply (Hs (srow None (Some "a") None) (or_introl eq_refl)).
Defined.

(** ** The series of the traditional layout over the mock data *)

Lemma mockCountOk_nonneg p :
  mockCountOk p = true -> isPlatformType p = false -> (0 <= Gen.connectionCount p)%Z.
Proof.
  unfold mockCountOk, isPlatformType. intros H Hp. rewrite Hp in H.
  simpl in H. rewrite orb_false_r in H. apply orb_true_iff in H.
  destruct H as [H|H]; apply Z.eqb_eq in H; lia.
Qed.

Lemma series_nodes d h : map Component.sh_node (Component.seriesData d h) = Gen.m_nodes d.
Proof. unfold Component.seriesData. rewrite map_map. apply map_id. Qed.

Lemma series_links d h : map Component.sh_link (Component.seriesLinks d h) = Gen.m_links d.
Proof. unfold Component.seriesLinks. rewrite map_map. apply map_id. Qed.

Lemma series_sizes d h :
  Forall (fun p => mockCountOk p = true) (Gen.m_nodes d) ->
  Forall mockSizeOk (Component.seriesData d h).
Proof.
  intros Hc. apply Forall_forall. intros s Hs. unfold Component.seriesData in Hs.
  apply in_map_iff in Hs. destruct Hs as (p & <- & Hp).
  eexists. split; [reflexivity|]. cbn [Component.sh_node].
  destruct (isPlatformType p) eqn:Et; [now apply getNodeSize_platform|].
  split; [|now apply getNodeSize_range].
  apply getNodeSize_ge_10; [exact Et|].
  apply mockCountOk_nonneg; [|exact Et].
  exact (proj1 (Forall_forall _ _) Hc p Hp).
Qed.

Lemma series_colors d h :
  forallb (fun p => colorOk (pid p) (Some (Component.getNodeColor (Some p)))) (Gen.m_nodes d)
  = true ->
  Forall (fun s => mockColorOk s = true) (Component.seriesData d h).
Proof.
  intros Hc. apply Forall_forall. intros s Hs. unfold Component.seriesData in Hs.
  apply in_map_iff in Hs. destruct Hs as (p & <- & Hp).
  rewrite forallb_forall in Hc. exact (Hc p Hp).
Qed.

Lemma series_unhovered d h :
  Chart.hovered h = false ->
  Forall (fun s => Component.sh_opacity s = 1) (Component.seriesData d h)
  /\ Forall (fun l => Component.sh_width l = Some 1
                      /\ Component.sh_lineOpacity l = Some 0.3)
       (Component.seriesLinks d h).
Proof.
  intros Hh. split.
  - apply Forall_forall. intros s Hs. unfold Component.seriesData in Hs.
    apply in_map_iff in Hs. destruct Hs as (p & <- & _). cbn [Component.sh_opacity].
    unfold Component.nodeOpacity. destruct h; [now rewrite Hh | reflexivity].
  - apply Forall_forall. intros l Hl. unfold Component.seriesLinks in Hl.
    apply in_map_iff in Hl. destruct Hl as (l0 & <- & _). simpl. now rewrite Hh.
Qed.

Lemma mock_colors rnd :
  forallb (fun p => colorOk (pid p) (Some (Component.getNodeColor (Some p))))
    (Gen.m_nodes (Gen.generateMockData rnd)) = true.
Proof. reflexivity. Qed.

(** X21. For the mock data, whatever the random draws and the hover, the
    series the component builds shows the 314 nodes in order, a platform at
    size 50 and every other node at a size between 10 and 25, sources green,
    downstreams red, platforms blue and mixed nodes purple, and the 376
    links; without a hover every node has opacity 1 and every link width 1
    and opacity 0.3. *)
Theorem mock_series :
  forall rnd h,
    let d := Gen.generateMockData rnd in
    map Component.sh_node (Component.seriesData d h) = Gen.m_nodes d
    /\ Forall mockSizeOk (Component.seriesData d h)
    /\ Forall (fun s => mockColorOk s = true) (Component.seriesData d h)
    /\ map Component.sh_link (Component.seriesLinks d h) = Gen.m_links d
    /\ (Chart.hovered h = false ->
        Forall (fun s => Component.sh_opacity s = 1) (Component.seriesData d h)
        /\ Forall (fun l => Component.sh_width l = Some 1
                            /\ Component.sh_lineOpacity l = Some 0.3)
             (Component.seriesLinks d h)).
Proof.
  intros rnd h d. split; [apply series_nodes|]. split; [apply series_sizes, mock_counts|].
  split; [apply series_colors, mock_colors|]. split; [apply series_links|].
  apply series_unhovered.
Qed.

Lemma mock_series_witness :
  Forall (fun s => Component.sh_opacity s = 1)
    (Component.seriesData (Gen.generateMockData noRandom) None).
Proof.
  apply (proj2 (proj2 (proj2 (proj2 (mock_series noRandom None))))).
  reflexivity.
Defined.

(** ** The state of every key in closed form *)

Lemma bool_eq_iff (a b : bool) : (a = true <-> b = true) -> a = b.
Proof.
  destruct a, b; intros [H1 H2]; try reflexivity.
  - symmetry. now apply H1.
  - now apply H2.
Qed.

Lemma hasRole_other r k us :
  (forall u, In u us -> u_downstream u = negb r) -> hasRole r k us = false.
Proof.
  intros H. destruct (hasRole r k us) eqn:E; [|reflexivity].
  apply hasRole_In in E. destruct E as (u & Hin & _ & Hr).
  rewrite (H u Hin) in Hr. now destruct r.
Qed.

Lemma kfold_region k us : forall w,
  w = TUndefined \/ w = TNaN ->
  fold_left (kstep k) us (Some (dataplatform, w))
  = Some (dataplatform,
          if existsb (fun u => (u_key u =? k)%string) us then TNaN else w).
Proof.
  induction us as [|u us IH]; intros w Hw; [reflexivity|].
  cbn [fold_left existsb]. unfold kstep at 2.
  destruct (u_key u =? k)%string; cbn [orb].
  - destruct (u_downstream u); cbn [promoteType]; destruct Hw as [-> | ->];
      cbn [addTables]; rewrite IH by (now right); now destruct (existsb _ us).
  - now apply IH.
Qed.

Lemma kfold_sources k us :
  (forall u, In u us -> u_downstream u = false) ->
  (forall u, In u us -> u_key u = k -> u_creates u = true) ->
  fold_left (kstep k) us None
  = if hasRole false k us then Some (source, TNum (keySum k us)) else None.
Proof.
  induction us as [|u us IH]; intros Hr Hc; [reflexivity|].
  simpl fold_left. unfold kstep at 2. rewrite keySum_cons.
  unfold hasRole. simpl existsb. fold (hasRole false k us).
  rewrite (Hr u (or_introl eq_refl)). simpl Bool.eqb.
  destruct (String.eqb_spec (u_key u) k) as [E|E]; simpl.
  - rewrite (Hc u (or_introl eq_refl) E). simpl.
    rewrite kfold_Some.
    rewrite (hasRole_other true k us) by (intros u' Hu'; apply Hr; now right).
    reflexivity.
  - rewrite IH by (intros; (apply Hr || apply Hc); auto; now right).
    now destruct (hasRole false k us).
Qed.

Lemma kfold_downstreams k us :
  (forall u, In u us -> u_downstream u = true) ->
  (forall u, In u us -> u_key u = k -> u_creates u = true) ->
  fold_left (kstep k) us None
  = if hasRole true k us then Some (downstream, TNum (keySum k us)) else None.
Proof.
  induction us as [|u us IH]; intros Hr Hc; [reflexivity|].
  simpl fold_left. unfold kstep at 2. rewrite keySum_cons.
  unfold hasRole. simpl existsb. fold (hasRole true k us).
  rewrite (Hr u (or_introl eq_refl)). simpl Bool.eqb.
  destruct (String.eqb_spec (u_key u) k) as [E|E]; simpl.
  - rewrite (Hc u (or_introl eq_refl) E). simpl.
    rewrite kfold_Some. now destruct (hasRole true k us).
  - rewrite IH by (intros; (apply Hr || apply Hc); auto; now right).
    now destruct (hasRole true k us).
Qed.

(** Sources first, then downstreams, from an empty slot. *)
Lemma kfold_roles k A B :
  (forall u, In u A -> u_downstream u = false) ->
  (forall u, In u B -> u_downstream u = true) ->
  (forall u, In u (A ++ B) -> u_key u = k -> u_creates u = true) ->
  fold_left (kstep k) (A ++ B) None
  = if hasRole false k A then
      Some (if hasRole true k B then mixed else source, TNum (keySum k A + keySum k B))
    else if hasRole true k B then Some (downstream, TNum (keySum k B))
    else None.
Proof.
  intros HA HB Hc. rewrite fold_left_app.
  rewrite (kfold_sources k A HA) by (intros u Hu; apply Hc, in_or_app; now left).
  destruct (hasRole false k A).
  - rewrite kfold_Some. reflexivity.
  - apply kfold_downstreams; [exact HB|]. intros u Hu. apply Hc, in_or_app. now right.
Qed.

Lemma hasKey_exists us k :
  existsb (fun u => (u_key u =? k)%string) us = hasRole false k us || hasRole true k us.
Proof.
  unfold hasRole. induction us as [|u us IH]; [reflexivity|]. simpl. rewrite IH.
  destruct (u_key u =? k)%string, (u_downstream u); simpl;
    rewrite ?orb_true_r; reflexivity.
Qed.

(** The state of a key after sources then downstreams, from the platform
    nodes. *)
Lemma kfold_closed k A B rm :
  Forall isRegion rm ->
  (forall u, In u A -> u_downstream u = false) ->
  (forall u, In u B -> u_downstream u = true) ->
  (forall u, In u (A ++ B) -> u_key u = k -> u_creates u = true) ->
  fold_left (kstep k) (A ++ B) (lookKey k rm)
  = if nodeMap_has k rm then
      Some (dataplatform, if hasRole false k A || hasRole true k B then TNaN else TUndefined)
    else if hasRole false k A then
      Some (if hasRole true k B then mixed else source, TNum (keySum k A + keySum k B))
    else if hasRole true k B then Some (downstream, TNum (keySum k B))
    else None.
Proof.
  intros Hrm HA HB Hc. rewrite (lookKey_regions k rm Hrm).
  destruct (nodeMap_has k rm).
  - rewrite kfold_region by now left. rewrite hasKey_exists, !hasRole_app.
    rewrite (hasRole_other false k B) by (intros u Hu; now rewrite (HB u Hu)).
    rewrite (hasRole_other true k A) by (intros u Hu; now rewrite (HA u Hu)).
    now rewrite orb_false_r.
  - now apply kfold_roles.
Qed.

Lemma nodeMap_has_platforms k rm dps :
  map id rm = dps -> nodeMap_has k rm = existsb (String.eqb k) dps.
Proof.
  intros <-. apply bool_eq_iff. rewrite nodeMap_has_In, existsb_eqb_In. reflexivity.
Qed.

Lemma existsb_perm {A : Type} (f : A -> bool) l l' :
  Permutation l l' -> existsb f l = existsb f l'.
Proof.
  intros Hp. apply bool_eq_iff. rewrite !existsb_exists. split; intros (a & Ha & Hf);
    exists a; (split; [|exact Hf]).
  - exact (Permutation_in a Hp Ha).
  - exact (Permutation_in a (Permutation_sym Hp) Ha).
Qed.

Lemma hasRole_mainSources rm k src :
  hasRole false k (map (mainSourceUpsert rm) (sortSources src)) = hasSourceKey src k.
Proof.
  unfold hasSourceKey. rewrite (existsb_perm _ src (sortSources src) (sortBy_perm _ src)).
  unfold hasRole. induction (sortSources src) as [|row rows IH]; [reflexivity|].
  simpl. rewrite IH. now rewrite andb_true_r.
Qed.

Lemma hasRole_mainDownstreams rm k ds :
  hasRole true k (map (mainDownstreamUpsert rm) (sortDownstreams ds)) = hasDownstreamKey ds k.
Proof.
  unfold hasDownstreamKey.
  rewrite (existsb_perm _ ds (sortDownstreams ds) (sortBy_perm _ ds)).
  unfold hasRole. induction (sortDownstreams ds) as [|row rows IH]; [reflexivity|].
  simpl. rewrite IH. now rewrite andb_true_r.
Qed.

Lemma hasRole_vennSources dps src k :
  (forall row, In row src -> In (sourceGroupKey row) dps) ->
  hasRole false k (vennSourceUpserts dps src) = hasSourceKey src k.
Proof.
  intros Hd. apply bool_eq_iff. rewrite hasRole_In. unfold hasSourceKey.
  rewrite existsb_exists. split.
  - intros (u & Hu & Hk & _). apply In_vennSourceUpserts in Hu.
    destruct Hu as (row & Hrow & _ & ->). exists row. split; [exact Hrow|].
    now apply String.eqb_eq.
  - intros (row & Hrow & Hk). apply String.eqb_eq in Hk.
    exists (vennSourceUpsert row). split; [|now split].
    apply In_vennSourceUpserts. exists row. auto.
Qed.

Lemma hasRole_vennDownstreams dps ds k :
  (forall row, In row ds -> In (downstreamGroupKey row) dps) ->
  hasRole true k (vennDownstreamUpserts dps ds) = hasDownstreamKey ds k.
Proof.
  intros Hd. apply bool_eq_iff. rewrite hasRole_In. unfold hasDownstreamKey.
  rewrite existsb_exists. split.
  - intros (u & Hu & Hk & _). apply In_vennDownstreamUpserts in Hu.
    destruct Hu as (row & Hrow & _ & ->). exists row. split; [exact Hrow|].
    now apply String.eqb_eq.
  - intros (row & Hrow & Hk). apply String.eqb_eq in Hk.
    exists (vennDownstreamUpsert row). split; [|now split].
    apply In_vennDownstreamUpserts. exists row. auto.
Qed.

Lemma Main_keyState src ds cm k :
  allNamed src ds ->
  lookKey k (nodes (Main.getMainGraphData src ds cm)) = keyState src ds k.
Proof.
  intros [Hs Hd]. rewrite Main_lookKey. unfold mainUpserts. cbv zeta.
  set (rm := Main.platformNodes cm (collectPlatforms src ds)).
  rewrite (kfold_closed k _ _ rm).
  - rewrite (nodeMap_has_platforms k rm (collectPlatforms src ds))
      by (apply Main_platformNodes_ids, collectPlatforms_NoDup).
    rewrite hasRole_mainSources, hasRole_mainDownstreams,
      keySum_mainSource, keySum_mainDownstream.
    unfold keyState, isPlatformKey.
    destruct (existsb _ (collectPlatforms src ds)); [reflexivity|].
    destruct (hasSourceKey src k); [reflexivity|].
    reflexivity.
  - apply Main_platformNodes_region, collectPlatforms_NoDup.
  - intros u Hu. apply in_map_iff in Hu. now destruct Hu as (row & <- & _).
  - intros u Hu. apply in_map_iff in Hu. now destruct Hu as (row & <- & _).
  - intros u Hu _. apply in_app_or in Hu.
    destruct Hu as [Hu|Hu]; apply in_map_iff in Hu; destruct Hu as (row & <- & Hrow);
      apply sortBy_In in Hrow.
    + apply mainSourceUpsert_creates; auto.
    + apply mainDownstreamUpsert_creates; auto.
Qed.

Lemma Venn_keyState src ds cm rnd g k :
  allNamed src ds ->
  Venn.getVennNetworkLayout src ds cm rnd = Ok g ->
  lookKey k (nodes g) = keyState src ds k.
Proof.
  intros [Hs Hd] Hok. apply Venn_unfold in Hok.
  destruct Hok as (counts & conns & _ & _ & Hn & _). cbv zeta in Hn. rewrite Hn.
  set (dps := Venn.sortPlatforms (collectPlatforms src ds)).
  set (rm := Venn.platformNodes cm counts dps).
  assert (Hsd : forall row, In row src -> In (sourceGroupKey row) dps)
    by (intros row Hrow; apply sourceGroupKey_sorted; auto).
  assert (Hdd : forall row, In row ds -> In (downstreamGroupKey row) dps)
    by (intros row Hrow; apply downstreamGroupKey_sorted; auto).
  rewrite (Venn_entityLoops_lookKey cm rnd dps rm)
    by (apply Venn_platformNodes_ids || apply sortPlatforms_NoDup).
  rewrite (kfold_closed k _ _ rm).
  - rewrite (nodeMap_has_platforms k rm dps) by apply Venn_platformNodes_ids.
    rewrite (hasRole_vennSources dps src k Hsd), (hasRole_vennDownstreams dps ds k Hdd).
    rewrite (keySum_vennSource k dps src (sortPlatforms_NoDup src ds))
      by (intros row Hrow _; now apply Hsd).
    rewrite (keySum_vennDownstream k dps ds (sortPlatforms_NoDup src ds))
      by (intros row Hrow _; now apply Hdd).
    unfold keyState, isPlatformKey.
    rewrite (existsb_perm (String.eqb k) (collectPlatforms src ds) dps (sortBy_perm _ _)).
    destruct (existsb _ dps); [reflexivity|].
    destruct (hasSourceKey src k); reflexivity.
  - apply Venn_platformNodes_region.
  - intros u Hu. apply In_vennSourceUpserts in Hu. now destruct Hu as (row & _ & _ & ->).
  - intros u Hu. apply In_vennDownstreamUpserts in Hu. now destruct Hu as (row & _ & _ & ->).
  - intros u Hu _. apply in_app_or in Hu. destruct Hu as [Hu|Hu].
    + apply In_vennSourceUpserts in Hu. now destruct Hu as (row & _ & _ & ->).
    + apply In_vennDownstreamUpserts in Hu. now destruct Hu as (row & _ & _ & ->).
Qed.

(** X22. When every record names its platform, the type and the table count
    stored under every key are a function of the records alone, the same for
    both builders: a platform name keeps its platform node, whose [tables]
    is [NaN] as soon as a record has that key and is absent otherwise; any
    other key has a node exactly when a record has it, a source (mixed when a
    downstream record has the key too) or a downstream, with the sum of the
    table counts of its records.  So the two builders agree on the id, the
    type and the table count of every node. *)
Theorem node_state_closed_form :
  (forall src ds cm k,
      allNamed src ds ->
      lookKey k (nodes (Main.getMainGraphData src ds cm)) = keyState src ds k)
  /\ (forall src ds cm rnd g k,
        allNamed src ds ->
        Venn.getVennNetworkLayout src ds cm rnd = Ok g ->
        lookKey k (nodes g) = keyState src ds k)
  /\ (forall src ds cm cm' rnd g k,
        allNamed src ds ->
        Venn.getVennNetworkLayout src ds cm rnd = Ok g ->
        lookKey k (nodes g) = lookKey k (nodes (Main.getMainGraphData src ds cm')))
  /\ (forall cm,
        map (fun n => (id n, type n, tables n))
          (nodes (Main.getMainGraphData lakeOnLake [] cm))
        = [("lake", dataplatform, TNaN)]
        /\ map linkTriple (links (Main.getMainGraphData lakeOnLake [] cm))
           = [(EpId "lake", EpId "lake", 5%Z)]).
Proof.
  split; [exact Main_keyState|]. split; [exact Venn_keyState|]. split.
  - intros src ds cm cm' rnd g k Hn Hok.
    now rewrite (Venn_keyState src ds cm rnd g k Hn Hok), Main_keyState.
  - intros cm. split; reflexivity.
Qed.

Lemma node_state_closed_form_witness :
  lookKey "crm" (nodes (Main.getMainGraphData twoApps oneConsumer defaultColorMap))
  = keyState twoApps oneConsumer "crm".
Proof.
  apply (proj1 node_state_closed_form twoApps oneConsumer defaultColorMap "crm").
  split; intros row Hrow; simpl in Hrow;
    repeat (destruct Hrow as [<-|Hrow]; [reflexivity|]); contradiction.
Defined.

(** ** The mixed flag, and the platform ring of the Venn layout *)

Lemma flagMatchesType_stable : updateStable flagMatchesType.
Proof.
  split.
  - intros c n H. exact H.
  - intros col n H. unfold promoteMixed, flagMatchesType in *.
    destruct (type n) eqn:Et; try (rewrite Et; exact H). reflexivity.
Qed.

(** X23. In every node of a built graph the [isMixed] flag agrees with the
    type: it is absent on a platform, true on a mixed node and false on a
    source or a downstream. *)
Theorem mixed_flag_matches_type :
  forall g n, built g -> In n (nodes g) -> flagMatchesType n.
Proof.
  intros g n Hb Hn.
  assert (H : Forall flagMatchesType (nodes g)).
  { destruct Hb as [(src & ds & cm & ->)|(src & ds & cm & rnd & Hok)].
    - apply Main_nodes_Forall.
      + apply flagMatchesType_stable.
      + apply Main_platformNodes_Forall. reflexivity.
      + reflexivity.
      + reflexivity.
    - apply (Venn_nodes_Forall _ src ds cm rnd) with (g := g); [| | |exact Hok|].
      + apply flagMatchesType_stable.
      + reflexivity.
      + reflexivity.
      + intros counts. apply Venn_platformNodes_Forall. reflexivity. }
  exact (proj1 (Forall_forall _ _) H n Hn).
Qed.

Lemma mixed_flag_matches_type_witness :
  flagMatchesType
    (nth 1 (nodes (Main.getMainGraphData smallThenLarge [] defaultColorMap)) someNode).
Proof.
  apply (mixed_flag_matches_type (Main.getMainGraphData smallThenLarge [] defaultColorMap)).
  - left. now exists smallThenLarge, [], defaultColorMap.
  - right. left. reflexivity.
Defined.

(** *** Platform counts *)

Lemma countStep_count p o m m' :
  Venn.countStep o m = Ok m' ->
  orZero (aget p m') = (orZero (aget p m) + if onPlatform p o then 1 else 0)%Z.
Proof.
  unfold Venn.countStep, onPlatform. destruct o as [s|]; simpl; [|discriminate].
  intros H. injection H as <-. rewrite aget_aset.
  destruct (String.eqb_spec (toLowerCase s) p) as [->|Hne]; [|lia].
  destruct (aget p m); simpl; lia.
Qed.

Lemma forEachM_count {A : Type} (get : A -> option string) p l : forall m m',
  Venn.forEachM (fun m e => Venn.countStep (get e) m) l m = Ok m' ->
  orZero (aget p m')
  = (orZero (aget p m)
     + Z.of_nat (List.length (filter (fun e => onPlatform p (get e)) l)))%Z.
Proof.
  induction l as [|e l IH]; intros m m' H; simpl in *.
  - injection H as <-. lia.
  - destruct (Venn.countStep (get e) m) as [m1|] eqn:E; simpl in H; [|discriminate].
    rewrite (IH m1 m' H), (countStep_count p _ m m1 E).
    destruct (onPlatform p (get e)); simpl List.length; lia.
Qed.

Lemma platformConnectionCounts_count src ds counts p :
  Venn.platformConnectionCounts src ds = Ok counts ->
  orZero (aget p counts) = recordsOn p src ds.
Proof.
  unfold Venn.platformConnectionCounts, recordsOn.
  destruct (Venn.forEachM (fun m e => Venn.countStep (s_data_platform e) m) src [])
    as [m1|] eqn:E1; simpl; [|discriminate].
  intros E2.
  rewrite (forEachM_count d_data_platform p ds m1 counts E2).
  rewrite (forEachM_count s_data_platform p src [] m1 E1). reflexivity.
Qed.

Lemma vennPlatformRadius_count counts dp i :
  vennPlatformRadius counts dp i = platformRadiusOf (orZero (aget dp counts)) i.
Proof.
  unfold vennPlatformRadius, platformRadiusOf. cbv zeta. rewrite Venn_dpRadius_value.
  now destruct (aget dp counts).
Qed.

(** The platform nodes keep their place at the head of the node list. *)
Lemma nodePlace_stable f k ns :
  (forall n, nodePlace (f n) = nodePlace n) ->
  map nodePlace (updateNode k f ns) = map nodePlace ns.
Proof.
  intros Hf. unfold updateNode. rewrite map_map. apply map_ext. intros n.
  now destruct (id n =? k)%string.
Qed.

Lemma upsert_places col isDs key count fresh ns :
  exists rest,
    map nodePlace (upsert col isDs key count fresh ns) = map nodePlace ns ++ rest.
Proof.
  unfold upsert. destruct (nodeMap_has key ns).
  - exists []. rewrite app_nil_r. apply nodePlace_stable. intros n.
    destruct isDs; [|reflexivity]. unfold promoteMixed. simpl.
    now destruct (type n).
  - destruct fresh as [n|]; [exists [nodePlace n]; now rewrite map_app|].
    exists []. now rewrite app_nil_r.
Qed.

Lemma Venn_places src ds cm rnd g :
  Venn.getVennNetworkLayout src ds cm rnd = Ok g ->
  exists counts rest,
    Venn.platformConnectionCounts src ds = Ok counts
    /\ map nodePlace (nodes g)
       = map nodePlace (Venn.platformNodes cm counts
                          (Venn.sortPlatforms (collectPlatforms src ds))) ++ rest.
Proof.
  intros Hok. destruct (Venn_unfold _ _ _ _ _ Hok) as (counts & conns & Hc & _ & Hn & _).
  cbv zeta in Hn. exists counts. rewrite Hn.
  set (rm := Venn.platformNodes cm counts (Venn.sortPlatforms (collectPlatforms src ds))).
  assert (H : exists rest,
             map nodePlace
               (fst (fst (Venn.entityLoops cm rnd
                            (Venn.sortPlatforms (collectPlatforms src ds)) rm src ds)))
             = map nodePlace rm ++ rest).
  { apply (Venn_entityLoops_ind
             (fun ns => exists rest, map nodePlace ns = map nodePlace rm ++ rest)).
    - exists []. now rewrite app_nil_r.
    - intros col isDs key count dp fresh ns _ _ (rest & E).
      destruct (upsert_places col isDs key count fresh ns) as (rest' & E').
      exists (rest ++ rest'). now rewrite E', E, app_assoc. }
  destruct H as (rest & E). now exists rest.
Qed.

Lemma Venn_platformNodes_nth cm counts dps : forall i dp,
  nth_error dps i = Some dp ->
  nth_error (Venn.platformNodes cm counts dps) i
  = Some (vennPlatformNode cm counts (List.length dps) dp i).
Proof.
  unfold Venn.platformNodes, forEach.
  assert (H : forall l j ns i dp,
             nth_error l i = Some dp ->
             nth_error (forEachFrom (Venn.platformStep cm counts (List.length dps)) j l ns)
               (List.length ns + i)
             = Some (vennPlatformNode cm counts (List.length dps) dp (j + i))).
  { induction l as [|a l IH]; intros j ns i dp Hi; [now destruct i|].
    cbn [forEachFrom]. destruct i as [|i].
    - injection Hi as ->.
      change (Venn.platformStep cm counts (List.length dps) ns dp j)
        with (ns ++ [vennPlatformNode cm counts (List.length dps) dp j]).
      assert (Hpre : forall l' j' ns' n,
                 nth_error ns' (List.length ns) = Some n ->
                 nth_error (forEachFrom (Venn.platformStep cm counts (List.length dps))
                              j' l' ns') (List.length ns) = Some n).
      { induction l' as [|b l' IH']; intros j' ns' n Hn; [exact Hn|].
        cbn [forEachFrom]. apply IH'.
        change (Venn.platformStep cm counts (List.length dps) ns' b j')
          with (ns' ++ [vennPlatformNode cm counts (List.length dps) b j']).
        rewrite nth_error_app1; [exact Hn|]. apply nth_error_Some. congruence. }
      rewrite !Nat.add_0_r. apply Hpre.
      rewrite nth_error_app2 by lia. now rewrite Nat.sub_diag.
    - change (Venn.platformStep cm counts (List.length dps) ns a j)
        with (ns ++ [vennPlatformNode cm counts (List.length dps) a j]).
      specialize (IH (S j) (ns ++ [vennPlatformNode cm counts (List.length dps) a j]) i dp Hi).
      rewrite length_app in IH. simpl List.length in IH.
      replace (List.length ns + S i)%nat with (List.length ns + 1 + i)%nat by lia.
      replace (j + S i)%nat with (S j + i)%nat by lia. exact IH. }
  intros i dp Hi. exact (H dps 0%nat [] i dp Hi).
Qed.

(** X24. In a Venn graph the platform nodes come first, in the order of the
    sorted platform list, and keep the place they are created at: the
    platform at index [i] lies at distance
    360 * min(1.2, max(0.9, 0.9 + c / 1000)) * (0.9 + 0.1 * (i mod 4))
    from the center, where [c] is the number of records of both lists on
    that platform. *)
Theorem venn_platform_ring :
  forall src ds cm rnd g i dp,
    Venn.getVennNetworkLayout src ds cm rnd = Ok g ->
    nth_error (Venn.sortPlatforms (collectPlatforms src ds)) i = Some dp ->
    exists n,
      nth_error (nodes g) i = Some n /\ id n = dp
      /\ vennDist2 n = platformRadiusOf (recordsOn dp src ds) i
                       * platformRadiusOf (recordsOn dp src ds) i.
Proof.
  intros src ds cm rnd g i dp Hok Hi.
  destruct (Venn_places src ds cm rnd g Hok) as (counts & rest & Hc & Hp).
  set (dps := Venn.sortPlatforms (collectPlatforms src ds)) in *.
  pose proof (Venn_platformNodes_nth cm counts dps i dp Hi) as Hn.
  assert (Hplace : nth_error (map nodePlace (nodes g)) i
                   = Some (nodePlace (vennPlatformNode cm counts (List.length dps) dp i))).
  { rewrite Hp, nth_error_app1.
    - now rewrite nth_error_map, Hn.
    - rewrite length_map. apply nth_error_Some. congruence. }
  rewrite nth_error_map in Hplace.
  destruct (nth_error (nodes g) i) as [n|]; [|discriminate].
  set (v := vennPlatformNode cm counts (List.length dps) dp i) in *.
  assert (E : nodePlace n = nodePlace v) by (cbn [option_map] in Hplace; congruence).
  assert (Hid : id n = id v) by exact (f_equal (fun t => fst (fst t)) E).
  assert (Hx : x n = x v) by exact (f_equal (fun t => snd (fst t)) E).
  assert (Hy : y n = y v) by exact (f_equal snd E).
  exists n. split; [reflexivity|]. split; [exact Hid|].
  rewrite <- (platformConnectionCounts_count src ds counts dp Hc).
  rewrite <- vennPlatformRadius_count.
  rewrite <- (vennPlatformNode_dist2 cm counts (List.length dps) dp i). fold v.
  unfold vennDist2. now rewrite Hx, Hy.
Qed.

Lemma venn_platform_ring_witness :
  match Venn.getVennNetworkLayout twoApps oneConsumer defaultColorMap noRandom with
  | Ok g =>
      exists n,
        nth_error (nodes g) 0 = Some n /\ id n = "data warehouse"
        /\ vennDist2 n = platformRadiusOf (recordsOn "data warehouse" twoApps oneConsumer) 0
                         * platformRadiusOf (recordsOn "data warehouse" twoApps oneConsumer) 0
  | Throw _ => False
  end.
Proof.
  destruct (Venn.getVennNetworkLayout twoApps oneConsumer defaultColorMap noRandom)
    as [g|e] eqn:E.
  - apply (venn_platform_ring twoApps oneConsumer defaultColorMap noRandom g 0
             "data warehouse" E).
    reflexivity.
  - assert (H : match Venn.getVennNetworkLayout twoApps oneConsumer defaultColorMap noRandom
                with Ok _ => True | Throw _ => False end) by (lazy; exact I).
    now rewrite E in H.
Defined.

(** * Properties of the tooltip *)

Lemma prefix_app n a b : String.prefix n a = true -> String.prefix n (a ++ b) = true.
Proof.
  revert a. induction n as [|c n IH]; intros a H; [now destruct (a ++ b)%string|].
  destruct a as [|c' a]; simpl in *; [discriminate|].
  destruct (ascii_dec c c'); [now apply IH | discriminate].
Qed.

Lemma includes_app_l n a b : includes n a = true -> includes n (a ++ b) = true.
Proof.
  induction a as [|c a IH]; intros H.
  - simpl in H. rewrite orb_false_r in H.
    destruct n; [now destruct b | discriminate].
  - change (includes n (String c a ++ b))
      with (String.prefix n (String c (a ++ b)) || includes n (a ++ b)).
    change (includes n (String c a))
      with (String.prefix n (String c a) || includes n a) in H.
    apply orb_true_iff in H. destruct H as [H|H].
    + pose proof (prefix_app n (String c a) b H) as Hp.
      change (String c a ++ b)%string with (String c (a ++ b)) in Hp. now rewrite Hp.
    + rewrite (IH H). apply orb_true_r.
Qed.

Lemma includes_app_r n a b : includes n b = true -> includes n (a ++ b) = true.
Proof.
  intros H. induction a as [|c a IH]; [exact H|].
  change (includes n (String c a ++ b))
    with (String.prefix n (String c (a ++ b)) || includes n (a ++ b)).
  rewrite IH. apply orb_true_r.
Qed.

Lemma prefix_refl n : String.prefix n n = true.
Proof. induction n as [|c n IH]; [reflexivity|]. simpl. now destruct (ascii_dec c c). Qed.

Lemma includes_refl n : includes n n = true.
Proof. destruct n; simpl; [reflexivity|]. rewrite prefix_refl.
  destruct (ascii_dec a a); [reflexivity | congruence]. Qed.

Lemma includes_concat sep lines line n :
  In line lines -> includes n line = true -> includes n (String.concat sep lines) = true.
Proof.
  induction lines as [|x xs IH]; intros Hin H; [contradiction|].
  destruct xs as [|y ys].
  - destruct Hin as [->|[]]. exact H.
  - change (String.concat sep (x :: y :: ys))
      with (x ++ sep ++ String.concat sep (y :: ys))%string.
    destruct Hin as [->|Hin]; [now apply includes_app_l|].
    apply includes_app_r, includes_app_r, IH; assumption.
Qed.

Lemma append_assoc' (a b c : string) : (a ++ (b ++ c) = (a ++ b) ++ c)%string.
Proof. induction a as [|x a IH]; [reflexivity|]. simpl. now rewrite IH. Qed.

Lemma includes_mid a m b pre post :
  includes (a ++ m ++ b) (pre ++ a ++ m ++ b ++ post) = true.
Proof.
  apply includes_app_r.
  replace (a ++ m ++ b ++ post)%string with ((a ++ m ++ b) ++ post)%string
    by now rewrite <- !append_assoc'.
  apply includes_app_l, includes_refl.
Qed.

(** A line of a template shows what follows its indentation. *)
Lemma includes_line n a b : includes n (a ++ n ++ b) = true.
Proof. apply includes_app_r, includes_app_l, includes_refl. Qed.

Lemma tablesKind_stable : updateStable tablesKind.
Proof.
  split.
  - intros c n H. unfold tablesKind in *. simpl.
    destruct (type n); [destruct H as [-> | ->]; now right| | |];
      destruct H as (z & ->); now eexists.
  - intros col n H. unfold promoteMixed, tablesKind in *.
    destruct (type n) eqn:Et; try (rewrite Et; exact H). exact H.
Qed.

Lemma built_tablesKind g n : built g -> In n (nodes g) -> tablesKind n.
Proof.
  intros Hb Hn.
  assert (H : Forall tablesKind (nodes g)).
  { destruct Hb as [(src & ds & cm & ->)|(src & ds & cm & rnd & Hok)].
    - apply Main_nodes_Forall.
      + apply tablesKind_stable.
      + apply Main_platformNodes_Forall. intros dp i _. now left.
      + intros row i rn _ _. now eexists.
      + intros row i rn _ _. now eexists.
    - apply (Venn_nodes_Forall _ src ds cm rnd) with (g := g); [| | |exact Hok|].
      + apply tablesKind_stable.
      + intros dp sector row i k _ _ _. now eexists.
      + intros dp sector row i k _ _ _. now eexists.
      + intros counts. apply Venn_platformNodes_Forall. intros dp i _. now left. }
  exact (proj1 (Forall_forall _ _) H n Hn).
Qed.

Lemma nodeTip_platform n :
  type n = dataplatform ->
  nodeTip n
  = Tooltip.template
      [""; "                    <div>";
       "                      <strong>" ++ orString (Some (name n)) "Unknown"
         ++ "</strong><br/>";
       "                      Type: Data Platform<br/>";
       "                      Tables: " ++ Tooltip.showTables (tables n);
       "                    </div>"; "                  "]%string.
Proof.
  intros Ht. unfold nodeTip, Tooltip.formatter, Tooltip.onNode, Tooltip.ofNode.
  cbn [Tooltip.data Tooltip.componentType Tooltip.seriesType Tooltip.dataType
       Tooltip.t_type Tooltip.t_name Tooltip.t_tables].
  rewrite Ht. reflexivity.
Qed.

Lemma nodeTip_entity n :
  type n <> dataplatform ->
  nodeTip n
  = Tooltip.nodeCard (Tooltip.ofNode n)
      match type n with
      | source => "Source"
      | downstream => "Downstream"
      | _ => "Source & Downstream"
      end.
Proof.
  intros Ht. unfold nodeTip, Tooltip.formatter, Tooltip.onNode, Tooltip.ofNode.
  cbn [Tooltip.data Tooltip.componentType Tooltip.seriesType Tooltip.dataType
       Tooltip.t_type Tooltip.t_name Tooltip.t_tables].
  destruct (type n); [congruence| | |]; reflexivity.
Qed.

Lemma mockTip_unknown p : includes "<strong>Unknown</strong>" (mockTip p) = true.
Proof.
  unfold mockTip, Tooltip.formatter, Tooltip.onNode, Tooltip.ofMockNode.
  cbn [Tooltip.data Tooltip.componentType Tooltip.seriesType Tooltip.dataType
       Tooltip.t_type Tooltip.t_name Tooltip.t_tables Tooltip.t_dataPlatform].
  cbn [String.eqb Ascii.eqb Bool.eqb negb andb].
  destruct (negb (truthy (Some (Gen.r_type (Gen.raw p))))); [reflexivity|].
  set (ty := orString (Some (Gen.r_type (Gen.raw p))) "").
  destruct (ty =? "source")%string; [reflexivity|].
  destruct (ty =? "downstream")%string; [reflexivity|].
  destruct (ty =? "mixed")%string; [reflexivity|].
  destruct (ty =? "dataplatform")%string; [reflexivity|].
  apply (includes_concat _ _ "                      <strong>Unknown</strong><br/>");
    [right; right; left; reflexivity | reflexivity].
Qed.

(** X25. The tooltip of a platform node of a built graph always says
    "Tables: 0", whatever the records are.  The tooltip of any other node of
    a built graph shows its display name, its platform and its accumulated
    table count.  The tooltip of a node of the mock data has the title
    "Unknown": the label of the node is not shown.  Outside a graph series,
    or without a datum, the tooltip is empty. *)
Theorem tooltip_contents :
  (forall g n,
      built g -> In n (nodes g) -> type n = dataplatform ->
      includes "Tables: 0" (nodeTip n) = true)
  /\ (forall g n,
        built g -> In n (nodes g) -> type n <> dataplatform ->
        exists z dp,
          tables n = TNum z /\ dataPlatform n = Some dp
          /\ includes ("<strong>" ++ name n ++ "</strong>") (nodeTip n) = true
          /\ includes ("Data Platform: " ++ dp ++ "<br/>") (nodeTip n) = true
          /\ includes ("Tables: " ++ Tooltip.showZ z) (nodeTip n) = true)
  /\ (forall p, includes "<strong>Unknown</strong>" (mockTip p) = true)
  /\ Tooltip.formatter None = ""
  /\ (forall p, Tooltip.data p = None -> Tooltip.formatter (Some p) = "")
  /\ (forall p, Tooltip.componentType p <> "series" \/ Tooltip.seriesType p <> "graph" ->
                Tooltip.formatter (Some p) = "").
Proof.
  split; [|split; [|split; [|split; [|split]]]].
  - intros g n Hb Hn Ht. rewrite (nodeTip_platform n Ht).
    pose proof (built_tablesKind g n Hb Hn) as Hk. unfold tablesKind in Hk.
    rewrite Ht in Hk.
    apply (includes_concat _ _
             ("                      Tables: " ++ Tooltip.showTables (tables n))%string).
    + do 4 right. left. reflexivity.
    + destruct Hk as [-> | ->]; reflexivity.
  - intros g n Hb Hn Ht.
    pose proof (built_tablesKind g n Hb Hn) as Hk. unfold tablesKind in Hk.
    assert (Hz : exists z, tables n = TNum z) by (destruct (type n); [congruence| | |]; exact Hk).
    destruct Hz as (z & Hz).
    destruct (built_entity_link g n Hb Hn Ht) as (dp & _ & Hdp & _).
    destruct (built_platform_node g n dp Hb Hn Ht Hdp) as [_ Hdpne].
    assert (Hname : name n <> "").
    { destruct (built_provenance g Hb) as (src & ds & Hall).
      pose proof (proj1 (Forall_forall _ _) Hall n Hn) as Hp. unfold provenance in Hp.
      destruct (type n); [congruence| | |]; destruct Hp as (row & _ & _ & -> & _);
        apply orString_nonempty; discriminate. }
    exists z, dp. split; [exact Hz|]. split; [exact Hdp|].
    rewrite (nodeTip_entity n Ht). unfold Tooltip.nodeCard, Tooltip.template.
    cbn [Tooltip.ofNode Tooltip.t_name Tooltip.t_dataPlatform Tooltip.t_tables].
    rewrite Hz, Hdp.
    replace (orString (Some (name n)) "Unknown") with (name n)
      by (destruct (name n); [congruence | reflexivity]).
    replace (orString (Some dp) "Unknown") with dp
      by (destruct dp; [congruence | reflexivity]).
    split; [|split].
    + apply (includes_concat _ _
               ("                      <strong>" ++ name n ++ "</strong><br/>")%string).
      * right. right. left. reflexivity.
      * exact (includes_mid "<strong>" (name n) "</strong>" "                      "
                 "<br/>").
    + apply (includes_concat _ _
               ("                      Data Platform: " ++ dp ++ "<br/>")%string).
      * do 4 right. left. reflexivity.
      * apply (includes_app_r _ "                      "%string), includes_refl.
    + apply (includes_concat _ _
               ("                      Tables: " ++ Tooltip.showTables (TNum z))%string).
      * do 5 right. left. reflexivity.
      * apply (includes_app_r _ "                      "%string), includes_refl.
  - exact mockTip_unknown.
  - reflexivity.
  - intros p Hp. unfold Tooltip.formatter. now rewrite Hp.
  - intros p Hp. unfold Tooltip.formatter. destruct (Tooltip.data p); [|reflexivity].
    destruct Hp as [Hp|Hp]; apply String.eqb_neq in Hp; rewrite Hp; simpl; [reflexivity|].
    now destruct (negb _).
Qed.

Lemma tooltip_contents_witness :
  includes "Tables: 0"
    (nodeTip (nth 0 (nodes (Main.getMainGraphData lakeOnLake [] defaultColorMap)) someNode))
  = true.
Proof.
  apply (proj1 tooltip_contents (Main.getMainGraphData lakeOnLake [] defaultColorMap)).
  - left. now exists lakeOnLake, [], defaultColorMap.
  - left. reflexivity.
  - reflexivity.
Defined.
(** ** The platforms around the ring *)

Section StableByKey.
Context {A : Type}.
Variable key : A -> Z.
Let le (a b : A) : bool := (key a <=? key b)%Z.

Lemma insertBy_key_class c x l :
  filter (fun a => (key a =? c)%Z) (insertBy le x l)
  = filter (fun a => (key a =? c)%Z) (x :: l).
Proof.
  induction l as [|y l IH]; [reflexivity|]. simpl insertBy. unfold le at 1.
  destruct (Z.leb_spec (key x) (key y)) as [Hle|Hgt]; [reflexivity|].
  simpl in *. rewrite IH.
  destruct (Z.eqb_spec (key x) c) as [Ex|Ex]; [|reflexivity].
  destruct (Z.eqb_spec (key y) c) as [Ey|Ey]; [lia | reflexivity].
Qed.

(** Elements of equal key keep their order. *)
Lemma sortBy_key_stable c l :
  filter (fun a => (key a =? c)%Z) (sortBy le l) = filter (fun a => (key a =? c)%Z) l.
Proof.
  induction l as [|x l IH]; [reflexivity|]. simpl sortBy.
  rewrite insertBy_key_class. simpl. now rewrite IH.
Qed.
End StableByKey.

Lemma Main_platformNodes_nth cm dps i dp :
  NoDup dps -> nth_error dps i = Some dp ->
  nth_error (Main.platformNodes cm dps) i = Some (mainPlatformNode cm (List.length dps) dp i).
Proof.
  intros Hnd Hi.
  pose proof (Main_platformNodes_ids cm dps Hnd) as Hids.
  assert (Hn : nth_error (map id (Main.platformNodes cm dps)) i = Some dp)
    by now rewrite Hids.
  rewrite nth_error_map in Hn.
  destruct (nth_error (Main.platformNodes cm dps) i) as [n|] eqn:En; [|discriminate].
  cbn [option_map] in Hn. injection Hn as Hid.
  pose proof (Main_platformNodes_Forall
                (fun n => exists dp' j, nth_error dps j = Some dp'
                                        /\ n = mainPlatformNode cm (List.length dps) dp' j)
                cm dps) as Hall.
  rewrite Forall_forall in Hall.
  destruct (Hall (fun dp' j Hj => ex_intro _ dp' (ex_intro _ j (conj Hj eq_refl))) n
              (nth_error_In _ _ En)) as (dp' & j & Hj & ->).
  simpl in Hid. subst dp'.
  assert (j = i); [|now subst].
  apply (proj1 (NoDup_nth_error dps) Hnd); [|congruence].
  apply nth_error_Some. congruence.
Qed.

Lemma Main_places src ds cm :
  exists rest,
    map nodePlace (nodes (Main.getMainGraphData src ds cm))
    = map nodePlace (Main.platformNodes cm (collectPlatforms src ds)) ++ rest.
Proof.
  apply (Main_nodes_ind
           (fun ns => exists rest,
                map nodePlace ns
                = map nodePlace (Main.platformNodes cm (collectPlatforms src ds)) ++ rest)).
  - exists []. now rewrite app_nil_r.
  - intros col isDs key count dp fresh ns _ _ (rest & E).
    destruct (upsert_places col isDs key count fresh ns) as (rest' & E').
    exists (rest ++ rest'). now rewrite E', E, app_assoc.
Qed.

(** A node list that starts with the places of [pn] has the node of [pn] at
    every index of [pn], up to the fields that the registry updates. *)
Lemma nth_place ns pn rest i v :
  map nodePlace ns = map nodePlace pn ++ rest ->
  nth_error pn i = Some v ->
  exists n, nth_error ns i = Some n /\ id n = id v /\ x n = x v /\ y n = y v.
Proof.
  intros Hp Hv.
  assert (Hplace : nth_error (map nodePlace ns) i = Some (nodePlace v)).
  { rewrite Hp, nth_error_app1.
    - now rewrite nth_error_map, Hv.
    - rewrite length_map. apply nth_error_Some. congruence. }
  rewrite nth_error_map in Hplace.
  destruct (nth_error ns i) as [n|]; [|discriminate].
  assert (E : nodePlace n = nodePlace v) by (cbn [option_map] in Hplace; congruence).
  exists n. split; [reflexivity|].
  split; [exact (f_equal (fun t => fst (fst t)) E)|].
  split; [exact (f_equal (fun t => snd (fst t)) E) | exact (f_equal snd E)].
Qed.

Lemma Venn_platform_place src ds cm rnd g p dp :
  Venn.getVennNetworkLayout src ds cm rnd = Ok g ->
  let dps := Venn.sortPlatforms (collectPlatforms src ds) in
  nth_error dps p = Some dp ->
  exists n r,
    nth_error (nodes g) p = Some n /\ id n = dp /\ 0 < r
    /\ x n = Venn.centerX + r * cos (INR p / INR (List.length dps) * 2 * PI)
    /\ y n = Venn.centerY + r * sin (INR p / INR (List.length dps) * 2 * PI).
Proof.
  intros Hok dps Hp.
  destruct (Venn_places src ds cm rnd g Hok) as (counts & rest & _ & Hplaces).
  fold dps in Hplaces.
  destruct (nth_place _ _ _ p _ Hplaces (Venn_platformNodes_nth cm counts dps p dp Hp))
    as (n & Hn & Hid & Hx & Hy).
  exists n, (vennPlatformRadius counts dp p).
  split; [exact Hn|]. split; [exact Hid|].
  split; [pose proof (vennPlatformRadius_range counts dp p); lra|].
  split; [exact Hx | exact Hy].
Qed.

Lemma Main_platform_place src ds cm p dp :
  let dps := collectPlatforms src ds in
  nth_error dps p = Some dp ->
  exists n,
    nth_error (nodes (Main.getMainGraphData src ds cm)) p = Some n /\ id n = dp
    /\ x n = Main.centerX
             + 126 * cos (INR p / INR (List.length dps) * 2 * PI + PI / INR (List.length dps))
    /\ y n = Main.centerY
             + 126 * sin (INR p / INR (List.length dps) * 2 * PI + PI / INR (List.length dps)).
Proof.
  intros dps Hp.
  destruct (Main_places src ds cm) as (rest & Hplaces). fold dps in Hplaces.
  destruct (nth_place _ _ _ p _ Hplaces
              (Main_platformNodes_nth cm dps p dp (collectPlatforms_NoDup src ds) Hp))
    as (n & Hn & Hid & Hx & Hy).
  exists n. split; [exact Hn|]. split; [exact Hid|].
  assert (Hr : Main.radius * 0.6 = 126) by (rewrite Main_radius_value; lra).
  split; [rewrite Hx | rewrite Hy]; unfold mainPlatformNode, getCircularPosition;
    cbv zeta; cbn [regionNode x y fst snd]; now rewrite Hr.
Qed.

(** C6, as the code has it.  The Venn builder sorts the discovered platforms
    by category rank (warehouse 1, lake 2, stream 3, big data 4, mesh 5,
    other 6) before it creates the ring and the sectors: the sort keeps every
    platform, puts the ranks in increasing order and keeps platforms of one
    rank in their discovery order, so that platforms of one rank are
    contiguous; the platform at position [p] of the sorted list of [N] is the
    [p]-th node of the graph, lies at the angle [p/N * 2 pi] around the
    center and gets the sector from [p/N * 2 pi] to [(p+1)/N * 2 pi].  Hence
    platforms of one rank occupy adjacent angular positions.  The circular
    builder does not sort: the platform at position [p] of the discovery
    order is its [p]-th node and lies at the angle [p/N * 2 pi + pi/N]. *)
Theorem platform_order :
  (forall src ds cm rnd g,
      Venn.getVennNetworkLayout src ds cm rnd = Ok g ->
      let dps := Venn.sortPlatforms (collectPlatforms src ds) in
      platformIds (nodes g) = dps
      /\ StronglySorted rankLe dps
      /\ Permutation (collectPlatforms src ds) dps
      /\ (forall c, filter (fun a => (Venn.getTypeValue a =? c)%Z) dps
                    = filter (fun a => (Venn.getTypeValue a =? c)%Z) (collectPlatforms src ds))
      /\ (forall i j k a b c,
             (i < j < k)%nat ->
             nth_error dps i = Some a -> nth_error dps j = Some b -> nth_error dps k = Some c ->
             Venn.getTypeValue a = Venn.getTypeValue c ->
             Venn.getTypeValue b = Venn.getTypeValue a)
      /\ (forall p dp,
             nth_error dps p = Some dp ->
             aget dp (Venn.sectorMap dps)
             = Some (INR p / INR (List.length dps) * 2 * PI,
                     INR (p + 1) / INR (List.length dps) * 2 * PI)
             /\ exists n r,
                  nth_error (nodes g) p = Some n /\ id n = dp /\ 0 < r
                  /\ x n = Venn.centerX + r * cos (INR p / INR (List.length dps) * 2 * PI)
                  /\ y n = Venn.centerY + r * sin (INR p / INR (List.length dps) * 2 * PI)))
  /\ (forall src ds cm,
        let dps := collectPlatforms src ds in
        platformIds (nodes (Main.getMainGraphData src ds cm)) = dps
        /\ (forall p dp,
               nth_error dps p = Some dp ->
               exists n,
                 nth_error (nodes (Main.getMainGraphData src ds cm)) p = Some n /\ id n = dp
                 /\ x n = Main.centerX
                          + 126 * cos (INR p / INR (List.length dps) * 2 * PI
                                       + PI / INR (List.length dps))
                 /\ y n = Main.centerY
                          + 126 * sin (INR p / INR (List.length dps) * 2 * PI
                                       + PI / INR (List.length dps))))
  /\ map Venn.getTypeValue
       ["data warehouse"; "data lake"; "stream processing"; "big data platform";
        "data mesh"; "unknown"]
     = [1; 2; 3; 4; 5; 6]%Z.
Proof.
  split; [|split; [|reflexivity]].
  - intros src ds cm rnd g Hok dps.
    assert (Hsorted : StronglySorted rankLe dps) by apply (sortBy_key_sorted Venn.getTypeValue).
    split; [|split; [exact Hsorted|split; [apply sortBy_perm|split; [|split]]]].
    + apply (Venn_nodes_ind (fun ns => platformIds ns = dps) _ _ _ _ _ Hok).
      * intros counts. rewrite platformIds_regions by apply Venn_platformNodes_region.
        apply Venn_platformNodes_ids.
      * intros col isDs key count dp fresh ns _ Hf <-. now apply platformIds_upsert with dp.
    + intros c. apply (sortBy_key_stable Venn.getTypeValue).
    + intros i j k a b c [Hij Hjk] Hi Hj Hk Hac.
      pose proof (StronglySorted_nth _ _ Hsorted i j a b Hij Hi Hj) as H1.
      pose proof (StronglySorted_nth _ _ Hsorted j k b c Hjk Hj Hk) as H2.
      unfold rankLe in *. lia.
    + intros p dp Hp. split.
      * apply sectorMap_nth; [apply sortPlatforms_NoDup | exact Hp].
      * exact (Venn_platform_place src ds cm rnd g p dp Hok Hp).
  - intros src ds cm dps. split.
    + apply (Main_nodes_ind (fun ns => platformIds ns = collectPlatforms src ds)).
      * rewrite platformIds_regions
          by apply Main_platformNodes_region, collectPlatforms_NoDup.
        apply Main_platformNodes_ids, collectPlatforms_NoDup.
      * intros col isDs key count dp fresh ns _ Hf <-. now apply platformIds_upsert with dp.
    + intros p dp Hp. exact (Main_platform_place src ds cm p dp Hp).
Qed.

Lemma platform_order_witness :
  match Venn.getVennNetworkLayout lakeThenWarehouse [] defaultColorMap noRandom with
  | Ok g =>
      platformIds (nodes g) = ["data warehouse"; "data lake"]
      /\ exists n r,
           nth_error (nodes g) 1 = Some n /\ id n = "data lake" /\ 0 < r
           /\ x n = Venn.centerX + r * cos (INR 1 / INR 2 * 2 * PI)
           /\ y n = Venn.centerY + r * sin (INR 1 / INR 2 * 2 * PI)
  | Throw _ => False
  end.
Proof.
  destruct (Venn.getVennNetworkLayout lakeThenWarehouse [] defaultColorMap noRandom)
    as [g|e] eqn:E.
  - destruct (proj1 platform_order lakeThenWarehouse [] defaultColorMap noRandom g E)
      as (Hids & _ & _ & _ & _ & Hring).
    split; [exact Hids|].
    exact (proj2 (Hring 1%nat "data lake" eq_refl)).
  - exfalso.
    assert (H : match Venn.getVennNetworkLayout lakeThenWarehouse [] defaultColorMap noRandom
                with Ok _ => True | Throw _ => False end) by (lazy; exact I).
    now rewrite E in H.
Defined.

(** C6 as stated fails for the circular builder: a lake platform discovered
    before a warehouse platform stays before it. *)
Lemma main_platforms_unsorted :
  platformIds (nodes (Main.getMainGraphData lakeThenWarehouse [] defaultColorMap))
  = ["data lake"; "data warehouse"]
  /\ (Venn.getTypeValue "data warehouse" < Venn.getTypeValue "data lake")%Z
  /\ ~ StronglySorted rankLe
         (platformIds (nodes (Main.getMainGraphData lakeThenWarehouse [] defaultColorMap))).
Proof.
  split; [reflexivity|]. split; [reflexivity|].
  change (platformIds (nodes (Main.getMainGraphData lakeThenWarehouse [] defaultColorMap)))
    with ["data lake"; "data warehouse"].
  intros H. inversion H as [|? ? _ Hall]; subst.
  inversion Hall as [|? ? Hle _]; subst. unfold rankLe in Hle.
  change (2 <= 1)%Z in Hle. lia.
Qed.
(** ** The slot of the record that creates a node *)

Lemma forEachFrom_app {A St : Type} (f : St -> A -> nat -> St) l1 : forall l2 i s,
  forEachFrom f i (l1 ++ l2) s
  = forEachFrom f (i + List.length l1) l2 (forEachFrom f i l1 s).
Proof.
  induction l1 as [|a l1 IH]; intros l2 i s; simpl.
  - now rewrite Nat.add_0_r.
  - rewrite IH. f_equal. lia.
Qed.

Lemma nth_error_cut {A : Type} (l : list A) : forall i a,
  nth_error l i = Some a ->
  l = firstn i l ++ a :: skipn (S i) l /\ List.length (firstn i l) = i.
Proof.
  induction l as [|b l IH]; intros i a H; [now destruct i|].
  destruct i as [|i]; simpl in H.
  - injection H as ->. now split.
  - destruct (IH i a H) as [E L]. split.
    + change (b :: l = b :: (firstn i l ++ a :: skipn (S i) l)). now f_equal.
    + simpl. now rewrite L.
Qed.

(** A loop, cut at the iteration of index [i]. *)
Lemma forEachFrom_reach {A St : Type} (f : St -> A -> nat -> St) l i a s :
  nth_error l i = Some a ->
  forEachFrom f 0 l s
  = forEachFrom f (S i) (skipn (S i) l) (f (forEachFrom f 0 (firstn i l) s) a i).
Proof.
  intros H. destruct (nth_error_cut l i a H) as [E L].
  rewrite E at 1. rewrite forEachFrom_app. cbn [forEachFrom Nat.add]. now rewrite L.
Qed.

(** An upsert on another key leaves a key as it is. *)
Lemma upsert_has_other col isDs key count fresh ns k :
  (forall n, fresh = Some n -> id n = key) -> key <> k ->
  nodeMap_has k (upsert col isDs key count fresh ns) = nodeMap_has k ns.
Proof.
  intros Hf Hk. apply bool_eq_iff. rewrite !nodeMap_has_In, (upsert_ids _ _ _ _ _ _ Hf).
  destruct (nodeMap_has key ns); [reflexivity|].
  destruct fresh; [|reflexivity]. rewrite in_app_iff. simpl. intuition congruence.
Qed.

(** An upsert keeps a node where it is, and keeps its type up to the
    promotion to mixed. *)
Lemma upsert_holdsAt col isDs key count fresh k T dp px py ns :
  (forall t, T t -> T (promoteType t)) ->
  holdsAt k T dp px py ns -> holdsAt k T dp px py (upsert col isDs key count fresh ns).
Proof.
  intros HT (n & Hin & Hid & Hdp & Ht & Hx & Hy). unfold upsert.
  destruct (nodeMap_has key ns).
  - destruct (String.eqb_spec (id n) key) as [E|E].
    + exists (if isDs then promoteMixed col (bumpTables count n) else bumpTables count n).
      split; [now apply (updateNode_In key
                           (fun n => if isDs then promoteMixed col (bumpTables count n)
                                     else bumpTables count n))|].
      destruct isDs.
      * rewrite promoteMixed_id, promoteMixed_dataPlatform, promoteMixed_type.
        repeat split; try assumption; [now apply HT| |];
          unfold promoteMixed; simpl; now destruct (type n).
      * now repeat split.
    + exists n. split; [|now repeat split].
      unfold updateNode. apply in_map_iff. exists n. split; [|exact Hin].
      apply String.eqb_neq in E. now rewrite E.
  - exists n. split; [|now repeat split].
    destruct fresh; [apply in_or_app; now left | exact Hin].
Qed.

Section SlotLoops.
Variables (rm : list Node) (sectors : Amap (R * R)).
Context {A : Type}.
Variables (key : A -> string)
          (body : string -> R * R -> Venn.State -> A -> nat -> Venn.State).
Hypothesis body_upsert :
  forall dp sector st row i,
    exists col isDs count fresh,
      (forall n, fresh = Some n -> id n = key row)
      /\ fst (fst (body dp sector st row i))
         = upsert col isDs (key row) count fresh (fst (fst st)).
Variable groups : Amap (list A).

Lemma body_has_other dp sector st row i k :
  key row <> k ->
  nodeMap_has k (fst (fst (body dp sector st row i))) = nodeMap_has k (fst (fst st)).
Proof.
  intros Hk. destruct (body_upsert dp sector st row i) as (col & isDs & c & fresh & Hf & ->).
  now apply upsert_has_other.
Qed.

Lemma body_holdsAt dp sector st row i k T dp0 px py :
  (forall t, T t -> T (promoteType t)) ->
  holdsAt k T dp0 px py (fst (fst st)) ->
  holdsAt k T dp0 px py (fst (fst (body dp sector st row i))).
Proof.
  intros HT H. destruct (body_upsert dp sector st row i) as (col & isDs & c & fresh & _ & ->).
  now apply upsert_holdsAt.
Qed.

(** The rows of a group do not touch a key that none of them has. *)
Lemma rows_keep_absent dp sector rows k : forall i st,
  Forall (fun row => key row <> k) rows ->
  nodeMap_has k (fst (fst (forEachFrom (body dp sector) i rows st)))
  = nodeMap_has k (fst (fst st)).
Proof.
  induction rows as [|row rows IH]; intros i st Hall; [reflexivity|].
  inversion Hall as [|? ? Hrow Hrows]; subst. cbn [forEachFrom].
  rewrite (IH _ _ Hrows). now apply body_has_other.
Qed.

Lemma platforms_keep_absent dps k : forall i st,
  keyAbsent key groups dps k ->
  nodeMap_has k (fst (fst (forEachFrom (Venn.perPlatform groups rm sectors body) i dps st)))
  = nodeMap_has k (fst (fst st)).
Proof.
  induction dps as [|dp dps IH]; intros i st Habs; [reflexivity|]. cbn [forEachFrom].
  rewrite IH by (intros dp' rows row Hdp; apply Habs; now right).
  unfold Venn.perPlatform.
  destruct (nodeMap_get dp rm); [|reflexivity].
  destruct (aget dp sectors) as [sector|]; [|reflexivity].
  destruct (aget dp groups) as [rows|] eqn:Hrows; [|reflexivity].
  unfold forEach. apply rows_keep_absent. apply Forall_forall.
  intros row Hrow. apply (Habs dp rows row); [now left | exact Hrows | exact Hrow].
Qed.

Lemma rows_keep_node dp sector rows k T dp0 px py : forall i st,
  (forall t, T t -> T (promoteType t)) ->
  holdsAt k T dp0 px py (fst (fst st)) ->
  holdsAt k T dp0 px py (fst (fst (forEachFrom (body dp sector) i rows st))).
Proof.
  induction rows as [|row rows IH]; intros i st HT H; [exact H|]. cbn [forEachFrom].
  apply IH; [exact HT|]. now apply body_holdsAt.
Qed.

Lemma platforms_keep_node dps k T dp0 px py : forall i st,
  (forall t, T t -> T (promoteType t)) ->
  holdsAt k T dp0 px py (fst (fst st)) ->
  holdsAt k T dp0 px py
    (fst (fst (forEachFrom (Venn.perPlatform groups rm sectors body) i dps st))).
Proof.
  induction dps as [|dp dps IH]; intros i st HT H; [exact H|]. cbn [forEachFrom].
  apply IH; [exact HT|]. unfold Venn.perPlatform.
  destruct (nodeMap_get dp rm); [|exact H].
  destruct (aget dp sectors) as [sector|]; [|exact H].
  unfold forEach. now apply rows_keep_node.
Qed.

(** The platform loop, cut at the record of index [i] of the group of the
    platform at position [p]: the record meets a registry in which its key is
    absent when it is the first with that key, and what its iteration leaves
    in the registry stays there. *)
Lemma loop_first dps p dp rn sector rows i row st0 T dp0 px py :
  nth_error dps p = Some dp ->
  nodeMap_get dp rm = Some rn -> aget dp sectors = Some sector ->
  aget dp groups = Some rows -> nth_error rows i = Some row ->
  nodeMap_has (key row) (fst (fst st0)) = false ->
  firstWithKey key groups dps p rows i (key row) ->
  (forall t, T t -> T (promoteType t)) ->
  (forall st, nodeMap_has (key row) (fst (fst st)) = false ->
              holdsAt (key row) T dp0 (px st) (py st)
                (fst (fst (body dp sector st row i)))) ->
  exists st,
    holdsAt (key row) T dp0 (px st) (py st)
      (fst (fst (forEach (Venn.perPlatform groups rm sectors body) dps st0))).
Proof.
  intros Hp Hrn Hsec Hrows Hi H0 [Hbefore Hearlier] HT Hcreate.
  unfold forEach. rewrite (forEachFrom_reach _ dps p dp st0 Hp).
  set (sA := forEachFrom (Venn.perPlatform groups rm sectors body) 0 (firstn p dps) st0).
  assert (HA : nodeMap_has (key row) (fst (fst sA)) = false).
  { unfold sA. now rewrite platforms_keep_absent. }
  unfold Venn.perPlatform at 2. rewrite Hrn, Hsec, Hrows. unfold forEach.
  rewrite (forEachFrom_reach _ rows i row sA Hi).
  set (sB := forEachFrom (body dp sector) 0 (firstn i rows) sA).
  assert (HB : nodeMap_has (key row) (fst (fst sB)) = false).
  { unfold sB. now rewrite rows_keep_absent. }
  exists sB. apply platforms_keep_node; [exact HT|].
  apply rows_keep_node; [exact HT|]. now apply Hcreate.
Qed.
End SlotLoops.

Lemma sourceStep_is_upsert cm rnd dp sector st row i :
  exists col isDs count fresh,
    (forall n, fresh = Some n -> id n = sourceKey row)
    /\ fst (fst (Venn.sourceStep cm rnd dp sector st row i))
       = upsert col isDs (sourceKey row) count fresh (fst (fst st)).
Proof.
  destruct st as [[ns ls] rc].
  destruct (Venn_sourceStep_upsert cm rnd dp sector ns ls rc row i) as (n & Hn & E).
  exists (orString (cm "mixed") "#AA46BC"), false, (sourceCount row), (Some n).
  split; [|exact E]. intros n' Hn'. injection Hn' as <-. now destruct Hn.
Qed.

Lemma downstreamStep_is_upsert cm rnd dp sector st row i :
  exists col isDs count fresh,
    (forall n, fresh = Some n -> id n = downstreamKey row)
    /\ fst (fst (Venn.downstreamStep cm rnd dp sector st row i))
       = upsert col isDs (downstreamKey row) count fresh (fst (fst st)).
Proof.
  destruct st as [[ns ls] rc].
  destruct (Venn_downstreamStep_upsert cm rnd dp sector ns ls rc row i) as (n & Hn & E).
  exists (orString (cm "mixed") "#AA46BC"), true, (downstreamCount row), (Some n).
  split; [|exact E]. intros n' Hn'. injection Hn' as <-. now destruct Hn.
Qed.

(** The iteration of a record whose key is absent pushes its node. *)
Lemma sourceStep_creates cm rnd dp sector st row i :
  nodeMap_has (sourceKey row) (fst (fst st)) = false ->
  holdsAt (sourceKey row) (fun t => t = source \/ t = mixed) dp
    (x (vennSourceNode cm dp sector row i (rnd (snd st))))
    (y (vennSourceNode cm dp sector row i (rnd (snd st))))
    (fst (fst (Venn.sourceStep cm rnd dp sector st row i))).
Proof.
  destruct st as [[ns ls] rc]. cbn [fst snd]. intros H.
  unfold Venn.sourceStep. fold (sourceKey row). unfold sourceKey in *. rewrite H.
  cbn [fst]. exists (vennSourceNode cm dp sector row i (rnd rc)).
  split; [apply in_or_app; right; now left|].
  repeat split. now left.
Qed.

Lemma downstreamStep_creates cm rnd dp sector st row i :
  nodeMap_has (downstreamKey row) (fst (fst st)) = false ->
  holdsAt (downstreamKey row) (fun t => t = downstream) dp
    (x (vennDownstreamNode cm dp sector row i (rnd (snd st))))
    (y (vennDownstreamNode cm dp sector row i (rnd (snd st))))
    (fst (fst (Venn.downstreamStep cm rnd dp sector st row i))).
Proof.
  destruct st as [[ns ls] rc]. cbn [fst snd]. intros H.
  unfold Venn.downstreamStep. unfold downstreamKey in *. rewrite H.
  cbn [fst]. exists (vennDownstreamNode cm dp sector row i (rnd rc)).
  split; [apply in_or_app; right; now left|].
  now repeat split.
Qed.

Lemma vennSourceNode_slot cm dp sector row i r n :
  0 <= r < 1 ->
  x n = x (vennSourceNode cm dp sector row i r) ->
  y n = y (vennSourceNode cm dp sector row i r) ->
  sourceSlot sector i (sourceCount row) n.
Proof.
  intros Hr Hx Hy. exists (Venn.sourceAngle sector i r). cbv zeta.
  rewrite Hx, Hy. unfold vennSourceNode. cbv zeta. cbn [entityNode x y].
  unfold Venn.innerRadius, Venn.layerIndex. rewrite INR_totalLayers.
  split; [reflexivity|]. split; [reflexivity|]. now apply sourceAngle_near.
Qed.

Lemma vennDownstreamNode_slot cm dp sector row i r n :
  0 <= r < 1 ->
  x n = x (vennDownstreamNode cm dp sector row i r) ->
  y n = y (vennDownstreamNode cm dp sector row i r) ->
  downstreamSlot sector i (downstreamCount row) n.
Proof.
  intros Hr Hx Hy. exists (Venn.downstreamAngle sector i r). cbv zeta.
  rewrite Hx, Hy. unfold vennDownstreamNode. cbv zeta. cbn [entityNode x y].
  unfold Venn.outerRadius, Venn.dsLayerIndex. rewrite INR_dsLayerCount.
  split; [reflexivity|]. split; [reflexivity|]. now apply downstreamAngle_near.
Qed.

Lemma platform_registered cm counts dps dp :
  In dp dps -> exists rn, nodeMap_get dp (Venn.platformNodes cm counts dps) = Some rn.
Proof.
  intros Hin.
  assert (H : nodeMap_has dp (Venn.platformNodes cm counts dps) = true).
  { apply nodeMap_has_In. now rewrite Venn_platformNodes_ids. }
  rewrite nodeMap_has_get in H.
  destruct (nodeMap_get dp (Venn.platformNodes cm counts dps)) as [rn|]; [now exists rn|].
  discriminate.
Qed.

Lemma not_platform_absent cm counts dps k :
  ~ In k dps -> nodeMap_has k (Venn.platformNodes cm counts dps) = false.
Proof.
  intros Hk. destruct (nodeMap_has k _) eqn:E; [|reflexivity].
  apply nodeMap_has_In in E. rewrite Venn_platformNodes_ids in E. contradiction.
Qed.

(** The first source record with a key puts the node of that key in its
    slot. *)
Lemma Venn_source_slot src ds cm rnd g p dp rows i row :
  (forall k, 0 <= rnd k < 1) ->
  Venn.getVennNetworkLayout src ds cm rnd = Ok g ->
  let dps := Venn.sortPlatforms (collectPlatforms src ds) in
  let groups := Venn.groupBy sourceGroupKey dps (sortSources src) in
  nth_error dps p = Some dp -> aget dp groups = Some rows -> nth_error rows i = Some row ->
  ~ In (sourceKey row) dps ->
  firstWithKey sourceKey groups dps p rows i (sourceKey row) ->
  exists n,
    In n (nodes g) /\ id n = sourceKey row /\ dataPlatform n = Some dp
    /\ (type n = source \/ type n = mixed)
    /\ sourceSlot (sectorAt p (List.length dps)) i (sourceCount row) n.
Proof.
  intros Hrnd Hok dps groups Hp Hrows Hi Hnp Hfirst.
  destruct (Venn_unfold _ _ _ _ _ Hok) as (counts & conns & _ & _ & Hn & _).
  cbv zeta in Hn. rewrite Hn. fold dps. unfold Venn.entityLoops. cbv zeta. fold groups.
  set (rm := Venn.platformNodes cm counts dps).
  set (T := fun t => t = source \/ t = mixed).
  assert (HT : forall t, T t -> T (promoteType t)).
  { intros t [->| ->]; [right | right]; reflexivity. }
  destruct (platform_registered cm counts dps dp (nth_error_In _ _ Hp)) as (rn & Hrn).
  pose proof (sectorMap_nth dps p dp (sortPlatforms_NoDup src ds) Hp) as Hsec.
  destruct (loop_first rm (Venn.sectorMap dps) sourceKey (Venn.sourceStep cm rnd)
              (sourceStep_is_upsert cm rnd) groups dps p dp rn _ rows i row
              (rm, [], 0%nat) T dp
              (fun st => x (vennSourceNode cm dp (sectorAt p (List.length dps)) row i
                              (rnd (snd st))))
              (fun st => y (vennSourceNode cm dp (sectorAt p (List.length dps)) row i
                              (rnd (snd st))))
              Hp Hrn Hsec Hrows Hi (not_platform_absent cm counts dps _ Hnp) Hfirst HT
              (fun st H => sourceStep_creates cm rnd dp _ st row i H)) as (sB & Hheld).
  pose proof (platforms_keep_node rm (Venn.sectorMap dps) downstreamKey
                (Venn.downstreamStep cm rnd) (downstreamStep_is_upsert cm rnd)
                (Venn.groupBy downstreamGroupKey dps (sortDownstreams ds)) dps
                _ T dp _ _ 0%nat _ HT Hheld) as (n & Hin & Hid & Hdp & Ht & Hx & Hy).
  exists n. split; [exact Hin|]. split; [exact Hid|]. split; [exact Hdp|].
  split; [exact Ht|].
  exact (vennSourceNode_slot cm dp _ row i (rnd (snd sB)) n (Hrnd _) Hx Hy).
Qed.

(** The first downstream record with a key that no source record has puts
    the node of that key in its slot. *)
Lemma Venn_downstream_slot src ds cm rnd g p dp rows i row :
  (forall k, 0 <= rnd k < 1) ->
  Venn.getVennNetworkLayout src ds cm rnd = Ok g ->
  let dps := Venn.sortPlatforms (collectPlatforms src ds) in
  let groups := Venn.groupBy downstreamGroupKey dps (sortDownstreams ds) in
  nth_error dps p = Some dp -> aget dp groups = Some rows -> nth_error rows i = Some row ->
  ~ In (downstreamKey row) dps ->
  keyAbsent sourceKey (Venn.groupBy sourceGroupKey dps (sortSources src)) dps
    (downstreamKey row) ->
  firstWithKey downstreamKey groups dps p rows i (downstreamKey row) ->
  exists n,
    In n (nodes g) /\ id n = downstreamKey row /\ dataPlatform n = Some dp
    /\ type n = downstream
    /\ downstreamSlot (sectorAt p (List.length dps)) i (downstreamCount row) n.
Proof.
  intros Hrnd Hok dps groups Hp Hrows Hi Hnp Hnosrc Hfirst.
  destruct (Venn_unfold _ _ _ _ _ Hok) as (counts & conns & _ & _ & Hn & _).
  cbv zeta in Hn. rewrite Hn. fold dps. unfold Venn.entityLoops. cbv zeta. fold groups.
  set (rm := Venn.platformNodes cm counts dps).
  set (T := fun t => t = downstream).
  assert (HT : forall t, T t -> T (promoteType t)) by (intros t ->; reflexivity).
  destruct (platform_registered cm counts dps dp (nth_error_In _ _ Hp)) as (rn & Hrn).
  pose proof (sectorMap_nth dps p dp (sortPlatforms_NoDup src ds) Hp) as Hsec.
  set (st1 := forEach (Venn.perPlatform (Venn.groupBy sourceGroupKey dps (sortSources src))
                         rm (Venn.sectorMap dps) (Venn.sourceStep cm rnd)) dps
                (rm, [], 0%nat)).
  assert (H1 : nodeMap_has (downstreamKey row) (fst (fst st1)) = false).
  { unfold st1, forEach.
    rewrite (platforms_keep_absent rm (Venn.sectorMap dps) sourceKey (Venn.sourceStep cm rnd)
               (sourceStep_is_upsert cm rnd) _ dps (downstreamKey row) 0 _ Hnosrc).
    now apply not_platform_absent. }
  destruct (loop_first rm (Venn.sectorMap dps) downstreamKey (Venn.downstreamStep cm rnd)
              (downstreamStep_is_upsert cm rnd) groups dps p dp rn _ rows i row
              st1 T dp
              (fun st => x (vennDownstreamNode cm dp (sectorAt p (List.length dps)) row i
                              (rnd (snd st))))
              (fun st => y (vennDownstreamNode cm dp (sectorAt p (List.length dps)) row i
                              (rnd (snd st))))
              Hp Hrn Hsec Hrows Hi H1 Hfirst HT
              (fun st H => downstreamStep_creates cm rnd dp _ st row i H))
    as (sB & n & Hin & Hid & Hdp & Ht & Hx & Hy).
  exists n. split; [exact Hin|]. split; [exact Hid|]. split; [exact Hdp|].
  split; [exact Ht|].
  exact (vennDownstreamNode_slot cm dp _ row i (rnd (snd sB)) n (Hrnd _) Hx Hy).
Qed.

(** The first record of a list that has the key [k], if any. *)
Lemma first_in_rows {A : Type} (key : A -> string) k (rows : list A) :
  (exists i row, nth_error rows i = Some row /\ key row = k
                 /\ Forall (fun r => key r <> k) (firstn i rows))
  \/ Forall (fun r => key r <> k) rows.
Proof.
  induction rows as [|r rows IH]; [right; constructor|].
  destruct (String.eqb_spec (key r) k) as [E|E].
  - left. exists 0%nat, r. repeat split; [exact E | constructor].
  - destruct IH as [(i & row & Hi & Hk & Hall)|Hall].
    + left. exists (S i), row. repeat split; [exact Hi | exact Hk|].
      cbn [firstn]. now constructor.
    + right. now constructor.
Qed.

(** The first record, in the order of the platform loop, that has the key
    [k], if any. *)
Lemma first_position {A : Type} (key : A -> string) (groups : Amap (list A)) k dps :
  (exists p dp rows i row,
      nth_error dps p = Some dp /\ aget dp groups = Some rows /\ nth_error rows i = Some row
      /\ key row = k /\ firstWithKey key groups dps p rows i k)
  \/ keyAbsent key groups dps k.
Proof.
  induction dps as [|dp0 dps IH]; [right; intros dp rows row []|].
  assert (Hhere : (exists rows i row, aget dp0 groups = Some rows
                                      /\ nth_error rows i = Some row /\ key row = k
                                      /\ Forall (fun r => key r <> k) (firstn i rows))
                  \/ keyAbsent key groups [dp0] k).
  { destruct (aget dp0 groups) as [rows0|] eqn:E.
    - destruct (first_in_rows key k rows0) as [(i & row & Hi & Hk & Hall)|Hall].
      + left. now exists rows0, i, row.
      + right. intros dp rows row [<-|[]] Hrows Hrow.
        rewrite E in Hrows. injection Hrows as <-.
        rewrite Forall_forall in Hall. now apply Hall.
    - right. intros dp rows row [<-|[]] Hrows. congruence. }
  destruct Hhere as [(rows & i & row & Hrows & Hi & Hk & Hall)|Habs0].
  - left. exists 0%nat, dp0, rows, i, row. repeat split; try assumption.
    intros dp rows' row' [].
  - destruct IH as [(p & dp & rows & i & row & Hp & Hrows & Hi & Hk & Hbefore & Hall)|Habs].
    + left. exists (S p), dp, rows, i, row. repeat split; try assumption.
      cbn [firstn]. intros dp' rows' row' [<-|Hin].
      * apply Habs0. now left.
      * now apply Hbefore.
    + right. intros dp rows row [<-|Hin].
      * apply Habs0. now left.
      * now apply Habs.
Qed.

Lemma node_of_id ns a b :
  NoDup (map id ns) -> In a ns -> In b ns -> id a = id b -> a = b.
Proof.
  intros Hnd Ha Hb E.
  pose proof (nodeMap_get_unique ns a Hnd Ha) as H1.
  pose proof (nodeMap_get_unique ns b Hnd Hb) as H2.
  rewrite E in H1. congruence.
Qed.

Lemma Venn_platformIds src ds cm rnd g :
  Venn.getVennNetworkLayout src ds cm rnd = Ok g ->
  platformIds (nodes g) = Venn.sortPlatforms (collectPlatforms src ds).
Proof.
  intros Hok.
  apply (Venn_nodes_ind
           (fun ns => platformIds ns = Venn.sortPlatforms (collectPlatforms src ds))
           _ _ _ _ _ Hok).
  - intros counts. rewrite platformIds_regions by apply Venn_platformNodes_region.
    apply Venn_platformNodes_ids.
  - intros col isDs key count dp fresh ns _ Hf <-. now apply platformIds_upsert with dp.
Qed.

(** The id of an entity node is not the name of a platform. *)
Lemma entity_id_not_platform src ds cm rnd g n :
  Venn.getVennNetworkLayout src ds cm rnd = Ok g ->
  In n (nodes g) -> type n <> dataplatform ->
  ~ In (id n) (Venn.sortPlatforms (collectPlatforms src ds)).
Proof.
  intros Hok Hin Ht Hk. rewrite <- (Venn_platformIds src ds cm rnd g Hok) in Hk.
  unfold platformIds in Hk. apply in_map_iff in Hk. destruct Hk as (m & Hid & Hm).
  apply filter_In in Hm. destruct Hm as [Hm Hp].
  assert (m = n)
    by (apply (node_of_id (nodes g)); [now apply (Venn_nodes_NoDup src ds cm rnd)| | |];
        assumption).
  subst m. unfold isPlatformNode in Hp. destruct (type n); try discriminate. now apply Ht.
Qed.

(** A key that no processed record has, and that is no platform, is not an
    id of the graph. *)
Lemma absent_key_no_node src ds cm rnd g k :
  Venn.getVennNetworkLayout src ds cm rnd = Ok g ->
  let dps := Venn.sortPlatforms (collectPlatforms src ds) in
  ~ In k dps ->
  keyAbsent sourceKey (Venn.groupBy sourceGroupKey dps (sortSources src)) dps k ->
  keyAbsent downstreamKey (Venn.groupBy downstreamGroupKey dps (sortDownstreams ds)) dps k ->
  ~ In k (map id (nodes g)).
Proof.
  intros Hok dps Hnp Hs Hd Hin.
  apply (Venn_node_ids src ds cm rnd g k Hok) in Hin.
  destruct Hin as [Hp|[(row & Hrow & Hk & Ht)|(row & Hrow & Hk & Ht)]].
  - apply Hnp. now apply In_sortPlatforms.
  - assert (Hdp : In (sourceGroupKey row) dps).
    { apply In_sortPlatforms. now apply sourceGroupKey_registered. }
    apply (Hs (sourceGroupKey row) _ row Hdp (groupBy_get sourceGroupKey dps _ _ Hdp));
      [|exact Hk].
    apply filter_In. split; [now apply sortBy_In | apply String.eqb_refl].
  - assert (Hdp : In (downstreamGroupKey row) dps).
    { apply In_sortPlatforms. now apply downstreamGroupKey_registered. }
    apply (Hd (downstreamGroupKey row) _ row Hdp (groupBy_get downstreamGroupKey dps _ _ Hdp));
      [|exact Hk].
    apply filter_In. split; [now apply sortBy_In | apply String.eqb_refl].
Qed.

(** Every entity node is the node of the first record with its key, and
    sits in the slot of that record. *)
Lemma Venn_node_slot src ds cm rnd g n :
  (forall k, 0 <= rnd k < 1) ->
  Venn.getVennNetworkLayout src ds cm rnd = Ok g ->
  In n (nodes g) -> type n <> dataplatform ->
  let dps := Venn.sortPlatforms (collectPlatforms src ds) in
  let sgroups := Venn.groupBy sourceGroupKey dps (sortSources src) in
  let dgroups := Venn.groupBy downstreamGroupKey dps (sortDownstreams ds) in
  ((type n = source \/ type n = mixed) /\ slottedSource dps sgroups n)
  \/ (type n = downstream /\ keyAbsent sourceKey sgroups dps (id n)
      /\ slottedDownstream dps dgroups n).
Proof.
  intros Hrnd Hok Hin Ht dps sgroups dgroups.
  pose proof (entity_id_not_platform src ds cm rnd g n Hok Hin Ht) as Hnp. fold dps in Hnp.
  pose proof (Venn_nodes_NoDup src ds cm rnd g Hok) as Hnd.
  destruct (first_position sourceKey sgroups (id n) dps)
    as [(p & dp & rows & i & row & Hp & Hrows & Hi & Hk & Hfirst)|Hs].
  - left. rewrite <- Hk in Hnp, Hfirst.
    destruct (Venn_source_slot src ds cm rnd g p dp rows i row Hrnd Hok Hp Hrows Hi Hnp Hfirst)
      as (n' & Hin' & Hid & Hdp & Ht' & Hslot).
    assert (n' = n) by (apply (node_of_id (nodes g)); congruence). subst n'.
    split; [exact Ht'|]. exists p, dp, rows, i, row. rewrite Hk in Hfirst.
    split; [exact Hp|]. split; [exact Hrows|]. split; [exact Hi|]. split; [exact Hk|].
    split; [exact Hfirst|]. split; [exact Hdp | exact Hslot].
  - destruct (first_position downstreamKey dgroups (id n) dps)
      as [(p & dp & rows & i & row & Hp & Hrows & Hi & Hk & Hfirst)|Hd].
    + right. rewrite <- Hk in Hnp, Hfirst, Hs.
      destruct (Venn_downstream_slot src ds cm rnd g p dp rows i row Hrnd Hok Hp Hrows Hi
                  Hnp Hs Hfirst) as (n' & Hin' & Hid & Hdp & Ht' & Hslot).
      assert (n' = n) by (apply (node_of_id (nodes g)); congruence). subst n'.
      rewrite Hk in Hs, Hfirst.
      split; [exact Ht'|]. split; [exact Hs|]. exists p, dp, rows, i, row.
      split; [exact Hp|]. split; [exact Hrows|]. split; [exact Hi|]. split; [exact Hk|].
      split; [exact Hfirst|]. split; [exact Hdp | exact Hslot].
    + exfalso. apply (absent_key_no_node src ds cm rnd g (id n) Hok Hnp Hs Hd).
      now apply in_map.
Qed.

(** C9. In a Venn layout whose random draws stay in [0, 1): every entity node
    is the node of the first record with its key (a source record for a
    source or mixed node; a downstream record, no source record having the
    key, for a downstream node) and sits in the slot of that record's index
    [i] in the sorted group of its platform; and conversely the record at
    index [i] of the sorted group of the platform at position [p] that is
    the first with its key (and whose key is no platform name) has its node
    in the slot of [i]: for a source, layer [i mod 8] with [5 + 3 * layer]
    slots, for a downstream, layer [i mod 9] with [7 + 4 * layer] slots, slot
    [(i / layerCount) mod slots], at an angle within 0.025 rad of
    [sectorStart + slot / slots * sectorWidth] in the sector of position [p].
    A later record with the same key does not move the node.  The layer and
    slot functions of the builder are these functions of the index alone. *)
Theorem venn_layer_slot_placement :
  (forall src ds cm rnd g n,
      (forall k, 0 <= rnd k < 1) ->
      Venn.getVennNetworkLayout src ds cm rnd = Ok g ->
      In n (nodes g) -> type n <> dataplatform ->
      let dps := Venn.sortPlatforms (collectPlatforms src ds) in
      let sgroups := Venn.groupBy sourceGroupKey dps (sortSources src) in
      let dgroups := Venn.groupBy downstreamGroupKey dps (sortDownstreams ds) in
      ((type n = source \/ type n = mixed) /\ slottedSource dps sgroups n)
      \/ (type n = downstream /\ keyAbsent sourceKey sgroups dps (id n)
          /\ slottedDownstream dps dgroups n))
  /\ (forall src ds cm rnd g p dp rows i row,
        (forall k, 0 <= rnd k < 1) ->
        Venn.getVennNetworkLayout src ds cm rnd = Ok g ->
        let dps := Venn.sortPlatforms (collectPlatforms src ds) in
        let groups := Venn.groupBy sourceGroupKey dps (sortSources src) in
        nth_error dps p = Some dp -> aget dp groups = Some rows ->
        nth_error rows i = Some row ->
        ~ In (sourceKey row) dps ->
        firstWithKey sourceKey groups dps p rows i (sourceKey row) ->
        exists n,
          In n (nodes g) /\ id n = sourceKey row /\ dataPlatform n = Some dp
          /\ (type n = source \/ type n = mixed)
          /\ sourceSlot (sectorAt p (List.length dps)) i (sourceCount row) n)
  /\ (forall src ds cm rnd g p dp rows i row,
        (forall k, 0 <= rnd k < 1) ->
        Venn.getVennNetworkLayout src ds cm rnd = Ok g ->
        let dps := Venn.sortPlatforms (collectPlatforms src ds) in
        let groups := Venn.groupBy downstreamGroupKey dps (sortDownstreams ds) in
        nth_error dps p = Some dp -> aget dp groups = Some rows ->
        nth_error rows i = Some row ->
        ~ In (downstreamKey row) dps ->
        keyAbsent sourceKey (Venn.groupBy sourceGroupKey dps (sortSources src)) dps
          (downstreamKey row) ->
        firstWithKey downstreamKey groups dps p rows i (downstreamKey row) ->
        exists n,
          In n (nodes g) /\ id n = downstreamKey row /\ dataPlatform n = Some dp
          /\ type n = downstream
          /\ downstreamSlot (sectorAt p (List.length dps)) i (downstreamCount row) n)
  /\ (forall i : nat,
        Venn.layerIndex i = (i mod 8)%nat
        /\ Venn.nodesPerLayer i = (5 + 3 * (i mod 8))%nat
        /\ Venn.indexInLayer i = ((i / 8) mod (5 + 3 * (i mod 8)))%nat
        /\ (Venn.indexInLayer i < Venn.nodesPerLayer i)%nat
        /\ Venn.dsLayerIndex i = (i mod 9)%nat
        /\ Venn.dsNodesPerLayer i = (7 + 4 * (i mod 9))%nat
        /\ Venn.dsIndexInLayer i = ((i / 9) mod (7 + 4 * (i mod 9)))%nat
        /\ (Venn.dsIndexInLayer i < Venn.dsNodesPerLayer i)%nat).
Proof.
  split; [exact Venn_node_slot|].
  split; [exact Venn_source_slot|split; [exact Venn_downstream_slot|]].
  intros i. unfold Venn.indexInLayer, Venn.nodesPerLayer, Venn.layerIndex, Venn.totalLayers,
    Venn.dsIndexInLayer, Venn.dsNodesPerLayer, Venn.dsLayerIndex, Venn.dsLayerCount.
  replace (5 + i mod 8 * 3)%nat with (5 + 3 * (i mod 8))%nat by lia.
  replace (7 + i mod 9 * 4)%nat with (7 + 4 * (i mod 9))%nat by lia.
  repeat split; try reflexivity; apply Nat.mod_upper_bound; lia.
Qed.

Lemma venn_layer_slot_placement_witness :
  match Venn.getVennNetworkLayout tenSources twoDownstreams defaultColorMap noRandom with
  | Ok g =>
      (exists n,
          In n (nodes g) /\ id n = "app9" /\ dataPlatform n = Some "lake"
          /\ (type n = source \/ type n = mixed)
          /\ sourceSlot (sectorAt 0 1) 9 91 n)
      /\ (exists n,
             In n (nodes g) /\ id n = "report" /\ dataPlatform n = Some "lake"
             /\ type n = downstream
             /\ downstreamSlot (sectorAt 0 1) 1 3 n)
  | Throw _ => False
  end.
Proof.
  destruct venn_layer_slot_placement as (_ & Hsource & Hdownstream & _).
  assert (Hrnd : forall k : nat, 0 <= noRandom k < 1) by (intros k; unfold noRandom; lra).
  destruct (Venn.getVennNetworkLayout tenSources twoDownstreams defaultColorMap noRandom)
    as [g|e] eqn:E.
  - split.
    + apply (Hsource tenSources twoDownstreams defaultColorMap noRandom g 0%nat "lake"
               (sortSources tenSources) 9%nat
               (srow (Some "Lake") (Some "App9") (Some 91%Z)) Hrnd E).
      * vm_compute. reflexivity.
      * vm_compute. reflexivity.
      * vm_compute. reflexivity.
      * intros H. vm_compute in H. destruct H as [H|[]]. discriminate.
      * split; [intros dp rows row []|].
        vm_compute. repeat (constructor; [discriminate|]). constructor.
    + apply (Hdownstream tenSources twoDownstreams defaultColorMap noRandom g 0%nat "lake"
               (sortDownstreams twoDownstreams) 1%nat
               (drow (Some "Lake") (Some "Report") (Some 3%Z)) Hrnd E).
      * vm_compute. reflexivity.
      * vm_compute. reflexivity.
      * vm_compute. reflexivity.
      * intros H. vm_compute in H. destruct H as [H|[]]. discriminate.
      * intros dp rows row Hdp Hrows Hrow. vm_compute in Hdp. destruct Hdp as [<-|[]].
        vm_compute in Hrows. injection Hrows as <-. revert row Hrow. apply Forall_forall.
        vm_compute. repeat (constructor; [discriminate|]). constructor.
      * split; [intros dp rows row []|].
        vm_compute. repeat (constructor; [discriminate|]). constructor.
  - assert (H : match Venn.getVennNetworkLayout tenSources twoDownstreams defaultColorMap
                        noRandom
                with Ok _ => True | Throw _ => False end) by (lazy; exact I).
    now rewrite E in H.
Defined.
